(* ===== verification/_CoqProject ===== *)
-Q . S2P
Prelude.v
GoStrings.v
GoNet.v
Exec.v
Flows.v
Objects.v
DeepCopy.v
Labels.v
Store.v
DeltaFifo.v
Watch.v
Listener.v
Json.v
OvsSim.v
Host.v
PortCache.v
HostSim.v
NetConf.v
Cni.v
OvsDb.v
CniNet.v
CniResult.v
Plugin.v
Forwarding.v
Informers.v
Controller.v
NetPol.v
Sync.v
Readback.v
Pipeline.v
Verdict.v
Routing.v
Life.v
Cluster.v
Motion.v
OpenFlow13.v
Connection.v
Session.v
VSwitchCfg.v
Listers.v
Node.v
Rollout.v
System.v
Daemon.v
Startup.v
CtlMain.v
KvswitchClient.v
Clientset.v
Scheme.v
FakeClient.v
