(* ===== verification/Prelude.v ===== *)
(** * k-vswitch: a verification library

    k-vswitch connects the pods of a Kubernetes cluster with Open vSwitch.  Its
    own code is four parts, which meet in Open vSwitch and in the API server:

    - the controller process ([cmd/k-vswitch-controller], [controllers/vswitchcfg])
      watches nodes and writes one VSwitchConfig per node;
    - the node daemon ([cmd/k-vswitchd]) waits for its node's config, sets up
      the bridge, and runs the OpenFlow controller ([controllers/openflow],
      [flows]), which turns pods, policies and configs into a flow table, and
      the connection manager ([connection]), which talks OpenFlow;
    - the CNI plugin ([cmd/k-vswitch-cni]) connects each pod and registers its
      port in the OVS database, where the daemon looks it up;
    - generated code ([apis/generated], [apis/kvswitch]): typed client and fake
      client, listers, informers, scheme, deep copies.

    ** How Go is modelled

    A function is a Rocq function; a method that mutates its receiver, or that
    talks to the outside, is a state transformer [M S A], whose result is a
    value, an [error] or a panic ([result]); the state reached is kept on every
    outcome.  Strings are byte strings, integers are [Z] with the wrap-around
    written out where it matters, maps are [gmap].  The outside world is a
    parameter: a class with the operations the program calls ([Exec],
    [VSwitchAPI], [RestClient]) or, for the daemon and the plugin, any function
    from what happened so far and a call to its answer ([Env]).  What a theorem
    needs of it is a hypothesis or a class of laws ([OvsDb], [Iptables], [Clock],
    [VSwitchLaws], [KvswitchAPI]), and a concrete small world shows that the
    laws can hold ([OvsSim], [HostSim]).  Log output is not part of the model.

    ** The files

    Shared:
    - [Prelude]: results, the monad, [run_inv]; [GoStrings], [GoNet], [Json]:
      packages strings, strconv, net and encoding/json as far as they are used;
      [Objects]: the fields of the API objects; [Labels]: label selectors and
      informer listers; [Exec], [Host]: the outside world; [OvsSim], [HostSim]:
      the concrete worlds of the witnesses.

    The informers, from client-go (under [src/vendor]), between the API server
    and both processes:
    - [Store]: the indexer, a map with exact indices ([indexed_objects]);
      [DeltaFifo]: the queue of changes; [Watch]: reflector, queue and indexer
      in any interleaving ([informer_mirrors]; where this fails,
      [relist_hazards]); [Listener]: how a handler gets its notifications
      ([listener_fifo]); [Listers]: the listers over an indexer are those of
      [Labels] and [VSwitchCfg] ([lister_refines]).

    From end to end:
    - [Node]: the four informers of a daemon, its handlers and its timer: the
      switch has what the server sent ([node_follows_server]), and a port
      outlives a pod whose deletion the watch missed ([port_outlives_pod]);
    - [System]: the controller process with its informer ([ctl_follows_server],
      [missed_node_deletion]), and everything together: from the objects on the
      API server to the port a packet leaves on ([system_delivers]).

    The OpenFlow controller:
    - [Flows]: [flows/flows.go] and [flows/buffer.go], with a reference reader of
      the text ([flow_roundtrip]);
    - [PortCache]: [port_cache.go], refined by the lookup without a cache
      ([GetPortInfo_refines]);
    - [Controller]: [controller.go] and the flows of defaults, nodes and pods;
      [NetPol]: the flows of network policies; [Sync]: [syncFlows] and the event
      handlers (all of [controllers/openflow/flows.go]);
    - [Readback]: what the switch is told by a full sync, as a list of entries
      ([syncFlows_replaces], [sync_order_irrelevant], [syncFlows_forgets]);
    - [Pipeline], [Verdict], [Routing]: what a switch with those entries does
      with a packet: which packets the policies let pass ([policy_verdict],
      [denied_not_emitted]), and where they go ([local_pod_delivery],
      [remote_pod_tunnel]); the pipeline is left after finitely many steps
      ([pipeline_total]);
    - [Life]: the switch over a run of informer updates, ports that come and go,
      and events: what the table consists of ([switch_told]), that it catches up
      with the stores ([resync_catches_up]), and what holds after an event the
      handlers skip ([skipped_event_keeps_verdict]);
    - [Cluster]: several nodes, whose tunnels end in each other's switches: a
      packet of a pod reaches a pod of another node ([pod_to_pod]); [Motion]: the
      same by the tables the switches have, each node somewhere between two
      resyncs of its own ([cluster_in_motion]);
    - [OpenFlow13]: the messages, the handshake and the loop of [Run]
      ([Run_answers], [xids_distinct], [message_roundtrip]);
    - [Connection]: [connection/connection.go], the send queue as a transition
      system ([ProcessQueue_fifo], [ProcessQueue_drains]) and the reader
      ([handleConn_one_per_chunk], [coalesced_messages_lost]);
    - [Session]: all goroutines of the connection manager and the loop of [Run]
      together, interleaved in any way ([session_answers]).

    The controller process:
    - [VSwitchCfg]: [controllers/vswitchcfg], against an API interface
      ([node_event_converges], [syncVSwitchConfig_writes]);
    - [Rollout]: any history of nodes that appear, change, wait and go leaves
      the configs with which the started nodes form a cluster
      ([rollout_cluster]);
    - [CtlMain]: its [main]: the command line ([Parse_command_line]), the checks
      and the wiring ([main_flags]);
    - [KvswitchClient]: the generated client, which discharges the interface of
      [VSwitchCfg] over a lawful server ([client_laws], [client_reads_back]);
    - [Informers]: the informer factories ([Start_runs_once]), used by both
      processes.

    Generated code:
    - [DeepCopy]: the deep copies over a memory of cells, so that sharing can be
      seen ([DeepCopy_independent], [newVSwitchCfg_leaves_cache]);
    - [Clientset]: the constructors of the client set and the limits of its
      requests ([NewForConfig_limits]);
    - [Scheme]: registering the API group ([AddToScheme_sound]);
    - [FakeClient]: the fake client over an object tracker, refined to a map
      from names to configs ([fake_step]).

    The node daemon:
    - [Daemon]: [cmd/k-vswitchd/main.go]; [Forwarding]: its iptables rules
      ([setupBridgeForwarding_converges], [everything_masqueraded]);
    - [Startup]: the theorems: the wait ends ([waitForVSwitchConfig_spec]), what
      has been done when the controller starts ([main_started]), what is left
      when the config never comes ([main_without_config]), and the agreement of
      daemon, controller and plugin on the gateway ([gateway_agreement]).

    The CNI plugin:
    - [NetConf]: the configuration the daemon writes and the plugin loads
      ([installed_conf_loaded]); [Cni]: the whole of
      [cmd/k-vswitch-cni/plugin.go], with the release of addresses
      ([cmdAdd_releases]) and the effect of a successful run
      ([cmdAdd_registers]);
    - [Plugin]: the process: [cmd/k-vswitch-cni/main.go] and the dispatcher it
      calls, from the environment and the standard input to the exit status
      ([plugin_process]);
    - [OvsDb]: plugin and daemon meet in the port database
      ([registered_port_found], [cmdDel_cleans],
      [cmdDel_retry_releases_nothing]);
    - [CniNet]: names, gateways and the bridge's address ([calcGateways_v4],
      [ensureBridgeAddr_v4]); [CniResult]: the printed result is well formed
      ([cmdAdd_result_wf]).

    ** Bounds and fuel

    - Runs of informers, nodes and the system are finite sequences of steps of
      any length; a queue of n keys is empty after n turns ([drained]).
    - [poll] (the wait for the config) has 13 rounds: a round sleeps five
      seconds and the loop ends after a minute; [waitForVSwitchConfig_spec]
      shows that they are enough on any clock that does not go back.
    - [handleConn] takes fuel; [handleConn_total] shows that more than the
      number of bytes of the stream is enough.
    - The JSON reader and the struct-tag reader have the length of their text.
    - The pipeline has one step per table that can follow
      ([pipeline_total]).
    - [intToIP] divides 17 times: 16 bytes and a carry.

    ** Not modelled

    Klog output; signals; goroutine scheduling except where a theorem is about
    it (the send queue, the session with the switch); the data
    races named in the findings; the bodies of OpenFlow messages the controller
    ignores; the kernel, the IPAM plugin, ovs-vsctl and ovs-ofctl, which answer
    as they like; of the informers, resource versions, back-off, resync periods
    (the program's are 0) and stopping; the store reads of one sync are one step,
    although an informer may change a store between two of them; the parser of label selector text and the patch libraries,
    which only the fake client calls (parameters there); codecs and conversion
    functions of the scheme; the transport of a REST client; in the fake client,
    reactors that a test adds and objects of other groups.

    ** What is left

    The tunnel itself is the relation [crosses], not a model of the kernel's.  In
    [cluster_in_motion] the states of the last resyncs have to belong together;
    what becomes of packets while the configs of some nodes disagree, which lasts
    until the next resync of each, is not described. *)
From stdpp Require Export base tactics list list_numbers strings gmap sorting.
From Stdlib Require Export ZArith Lia Ascii.
From Stdlib Require String.

(** ** Go results

    A Go function that returns [(T, error)] is a [result T]: a value, an
    error, or a panic.  [Panic] is not an [error] value: no [if err != nil]
    of the program sees it, it unwinds the whole goroutine. *)

(** An [error] value.  [ErrNew] is [errors.New] or [fmt.Errorf] without a
    cause, [ErrWrap] is [fmt.Errorf] with a [%v] for the cause,
    [ErrNotFound] is what [apierr.IsNotFound] recognises, [ErrExt] is an
    error made by code outside the program (a command's exit status, a
    library). *)
Inductive goerr :=
| ErrNew (msg : string)
| ErrWrap (msg : string) (cause : goerr)
| ErrNotFound (name : string)
| ErrExt (msg : string).

#[export] Instance goerr_eq_dec : EqDecision goerr.
Proof. solve_decision. Defined.

Inductive result (A : Type) :=
| Ok (a : A)
| Err (e : goerr)
| Panic.
Arguments Ok {A} a.
Arguments Err {A} e.
Arguments Panic {A}.

#[export] Instance result_eq_dec {A} `{EqDecision A} : EqDecision (result A).
Proof. solve_decision. Defined.

#[export] Instance result_ret : MRet result := fun A a => Ok a.
#[export] Instance result_bind : MBind result := fun A B f m =>
  match m with Ok a => f a | Err e => Err e | Panic => Panic end.
#[export] Instance result_fmap : FMap result := fun A B f m =>
  match m with Ok a => Ok (f a) | Err e => Err e | Panic => Panic end.

(** [fmt.Errorf(msg + "%v", err)] on the way out of a call. *)
Definition wrap_err {A} (msg : string) (m : result A) : result A :=
  match m with Err e => Err (ErrWrap msg e) | _ => m end.

Definition is_ok {A} (m : result A) : bool :=
  match m with Ok _ => true | _ => false end.
Definition is_err {A} (m : result A) : bool :=
  match m with Err _ => true | _ => false end.

(** ** Stateful Go code

    A method with a receiver that it mutates is a function of the state of
    type [M S A].  The state reached is kept on every outcome: a Go function
    that returns an error has already performed the writes before it. *)
Definition M (S A : Type) : Type := S -> result A * S.

#[export] Instance M_ret {S} : MRet (M S) := fun A a s => (Ok a, s).
#[export] Instance M_bind {S} : MBind (M S) := fun A B f m s =>
  match m s with
  | (Ok a, s') => f a s'
  | (Err e, s') => (Err e, s')
  | (Panic, s') => (Panic, s')
  end.

Section monad.
Context {S : Type}.

Definition throw {A} (e : goerr) : M S A := fun s => (Err e, s).
Definition panic {A} : M S A := fun s => (Panic, s).
Definition get_st : M S S := fun s => (Ok s, s).
Definition gets {A} (f : S -> A) : M S A := fun s => (Ok (f s), s).
Definition modify (f : S -> S) : M S unit := fun s => (Ok tt, f s).
Definition lift {A} (r : result A) : M S A := fun s => (r, s).

(** [x, err := m()] where the caller inspects [err] itself. *)
Definition try_m {A} (m : M S A) : M S (A + goerr) := fun s =>
  match m s with
  | (Ok a, s') => (Ok (inl a), s')
  | (Err e, s') => (Ok (inr e), s')
  | (Panic, s') => (Panic, s')
  end.

(** [if err := m(); err != nil { klog... }]: the error is only logged.  Log
    output is not part of the model. *)
Definition logged {A} (m : M S A) : M S unit := fun s =>
  match m s with
  | (Ok _, s') => (Ok tt, s')
  | (Err _, s') => (Ok tt, s')
  | (Panic, s') => (Panic, s')
  end.

(** [return fmt.Errorf("msg: %v", err)] around a call. *)
Definition wrapped {A} (msg : string) (m : M S A) : M S A := fun s =>
  match m s with (r, s') => (wrap_err msg r, s') end.

(** [defer cleanup()]: it runs whatever the outcome of the rest of the
    function, and its own error is dropped. *)
Definition deferred {A} (cleanup : M S unit) (body : M S A) : M S A := fun s =>
  let '(r, s1) := body s in
  let '(rc, s2) := cleanup s1 in
  (match rc with Panic => Panic | _ => r end, s2).

(** [defer func() { if !success { cleanup() } }()] *)
Definition on_failure {A} (cleanup : M S unit) (body : M S A) : M S A := fun s =>
  match body s with
  | (Ok a, s') => (Ok a, s')
  | (r, s') => deferred cleanup (lift r) s'
  end.

(** [for _, x := range l { f(x) }] *)
Fixpoint for_range {A} (l : list A) (f : A -> M S unit) : M S unit :=
  match l with
  | [] => mret tt
  | x :: l' => f x ≫= fun _ => for_range l' f
  end.

(** Running a method on a field of the receiver. *)
Definition zoom {T A} (proj : S -> T) (upd : T -> S -> S) (m : M T A) : M S A :=
  fun s => match m (proj s) with (r, t) => (r, upd t s) end.
End monad.

(** ** Reasoning about runs that succeed *)

Section runs.
Context {S : Type}.

Lemma bind_Ok_inv {A B} (m : M S A) (k : A -> M S B) s b s' :
  (m ≫= k) s = (Ok b, s') -> exists a s1, m s = (Ok a, s1) /\ k a s1 = (Ok b, s').
Proof. unfold mbind, M_bind. destruct (m s) as [[a|e|] s1]; [by eauto|done|done]. Qed.

Lemma for_range_ext {A} (l : list A) (f g : A -> M S unit) : forall s,
  (forall x t, f x t = g x t) -> for_range l f s = for_range l g s.
Proof.
  induction l as [|x l IH]; intros s Hfg; [done|]. cbn [for_range]. unfold mbind, M_bind.
  rewrite Hfg. destruct (g x s) as [[]]; [by apply IH|done..].
Qed.

Lemma wrapped_Ok_inv {A} msg (m : M S A) s a s' :
  wrapped msg m s = (Ok a, s') -> m s = (Ok a, s').
Proof. unfold wrapped. destruct (m s) as [[b|e|] s1]; [done|by intros [=]|done]. Qed.

Lemma lift_Ok_inv {A} (r : result A) (s : S) a s' : lift r s = (Ok a, s') -> r = Ok a /\ s' = s.
Proof. by intros [= -> ->]. Qed.

Lemma ret_Ok_inv {A} (a b : A) (s s' : S) : (mret a : M S A) s = (Ok b, s') -> b = a /\ s' = s.
Proof. by intros [= -> ->]. Qed.

Lemma deferred_Ok_inv {A} (c : M S unit) (body : M S A) s a s' :
  deferred c body s = (Ok a, s') -> exists s1, body s = (Ok a, s1) /\ (c s1).2 = s'.
Proof.
  unfold deferred. destruct (body s) as [r s1] eqn:Hb. destruct (c s1) as [rc s2] eqn:Hc.
  destruct rc; intros [= -> ->]; exists s1; by rewrite Hc.
Qed.

Lemma on_failure_Ok_inv {A} (c : M S unit) (body : M S A) s a s' :
  on_failure c body s = (Ok a, s') -> body s = (Ok a, s').
Proof.
  unfold on_failure, deferred, lift. destruct (body s) as [[b|e|] s1]; [done| |];
    by destruct (c s1) as [[] ?].
Qed.
End runs.

(** Take a successful run apart, statement by statement. *)
Ltac run_inv :=
  repeat match goal with
  | H : (_ ≫= _) _ = (Ok _, _) |- _ =>
      let a := fresh "v" in let s := fresh "s" in let Hm := fresh "Hm" in
      apply bind_Ok_inv in H as (a & s & Hm & H)
  | H : wrapped _ _ _ = (Ok _, _) |- _ => apply wrapped_Ok_inv in H
  | H : lift _ _ = (Ok _, _) |- _ => apply lift_Ok_inv in H as [H ->]
  | H : @mret (M _) _ _ _ _ = (Ok _, _) |- _ => apply ret_Ok_inv in H as [H ->]; first [injection H; clear H; intros; subst | subst]
  end.
