(* ===== verification/GoStrings.v ===== *)
(** * Go's [strings] and [strconv]

    The functions of the two standard packages that the program calls, on
    byte strings.  [int] is 64 bits wide (the Makefile builds for linux with
    Go 1.12) and arithmetic on it wraps. *)
From S2P Require Import Prelude.
From Stdlib Require Import DecimalString DecimalZ DecimalN.

(** ** Machine integers *)

Definition max_int64 : Z := 2 ^ 63 - 1.
Definition min_int64 : Z := - 2 ^ 63.
Definition max_uint64 : Z := 2 ^ 64 - 1.

(** Two's complement truncation to an [int]. *)
Definition i64 (z : Z) : Z := (z + 2 ^ 63) mod 2 ^ 64 - 2 ^ 63.
(** Truncation to a [uint64]. *)
Definition u64 (z : Z) : Z := z mod 2 ^ 64.

Definition is_int64 (z : Z) : Prop := (min_int64 <= z <= max_int64)%Z.

(** ** Bytes of a string *)

Definition byte_val (c : ascii) : Z := Z.of_N (Ascii.N_of_ascii c).

Definition in_range (lo hi : Z) (c : ascii) : bool :=
  ((lo <=? byte_val c) && (byte_val c <=? hi))%Z.
Definition is_digit : ascii -> bool := in_range 48 57.
Definition is_upper : ascii -> bool := in_range 65 90.
Definition is_lower : ascii -> bool := in_range 97 122.

Fixpoint string_forall (p : ascii -> bool) (s : string) : bool :=
  match s with
  | EmptyString => true
  | String c s' => p c && string_forall p s'
  end.

Definition string_is_empty (s : string) : bool :=
  match s with EmptyString => true | _ => false end.

Fixpoint has_char (c : ascii) (s : string) : bool :=
  match s with
  | EmptyString => false
  | String d s' => bool_decide (d = c) || has_char c s'
  end.

(** [s[n:]], for [n] within bounds. *)
Fixpoint drop_bytes (n : nat) (s : string) : string :=
  match n, s with
  | O, _ => s
  | S n', String _ s' => drop_bytes n' s'
  | S _, EmptyString => EmptyString
  end.

(** [strings.IndexByte], splitting at the byte found. *)
Fixpoint cut_byte (c : ascii) (s : string) : option (string * string) :=
  match s with
  | EmptyString => None
  | String d s' =>
      if bool_decide (d = c) then Some (EmptyString, s')
      else match cut_byte c s' with
           | Some (a, b) => Some (String d a, b)
           | None => None
           end
  end.

(** ** Package strings *)

Fixpoint HasPrefix (s p : string) {struct p} : bool :=
  match p, s with
  | EmptyString, _ => true
  | String a p', String b s' => bool_decide (a = b) && HasPrefix s' p'
  | String _ _, EmptyString => false
  end.

Definition TrimPrefix (s p : string) : string :=
  if HasPrefix s p then drop_bytes (String.length p) s else s.

(** [strings.TrimSuffix]: the suffix is removed once, when present. *)
Fixpoint TrimSuffix (s p : string) : string :=
  if bool_decide (s = p) then EmptyString
  else match s with
       | EmptyString => EmptyString
       | String c s' => String c (TrimSuffix s' p)
       end.

Fixpoint Contains (s sub : string) : bool :=
  HasPrefix s sub ||
  match s with EmptyString => false | String _ s' => Contains s' sub end.

(** [strings.Split(s, sep)] for a one byte separator: never empty, [""]
    yields one empty piece. *)
Fixpoint Split (s : string) (sep : ascii) : list string :=
  match s with
  | EmptyString => [EmptyString]
  | String c s' =>
      if bool_decide (c = sep) then EmptyString :: Split s' sep
      else match Split s' sep with
           | p :: ps => String c p :: ps
           | [] => [String c EmptyString]
           end
  end.

(** [strings.Join]. *)
Fixpoint Join (l : list string) (sep : string) : string :=
  match l with
  | [] => EmptyString
  | [x] => x
  | x :: l' => x +:+ sep +:+ Join l' sep
  end.

(** [strings.Replace(s, old, new, -1)] for one byte [old] and empty [new]. *)
Fixpoint remove_byte (c : ascii) (s : string) : string :=
  match s with
  | EmptyString => EmptyString
  | String d s' =>
      if bool_decide (d = c) then remove_byte c s' else String d (remove_byte c s')
  end.

Definition lower_byte (c : ascii) : ascii :=
  if is_upper c then Ascii.ascii_of_N (Ascii.N_of_ascii c + 32) else c.

(** [strings.ToLower] on ASCII.  The program only compares the result with
    ["tcp"] and ["udp"], and no letter outside ASCII has a lower case among
    their letters, so bytes above 127 may be left alone. *)
Fixpoint ToLower (s : string) : string :=
  match s with
  | EmptyString => EmptyString
  | String c s' => String (lower_byte c) (ToLower s')
  end.

(** The ASCII white space [strings.TrimSpace] removes: tab, newline, vertical
    tab, form feed, carriage return, blank. *)
Definition is_space (c : ascii) : bool := in_range 9 13 c || in_range 32 32 c.

Fixpoint TrimLeftSpace (s : string) : string :=
  match s with
  | String c s' => if is_space c then TrimLeftSpace s' else s
  | EmptyString => EmptyString
  end.
Fixpoint TrimRightSpace (s : string) : string :=
  match s with
  | EmptyString => EmptyString
  | String c s' =>
      match TrimRightSpace s' with
      | EmptyString => if is_space c then EmptyString else String c EmptyString
      | t => String c t
      end
  end.
Definition TrimSpace (s : string) : string := TrimRightSpace (TrimLeftSpace s).

(** ** Package strconv *)

(** [%d] of package fmt, and [strconv.Itoa]. *)
Definition Itoa (z : Z) : string := NilZero.string_of_int (Z.to_int z).

(** The digit loop of [Atoi]'s fast path: [ch -= '0'] is a byte. *)
Fixpoint atoi_loop (s : string) (n : Z) : option Z :=
  match s with
  | EmptyString => Some n
  | String c s' =>
      let d := ((byte_val c - 48) mod 256)%Z in
      if (9 <? d)%Z then None else atoi_loop s' (i64 (n * 10 + d))
  end.

Inductive num_err := ErrSyntax | ErrRange.

(** The digit loop of [ParseUint(s, 10, 64)]: a range error is reported as
    soon as the value overflows, even when a later byte is not a digit. *)
Fixpoint parse_uint_loop (s : string) (n : Z) : Z * option num_err :=
  match s with
  | EmptyString => (n, None)
  | String c s' =>
      if negb (is_digit c) then (0%Z, Some ErrSyntax)
      else if (max_uint64 / 10 + 1 <=? n)%Z then (max_uint64, Some ErrRange)
      else
        let n10 := u64 (n * 10) in
        let n1 := u64 (n10 + (byte_val c - 48)) in
        if ((n1 <? n10) || (max_uint64 <? n1))%Z then (max_uint64, Some ErrRange)
        else parse_uint_loop s' n1
  end.

Definition ParseUint10 (s : string) : Z * option num_err :=
  if string_is_empty s then (0%Z, Some ErrSyntax) else parse_uint_loop s 0.

Definition split_sign (s : string) : bool * string :=
  match s with
  | String "-"%char s' => (true, s')
  | String "+"%char s' => (false, s')
  | _ => (false, s)
  end.

(** [ParseInt(s, 10, 64)]. *)
Definition ParseInt10 (s : string) : Z * option num_err :=
  if string_is_empty s then (0%Z, Some ErrSyntax) else
  let '(neg, digits) := split_sign s in
  match ParseUint10 digits with
  | (_, Some ErrSyntax) => (0%Z, Some ErrSyntax)
  | (un, _) =>
      let cutoff := (2 ^ 63)%Z in
      if (negb neg && (cutoff <=? un)%Z) then (cutoff - 1, Some ErrRange)%Z
      else if (neg && (cutoff <? un)%Z) then (- cutoff, Some ErrRange)%Z
      else ((if neg then i64 (- i64 un) else i64 un), None)
  end.

(** [strconv.Atoi]: the value and the error are both returned, and the value
    of a range error is the nearest [int]. *)
Definition Atoi (s : string) : Z * option num_err :=
  let len := String.length s in
  if (0 <? len)%nat && (len <? 19)%nat then
    let '(neg, digits) := split_sign s in
    if string_is_empty digits then (0%Z, Some ErrSyntax) else
    match atoi_loop digits 0 with
    | None => (0%Z, Some ErrSyntax)
    | Some n => ((if neg then i64 (- n) else n), None)
    end
  else ParseInt10 s.

(** ** Facts *)

Create Rewrite HintDb gostr.

Lemma str_app_cons c (a b : string) : String c a +:+ b = String c (a +:+ b).
Proof. done. Qed.

Lemma str_app_nil_l (a : string) : EmptyString +:+ a = a.
Proof. done. Qed.

(** Unfolds string functions one byte at a time. *)
Ltac str_cbn := repeat first [rewrite str_app_cons | rewrite str_app_nil_l]; cbn.

Lemma str_app_nil_r (s : string) : s +:+ EmptyString = s.
Proof. induction s as [|c s IH]; [done|]. str_cbn. by rewrite IH. Qed.

Lemma str_app_assoc (a b c : string) : (a +:+ b) +:+ c = a +:+ b +:+ c.
Proof. induction a as [|x a IH]; [done|]. str_cbn. by rewrite IH. Qed.

Lemma str_length_app (a b : string) :
  String.length (a +:+ b) = String.length a + String.length b.
Proof. induction a as [|x a IH]; [done|]. str_cbn. by rewrite IH. Qed.

#[export] Hint Rewrite str_app_nil_r str_app_assoc str_app_cons str_app_nil_l
  str_length_app : gostr.

Lemma string_forall_app p (a b : string) :
  string_forall p (a +:+ b) = string_forall p a && string_forall p b.
Proof. induction a as [|x a IH]; [done|]. str_cbn. by rewrite IH, andb_assoc. Qed.

Lemma string_forall_impl (p q : ascii -> bool) s :
  (forall c, p c = true -> q c = true) ->
  string_forall p s = true -> string_forall q s = true.
Proof.
  intros Hpq. induction s as [|c s IH]; cbn; [done|].
  rewrite !andb_true_iff. intros [? ?]. auto.
Qed.

Lemma has_char_app c (a b : string) :
  has_char c (a +:+ b) = has_char c a || has_char c b.
Proof. induction a as [|x a IH]; [done|]. str_cbn. by rewrite IH, orb_assoc. Qed.

(** A byte outside a class does not occur in a string of the class. *)
Lemma has_char_forall p c s :
  string_forall p s = true -> p c = false -> has_char c s = false.
Proof.
  intros Hs Hc. induction s as [|d s IH]; cbn in *; [done|].
  apply andb_true_iff in Hs as [Hd Hs]. rewrite IH by done.
  rewrite orb_false_r. apply bool_decide_eq_false_2. congruence.
Qed.

#[export] Hint Rewrite has_char_app string_forall_app : gostr.

Lemma byte_val_bounds c : (0 <= byte_val c < 256)%Z.
Proof.
  unfold byte_val. pose proof (Ascii.N_ascii_bounded c). lia.
Qed.

Lemma TrimSuffix_app (s p : string) : TrimSuffix (s +:+ p) p = s.
Proof.
  induction s as [|c s IH].
  - rewrite str_app_nil_l. destruct p; cbn; by rewrite ?bool_decide_eq_true_2.
  - rewrite str_app_cons. cbn. rewrite IH, bool_decide_eq_false_2; [done|].
    intros Heq. apply (f_equal String.length) in Heq. cbn in Heq.
    rewrite str_length_app in Heq. lia.
Qed.

Lemma HasPrefix_app (p s : string) : HasPrefix (p +:+ s) p = true.
Proof.
  induction p as [|c p IH]; str_cbn; [done|]. by rewrite bool_decide_eq_true_2.
Qed.

Lemma TrimPrefix_app (p s : string) : TrimPrefix (p +:+ s) p = s.
Proof.
  unfold TrimPrefix. rewrite HasPrefix_app.
  induction p as [|c p IH]; [done|]. apply IH.
Qed.

(** *** Split and Join *)

Lemma Split_ne s sep : Split s sep <> [].
Proof.
  destruct s as [|c s]; cbn; [done|]. case_bool_decide; [done|].
  by destruct (Split s sep).
Qed.

Lemma Split_lacks s sep : has_char sep s = false -> Split s sep = [s].
Proof.
  induction s as [|c s IH]; cbn; [done|].
  intros [Hc Hs]%orb_false_iff. rewrite Hc, IH by done. done.
Qed.

Lemma Split_app s sep t :
  has_char sep s = false ->
  Split (s +:+ String sep t) sep = s :: Split t sep.
Proof.
  induction s as [|c s IH]; str_cbn; [by rewrite bool_decide_eq_true_2|].
  intros [Hc Hs]%orb_false_iff. by rewrite Hc, IH.
Qed.

Lemma Join_cons x y l sep : Join (x :: y :: l) sep = x +:+ sep +:+ Join (y :: l) sep.
Proof. done. Qed.

Lemma Join_snoc l x sep : l <> [] -> Join (l ++ [x]) sep = Join l sep +:+ sep +:+ x.
Proof.
  induction l as [|y l IH]; [done|]. intros _. destruct l as [|z l]; [done|].
  change ((y :: z :: l) ++ [x]) with (y :: (z :: l ++ [x])).
  rewrite !Join_cons. rewrite app_comm_cons, IH by done.
  by rewrite !str_app_assoc.
Qed.

(** Splitting what was joined gives the pieces back. *)
Lemma Split_Join l sep :
  l <> [] -> Forall (fun s => has_char sep s = false) l ->
  Split (Join l (String sep EmptyString)) sep = l.
Proof.
  intros Hne Hl. induction Hl as [|x l Hx Hl IH]; [done|].
  destruct l as [|y l]; [by apply Split_lacks|].
  rewrite Join_cons. autorewrite with gostr.
  rewrite Split_app by done. by rewrite IH.
Qed.

Lemma Join_Split s sep : Join (Split s sep) (String sep EmptyString) = s.
Proof.
  induction s as [|c s IH]; [done|]. cbn.
  pose proof (Split_ne s sep) as Hne.
  destruct (Split s sep) as [|p ps]; [done|].
  case_bool_decide as Hc.
  - subst c. rewrite Join_cons, IH. done.
  - destruct ps; cbn in *; rewrite <- IH; done.
Qed.

Lemma cut_byte_app c a b :
  has_char c a = false -> cut_byte c (a +:+ String c b) = Some (a, b).
Proof.
  induction a as [|d a IH]; str_cbn; [by rewrite bool_decide_eq_true_2|].
  intros [Hd Ha]%orb_false_iff. by rewrite Hd, IH.
Qed.

Lemma cut_byte_Some c s a b :
  cut_byte c s = Some (a, b) -> s = a +:+ String c b /\ has_char c a = false.
Proof.
  revert a b. induction s as [|d s IH]; cbn; [done|]. intros a b.
  case_bool_decide as Hd; [by intros [= <- <-]; subst|].
  destruct (cut_byte c s) as [[a' b']|]; [|done]. intros [= <- <-].
  destruct (IH _ _ eq_refl) as [-> ?]. split; [done|]. cbn.
  by rewrite bool_decide_eq_false_2.
Qed.

Lemma cut_byte_None c s : cut_byte c s = None <-> has_char c s = false.
Proof.
  induction s as [|d s IH]; cbn; [done|].
  case_bool_decide; cbn; [split; congruence|].
  destruct (cut_byte c s) as [[]|]; rewrite <- IH; split; congruence.
Qed.

Lemma has_char_remove_byte_eq c s : has_char c (remove_byte c s) = false.
Proof.
  induction s as [|x s IH]; cbn; [done|].
  case_bool_decide as Hx; [done|]. cbn. by rewrite bool_decide_eq_false_2.
Qed.

Lemma remove_byte_lacks c s : has_char c s = false -> remove_byte c s = s.
Proof.
  induction s as [|x s IH]; cbn; [done|].
  intros [Hx Hs]%orb_false_iff. by rewrite Hx, IH.
Qed.

(** *** Integers *)

Lemma i64_id z : is_int64 z -> i64 z = z.
Proof.
  unfold is_int64, i64, min_int64, max_int64. intros [Hlo Hhi].
  rewrite Z.mod_small; lia.
Qed.

Lemma i64_is_int64 z : is_int64 (i64 z).
Proof.
  unfold is_int64, i64, min_int64, max_int64.
  pose proof (Z.mod_pos_bound (z + 2 ^ 63) (2 ^ 64)) as Hm. lia.
Qed.

(** Negating [int(un)] for a magnitude of at most [2^63], the least [int]
    included. *)
Lemma i64_neg_neg z :
  (min_int64 <= z < 0)%Z -> i64 (- i64 (Z.abs z)) = z.
Proof.
  unfold min_int64. intros Hz. destruct (decide (z = - 2 ^ 63)%Z) as [->|]; [done|].
  rewrite !i64_id; unfold is_int64, min_int64, max_int64; [lia..|].
  rewrite i64_id; unfold is_int64, min_int64, max_int64; lia.
Qed.

(** The bytes [Itoa] writes. *)
Definition is_int_byte (c : ascii) : bool := is_digit c || in_range 45 45 c.

Lemma uint_bytes_digit d : string_forall is_digit (NilEmpty.string_of_uint d) = true.
Proof. induction d; cbn; try rewrite IHd; done. Qed.

Lemma uint_zero_digits d : string_forall is_digit (NilZero.string_of_uint d) = true.
Proof. destruct d; cbn; try rewrite uint_bytes_digit; done. Qed.

Lemma Itoa_bytes z : string_forall is_int_byte (Itoa z) = true.
Proof.
  assert (Hd : forall d, string_forall is_int_byte (NilZero.string_of_uint d) = true).
  { intros d. eapply string_forall_impl; [|apply uint_zero_digits].
    unfold is_int_byte. intros c ->. done. }
  unfold Itoa. destruct (Z.to_int z); cbn [NilZero.string_of_int]; [apply Hd|].
  cbn [string_forall]. by rewrite Hd.
Qed.

Lemma Itoa_lacks c z : is_int_byte c = false -> has_char c (Itoa z) = false.
Proof. apply has_char_forall, Itoa_bytes. Qed.

Lemma Itoa_not_empty z : Itoa z <> EmptyString.
Proof. unfold Itoa. by destruct (Z.to_int z) as [[]|[]]. Qed.

(** Digit strings as lists of digits, so that one induction step covers the
    ten digits. *)
Fixpoint uint_digits (d : Decimal.uint) : list Z :=
  match d with
  | Decimal.Nil => []
  | Decimal.D0 d => 0 :: uint_digits d
  | Decimal.D1 d => 1 :: uint_digits d
  | Decimal.D2 d => 2 :: uint_digits d
  | Decimal.D3 d => 3 :: uint_digits d
  | Decimal.D4 d => 4 :: uint_digits d
  | Decimal.D5 d => 5 :: uint_digits d
  | Decimal.D6 d => 6 :: uint_digits d
  | Decimal.D7 d => 7 :: uint_digits d
  | Decimal.D8 d => 8 :: uint_digits d
  | Decimal.D9 d => 9 :: uint_digits d
  end%Z.

Definition digit_byte (x : Z) : ascii := Ascii.ascii_of_N (Z.to_N (48 + x)).

Fixpoint digit_string (l : list Z) : string :=
  match l with [] => EmptyString | x :: l' => String (digit_byte x) (digit_string l') end.

Fixpoint digits_val (l : list Z) (acc : Z) : Z :=
  match l with [] => acc | x :: l' => digits_val l' (acc * 10 + x) end.

Definition is_digit_val (x : Z) : Prop := (0 <= x <= 9)%Z.

Lemma uint_digits_ok d : Forall is_digit_val (uint_digits d).
Proof. induction d; cbn; constructor; unfold is_digit_val; auto; lia. Qed.

Lemma string_of_uint_digits d :
  NilEmpty.string_of_uint d = digit_string (uint_digits d).
Proof. induction d; cbn; rewrite ?IHd; reflexivity. Qed.

Lemma digits_val_of_uint_acc d p :
  digits_val (uint_digits d) (Z.pos p) = Z.pos (Pos.of_uint_acc d p).
Proof.
  revert p. induction d; intros p; cbn [uint_digits digits_val Pos.of_uint_acc];
    [done|..]; (rewrite <- IHd; f_equal; lia).
Qed.

Lemma digits_val_of_uint d : digits_val (uint_digits d) 0 = Z.of_uint d.
Proof.
  unfold Z.of_uint, N.of_uint.
  induction d; cbn [uint_digits digits_val Pos.of_uint]; [done|exact IHd|..];
    exact (digits_val_of_uint_acc d _).
Qed.

Lemma digits_val_le l acc :
  Forall is_digit_val l -> (0 <= acc)%Z -> (acc <= digits_val l acc)%Z.
Proof.
  intros Hl. revert acc. induction Hl as [|x l Hx Hl IH]; intros acc Hacc; cbn; [lia|].
  unfold is_digit_val in Hx. etrans; [|apply IH]; lia.
Qed.

Lemma digits_val_lt l acc :
  Forall is_digit_val l -> (0 <= acc)%Z ->
  (digits_val l acc < (acc + 1) * 10 ^ Z.of_nat (length l))%Z.
Proof.
  intros Hl. revert acc. induction Hl as [|x l Hx Hl IH]; intros acc Hacc; cbn [digits_val].
  - cbn. lia.
  - unfold is_digit_val in Hx. cbn [length].
    rewrite Nat2Z.inj_succ, Z.pow_succ_r by lia.
    eapply Z.lt_le_trans; [apply IH; lia|].
    rewrite Z.mul_assoc. apply Z.mul_le_mono_nonneg_r; lia.
Qed.

Lemma digit_string_length l : String.length (digit_string l) = length l.
Proof. induction l as [|x l IH]; cbn; [done|]. by rewrite IH. Qed.

Lemma digit_byte_val x : is_digit_val x -> byte_val (digit_byte x) = (48 + x)%Z.
Proof.
  unfold is_digit_val, byte_val, digit_byte. intros Hx.
  rewrite Ascii.N_ascii_embedding; lia.
Qed.

Lemma digit_byte_is_digit x : is_digit_val x -> is_digit (digit_byte x) = true.
Proof.
  intros Hx. unfold is_digit, in_range. rewrite digit_byte_val by done.
  unfold is_digit_val in Hx. lia.
Qed.

Lemma parse_uint_loop_digits l acc :
  Forall is_digit_val l -> (0 <= acc)%Z -> (digits_val l acc <= max_uint64)%Z ->
  parse_uint_loop (digit_string l) acc = (digits_val l acc, None).
Proof.
  intros Hl. revert acc. induction Hl as [|x l Hx Hl IH]; intros acc Hacc Hle; [done|].
  cbn [digit_string parse_uint_loop digits_val] in *.
  pose proof (digits_val_le l (acc * 10 + x) Hl) as Hstep.
  rewrite digit_byte_is_digit, digit_byte_val by done. cbn [negb].
  unfold is_digit_val in Hx. unfold max_uint64 in *.
  replace (u64 (acc * 10)) with (acc * 10)%Z by (unfold u64; rewrite Z.mod_small; lia).
  replace (u64 (acc * 10 + (48 + x - 48))) with (acc * 10 + x)%Z
    by (unfold u64; rewrite Z.mod_small; lia).
  change ((2 ^ 64 - 1) / 10 + 1)%Z with 1844674407370955162%Z.
  rewrite (proj2 (Z.leb_gt _ _)) by lia.
  rewrite (proj2 (Z.ltb_ge _ _)), (proj2 (Z.ltb_ge _ _)) by lia.
  cbn [orb]. apply IH; lia.
Qed.

Lemma atoi_loop_digits l acc :
  Forall is_digit_val l -> (0 <= acc)%Z -> (digits_val l acc <= max_int64)%Z ->
  atoi_loop (digit_string l) acc = Some (digits_val l acc).
Proof.
  intros Hl. revert acc. induction Hl as [|x l Hx Hl IH]; intros acc Hacc Hle; [done|].
  cbn [digit_string atoi_loop digits_val] in *.
  pose proof (digits_val_le l (acc * 10 + x) Hl) as Hstep.
  rewrite digit_byte_val by done. unfold is_digit_val in Hx.
  replace ((48 + x - 48) mod 256)%Z with x by (rewrite Z.mod_small; lia).
  rewrite (proj2 (Z.ltb_ge _ _)) by lia.
  rewrite i64_id by (unfold is_int64, min_int64, max_int64 in *; lia).
  apply IH; lia.
Qed.

(** [Atoi] and [%d] are inverse on every [int]. *)
Definition nonneg_digits (z : Z) : list Z :=
  match Z.to_int z with
  | Decimal.Pos d | Decimal.Neg d =>
      match uint_digits d with [] => [0%Z] | l => l end
  end.

Lemma string_of_uint_zero_digits d :
  NilZero.string_of_uint d =
    digit_string (match uint_digits d with [] => [0%Z] | l => l end).
Proof.
  pose proof (string_of_uint_digits d) as Hd.
  destruct d; [reflexivity|..]; exact Hd.
Qed.

Lemma Itoa_digits z :
  Itoa z = (if (z <? 0)%Z then "-" else "") +:+ digit_string (nonneg_digits z)
  /\ Forall is_digit_val (nonneg_digits z)
  /\ nonneg_digits z <> []
  /\ digits_val (nonneg_digits z) 0 = Z.abs z.
Proof.
  unfold Itoa, nonneg_digits. pose proof (DecimalZ.of_to z) as Hz.
  assert (Hv : forall d, Forall is_digit_val (match uint_digits d with [] => [0%Z] | l => l end)
    /\ (match uint_digits d with [] => [0%Z] | l => l end) <> []
    /\ digits_val (match uint_digits d with [] => [0%Z] | l => l end) 0 = Z.of_uint d).
  { intros d. pose proof (uint_digits_ok d). rewrite <- digits_val_of_uint.
    destruct (uint_digits d); repeat split; try done.
    repeat constructor; unfold is_digit_val; lia. }
  destruct z as [|p|p]; cbn [Z.to_int Z.of_int] in *; cbn [NilZero.string_of_int].
  - repeat split; try done. repeat constructor; unfold is_digit_val; lia.
  - destruct (Hv (Pos.to_uint p)) as (? & ? & ->).
    rewrite string_of_uint_zero_digits, Hz. repeat split; try done.
  - destruct (Hv (Pos.to_uint p)) as (? & ? & ->).
    rewrite string_of_uint_zero_digits. repeat split; try done. lia.
Qed.

Lemma digit_string_cons_ne l : l <> [] -> string_is_empty (digit_string l) = false.
Proof. by destruct l. Qed.

Lemma split_sign_digits l :
  Forall is_digit_val l -> split_sign (digit_string l) = (false, digit_string l).
Proof.
  intros Hl. destruct l as [|x l]; [done|].
  inversion_clear Hl as [|?? Hx _]. unfold is_digit_val in Hx. cbn [digit_string].
  assert (Hc : digit_byte x <> "-"%char /\ digit_byte x <> "+"%char).
  { split; intros Heq; apply (f_equal byte_val) in Heq;
      rewrite digit_byte_val in Heq by done;
      match type of Heq with _ = ?v =>
        let w := eval vm_compute in v in change v with w in Heq end; lia. }
  destruct Hc as [Hm Hp]. unfold split_sign.
  destruct (digit_byte x) as [[] [] [] [] [] [] [] []]; try done; congruence.
Qed.

Lemma split_sign_signed z l :
  Forall is_digit_val l ->
  split_sign ((if (z <? 0)%Z then "-" else "") +:+ digit_string l)
    = ((z <? 0)%Z, digit_string l).
Proof.
  intros Hl. destruct (z <? 0)%Z; [done|]. str_cbn. by apply split_sign_digits.
Qed.

(** Parsing what [%d] printed gives the number back, with no error. *)
Lemma Atoi_Itoa z : is_int64 z -> Atoi (Itoa z) = (z, None).
Proof.
  intros Hz. destruct (Itoa_digits z) as (-> & Hl & Hne & Hv).
  unfold is_int64, min_int64, max_int64 in Hz.
  set (l := nonneg_digits z) in *. clearbody l.
  assert (Habs : (digits_val l 0 <= max_uint64)%Z) by (unfold max_uint64; lia).
  unfold Atoi. set (s := _ +:+ digit_string l).
  assert (Hs : string_is_empty s = false).
  { subst s. destruct (z <? 0)%Z; [done|]. by apply digit_string_cons_ne. }
  assert (Hsign : split_sign s = ((z <? 0)%Z, digit_string l))
    by by apply split_sign_signed.
  case_match eqn:Hlen.
  - rewrite Hsign, digit_string_cons_ne by done.
    apply andb_true_iff in Hlen as [_ Hlen%Nat.ltb_lt].
    assert (Hll : length l < 19).
    { subst s. rewrite str_length_app, digit_string_length in Hlen. lia. }
    pose proof (digits_val_lt l 0 Hl ltac:(lia)) as Hlt.
    assert (10 ^ Z.of_nat (length l) <= 10 ^ 18)%Z
      by (apply Z.pow_le_mono_r; lia).
    rewrite atoi_loop_digits, Hv by (auto; unfold max_int64; lia).
    destruct (z <? 0)%Z eqn:Hneg; [|f_equal; lia].
    rewrite i64_id by (unfold is_int64, min_int64, max_int64; lia). f_equal. lia.
  - unfold ParseInt10, ParseUint10. rewrite Hs, Hsign, digit_string_cons_ne by done.
    rewrite parse_uint_loop_digits, Hv by (auto; lia).
    destruct (z <? 0)%Z eqn:Hneg; cbn [negb andb].
    + rewrite (proj2 (Z.ltb_ge _ _)) by lia. f_equal.
      by apply i64_neg_neg; unfold min_int64; lia.
    + rewrite (proj2 (Z.leb_gt _ _)) by lia.
      rewrite i64_id by (unfold is_int64, min_int64, max_int64; lia).
      f_equal. lia.
Qed.

Lemma Itoa_inj z1 z2 :
  is_int64 z1 -> is_int64 z2 -> Itoa z1 = Itoa z2 -> z1 = z2.
Proof.
  intros H1 H2 Heq. pose proof (Atoi_Itoa z1 H1) as E1.
  rewrite Heq, Atoi_Itoa in E1 by done. congruence.
Qed.

(** Whatever the text, the value [Atoi] returns is an [int]. *)
Lemma atoi_loop_int64 s n m :
  is_int64 n -> atoi_loop s n = Some m -> is_int64 m.
Proof.
  revert n. induction s as [|c s IH]; cbn; intros n Hn; [by intros [= <-]|].
  case_match; [done|]. apply IH, i64_is_int64.
Qed.

Lemma Atoi_int64 s : is_int64 (fst (Atoi s)).
Proof.
  assert (H0 : is_int64 0) by (unfold is_int64, min_int64, max_int64; lia).
  unfold Atoi, ParseInt10, ParseUint10.
  repeat case_match; simplify_eq/=; eauto using atoi_loop_int64, i64_is_int64;
    unfold is_int64, min_int64, max_int64; lia.
Qed.

(** A syntax error comes with the value zero. *)
Lemma Atoi_syntax_zero s : snd (Atoi s) = Some ErrSyntax -> fst (Atoi s) = 0%Z.
Proof. unfold Atoi, ParseInt10. repeat case_match; try done; cbn; congruence. Qed.
