(* ===== verification/GoNet.v ===== *)
(** * Go's package net, and the vendored package ip

    Addresses, CIDR blocks, their text forms and membership, as Go 1.12's
    package net computes them, with [NextIP] of
    [vendor/github.com/containernetworking/plugins/pkg/ip/cidr.go].  An [IP]
    is its byte list; like Go's it may have any length, and only lengths 4
    and 16 are addresses. *)
From S2P Require Import Prelude GoStrings.

(** Bytes, most significant first. *)
Abbreviation IP := (list Z).
Abbreviation IPMask := (list Z).

Definition IPv4len : nat := 4.
Definition IPv6len : nat := 16.
Definition v4InV6Prefix : list Z := [0; 0; 0; 0; 0; 0; 0; 0; 0; 0; 255; 255]%Z.

Record IPNet := { net_IP : IP; net_Mask : IPMask }.

(** ** Numbers in text *)

(** [big] of net/parse.go: no valid number reaches it. *)
Definition net_big : Z := 16777215.

(** [dtoi]: the leading decimal number and the rest of the text; [None] is
    [ok == false]. *)
Fixpoint dtoi_loop (s : string) (n : Z) (seen : bool) : option (Z * string) :=
  match s with
  | String c s' =>
      if is_digit c then
        let n' := (n * 10 + (byte_val c - 48))%Z in
        if (net_big <=? n')%Z then None else dtoi_loop s' n' true
      else if seen then Some (n, s) else None
  | EmptyString => if seen then Some (n, s) else None
  end.
Definition dtoi (s : string) : option (Z * string) := dtoi_loop s 0 false.

Definition hex_val (c : ascii) : option Z :=
  if is_digit c then Some (byte_val c - 48)%Z
  else if in_range 97 102 c then Some (byte_val c - 97 + 10)%Z
  else if in_range 65 70 c then Some (byte_val c - 65 + 10)%Z
  else None.

(** [xtoi]: the leading hexadecimal number. *)
Fixpoint xtoi_loop (s : string) (n : Z) (seen : bool) : option (Z * string) :=
  match s with
  | String c s' =>
      match hex_val c with
      | Some d =>
          let n' := (n * 16 + d)%Z in
          if (net_big <=? n')%Z then None else xtoi_loop s' n' true
      | None => if seen then Some (n, s) else None
      end
  | EmptyString => if seen then Some (n, s) else None
  end.
Definition xtoi (s : string) : option (Z * string) := xtoi_loop s 0 false.

(** ** Parsing addresses *)

(** [k] more octets of [parseIPv4], each after a dot unless it is the first. *)
Fixpoint parseIPv4_loop (k : nat) (first : bool) (s : string) : option (list Z * string) :=
  match k with
  | O => Some ([], s)
  | S k' =>
      let body := if first then Some s
                  else match s with String "."%char s' => Some s' | _ => None end in
      match body with
      | None => None
      | Some s1 =>
          match dtoi s1 with
          | Some (n, s2) =>
              if (255 <? n)%Z then None
              else match parseIPv4_loop k' false s2 with
                   | Some (l, s3) => Some (n :: l, s3)
                   | None => None
                   end
          | None => None
          end
      end
  end.

(** [parseIPv4], which returns the 16 byte form. *)
Definition parseIPv4 (s : string) : option IP :=
  match parseIPv4_loop 4 true s with
  | Some (l, EmptyString) => Some (v4InV6Prefix ++ l)
  | _ => None
  end.

(** The loop of [parseIPv6]: [ip] holds the bytes written so far, so its
    length is the loop variable [i]; eight rounds reach [IPv6len].  The result
    is the bytes, the ellipsis position and the text left over. *)
Fixpoint parseIPv6_loop (fuel : nat) (ip : list Z) (ellipsis : option nat) (s : string)
  : option (list Z * option nat * string) :=
  match fuel with
  | O => Some (ip, ellipsis, s)
  | S fuel' =>
      match xtoi s with
      | None => None
      | Some (n, rest) =>
          if (65535 <? n)%Z then None else
          match rest with
          | String "."%char _ =>
              if (bool_decide (ellipsis = None) && negb (length ip =? 12)%nat)
                 || (IPv6len <? length ip + 4)%nat then None
              else match parseIPv4 s with
                   | Some ip4 => Some (ip ++ drop 12 ip4, ellipsis, EmptyString)
                   | None => None
                   end
          | _ =>
              let ip' := ip ++ [Z.shiftr n 8; n mod 256]%Z in
              match rest with
              | EmptyString => Some (ip', ellipsis, EmptyString)
              | String ":"%char (String c2 s2) =>
                  if bool_decide (c2 = ":"%char) then
                    match ellipsis with
                    | Some _ => None
                    | None =>
                        if string_is_empty s2 then Some (ip', Some (length ip'), s2)
                        else parseIPv6_loop fuel' ip' (Some (length ip')) s2
                    end
                  else parseIPv6_loop fuel' ip' ellipsis (String c2 s2)
              | _ => None
              end
          end
      end
  end.

Definition parseIPv6_finish (r : list Z * option nat * string) : option IP :=
  let '(ip, ellipsis, s) := r in
  if negb (string_is_empty s) then None
  else if (length ip <? IPv6len)%nat then
    match ellipsis with
    | None => None
    | Some e => Some (take e ip ++ replicate (IPv6len - length ip) 0%Z ++ drop e ip)
    end
  else match ellipsis with Some _ => None | None => Some ip end.

Definition parseIPv6 (s : string) : option IP :=
  match s with
  | String ":"%char (String ":"%char s') =>
      if string_is_empty s' then Some (replicate IPv6len 0%Z)
      else parseIPv6_loop 8 [] (Some 0) s' ≫= parseIPv6_finish
  | _ => parseIPv6_loop 8 [] None s ≫= parseIPv6_finish
  end.

(** [ParseIP]: the first dot or colon decides the family; [None] is [nil]. *)
Fixpoint ParseIP_scan (whole s : string) : option IP :=
  match s with
  | EmptyString => None
  | String c s' =>
      if bool_decide (c = "."%char) then parseIPv4 whole
      else if bool_decide (c = ":"%char) then parseIPv6 whole
      else ParseIP_scan whole s'
  end.
Definition ParseIP (s : string) : option IP := ParseIP_scan s s.

(** ** Masks and networks *)

(** [CIDRMask(ones, 8 * l)], for [ones] in range. *)
Fixpoint CIDRMask (ones : nat) (l : nat) : IPMask :=
  match l with
  | O => []
  | S l' =>
      if (8 <=? ones)%nat then 255%Z :: CIDRMask (ones - 8) l'
      else (255 - Z.shiftr 255 (Z.of_nat ones))%Z :: CIDRMask 0 l'
  end.

(** [ip.To4()]; [None] is [nil]. *)
Definition To4 (ip : IP) : option IP :=
  if (length ip =? IPv4len)%nat then Some ip
  else if (length ip =? IPv6len)%nat && bool_decide (take 12 ip = v4InV6Prefix)
  then Some (drop 12 ip) else None.

(** [ip.To16()]. *)
Definition To16 (ip : IP) : option IP :=
  if (length ip =? IPv4len)%nat then Some (v4InV6Prefix ++ ip)
  else if (length ip =? IPv6len)%nat then Some ip else None.

(** [ip.Mask(mask)]; [None] is [nil]. *)
Definition Mask (ip : IP) (mask : IPMask) : option IP :=
  let mask := if (length mask =? IPv6len)%nat && (length ip =? IPv4len)%nat
                 && bool_decide (take 12 mask = replicate 12 255%Z)
              then drop 12 mask else mask in
  let ip := if (length mask =? IPv4len)%nat && (length ip =? IPv6len)%nat
               && bool_decide (take 12 ip = v4InV6Prefix)
            then drop 12 ip else ip in
  if (length ip =? length mask)%nat then Some (zip_with Z.land ip mask) else None.

(** A [nil] slice is an empty one. *)
Definition or_nil (o : option IP) : IP := default [] o.

(** [ParseCIDR]: the network part of its result, the part the program uses. *)
Definition ParseCIDR (s : string) : result IPNet :=
  let bad := Err (ErrNew "invalid CIDR address") in
  match cut_byte "/"%char s with
  | None => bad
  | Some (addr, mask) =>
      let parsed := match parseIPv4 addr with
                    | Some ip => Some (ip, IPv4len)
                    | None => match parseIPv6 addr with
                              | Some ip => Some (ip, IPv6len)
                              | None => None
                              end
                    end in
      match parsed, dtoi mask with
      | Some (ip, iplen), Some (n, EmptyString) =>
          if (8 * Z.of_nat iplen <? n)%Z then bad
          else let m := CIDRMask (Z.to_nat n) iplen in
               Ok {| net_IP := or_nil (Mask ip m); net_Mask := m |}
      | _, _ => bad
      end
  end.

(** [networkNumberAndMask]. *)
Definition networkNumberAndMask (n : IPNet) : option (IP * IPMask) :=
  let ip := match To4 (net_IP n) with
            | Some ip4 => Some ip4
            | None => if (length (net_IP n) =? IPv6len)%nat then Some (net_IP n) else None
            end in
  match ip with
  | None => None
  | Some ip =>
      if (length (net_Mask n) =? IPv4len)%nat then
        if (length ip =? IPv4len)%nat then Some (ip, net_Mask n) else None
      else if (length (net_Mask n) =? IPv6len)%nat then
        if (length ip =? IPv4len)%nat then Some (ip, drop 12 (net_Mask n))
        else Some (ip, net_Mask n)
      else None
  end.

Fixpoint masked_eq (nn m ip : list Z) : bool :=
  match nn, m, ip with
  | a :: nn', k :: m', b :: ip' =>
      (Z.land a k =? Z.land b k)%Z && masked_eq nn' m' ip'
  | _, _, _ => true
  end.

(** [n.Contains(ip)]; a [nil] network number only has the length of a [nil]
    address. *)
Definition net_Contains (n : IPNet) (ip : IP) : bool :=
  let '(nn, m) := default ([], []) (networkNumberAndMask n) in
  let ip := match To4 ip with Some x => x | None => ip end in
  (length ip =? length nn)%nat && masked_eq nn m ip.

(** ** Printing addresses *)

Definition hex_digit (d : Z) : ascii :=
  Ascii.ascii_of_N (Z.to_N (if (d <? 10)%Z then 48 + d else 87 + d)).

(** [appendHex] on a 16 bit word: no leading zeros, at least one digit. *)
Fixpoint append_hex (k : nat) (w : Z) (started : bool) : string :=
  match k with
  | O => EmptyString
  | S k' =>
      let d := (Z.shiftr w (4 * Z.of_nat k') mod 16)%Z in
      if started || negb (d =? 0)%Z || (k' =? 0)%nat
      then String (hex_digit d) (append_hex k' w true)
      else append_hex k' w false
  end.

Fixpoint words_of (ip : list Z) : list Z :=
  match ip with a :: b :: ip' => (a * 256 + b)%Z :: words_of ip' | _ => [] end.

Fixpoint zero_run (ws : list Z) : nat :=
  match ws with w :: ws' => if (w =? 0)%Z then S (zero_run ws') else O | [] => O end.

(** The first longest run of zero words, as [(e0, e1)].  The source skips
    over a run it records; the runs starting inside it are shorter, so
    looking at them changes nothing. *)
Fixpoint longest_run (i : nat) (ws : list Z) (best : nat * nat) : nat * nat :=
  match ws with
  | [] => best
  | _ :: ws' =>
      let n := zero_run ws in
      longest_run (S i) ws' (if (best.2 - best.1 <? n)%nat then (i, i + n)%nat else best)
  end.

(** The words, with [::] for the words from [e0] to [e1]. *)
Fixpoint print_words (i : nat) (ws : list Z) (run : option (nat * nat)) : string :=
  match ws with
  | [] => EmptyString
  | w :: ws' =>
      match run with
      | Some (e0, e1) =>
          if (i =? e0)%nat then
            "::" +:+ print_words (S i) ws' run
          else if (e0 <? i)%nat && (i <? e1)%nat then print_words (S i) ws' run
          else (if (0 <? i)%nat && negb (i =? e1)%nat then ":" else "") +:+
               append_hex 4 w false +:+ print_words (S i) ws' run
      | None => (if (0 <? i)%nat then ":" else "") +:+
                append_hex 4 w false +:+ print_words (S i) ws' run
      end
  end.

Definition hexString (ip : IP) : string :=
  foldr (fun b s => String (hex_digit (Z.shiftr b 4)) (String (hex_digit (b mod 16)%Z) s))
    EmptyString ip.

Definition IP_String (ip : IP) : string :=
  if (length ip =? 0)%nat then "<nil>"
  else match To4 ip with
       | Some p4 => Join (Itoa <$> p4) "."
       | None =>
           if negb (length ip =? IPv6len)%nat then "?" +:+ hexString ip
           else let ws := words_of ip in
                let r := longest_run 0 ws (0, 0)%nat in
                print_words 0 ws (if (r.2 - r.1 <=? 1)%nat then None else Some r)
       end.

(** [simpleMaskLength]: the leading ones of a mask that has no others. *)
Fixpoint byte_ones (k : nat) (v : Z) : option nat :=
  match k with
  | O => if (v =? 0)%Z then Some 0%nat else None
  | S k' =>
      if (128 <=? v)%Z then S <$> byte_ones k' ((v * 2) mod 256)%Z
      else if (v =? 0)%Z then Some 0%nat else None
  end.

Fixpoint simpleMaskLength (mask : IPMask) : option nat :=
  match mask with
  | [] => Some 0%nat
  | v :: mask' =>
      if (v =? 255)%Z then Nat.add 8 <$> simpleMaskLength mask'
      else n ← byte_ones 8 v; if forallb (Z.eqb 0) mask' then Some n else None
  end.

(** [n.String()]. *)
Definition IPNet_String (n : IPNet) : string :=
  match networkNumberAndMask n with
  | None => "<nil>"
  | Some (nn, m) =>
      match simpleMaskLength m with
      | Some l => IP_String nn +:+ "/" +:+ Itoa (Z.of_nat l)
      | None => IP_String nn +:+ "/" +:+ hexString m
      end
  end.

(** [HardwareAddr.String()]. *)
Definition HardwareAddr_String (a : list Z) : string :=
  Join ((fun b => hexString [b]) <$> a) ":".

(** [ParseMAC] of the six, eight or twenty bytes written with colons or
    dashes; the dotted form is not used by the program. *)
Fixpoint parseMAC_loop (k : nat) (sep : ascii) (s : string) : option (list Z) :=
  match s with
  | String a (String b s') =>
      match hex_val a, hex_val b with
      | Some x, Some y =>
          match k, s' with
          | O, EmptyString => Some [(x * 16 + y)%Z]
          | S k', String c s2 =>
              if bool_decide (c = sep) then cons (x * 16 + y)%Z <$> parseMAC_loop k' sep s2 else None
          | _, _ => None
          end
      | _, _ => None
      end
  | _ => None
  end.

Definition ParseMAC (s : string) : result (list Z) :=
  let n := ((String.length s + 1) / 3)%nat in
  match s with
  | String _ (String _ (String sep _)) =>
      if (bool_decide (sep = ":"%char) || bool_decide (sep = "-"%char))
         && ((String.length s + 1) mod 3 =? 0)%nat
         && existsb (Nat.eqb n) [6; 8; 20]%nat
      then match parseMAC_loop (n - 1) sep s with
           | Some l => Ok l
           | None => Err (ErrNew "invalid MAC address")
           end
      else Err (ErrNew "invalid MAC address")
  | _ => Err (ErrNew "invalid MAC address")
  end.

(** ** The vendored package ip *)

(** Big-endian value of a byte list: [big.Int.SetBytes]. *)
Fixpoint be_val (l : list Z) : Z :=
  match l with [] => 0 | a :: l' => a * 256 ^ Z.of_nat (length l') + be_val l' end%Z.

(** [big.Int.Bytes]: the minimal big-endian bytes of a non-negative number. *)
Fixpoint be_bytes (fuel : nat) (z : Z) : list Z :=
  match fuel with
  | O => []
  | S fuel' => if (z <=? 0)%Z then [] else be_bytes fuel' (z / 256) ++ [(z mod 256)%Z]
  end.

Definition ipToInt (ip : IP) : Z :=
  match To4 ip with
  | Some v => be_val v
  | None => be_val (or_nil (To16 ip))
  end.

(** 17 bytes hold every 16 byte number plus one. *)
Definition intToIP (i : Z) : IP := be_bytes 17 i.

Definition NextIP (ip : IP) : IP := intToIP (ipToInt ip + 1).

(** ** Facts about masks *)

Definition is_byte (x : Z) : Prop := (0 <= x < 256)%Z.
Abbreviation bytes l := (Forall is_byte l).

Lemma be_val_bounds l : bytes l -> (0 <= be_val l < 256 ^ Z.of_nat (length l))%Z.
Proof.
  induction 1 as [|a l Ha Hl IH]; cbn [be_val length]; [done|].
  rewrite Nat2Z.inj_succ, Z.pow_succ_r by lia. unfold is_byte in Ha.
  set (p := (256 ^ _)%Z) in *. nia.
Qed.

Lemma pow256 l : (256 ^ Z.of_nat l = 2 ^ (8 * Z.of_nat l))%Z.
Proof. rewrite Z.pow_mul_r by lia. done. Qed.

(** A mask byte of [n] leading ones keeps the upper [n] bits. *)
Lemma land_mask_byte n a :
  (n <= 8)%nat -> is_byte a ->
  (Z.land a (255 - Z.shiftr 255 (Z.of_nat n)) =
    2 ^ (8 - Z.of_nat n) * (a / 2 ^ (8 - Z.of_nat n)))%Z.
Proof.
  intros Hn Ha. unfold is_byte in Ha.
  assert (Hall : forallb (fun n => forallb (fun a =>
    (Z.land a (255 - Z.shiftr 255 (Z.of_nat n)) =?
      2 ^ (8 - Z.of_nat n) * (a / 2 ^ (8 - Z.of_nat n)))%Z)
    (seqZ 0 256)) (seq 0 9) = true) by (vm_compute; reflexivity).
  rewrite forallb_forall in Hall. specialize (Hall n ltac:(apply in_seq; lia)).
  rewrite forallb_forall in Hall.
  apply Z.eqb_eq, Hall, list_elem_of_In, elem_of_seqZ. lia.
Qed.

Lemma CIDRMask_length n l : length (CIDRMask n l) = l.
Proof.
  revert n. induction l as [|l IH]; intros n; cbn; [done|].
  case_match; cbn; by rewrite IH.
Qed.

Lemma masked_eq_zero nn ip l :
  length nn = l -> length ip = l -> masked_eq nn (CIDRMask 0 l) ip = true.
Proof.
  revert nn ip. induction l as [|l IH]; intros [|a nn] [|b ip]; try done.
  cbn. intros [= ?] [= ?]. rewrite !Z.land_0_r. cbn. auto.
Qed.

(** Quotient of a big-endian number by a power of two within its tail. *)
Lemma div_cons_tail a v k m :
  (0 <= k <= m)%Z ->
  ((a * 2 ^ m + v) / 2 ^ k = a * 2 ^ (m - k) + v / 2 ^ k)%Z.
Proof.
  intros Hk. replace (2 ^ m)%Z with (2 ^ (m - k) * 2 ^ k)%Z
    by (rewrite <- Z.pow_add_r by lia; f_equal; lia).
  rewrite Z.mul_assoc, Z.div_add_l by (apply Z.pow_nonzero; lia). done.
Qed.

Lemma div_cons_head a v k m :
  (0 <= m <= k)%Z -> (0 <= v < 2 ^ m)%Z ->
  ((a * 2 ^ m + v) / 2 ^ k = a / 2 ^ (k - m))%Z.
Proof.
  intros Hk Hv. replace (2 ^ k)%Z with (2 ^ m * 2 ^ (k - m))%Z
    by (rewrite <- Z.pow_add_r by lia; f_equal; lia).
  rewrite <- Z.div_div by (try apply Z.pow_nonzero; try apply Z.pow_pos_nonneg; lia).
  rewrite Z.div_add_l by (apply Z.pow_nonzero; lia).
  rewrite (Z.div_small v) by done. by rewrite Z.add_0_r.
Qed.

(** Equality under a prefix mask is equality of the prefixes as numbers. *)
Lemma masked_eq_prefix l : forall nn ip n,
  length nn = l -> length ip = l -> bytes nn -> bytes ip -> (n <= 8 * l)%nat ->
  masked_eq nn (CIDRMask n l) ip = true <->
  (be_val nn / 2 ^ (8 * Z.of_nat l - Z.of_nat n) =
   be_val ip / 2 ^ (8 * Z.of_nat l - Z.of_nat n))%Z.
Proof.
  induction l as [|l IH]; intros [|a nn] [|b ip] n; try done.
  intros [= Hnn] [= Hip] Hbn Hbi Hn.
  inversion_clear Hbn as [|?? Ha Hbn']. inversion_clear Hbi as [|?? Hb Hbi'].
  pose proof (be_val_bounds nn Hbn') as Vn. pose proof (be_val_bounds ip Hbi') as Vi.
  rewrite Hnn, pow256 in Vn. rewrite Hip, pow256 in Vi.
  cbn [be_val CIDRMask]. rewrite Hnn, Hip, !pow256.
  destruct (8 <=? n)%nat eqn:Hn8.
  - apply Nat.leb_le in Hn8. cbn [masked_eq].
    assert (Hl255 : forall x, is_byte x -> Z.land x 255 = x).
    { intros x Hx. change 255%Z with (Z.ones 8). rewrite Z.land_ones by lia.
      apply Z.mod_small. exact Hx. }
    rewrite !Hl255 by done.
    specialize (IH nn ip (n - 8)%nat Hnn Hip Hbn' Hbi' ltac:(lia)).
    rewrite andb_true_iff, IH, Z.eqb_eq.
    replace (8 * Z.of_nat l - Z.of_nat (n - 8))%Z
      with (8 * Z.of_nat (S l) - Z.of_nat n)%Z by lia.
    set (k := (8 * Z.of_nat (S l) - Z.of_nat n)%Z) in *.
    rewrite !div_cons_tail by lia.
    assert (Hq : forall v, (0 <= v < 2 ^ (8 * Z.of_nat l))%Z ->
      (0 <= v / 2 ^ k < 2 ^ (8 * Z.of_nat l - k))%Z).
    { intros v Hv. split; [apply Z.div_pos; [lia|apply Z.pow_pos_nonneg; lia]|].
      apply Z.div_lt_upper_bound; [apply Z.pow_pos_nonneg; lia|].
      rewrite <- Z.pow_add_r by lia. replace (k + _)%Z with (8 * Z.of_nat l)%Z by lia. lia. }
    pose proof (Hq _ Vn). pose proof (Hq _ Vi). split; [intros [-> ->]; done|].
    intros Heq. assert (a = b) by nia. subst b. split; [done|]. nia.
  - apply Nat.leb_gt in Hn8. cbn [masked_eq].
    rewrite masked_eq_zero, andb_true_r, Z.eqb_eq by done.
    rewrite !land_mask_byte by (done || lia).
    rewrite !div_cons_head by lia.
    replace (8 * Z.of_nat (S l) - Z.of_nat n - 8 * Z.of_nat l)%Z
      with (8 - Z.of_nat n)%Z by lia.
    assert (0 < 2 ^ (8 - Z.of_nat n))%Z by (apply Z.pow_pos_nonneg; lia). nia.
Qed.

(** ** Facts about text forms *)

Definition no_leading_digit (s : string) : bool :=
  match s with String c _ => negb (is_digit c) | EmptyString => true end.

Lemma dtoi_loop_digits l rest acc seen :
  Forall is_digit_val l -> (0 <= acc)%Z -> (digits_val l acc < net_big)%Z ->
  (l <> [] \/ seen = true) -> no_leading_digit rest = true ->
  dtoi_loop (digit_string l +:+ rest) acc seen = Some (digits_val l acc, rest).
Proof.
  intros Hl. revert acc seen.
  induction Hl as [|x l Hx Hl IH]; intros acc seen Hacc Hlt Hne Hrest.
  - str_cbn. destruct Hne as [?| ->]; [done|].
    destruct rest as [|c rest]; cbn in *; [done|]. by destruct (is_digit c).
  - cbn [digit_string digits_val] in *. str_cbn.
    pose proof (digits_val_le l (acc * 10 + x) Hl) as Hle.
    rewrite digit_byte_is_digit, digit_byte_val by done. unfold is_digit_val in Hx.
    replace (acc * 10 + (48 + x - 48))%Z with (acc * 10 + x)%Z by lia.
    rewrite (proj2 (Z.leb_gt _ _)) by lia.
    apply IH; auto; lia.
Qed.

Lemma dtoi_Itoa z rest :
  (0 <= z < net_big)%Z -> no_leading_digit rest = true ->
  dtoi (Itoa z +:+ rest) = Some (z, rest).
Proof.
  intros Hz Hrest. destruct (Itoa_digits z) as (-> & Hl & Hne & Hv).
  rewrite (proj2 (Z.ltb_ge _ _)) by lia. str_cbn. unfold dtoi.
  rewrite dtoi_loop_digits; rewrite ?Hv; auto; [|lia..].
  do 2 f_equal. lia.
Qed.

(** Dotted decimal, as [IP.String] prints four bytes. *)
Definition dotted (l : list Z) : string := Join (Itoa <$> l) ".".

Lemma dotted_cons a b l : dotted (a :: b :: l) = Itoa a +:+ "." +:+ dotted (b :: l).
Proof. done. Qed.

Lemma parseIPv4_loop_S k (first : bool) (s s1 : string) n s2 :
  (if first then Some s
   else match s with String "."%char s' => Some s' | _ => None end) = Some s1 ->
  dtoi s1 = Some (n, s2) -> (n <= 255)%Z ->
  parseIPv4_loop (S k) first s =
    match parseIPv4_loop k false s2 with
    | Some (l, s3) => Some (n :: l, s3) | None => None end.
Proof.
  intros Hs Hd Hn. cbn [parseIPv4_loop]. rewrite Hs, Hd.
  by rewrite (proj2 (Z.ltb_ge _ _)).
Qed.

Lemma parseIPv4_loop_dotted l rest first :
  l <> [] -> bytes l -> no_leading_digit rest = true ->
  parseIPv4_loop (length l) first ((if first then "" else ".") +:+ dotted l +:+ rest)
    = Some (l, rest).
Proof.
  intros Hne Hl Hrest. revert first. induction Hl as [|x l Hx Hl IH]; [done|].
  intros first. unfold is_byte in Hx. cbn [length].
  assert (Hbig : (0 <= x < net_big)%Z) by (unfold net_big; lia).
  destruct l as [|y l].
  - change (dotted [x]) with (Itoa x).
    rewrite (parseIPv4_loop_S _ _ _ (Itoa x +:+ rest) x rest);
      [done|by destruct first|by apply dtoi_Itoa|lia].
  - rewrite dotted_cons, !str_app_assoc.
    rewrite (parseIPv4_loop_S _ _ _ (Itoa x +:+ "." +:+ dotted (y :: l) +:+ rest) x
      ("." +:+ dotted (y :: l) +:+ rest));
      [|by destruct first|by apply dtoi_Itoa|lia].
    by rewrite (IH ltac:(done) false).
Qed.

Lemma parseIPv4_dotted l :
  length l = 4 -> bytes l -> parseIPv4 (dotted l) = Some (v4InV6Prefix ++ l).
Proof.
  intros Hlen Hl. unfold parseIPv4.
  pose proof (parseIPv4_loop_dotted l EmptyString true) as Hp.
  rewrite Hlen, str_app_nil_r, str_app_nil_l in Hp.
  rewrite Hp; [done|by destruct l|done|done].
Qed.

Definition is_dotted_byte (c : ascii) : bool := is_int_byte c || in_range 46 46 c.

Lemma dotted_bytes l : string_forall is_dotted_byte (dotted l) = true.
Proof.
  assert (Hi : forall x, string_forall is_dotted_byte (Itoa x) = true).
  { intros x. eapply string_forall_impl; [|apply Itoa_bytes].
    unfold is_dotted_byte. by intros c ->. }
  unfold dotted. induction l as [|x [|y l] IH]; [done|apply Hi|].
  cbn [fmap list_fmap] in *. rewrite Join_cons, !string_forall_app, Hi, IH. done.
Qed.

Lemma dotted_lacks c l : is_dotted_byte c = false -> has_char c (dotted l) = false.
Proof. apply has_char_forall, dotted_bytes. Qed.

(** The first dot or colon of a text without colons is a dot. *)
Lemma ParseIP_scan_v4 whole s :
  has_char ":" s = false -> has_char "." s = true -> ParseIP_scan whole s = parseIPv4 whole.
Proof.
  induction s as [|c s IH]; cbn; [done|].
  intros [Hc Hs]%orb_false_iff Hd. rewrite Hc. case_bool_decide; [done|]. auto.
Qed.

Lemma ParseIP_dotted l :
  length l = 4 -> bytes l -> ParseIP (dotted l) = Some (v4InV6Prefix ++ l).
Proof.
  intros Hlen Hl. unfold ParseIP. rewrite ParseIP_scan_v4.
  - by apply parseIPv4_dotted.
  - by apply dotted_lacks.
  - destruct l as [|a [|b l]]; try done. rewrite dotted_cons, !has_char_app.
    cbn. by rewrite orb_true_r.
Qed.

(** [a.b.c.d/n], the text of an IPv4 block. *)
Definition cidr_text (l : list Z) (n : Z) : string := dotted l +:+ "/" +:+ Itoa n.

(** The network [ParseCIDR] makes of it. *)
Definition ipv4_net (l : list Z) (n : Z) : IPNet :=
  let m := CIDRMask (Z.to_nat n) IPv4len in
  {| net_IP := zip_with Z.land l m; net_Mask := m |}.

Lemma Mask_v4 l m :
  length l = 4 -> length m = 4 -> Mask (v4InV6Prefix ++ l) m = Some (zip_with Z.land l m).
Proof.
  intros Hl Hm. do 5 (destruct l as [|? l]; try done).
  do 5 (destruct m as [|? m]; try done).
Qed.

Lemma ParseCIDR_ipv4 l n :
  length l = 4 -> bytes l -> (0 <= n <= 32)%Z ->
  ParseCIDR (cidr_text l n) = Ok (ipv4_net l n).
Proof.
  intros Hlen Hl Hn. unfold ParseCIDR, cidr_text. str_cbn.
  rewrite cut_byte_app by (by apply dotted_lacks).
  rewrite parseIPv4_dotted by done.
  rewrite <- (str_app_nil_r (Itoa n)), dtoi_Itoa by (first [done | unfold net_big; lia]).
  rewrite (proj2 (Z.ltb_ge _ _)) by (unfold IPv4len; lia).
  by rewrite Mask_v4 by (done || apply CIDRMask_length).
Qed.

Lemma zip_land_length l n : length l = 4 -> length (zip_with Z.land l (CIDRMask n 4)) = 4.
Proof. intros Hl. rewrite length_zip_with, Hl, CIDRMask_length. done. Qed.

Lemma masked_eq_land nn m ip :
  masked_eq (zip_with Z.land nn m) m ip = masked_eq nn m ip.
Proof.
  revert m ip. induction nn as [|a nn IH]; intros [|k m] [|b ip]; try done.
  cbn. by rewrite <- Z.land_assoc, Z.land_diag, IH.
Qed.

Lemma To4_16 l : length l = 4 -> To4 (v4InV6Prefix ++ l) = Some l.
Proof.
  intros Hl. by do 5 (destruct l as [|? l]; try done).
Qed.

Lemma To4_4 l : length l = 4 -> To4 l = Some l.
Proof. intros Hl. unfold To4. by rewrite Hl. Qed.

(** Membership in an IPv4 block is equality of the leading [n] bits. *)
Lemma net_Contains_ipv4 l n w :
  length l = 4 -> bytes l -> (0 <= n <= 32)%Z -> length w = 4 -> bytes w ->
  net_Contains (ipv4_net l n) (v4InV6Prefix ++ w) = true <->
  (be_val l / 2 ^ (32 - n) = be_val w / 2 ^ (32 - n))%Z.
Proof.
  intros Hl Hbl Hn Hw Hbw. unfold net_Contains, networkNumberAndMask, ipv4_net.
  cbn [net_IP net_Mask]. unfold IPv4len.
  rewrite To4_4 by (by apply zip_land_length).
  rewrite CIDRMask_length, zip_land_length by done. cbn -[To4 zip_with CIDRMask v4InV6Prefix].
  rewrite To4_16 by done. rewrite zip_land_length, Hw by done. cbn [andb Nat.eqb].
  rewrite masked_eq_land.
  pose proof (masked_eq_prefix 4 l w (Z.to_nat n) Hl Hw Hbl Hbw ltac:(lia)) as Hm.
  rewrite Z2Nat.id in Hm by lia. exact Hm.
Qed.

Lemma ParseCIDR_no_panic s : ParseCIDR s <> Panic.
Proof. unfold ParseCIDR. repeat case_match; done. Qed.

(** A block contains no nil address. *)
Lemma net_Contains_nil l n : length l = 4 -> net_Contains (ipv4_net l n) [] = false.
Proof.
  intros Hl. unfold net_Contains, networkNumberAndMask, ipv4_net.
  cbn [net_IP net_Mask]. unfold IPv4len. rewrite To4_4 by (by apply zip_land_length).
  rewrite CIDRMask_length, zip_land_length by done. cbn -[zip_with CIDRMask].
  by rewrite zip_land_length.
Qed.

(** ** Facts about successors *)

Lemma be_val_app l r : be_val (l ++ r) = (be_val l * 256 ^ Z.of_nat (length r) + be_val r)%Z.
Proof.
  induction l as [|a l IH]; cbn [app be_val]; [lia|].
  rewrite IH, length_app, Nat2Z.inj_add, Z.pow_add_r by lia. ring.
Qed.

(** A number of exactly [k] bytes is printed in [k] bytes, and read back. *)
Lemma be_bytes_spec k : forall fuel z,
  (S k <= fuel)%nat -> (256 ^ Z.of_nat k <= z < 256 ^ Z.of_nat (S k))%Z ->
  length (be_bytes fuel z) = S k /\ bytes (be_bytes fuel z) /\ be_val (be_bytes fuel z) = z.
Proof.
  assert (Hb : forall z, is_byte (z mod 256)%Z) by (intros z; apply Z.mod_pos_bound; lia).
  induction k as [|k IH]; intros [|fuel] z Hfuel Hz; try lia; cbn [be_bytes].
  - change (256 ^ Z.of_nat 0)%Z with 1%Z in Hz. change (256 ^ Z.of_nat 1)%Z with 256%Z in Hz.
    rewrite (proj2 (Z.leb_gt _ _)), Z.div_small, Z.mod_small by lia.
    assert (Hnil : be_bytes fuel 0 = []) by by destruct fuel. rewrite Hnil. cbn.
    repeat split; [|lia]. repeat constructor; unfold is_byte; lia.
  - rewrite !Nat2Z.inj_succ, !Z.pow_succ_r in Hz by lia.
    assert (Hp : (0 < 256 ^ Z.of_nat k)%Z) by (apply Z.pow_pos_nonneg; lia).
    rewrite Nat2Z.inj_succ, Z.pow_succ_r in IH by lia.
    set (p := (256 ^ Z.of_nat k)%Z) in *. clearbody p.
    rewrite (proj2 (Z.leb_gt _ _)) by lia.
    pose proof (Z.div_mod z 256 ltac:(lia)) as Hdm. specialize (Hb z) as Hm.
    destruct (IH fuel (z / 256)%Z ltac:(lia)) as (Hlen & Hbs & Hval).
    { unfold is_byte in Hm. split; [apply Z.div_le_lower_bound; lia|].
      apply Z.div_lt_upper_bound; lia. }
    rewrite length_app, Hlen, be_val_app, Hval. cbn. repeat split; [lia| |lia].
    apply Forall_app. auto.
Qed.

(** The address after a network whose first octet is not zero: four bytes,
    one more. *)
Lemma NextIP_v4 l :
  length l = 4 -> bytes l -> (2 ^ 24 <= be_val l < 2 ^ 32 - 1)%Z ->
  length (NextIP l) = 4 /\ bytes (NextIP l) /\ be_val (NextIP l) = (be_val l + 1)%Z.
Proof.
  intros Hlen Hl Hv. unfold NextIP, intToIP, ipToInt. rewrite To4_4 by done.
  apply (be_bytes_spec 3); [lia|]. cbn. lia.
Qed.

Lemma mask_byte_bounds n a :
  (n <= 8)%nat -> is_byte a -> is_byte (Z.land a (255 - Z.shiftr 255 (Z.of_nat n))).
Proof.
  intros Hn Ha. rewrite land_mask_byte by done. unfold is_byte in *.
  pose proof (Z.mul_div_le a (2 ^ (8 - Z.of_nat n)) ltac:(apply Z.pow_pos_nonneg; lia)).
  split; [|lia]. apply Z.mul_nonneg_nonneg; [apply Z.pow_nonneg; lia|].
  apply Z.div_pos; [lia|apply Z.pow_pos_nonneg; lia].
Qed.

Lemma CIDRMask_S n l :
  CIDRMask n (S l) =
    (255 - Z.shiftr 255 (Z.of_nat (n `min` 8)))%Z :: CIDRMask (n - 8) l.
Proof.
  cbn [CIDRMask]. destruct (8 <=? n)%nat eqn:Hn.
  - apply Nat.leb_le in Hn. by rewrite Nat.min_r.
  - apply Nat.leb_gt in Hn. rewrite Nat.min_l by lia.
    by replace (n - 8)%nat with 0%nat by lia.
Qed.

Lemma masked_bytes l n : bytes l -> bytes (zip_with Z.land l (CIDRMask n (length l))).
Proof.
  intros Hl. revert n. induction Hl as [|a l Ha Hl IH]; intros n; [constructor|].
  cbn [length]. rewrite CIDRMask_S. cbn [zip_with]. constructor; [|apply IH].
  apply mask_byte_bounds; [lia|done].
Qed.

Lemma masked_zero l : be_val (zip_with Z.land l (CIDRMask 0 (length l))) = 0%Z.
Proof.
  induction l as [|a l IH]; [done|]. cbn [length]. rewrite CIDRMask_S.
  cbn [zip_with be_val]. change (0 - 8)%nat with 0%nat. rewrite IH.
  cbn. by rewrite Z.land_0_r.
Qed.

(** Masking clears the host bits. *)
Lemma be_val_masked l : forall n,
  bytes l -> (n <= 8 * length l)%nat ->
  let k := (8 * Z.of_nat (length l) - Z.of_nat n)%Z in
  be_val (zip_with Z.land l (CIDRMask n (length l))) = (2 ^ k * (be_val l / 2 ^ k))%Z.
Proof.
  induction l as [|a l IH]; intros n Hl Hn k.
  { subst k. cbn in *. replace n with 0%nat by lia. done. }
  inversion_clear Hl as [|?? Ha Hl']. pose proof (be_val_bounds l Hl') as Vl.
  rewrite pow256 in Vl. cbn [length] in *. rewrite CIDRMask_S. cbn [zip_with be_val].
  rewrite length_zip_with, CIDRMask_length, Nat.min_id, pow256.
  rewrite land_mask_byte by (lia || done).
  destruct (decide (8 <= n)%nat) as [H8|H8].
  - rewrite Nat.min_r by lia. rewrite IH by (done || lia).
    replace (8 * Z.of_nat (length l) - Z.of_nat (n - 8))%Z with k by (subst k; lia).
    rewrite div_cons_tail by (subst k; lia). change (2 ^ (8 - Z.of_nat 8))%Z with 1%Z.
    rewrite Z.div_1_r, Z.mul_1_l, Z.mul_add_distr_l. f_equal.
    replace (2 ^ (8 * Z.of_nat (length l)))%Z
      with (2 ^ k * 2 ^ (8 * Z.of_nat (length l) - k))%Z
      by (rewrite <- Z.pow_add_r by (subst k; lia); f_equal; lia). ring.
  - rewrite Nat.min_l by lia. replace (n - 8)%nat with 0%nat by lia.
    rewrite masked_zero, div_cons_head, Z.add_0_r by (subst k; lia).
    replace (k - 8 * Z.of_nat (length l))%Z with (8 - Z.of_nat n)%Z by (subst k; lia).
    replace (2 ^ k)%Z with (2 ^ (8 - Z.of_nat n) * 2 ^ (8 * Z.of_nat (length l)))%Z
      by (rewrite <- Z.pow_add_r by lia; f_equal; subst k; lia). ring.
Qed.

Lemma ipv4_net_val l n :
  length l = 4 -> bytes l -> (0 <= n <= 32)%Z ->
  be_val (net_IP (ipv4_net l n)) = (2 ^ (32 - n) * (be_val l / 2 ^ (32 - n)))%Z.
Proof.
  intros Hl Hb Hn. pose proof (be_val_masked l (Z.to_nat n) Hb) as Hv.
  rewrite Hl, Z2Nat.id in Hv by lia. apply Hv. lia.
Qed.

Lemma zip_land_idem nn m : zip_with Z.land (zip_with Z.land nn m) m = zip_with Z.land nn m.
Proof.
  revert m. induction nn as [|a nn IH]; intros [|k m]; try done.
  cbn. by rewrite <- Z.land_assoc, Z.land_diag, IH.
Qed.

(** The network address of a block is its own mask. *)
Lemma Mask_ipv4_net l n :
  length l = 4 -> Mask (net_IP (ipv4_net l n)) (net_Mask (ipv4_net l n)) = Some (net_IP (ipv4_net l n)).
Proof.
  intros Hl. unfold ipv4_net. cbn [net_IP net_Mask].
  set (m := CIDRMask _ _). assert (Hm : length m = 4) by apply CIDRMask_length.
  assert (Hk : length (zip_with Z.land l m) = 4) by (rewrite length_zip_with; lia).
  unfold Mask. rewrite Hk, Hm. cbn [Nat.eqb andb IPv6len IPv4len].
  rewrite Bool.andb_false_r. cbn [andb]. rewrite Hk, Hm. cbn [Nat.eqb]. by rewrite zip_land_idem.
Qed.

(** The network address of a block shorter than /32 is not the last address. *)
Lemma ipv4_net_bounds l n :
  length l = 4 -> bytes l -> (0 <= n <= 31)%Z -> (be_val (net_IP (ipv4_net l n)) < 2 ^ 32 - 1)%Z.
Proof.
  intros Hl Hb Hn. rewrite ipv4_net_val by (done || lia).
  pose proof (be_val_bounds l Hb) as Hv. rewrite Hl in Hv.
  change (256 ^ Z.of_nat 4)%Z with (2 ^ 32)%Z in Hv.
  assert (H2 : (2 ^ (32 - n) = 2 * 2 ^ (31 - n))%Z)
    by (rewrite <- Z.pow_succ_r by lia; f_equal; lia).
  pose proof (Z.mul_div_le (be_val l) (2 ^ (32 - n)) ltac:(apply Z.pow_pos_nonneg; lia)).
  set (q := (be_val l / 2 ^ (32 - n))%Z) in *. rewrite H2 in *.
  change (2 ^ 32)%Z with 4294967296%Z in *. lia.
Qed.

Lemma IP_String_v4 l : length l = 4 -> IP_String l = dotted l.
Proof. intros Hl. by do 5 (destruct l as [|? l]; try done). Qed.

(** ** Tests *)

Example ip_str1 : IP_String <$> ParseIP "10.244.1.7" = Some "10.244.1.7".
Proof. reflexivity. Qed.
Example ip_str2 : IP_String <$> ParseIP "2001:db8:0:0:1:0:0:1" = Some "2001:db8::1:0:0:1".
Proof. reflexivity. Qed.
Example ip_str3 : IP_String <$> ParseIP "fe80::" = Some "fe80::".
Proof. reflexivity. Qed.
Example ip_str4 : IP_String <$> ParseIP "::" = Some "::".
Proof. reflexivity. Qed.
Example ip_str5 : IP_String <$> ParseIP "1:0:0:2:3:0:0:0" = Some "1:0:0:2:3::".
Proof. reflexivity. Qed.
Example ip_str6 : IP_String <$> ParseIP "::1.2.3.4" = Some "::102:304".
Proof. reflexivity. Qed.
Example ip_gw : (fun n => IP_String (NextIP (net_IP n))) <$> ParseCIDR "10.244.1.0/24" = Ok "10.244.1.1".
Proof. reflexivity. Qed.
Example ip_gw0 : (fun n => IP_String (NextIP (net_IP n))) <$> ParseCIDR "0.0.0.0/8" = Ok "?01".
Proof. reflexivity. Qed.
Example ip_bad : ParseIP "1::2::3" = None.
Proof. reflexivity. Qed.
Example ip_nomask : ParseCIDR "10.0.0.0/33" = Err (ErrNew "invalid CIDR address").
Proof. reflexivity. Qed.
Example ip_in : (fun n => net_Contains n (or_nil (ParseIP "10.244.1.7"))) <$> ParseCIDR "10.244.1.0/24" = Ok true.
Proof. reflexivity. Qed.
Example ip_out : (fun n => net_Contains n (or_nil (ParseIP "10.244.2.7"))) <$> ParseCIDR "10.244.1.0/24" = Ok false.
Proof. reflexivity. Qed.
