(* ===== verification/Exec.v ===== *)
(** * Running commands

    The interface through which the program reaches Open vSwitch: the
    processes it starts with package os/exec.  What a command does is not
    code of the repository, so it is an operation of the class [Exec] over an
    arbitrary type of outside worlds; a component's theorems hold for every
    instance, and state as hypotheses on the instance what they need of
    ovs-vsctl or ovs-ofctl. *)
From S2P Require Import Prelude.

(** [Output] returns the standard output of the command, [CombinedOutput]
    also feeds it a standard input.  [Err] is a command that could not be
    started or exited with a non-zero status. *)
Class Exec (W : Type) := {
  exec_Output : string -> list string -> M W string;
  exec_CombinedOutput : string -> list string -> string -> M W string;
}.
