(* ===== verification/Flows.v ===== *)
(** * Package flows: flow entries and the flow buffer

    [flows/flows.go] builds one OpenFlow entry and prints it in the syntax of
    ovs-ofctl; [flows/buffer.go] collects the entries of a sync, one per line,
    and hands them to [ovs-ofctl replace-flows].

    The second half gives the text a meaning: [parse_flow] is a reference
    reader of the syntax, and printing followed by reading is the identity on
    the entries the program can build ([flow_roundtrip]), so nothing an entry
    says is lost or changed on the way to the switch. *)
From S2P Require Import Prelude GoStrings Exec.

(** ** flows/flows.go *)

Record Flow := MkFlow {
  f_table : Z;
  f_priority : Z;
  f_protocol : string;
  f_ipDest : string;
  f_ipSrc : string;
  f_arpDest : string;
  f_arpSrc : string;
  f_tcpDestPort : Z;
  f_tcpSrcPort : Z;
  f_udpDestPort : Z;
  f_udpSrcPort : Z;
  f_tunDest : string;
  f_modDlDest : string;
  f_output : Z;
  f_resubmit : Z;
  f_drop : bool;
  f_local : bool;
  f_raw : string
}.

#[export] Instance Flow_eq_dec : EqDecision Flow.
Proof. solve_decision. Defined.

Definition NewFlow : Flow :=
  MkFlow 0 0 "" "" "" "" "" 0 0 0 0 "" "" 0 0 false false "".

(** The builders mutate the receiver and return it; the program only chains
    them on a fresh [NewFlow()], so they are functions of the entry. *)
Definition WithTable (v : Z) (f : Flow) : Flow :=
  let '(MkFlow _ p pr id isr ad as_ td ts ud us tu md o r d l w) := f in
  MkFlow v p pr id isr ad as_ td ts ud us tu md o r d l w.
Definition WithPriority (v : Z) (f : Flow) : Flow :=
  let '(MkFlow t _ pr id isr ad as_ td ts ud us tu md o r d l w) := f in
  MkFlow t v pr id isr ad as_ td ts ud us tu md o r d l w.
Definition WithProtocol (v : string) (f : Flow) : Flow :=
  let '(MkFlow t p _ id isr ad as_ td ts ud us tu md o r d l w) := f in
  MkFlow t p v id isr ad as_ td ts ud us tu md o r d l w.
Definition WithIPDest (v : string) (f : Flow) : Flow :=
  let '(MkFlow t p pr _ isr ad as_ td ts ud us tu md o r d l w) := f in
  MkFlow t p pr v isr ad as_ td ts ud us tu md o r d l w.
Definition WithIPSrc (v : string) (f : Flow) : Flow :=
  let '(MkFlow t p pr id _ ad as_ td ts ud us tu md o r d l w) := f in
  MkFlow t p pr id v ad as_ td ts ud us tu md o r d l w.
Definition WithArpDest (v : string) (f : Flow) : Flow :=
  let '(MkFlow t p pr id isr _ as_ td ts ud us tu md o r d l w) := f in
  MkFlow t p pr id isr v as_ td ts ud us tu md o r d l w.
Definition WithArpSrc (v : string) (f : Flow) : Flow :=
  let '(MkFlow t p pr id isr ad _ td ts ud us tu md o r d l w) := f in
  MkFlow t p pr id isr ad v td ts ud us tu md o r d l w.
Definition WithTCPSrcPort (v : Z) (f : Flow) : Flow :=
  let '(MkFlow t p pr id isr ad as_ td _ ud us tu md o r d l w) := f in
  MkFlow t p pr id isr ad as_ td v ud us tu md o r d l w.
Definition WithTCPDestPort (v : Z) (f : Flow) : Flow :=
  let '(MkFlow t p pr id isr ad as_ _ ts ud us tu md o r d l w) := f in
  MkFlow t p pr id isr ad as_ v ts ud us tu md o r d l w.
Definition WithUDPSrcPort (v : Z) (f : Flow) : Flow :=
  let '(MkFlow t p pr id isr ad as_ td ts ud _ tu md o r d l w) := f in
  MkFlow t p pr id isr ad as_ td ts ud v tu md o r d l w.
Definition WithUDPDestPort (v : Z) (f : Flow) : Flow :=
  let '(MkFlow t p pr id isr ad as_ td ts _ us tu md o r d l w) := f in
  MkFlow t p pr id isr ad as_ td ts v us tu md o r d l w.
Definition WithRaw (v : string) (f : Flow) : Flow :=
  let '(MkFlow t p pr id isr ad as_ td ts ud us tu md o r d l _) := f in
  MkFlow t p pr id isr ad as_ td ts ud us tu md o r d l v.
Definition WithActionModDlDest (v : string) (f : Flow) : Flow :=
  let '(MkFlow t p pr id isr ad as_ td ts ud us tu _ o r d l w) := f in
  MkFlow t p pr id isr ad as_ td ts ud us tu v o r d l w.
Definition WithActionTunnelDest (v : string) (f : Flow) : Flow :=
  let '(MkFlow t p pr id isr ad as_ td ts ud us _ md o r d l w) := f in
  MkFlow t p pr id isr ad as_ td ts ud us v md o r d l w.
Definition WithActionOutputPort (v : Z) (f : Flow) : Flow :=
  let '(MkFlow t p pr id isr ad as_ td ts ud us tu md _ r d l w) := f in
  MkFlow t p pr id isr ad as_ td ts ud us tu md v r d l w.
Definition WithActionDrop (f : Flow) : Flow :=
  let '(MkFlow t p pr id isr ad as_ td ts ud us tu md o r _ l w) := f in
  MkFlow t p pr id isr ad as_ td ts ud us tu md o r true l w.
Definition WithActionResubmit (v : Z) (f : Flow) : Flow :=
  let '(MkFlow t p pr id isr ad as_ td ts ud us tu md o _ d l w) := f in
  MkFlow t p pr id isr ad as_ td ts ud us tu md o v d l w.
Definition WithActionLocal (f : Flow) : Flow :=
  let '(MkFlow t p pr id isr ad as_ td ts ud us tu md o r d _ w) := f in
  MkFlow t p pr id isr ad as_ td ts ud us tu md o r d true w.

(** [f.WithX(v)], chained from left to right as in the source. *)
Declare Scope flow_scope.
Delimit Scope flow_scope with flow.
Notation "f '∙' w" := (w f) (at level 62, left associativity, only parsing) : flow_scope.
Open Scope flow_scope.

(** [if s != ""] and [if n != 0] around a clause of the text. *)
Definition when_str (v : string) (k : string -> string) (flow : string) : string :=
  if bool_decide (v = "") then flow else k flow.
Definition when_int (v : Z) (k : string -> string) (flow : string) : string :=
  if (v =? 0)%Z then flow else k flow.

(** The actions, in the order the source appends them. *)
Definition actionSet (f : Flow) : list string :=
  (if bool_decide (f_modDlDest f = "") then [] else ["mod_dl_dst:" +:+ f_modDlDest f]) ++
  (if bool_decide (f_tunDest f = "") then [] else ["set_field:" +:+ f_tunDest f +:+ "->tun_dst"]) ++
  (if (f_output f =? 0)%Z then [] else ["output:" +:+ Itoa (f_output f)]) ++
  (if (f_resubmit f =? 0)%Z then [] else ["resubmit(," +:+ Itoa (f_resubmit f) +:+ ")"]) ++
  (if f_drop f then ["drop"] else []) ++
  (if f_local f then ["local"] else []).

(** [func (f *Flow) String() string] *)
Definition Flow_String (f : Flow) : string :=
  if negb (bool_decide (f_raw f = "")) then f_raw f else
  let flow := "table=" +:+ Itoa (f_table f) +:+ " priority=" +:+ Itoa (f_priority f) in
  let flow := when_str (f_protocol f) (fun w => w +:+ " " +:+ f_protocol f) flow in
  let flow := when_str (f_ipDest f) (fun w => w +:+ " nw_dst=" +:+ f_ipDest f) flow in
  let flow := when_str (f_ipSrc f) (fun w => w +:+ " nw_src=" +:+ f_ipSrc f) flow in
  let flow := when_str (f_arpDest f) (fun w => w +:+ " arp_tpa=" +:+ f_arpDest f) flow in
  let flow := when_str (f_arpSrc f) (fun w => w +:+ " arp_spa=" +:+ f_arpSrc f) flow in
  let flow := when_int (f_tcpDestPort f) (fun w => w +:+ " tcp_dst=" +:+ Itoa (f_tcpDestPort f)) flow in
  let flow := when_int (f_tcpSrcPort f) (fun w => w +:+ " tcp_src=" +:+ Itoa (f_tcpSrcPort f)) flow in
  let flow := when_int (f_udpDestPort f) (fun w => w +:+ " udp_dst=" +:+ Itoa (f_udpDestPort f)) flow in
  let flow := when_int (f_udpSrcPort f) (fun w => w +:+ " udp_src=" +:+ Itoa (f_udpSrcPort f)) flow in
  let actions := "actions=" +:+ Join (actionSet f) "," in
  flow +:+ " " +:+ actions.

Definition Validate (f : Flow) : result unit := Ok tt.

(** ** flows/buffer.go *)

Record FlowsBuffer := { buffer : string }.

Definition NewFlowsBuffer : FlowsBuffer := {| buffer := "" |}.

Definition newline : string := String (Ascii.ascii_of_nat 10) "".

Definition AddFlow (flow : Flow) (f : FlowsBuffer) : FlowsBuffer :=
  {| buffer := (buffer f +:+ Flow_String flow) +:+ newline |}.

Definition FlowsBuffer_String (f : FlowsBuffer) : string := buffer f.

Definition Reset (f : FlowsBuffer) : FlowsBuffer := {| buffer := "" |}.

(** [SyncFlows] pipes the buffer into ovs-ofctl and waits for it.  The
    goroutine that writes the pipe is part of running the command. *)
Definition SyncFlows `{Exec W} (bridge : string) (f : FlowsBuffer) : M W unit :=
  let commands := ["-O"; "OpenFlow13"; "replace-flows"; bridge; "-"] in
  wrapped "failed to sync flows" (exec_CombinedOutput "ovs-ofctl" commands (buffer f))
    ≫= fun _ => mret tt.

(** ** Reading the text back

    A reader of the one-line flow syntax of ovs-ofctl, restricted to the
    keywords [Flow_String] writes. *)

Definition arrow_tun : string := "->tun_dst".

Definition parse_action (a : string) (f : Flow) : option Flow :=
  if bool_decide (a = "") then Some f
  else if bool_decide (a = "drop") then Some (WithActionDrop f)
  else if bool_decide (a = "local") then Some (WithActionLocal f)
  else if HasPrefix a "mod_dl_dst:" then Some (WithActionModDlDest (TrimPrefix a "mod_dl_dst:") f)
  else if HasPrefix a "set_field:" then
    Some (WithActionTunnelDest (TrimSuffix (TrimPrefix a "set_field:") arrow_tun) f)
  else if HasPrefix a "output:" then
    Some (WithActionOutputPort (fst (Atoi (TrimPrefix a "output:"))) f)
  else if HasPrefix a "resubmit@" then
    Some (WithActionResubmit (fst (Atoi (TrimSuffix (TrimPrefix a "resubmit@") ")"))) f)
  else None.

(** [resubmit(,N)] holds the comma that separates actions. *)
Fixpoint join_resubmit (l : list string) : list string :=
  match l with
  | [] => []
  | a :: tl =>
      match tl with
      | b :: l' => if bool_decide (a = "resubmit(") then ("resubmit@" +:+ b) :: join_resubmit l'
                   else a :: join_resubmit tl
      | [] => [a]
      end
  end.

Fixpoint fold_opt {A B} (step : A -> B -> option B) (l : list A) (b : B) : option B :=
  match l with [] => Some b | a :: l' => step a b ≫= fold_opt step l' end.

Definition parse_actions (v : string) (f : Flow) : option Flow :=
  fold_opt parse_action (join_resubmit (Split v ","%char)) f.

Definition parse_token (t : string) (f : Flow) : option Flow :=
  match cut_byte "="%char t with
  | None => Some (WithProtocol t f)
  | Some (k, v) =>
      let num := fst (Atoi v) in
      if bool_decide (k = "table") then Some (WithTable num f)
      else if bool_decide (k = "priority") then Some (WithPriority num f)
      else if bool_decide (k = "nw_dst") then Some (WithIPDest v f)
      else if bool_decide (k = "nw_src") then Some (WithIPSrc v f)
      else if bool_decide (k = "arp_tpa") then Some (WithArpDest v f)
      else if bool_decide (k = "arp_spa") then Some (WithArpSrc v f)
      else if bool_decide (k = "tcp_dst") then Some (WithTCPDestPort num f)
      else if bool_decide (k = "tcp_src") then Some (WithTCPSrcPort num f)
      else if bool_decide (k = "udp_dst") then Some (WithUDPDestPort num f)
      else if bool_decide (k = "udp_src") then Some (WithUDPSrcPort num f)
      else if bool_decide (k = "actions") then parse_actions v f
      else None
  end.

Definition parse_flow (line : string) : option Flow :=
  fold_opt parse_token (Split line " "%char) NewFlow.

Example parse_ex1 :
  parse_flow (Flow_String (NewFlow ∙ WithTable 30 ∙ WithPriority 150 ∙ WithProtocol "ip" ∙
    WithIPDest "10.1.0.0/24" ∙ WithActionTunnelDest "172.20.0.1" ∙ WithActionOutputPort 1)) =
  Some (NewFlow ∙ WithTable 30 ∙ WithPriority 150 ∙ WithProtocol "ip" ∙
    WithIPDest "10.1.0.0/24" ∙ WithActionTunnelDest "172.20.0.1" ∙ WithActionOutputPort 1).
Proof. reflexivity. Qed.
Example parse_ex2 :
  parse_flow (Flow_String (NewFlow ∙ WithTable 10 ∙ WithPriority 1000 ∙ WithProtocol "tcp" ∙
    WithTCPDestPort 80 ∙ WithActionModDlDest "aa:bb" ∙ WithActionResubmit 20 ∙ WithActionLocal)) =
  Some (NewFlow ∙ WithTable 10 ∙ WithPriority 1000 ∙ WithProtocol "tcp" ∙
    WithTCPDestPort 80 ∙ WithActionModDlDest "aa:bb" ∙ WithActionResubmit 20 ∙ WithActionLocal).
Proof. reflexivity. Qed.

(** *** Round trip *)

(** The bytes that may occur in an address, a MAC or a protocol name. *)
Definition clean_byte (c : ascii) : bool :=
  negb (in_range 32 32 c || in_range 44 44 c || in_range 61 61 c || in_range 10 10 c).
Definition clean (s : string) : Prop := string_forall clean_byte s = true.

(** The entries whose text can be read back. *)
Record flow_ok (f : Flow) : Prop := {
  ok_ints : is_int64 (f_table f) /\ is_int64 (f_priority f) /\
    is_int64 (f_tcpDestPort f) /\ is_int64 (f_tcpSrcPort f) /\
    is_int64 (f_udpDestPort f) /\ is_int64 (f_udpSrcPort f) /\
    is_int64 (f_output f) /\ is_int64 (f_resubmit f);
  ok_match : clean (f_protocol f) /\ clean (f_ipDest f) /\ clean (f_ipSrc f) /\
    clean (f_arpDest f) /\ clean (f_arpSrc f);
  ok_actions : clean (f_tunDest f) /\ clean (f_modDlDest f);
  ok_raw : f_raw f = ""
}.

Definition opt_tok (b : bool) (t : string) : list string := if b then [] else [t].

Definition flow_tokens (f : Flow) : list string :=
  ["table=" +:+ Itoa (f_table f); "priority=" +:+ Itoa (f_priority f)] ++
  opt_tok (bool_decide (f_protocol f = "")) (f_protocol f) ++
  opt_tok (bool_decide (f_ipDest f = "")) ("nw_dst=" +:+ f_ipDest f) ++
  opt_tok (bool_decide (f_ipSrc f = "")) ("nw_src=" +:+ f_ipSrc f) ++
  opt_tok (bool_decide (f_arpDest f = "")) ("arp_tpa=" +:+ f_arpDest f) ++
  opt_tok (bool_decide (f_arpSrc f = "")) ("arp_spa=" +:+ f_arpSrc f) ++
  opt_tok (f_tcpDestPort f =? 0)%Z ("tcp_dst=" +:+ Itoa (f_tcpDestPort f)) ++
  opt_tok (f_tcpSrcPort f =? 0)%Z ("tcp_src=" +:+ Itoa (f_tcpSrcPort f)) ++
  opt_tok (f_udpDestPort f =? 0)%Z ("udp_dst=" +:+ Itoa (f_udpDestPort f)) ++
  opt_tok (f_udpSrcPort f =? 0)%Z ("udp_src=" +:+ Itoa (f_udpSrcPort f)) ++
  ["actions=" +:+ Join (actionSet f) ","].

Lemma opt_tok_ne (l : list string) b t : l <> [] -> l ++ opt_tok b t <> [].
Proof. destruct l; done. Qed.

Lemma when_str_Join v k l t :
  (forall w, k w = w +:+ " " +:+ t) -> l <> [] ->
  when_str v k (Join l " ") = Join (l ++ opt_tok (bool_decide (v = "")) t) " ".
Proof.
  intros Hk Hl. unfold when_str. case_bool_decide; cbn; [by rewrite app_nil_r|].
  by rewrite Hk, Join_snoc.
Qed.

Lemma when_int_Join v k l t :
  (forall w, k w = w +:+ " " +:+ t) -> l <> [] ->
  when_int v k (Join l " ") = Join (l ++ opt_tok (v =? 0)%Z t) " ".
Proof.
  intros Hk Hl. unfold when_int. case_match; cbn; [by rewrite app_nil_r|].
  by rewrite Hk, Join_snoc.
Qed.

#[local] Hint Resolve opt_tok_ne : core.

(** The text is its tokens separated by blanks. *)
Lemma Flow_String_tokens f : f_raw f = "" -> Flow_String f = Join (flow_tokens f) " ".
Proof.
  intros Hraw. unfold Flow_String. rewrite Hraw, bool_decide_eq_true_2 by done.
  cbn [negb]. unfold flow_tokens.
  change ("table=" +:+ Itoa (f_table f) +:+ " priority=" +:+ Itoa (f_priority f)) with
    (Join ["table=" +:+ Itoa (f_table f); "priority=" +:+ Itoa (f_priority f)] " ").
  rewrite (when_str_Join _ _ _ (f_protocol f)) by auto.
  rewrite (when_str_Join _ _ _ ("nw_dst=" +:+ f_ipDest f)) by auto.
  rewrite (when_str_Join _ _ _ ("nw_src=" +:+ f_ipSrc f)) by auto.
  rewrite (when_str_Join _ _ _ ("arp_tpa=" +:+ f_arpDest f)) by auto.
  rewrite (when_str_Join _ _ _ ("arp_spa=" +:+ f_arpSrc f)) by auto.
  rewrite (when_int_Join _ _ _ ("tcp_dst=" +:+ Itoa (f_tcpDestPort f))) by auto 20.
  rewrite (when_int_Join _ _ _ ("tcp_src=" +:+ Itoa (f_tcpSrcPort f))) by auto 20.
  rewrite (when_int_Join _ _ _ ("udp_dst=" +:+ Itoa (f_udpDestPort f))) by auto 20.
  rewrite (when_int_Join _ _ _ ("udp_src=" +:+ Itoa (f_udpSrcPort f))) by auto 20.
  rewrite <- Join_snoc by auto 20. by rewrite <- !app_assoc.
Qed.

Lemma fold_opt_app {A B} (step : A -> B -> option B) l1 l2 b :
  fold_opt step (l1 ++ l2) b = fold_opt step l1 b ≫= fold_opt step l2.
Proof.
  revert b. induction l1 as [|a l1 IH]; intros b; cbn; [done|].
  destruct (step a b); cbn; auto.
Qed.

(** A token that is left out when its field is zero, read into an entry whose
    field is zero. *)
Lemma fold_opt_tok (step : string -> Flow -> option Flow) b t g (f : Flow) :
  (b = true -> g = f) -> (b = false -> step t f = Some g) ->
  fold_opt step (opt_tok b t) f = Some g.
Proof.
  destruct b; cbn; [intros -> _; done|]. intros _ ->; done.
Qed.

Lemma Join_merge l1 a b l2 sep :
  Join (l1 ++ a :: b :: l2) sep = Join (l1 ++ (a +:+ sep +:+ b) :: l2) sep.
Proof.
  induction l1 as [|x l1 IH].
  - cbn [app]. destruct l2; rewrite ?Join_cons, ?str_app_assoc; done.
  - destruct l1; cbn [app] in *; rewrite !(Join_cons x); by rewrite IH.
Qed.

Definition action_pieces (f : Flow) : list string :=
  opt_tok (bool_decide (f_modDlDest f = "")) ("mod_dl_dst:" +:+ f_modDlDest f) ++
  opt_tok (bool_decide (f_tunDest f = "")) ("set_field:" +:+ f_tunDest f +:+ arrow_tun) ++
  opt_tok (f_output f =? 0)%Z ("output:" +:+ Itoa (f_output f)) ++
  (if (f_resubmit f =? 0)%Z then [] else ["resubmit("; Itoa (f_resubmit f) +:+ ")"]) ++
  opt_tok (negb (f_drop f)) "drop" ++
  opt_tok (negb (f_local f)) "local".

Definition joined_pieces (f : Flow) : list string :=
  opt_tok (bool_decide (f_modDlDest f = "")) ("mod_dl_dst:" +:+ f_modDlDest f) ++
  opt_tok (bool_decide (f_tunDest f = "")) ("set_field:" +:+ f_tunDest f +:+ arrow_tun) ++
  opt_tok (f_output f =? 0)%Z ("output:" +:+ Itoa (f_output f)) ++
  opt_tok (f_resubmit f =? 0)%Z ("resubmit@" +:+ Itoa (f_resubmit f) +:+ ")") ++
  opt_tok (negb (f_drop f)) "drop" ++
  opt_tok (negb (f_local f)) "local".

Lemma actionSet_pieces f : Join (actionSet f) "," = Join (action_pieces f) ",".
Proof.
  unfold actionSet, action_pieces.
  set (A := opt_tok _ ("mod_dl_dst:" +:+ _)). set (B := opt_tok _ ("set_field:" +:+ _)).
  set (C := opt_tok _ ("output:" +:+ _)).
  assert (HDE : forall b t, opt_tok (negb b) t = if b then [t] else []) by by intros [].
  rewrite !HDE. set (T := (if f_drop f then _ else _) ++ (if f_local f then _ else _)).
  destruct (f_resubmit f =? 0)%Z; [done|].
  pose proof (Join_merge (A ++ B ++ C) "resubmit(" (Itoa (f_resubmit f) +:+ ")") T ",") as Hm.
  rewrite <- !app_assoc in Hm. symmetry. exact Hm.
Qed.

Lemma join_resubmit_cons a l :
  a <> "resubmit(" -> join_resubmit (a :: l) = a :: join_resubmit l.
Proof. intros Ha. destruct l; cbn; [done|]. by rewrite bool_decide_eq_false_2. Qed.

Lemma join_resubmit_opt b t l :
  t <> "resubmit(" -> join_resubmit (opt_tok b t ++ l) = opt_tok b t ++ join_resubmit l.
Proof. intros Ht. destruct b; [done|]. by apply join_resubmit_cons. Qed.

Lemma join_resubmit_pieces f : join_resubmit (action_pieces f) = joined_pieces f.
Proof.
  unfold action_pieces, joined_pieces.
  rewrite !join_resubmit_opt by done. do 3 f_equal.
  assert (Htail : join_resubmit (opt_tok (negb (f_drop f)) "drop" ++ opt_tok (negb (f_local f)) "local")
    = opt_tok (negb (f_drop f)) "drop" ++ opt_tok (negb (f_local f)) "local")
    by by destruct (f_drop f), (f_local f).
  destruct (f_resubmit f =? 0)%Z; cbn [opt_tok app]; [done|].
  cbn [join_resubmit]. rewrite bool_decide_eq_true_2 by done. by rewrite Htail.
Qed.

Lemma clean_lacks c s : clean s -> clean_byte c = false -> has_char c s = false.
Proof. apply has_char_forall. Qed.

Lemma Itoa_clean z : clean (Itoa z).
Proof.
  eapply string_forall_impl; [|apply Itoa_bytes]. intros c.
  unfold is_int_byte, clean_byte, is_digit, in_range. lia.
Qed.

Lemma Forall_opt_tok (P : string -> Prop) b t : P t -> Forall P (opt_tok b t).
Proof. destruct b; repeat constructor; done. Qed.

Lemma clean_app_lacks c (a b : string) :
  clean_byte c = false -> has_char c a = false -> clean b -> has_char c (a +:+ b) = false.
Proof. intros Hc Ha Hb. by rewrite has_char_app, Ha, (clean_lacks c b). Qed.

Lemma pieces_lack c f :
  clean (f_tunDest f) -> clean (f_modDlDest f) -> clean_byte c = false ->
  has_char c "mod_dl_dst:" = false -> has_char c "set_field:" = false ->
  has_char c arrow_tun = false -> has_char c "output:" = false ->
  has_char c "resubmit(" = false -> has_char c ")" = false ->
  has_char c "drop" = false -> has_char c "local" = false ->
  Forall (fun s => has_char c s = false) (action_pieces f).
Proof.
  intros. unfold action_pieces.
  repeat apply Forall_app_2; try (apply Forall_opt_tok); try done;
    try (apply clean_app_lacks; auto using Itoa_clean; fail).
  - rewrite !has_char_app, (clean_lacks c (f_tunDest f)) by done. by apply orb_false_iff.
  - destruct (_ =? 0)%Z; repeat constructor; [done|].
    rewrite has_char_app, (clean_lacks c) by auto using Itoa_clean. done.
Qed.

(** Reads one optional clause of the text: the goal is a [fold_opt] whose
    first tokens are [opt_tok]; [g] is the entry after them. *)
Ltac read_opt g :=
  rewrite fold_opt_app, (fold_opt_tok _ _ _ g); cbn [mbind option_bind];
  [|let H := fresh in intros H;
    first [apply bool_decide_eq_true in H | apply Z.eqb_eq in H]; subst; reflexivity
   |intros _].

Lemma parse_actions_ok f g :
  clean (f_tunDest f) -> clean (f_modDlDest f) ->
  is_int64 (f_output f) -> is_int64 (f_resubmit f) ->
  f_tunDest g = "" -> f_modDlDest g = "" -> f_output g = 0%Z -> f_resubmit g = 0%Z ->
  f_drop g = false -> f_local g = false ->
  parse_actions (Join (actionSet f) ",") g =
  Some (MkFlow (f_table g) (f_priority g) (f_protocol g) (f_ipDest g) (f_ipSrc g)
    (f_arpDest g) (f_arpSrc g) (f_tcpDestPort g) (f_tcpSrcPort g) (f_udpDestPort g)
    (f_udpSrcPort g) (f_tunDest f) (f_modDlDest f) (f_output f) (f_resubmit f)
    (f_drop f) (f_local f) (f_raw g)).
Proof.
  intros Htun Hmod Hout Hres. destruct f as [t p pr id isr ad asr td ts ud us tu md o r d l w].
  destruct g as [t' p' pr' id' isr' ad' asr' td' ts' ud' us' tu' md' o' r' d' l' w'].
  cbn [f_table f_priority f_protocol f_ipDest f_ipSrc f_arpDest f_arpSrc f_tcpDestPort
    f_tcpSrcPort f_udpDestPort f_udpSrcPort f_tunDest f_modDlDest f_output f_resubmit
    f_drop f_local f_raw] in *. intros -> -> -> -> -> ->.
  rewrite actionSet_pieces. unfold parse_actions.
  assert (Hfold : fold_opt parse_action
    (joined_pieces (MkFlow t p pr id isr ad asr td ts ud us tu md o r d l w))
    (MkFlow t' p' pr' id' isr' ad' asr' td' ts' ud' us' "" "" 0 0 false false w') =
    Some (MkFlow t' p' pr' id' isr' ad' asr' td' ts' ud' us' tu md o r d l w')).
  { unfold joined_pieces; cbn [f_tunDest f_modDlDest f_output f_resubmit f_drop f_local].
    read_opt (MkFlow t' p' pr' id' isr' ad' asr' td' ts' ud' us' "" md 0 0 false false w');
      [|reflexivity].
    read_opt (MkFlow t' p' pr' id' isr' ad' asr' td' ts' ud' us' tu md 0 0 false false w').
    2:{ change (Some (WithActionTunnelDest (TrimSuffix (tu +:+ arrow_tun) arrow_tun)
          (MkFlow t' p' pr' id' isr' ad' asr' td' ts' ud' us' "" md 0 0 false false w')) =
          Some (MkFlow t' p' pr' id' isr' ad' asr' td' ts' ud' us' tu md 0 0 false false w')).
        by rewrite TrimSuffix_app. }
    read_opt (MkFlow t' p' pr' id' isr' ad' asr' td' ts' ud' us' tu md o 0 false false w').
    2:{ change (Some (WithActionOutputPort (fst (Atoi (Itoa o)))
          (MkFlow t' p' pr' id' isr' ad' asr' td' ts' ud' us' tu md 0 0 false false w')) =
          Some (MkFlow t' p' pr' id' isr' ad' asr' td' ts' ud' us' tu md o 0 false false w')).
        by rewrite Atoi_Itoa. }
    read_opt (MkFlow t' p' pr' id' isr' ad' asr' td' ts' ud' us' tu md o r false false w').
    2:{ change (Some (WithActionResubmit (fst (Atoi (TrimSuffix (Itoa r +:+ ")") ")")))
          (MkFlow t' p' pr' id' isr' ad' asr' td' ts' ud' us' tu md o 0 false false w')) =
          Some (MkFlow t' p' pr' id' isr' ad' asr' td' ts' ud' us' tu md o r false false w')).
        by rewrite TrimSuffix_app, Atoi_Itoa. }
    by destruct d, l. }
  set (f := MkFlow t p pr id isr ad asr td ts ud us tu md o r d l w) in *.
  destruct (decide (action_pieces f = [])) as [Hnil|Hne].
  - rewrite <- join_resubmit_pieces, Hnil in Hfold. rewrite Hnil. exact Hfold.
  - rewrite Split_Join, join_resubmit_pieces by (done || by apply pieces_lack). exact Hfold.
Qed.

Lemma parse_token_protocol p f : clean p -> parse_token p f = Some (WithProtocol p f).
Proof.
  intros Hp. unfold parse_token.
  by rewrite (proj2 (cut_byte_None _ _) (clean_lacks "="%char p Hp eq_refl)).
Qed.

Lemma parse_token_int (set : Z -> Flow -> Flow) k z f :
  is_int64 z ->
  parse_token (k +:+ Itoa z) f = Some (set (fst (Atoi (Itoa z))) f) ->
  parse_token (k +:+ Itoa z) f = Some (set z f).
Proof. intros Hz ->. by rewrite Atoi_Itoa. Qed.

Lemma parse_flow_tokens f :
  flow_ok f -> fold_opt parse_token (flow_tokens f) NewFlow = Some f.
Proof.
  intros [Hi Hm [Ht Hd] Hr].
  destruct f as [t p pr id isr ad asr td ts ud us tu md o r d l w].
  cbn [f_table f_priority f_protocol f_ipDest f_ipSrc f_arpDest f_arpSrc f_tcpDestPort
    f_tcpSrcPort f_udpDestPort f_udpSrcPort f_tunDest f_modDlDest f_output f_resubmit
    f_drop f_local f_raw] in *. subst w.
  destruct Hi as (Ht' & Hp & Htd & Hts & Hud & Hus & Ho & Hre).
  destruct Hm as (Hpr & Hid & His & Had & Has).
  unfold flow_tokens.
  cbn [f_table f_priority f_protocol f_ipDest f_ipSrc f_arpDest f_arpSrc f_tcpDestPort
    f_tcpSrcPort f_udpDestPort f_udpSrcPort].
  set (acts := actionSet _). rewrite fold_opt_app. cbn [fold_opt].
  rewrite (parse_token_int WithTable "table=" t) by done. cbn [mbind option_bind].
  rewrite (parse_token_int WithPriority "priority=" p) by done. cbn [mbind option_bind].
  read_opt (MkFlow t p pr "" "" "" "" 0 0 0 0 "" "" 0 0 false false "");
    [|by apply parse_token_protocol].
  read_opt (MkFlow t p pr id "" "" "" 0 0 0 0 "" "" 0 0 false false ""); [|done].
  read_opt (MkFlow t p pr id isr "" "" 0 0 0 0 "" "" 0 0 false false ""); [|done].
  read_opt (MkFlow t p pr id isr ad "" 0 0 0 0 "" "" 0 0 false false ""); [|done].
  read_opt (MkFlow t p pr id isr ad asr 0 0 0 0 "" "" 0 0 false false ""); [|done].
  read_opt (MkFlow t p pr id isr ad asr td 0 0 0 "" "" 0 0 false false "");
    [|by apply (parse_token_int WithTCPDestPort "tcp_dst=" td)].
  read_opt (MkFlow t p pr id isr ad asr td ts 0 0 "" "" 0 0 false false "");
    [|by apply (parse_token_int WithTCPSrcPort "tcp_src=" ts)].
  read_opt (MkFlow t p pr id isr ad asr td ts ud 0 "" "" 0 0 false false "");
    [|by apply (parse_token_int WithUDPDestPort "udp_dst=" ud)].
  read_opt (MkFlow t p pr id isr ad asr td ts ud us "" "" 0 0 false false "");
    [|by apply (parse_token_int WithUDPSrcPort "udp_src=" us)].
  cbn [fold_opt].
  change (parse_token ("actions=" +:+ Join acts ",") ?g) with (parse_actions (Join acts ",") g).
  subst acts. rewrite parse_actions_ok by done. done.
Qed.

Lemma tokens_lack c f :
  flow_ok f -> clean_byte c = false ->
  forallb (fun k => negb (has_char c k)) ["table="; "priority="; "nw_dst="; "nw_src=";
    "arp_tpa="; "arp_spa="; "tcp_dst="; "tcp_src="; "udp_dst="; "udp_src="; "actions=";
    "mod_dl_dst:"; "set_field:"; arrow_tun; "output:"; "resubmit("; ")"; "drop"; "local"] = true ->
  c <> ","%char ->
  Forall (fun s => has_char c s = false) (flow_tokens f).
Proof.
  intros [Hi (? & ? & ? & ? & ?) [Ht Hd] Hr] Hc Hk Hcomma. cbn [forallb] in Hk.
  repeat match type of Hk with _ && _ = true =>
    let H := fresh in apply andb_true_iff in Hk as [H Hk]; apply negb_true_iff in H end.
  unfold flow_tokens.
  repeat first [apply Forall_app_2 | apply Forall_cons_2 | apply Forall_nil_2 | apply Forall_opt_tok];
    try (by apply clean_lacks); try (apply clean_app_lacks; auto using Itoa_clean; fail).
  rewrite has_char_app, actionSet_pieces. apply orb_false_iff. split; [done|].
  pose proof (pieces_lack c f Ht Hd Hc) as Hp.
  assert (Hj : forall l, Forall (fun s => has_char c s = false) l -> has_char c (Join l ",") = false).
  { induction 1 as [|x l Hx Hl IH]; [done|]. destruct l; [done|].
    rewrite Join_cons, !has_char_app, Hx, IH. cbn.
    rewrite bool_decide_eq_false_2 by congruence. done. }
  apply Hj, Hp; done.
Qed.

(** Reading an entry back from its text. *)
Lemma parse_flow_String f : flow_ok f -> parse_flow (Flow_String f) = Some f.
Proof.
  intros Hf. unfold parse_flow. rewrite Flow_String_tokens by apply Hf.
  rewrite Split_Join; [by apply parse_flow_tokens|done|].
  by apply tokens_lack.
Qed.

(** ** The buffer as a list of entries *)

(** The text of a list of entries, one per line. *)
Fixpoint render (fs : list Flow) : string :=
  match fs with
  | [] => ""
  | f :: fs' => Flow_String f +:+ newline +:+ render fs'
  end.

Lemma render_app fs gs : render (fs ++ gs) = render fs +:+ render gs.
Proof.
  induction fs as [|f fs IH]; [done|]. cbn [app render].
  by rewrite IH, !str_app_assoc.
Qed.

Definition add_flows (fs : list Flow) (b : FlowsBuffer) : FlowsBuffer :=
  {| buffer := buffer b +:+ render fs |}.

Lemma add_flows_nil b : add_flows [] b = b.
Proof. destruct b. unfold add_flows. cbn. by rewrite str_app_nil_r. Qed.

Lemma add_flows_app fs gs b : add_flows (fs ++ gs) b = add_flows gs (add_flows fs b).
Proof. unfold add_flows. cbn [buffer]. by rewrite render_app, str_app_assoc. Qed.

Lemma AddFlow_add f b : AddFlow f b = add_flows [f] b.
Proof.
  unfold AddFlow, add_flows. cbn [render]. by rewrite str_app_nil_r, str_app_assoc.
Qed.

Lemma foldl_AddFlow fs b : foldl (fun b f => AddFlow f b) b fs = add_flows fs b.
Proof.
  revert b. induction fs as [|f fs IH]; intros b; cbn [foldl].
  - by rewrite add_flows_nil.
  - by rewrite IH, AddFlow_add, <- add_flows_app.
Qed.

#[export] Hint Rewrite add_flows_nil : gostr.

(** ovs-ofctl reads its input line by line; the last line of a text that ends
    in a newline is empty and skipped. *)
Definition nl : ascii := Ascii.ascii_of_nat 10.

Definition parse_buffer (text : string) : option (list Flow) :=
  mapM parse_flow (filter (fun l => l <> "") (Split text nl)).

Lemma Split_render fs :
  Forall (fun f => has_char nl (Flow_String f) = false) fs ->
  Split (render fs) nl = (Flow_String <$> fs) ++ [""].
Proof.
  induction 1 as [|f fs Hf Hfs IH]; [done|]. cbn [render].
  change (newline +:+ render fs) with (String nl (render fs)).
  rewrite Split_app by done. by rewrite IH.
Qed.

Lemma Flow_String_ne f : f_raw f = "" -> Flow_String f <> "".
Proof. intros Hr. by rewrite Flow_String_tokens. Qed.

Lemma Join_lack c l sep :
  Forall (fun s => has_char c s = false) l -> has_char c sep = false ->
  has_char c (Join l sep) = false.
Proof.
  intros Hl Hs. induction Hl as [|x l Hx Hl IH]; [done|]. destruct l; [done|].
  by rewrite Join_cons, !has_char_app, Hx, Hs, IH.
Qed.

Lemma Flow_String_one_line f : flow_ok f -> has_char nl (Flow_String f) = false.
Proof.
  intros Hf. rewrite Flow_String_tokens by apply Hf.
  apply Join_lack; [|done]. by apply tokens_lack.
Qed.

Lemma parse_buffer_render fs :
  Forall flow_ok fs -> parse_buffer (render fs) = Some fs.
Proof.
  intros Hfs. unfold parse_buffer. rewrite Split_render.
  2:{ eapply Forall_impl; [exact Hfs|]. apply Flow_String_one_line. }
  rewrite filter_app.
  assert (Hf : filter (fun l => l <> "") (Flow_String <$> fs) = Flow_String <$> fs).
  { induction Hfs as [|f fs Hf Hfs IH]; [done|]. cbn [fmap list_fmap].
    rewrite filter_cons_True by (apply Flow_String_ne, Hf). by rewrite IH. }
  rewrite Hf. change (filter (fun l => l <> "") [""]) with (@nil string). rewrite app_nil_r.
  apply mapM_Some. clear Hf. induction Hfs as [|f fs Hf Hfs IH]; constructor; [|done].
  by apply parse_flow_String.
Qed.

(** ** Properties *)

(** C29.  The text of an entry determines it: reading what Flow.String prints
    gives back every match and action, for all entries whose strings contain
    no separator of the syntax and whose numbers fit an [int]. *)
Theorem flow_roundtrip f : flow_ok f -> parse_flow (Flow_String f) = Some f.
Proof. apply parse_flow_String. Qed.

(** The buffer keeps what is added, in order and nothing else: after a
    Reset and any number of AddFlow, its text reads back, one entry per line,
    as the entries added. *)
Theorem buffer_accumulates b fs :
  Forall flow_ok fs ->
  parse_buffer (FlowsBuffer_String (foldl (fun b f => AddFlow f b) (Reset b) fs)) = Some fs.
Proof.
  intros Hfs. rewrite foldl_AddFlow. unfold FlowsBuffer_String, add_flows, Reset. cbn [buffer].
  rewrite str_app_nil_l. by apply parse_buffer_render.
Qed.

Definition sample_flow : Flow :=
  NewFlow ∙ WithTable 10 ∙ WithPriority 1000 ∙ WithProtocol "tcp" ∙ WithTCPDestPort 80 ∙
  WithIPSrc "10.2.0.5" ∙ WithIPDest "10.1.0.7" ∙ WithActionResubmit 20.

Lemma sample_flow_ok : flow_ok sample_flow.
Proof. repeat split; cbn; unfold is_int64, min_int64, max_int64; try reflexivity; lia. Qed.

Lemma flow_roundtrip_witness :
  Flow_String sample_flow =
    "table=10 priority=1000 tcp nw_dst=10.1.0.7 nw_src=10.2.0.5 tcp_dst=80 actions=resubmit(,20)" /\
  parse_flow (Flow_String sample_flow) = Some sample_flow.
Proof. split; [reflexivity|]. apply flow_roundtrip. exact sample_flow_ok. Defined.

Lemma buffer_accumulates_witness :
  parse_buffer (FlowsBuffer_String (AddFlow sample_flow (AddFlow sample_flow (Reset NewFlowsBuffer)))) =
  Some [sample_flow; sample_flow].
Proof.
  apply (buffer_accumulates NewFlowsBuffer [sample_flow; sample_flow]).
  repeat constructor; apply sample_flow_ok.
Defined.
