(* ===== verification/Objects.v ===== *)
(** * Kubernetes objects

    The fields of the API objects that the program reads: pods, namespaces,
    nodes and network policies ([vendor/k8s.io/api]), label selectors and
    [IntOrString] ([vendor/k8s.io/apimachinery]), and the repository's own
    [VSwitchConfig] ([apis/kvswitch/v1alpha1/types.go]).  A pointer field that
    may be nil is an [option]; a Go map is a [gmap]. *)
From S2P Require Import Prelude GoStrings.

Abbreviation labels_map := (gmap string string).

Record LabelSelectorRequirement := {
  lsr_Key : string;
  lsr_Operator : string;
  lsr_Values : list string
}.

Record LabelSelector := {
  MatchLabels : labels_map;
  MatchExpressions : list LabelSelectorRequirement
}.

Record Pod := {
  pod_Namespace : string;
  pod_Name : string;
  pod_Labels : labels_map;
  pod_PodIP : string       (* Status.PodIP *)
}.

Record Namespace := {
  ns_Name : string;
  ns_Labels : labels_map
}.

(** corev1.NodeAddress and the two address types the program looks for. *)
Record NodeAddress := { na_Type : string; na_Address : string }.
Definition NodeInternalIP : string := "InternalIP".
Definition NodeExternalIP : string := "ExternalIP".

Record Node := {
  node_Name : string;
  node_Addresses : list NodeAddress;   (* Status.Addresses *)
  node_PodCIDR : string                (* Spec.PodCIDR *)
}.

(** [IntOrString]: [Type] is [Int] (0) or [String] (1). *)
Record IntOrString := {
  ios_Type : Z;
  ios_IntVal : Z;
  ios_StrVal : string
}.
Definition IntType : Z := 0.
Definition StringType : Z := 1.

(** [func (intstr *IntOrString) IntValue() int]: the conversion error of a
    string is dropped, its value kept. *)
Definition IntValue (i : IntOrString) : Z :=
  if (ios_Type i =? StringType)%Z then fst (Atoi (ios_StrVal i)) else ios_IntVal i.

Record NetworkPolicyPort := {
  npp_Protocol : option string;
  npp_Port : option IntOrString
}.

Record IPBlock := { CIDR : string; Except : list string }.

Record NetworkPolicyPeer := {
  peer_PodSelector : option LabelSelector;
  peer_NamespaceSelector : option LabelSelector;
  peer_IPBlock : option IPBlock
}.

Record NetworkPolicyIngressRule := {
  ing_Ports : list NetworkPolicyPort;
  ing_From : list NetworkPolicyPeer
}.

Record NetworkPolicyEgressRule := {
  eg_Ports : list NetworkPolicyPort;
  eg_To : list NetworkPolicyPeer
}.

Record NetworkPolicySpec := {
  np_PodSelector : LabelSelector;
  np_Ingress : list NetworkPolicyIngressRule;
  np_Egress : list NetworkPolicyEgressRule;
  np_PolicyTypes : list string
}.

Record NetworkPolicy := {
  np_Namespace : string;
  np_Name : string;
  np_Spec : NetworkPolicySpec
}.

Record VSwitchConfigSpec := {
  PodCIDR : string;
  ClusterCIDR : string;
  ServiceCIDR : string;
  OverlayIP : string;
  OverlayType : string
}.

Record VSwitchConfig := {
  vsc_Name : string;
  vsc_Spec : VSwitchConfigSpec
}.

#[export] Instance VSwitchConfigSpec_eq_dec : EqDecision VSwitchConfigSpec.
Proof. solve_decision. Defined.
#[export] Instance VSwitchConfig_eq_dec : EqDecision VSwitchConfig.
Proof. solve_decision. Defined.
#[export] Instance Pod_eq_dec : EqDecision Pod.
Proof. solve_decision. Defined.

(** [in.DeepCopy()] of a non-nil config: an equal value in fresh memory. *)
Definition VSwitchConfig_DeepCopy (c : VSwitchConfig) : VSwitchConfig :=
  {| vsc_Name := vsc_Name c; vsc_Spec := vsc_Spec c |}.

(** The [obj interface{}] an informer hands to an event handler: an object of
    the watched type, the tombstone [cache.DeletedFinalStateUnknown] of a
    deletion the watch missed, with the last object known, or something else,
    nil included. *)
Inductive EventObj (T : Type) :=
| ObjOf (t : T)
| ObjTombstone (key : string) (last : EventObj T)
| ObjOther.
Arguments ObjOf {T} t.
Arguments ObjTombstone {T} key last.
Arguments ObjOther {T}.

(** The type assertion to a pointer to [T], with its [ok]. *)
Definition type_assert {T} (o : EventObj T) : option T :=
  match o with ObjOf t => Some t | _ => None end.

(** What the listers need of an object's metadata. *)
Class HasMeta (T : Type) := {
  meta_Namespace : T -> string;
  meta_Labels : T -> labels_map
}.
#[export] Instance Pod_meta : HasMeta Pod :=
  {| meta_Namespace := pod_Namespace; meta_Labels := pod_Labels |}.
#[export] Instance Namespace_meta : HasMeta Namespace :=
  {| meta_Namespace := fun _ => ""; meta_Labels := ns_Labels |}.

Lemma IntValue_bounds i :
  is_int64 (ios_IntVal i) -> is_int64 (IntValue i).
Proof. unfold IntValue. case_match; [|done]. intros _. apply Atoi_int64. Qed.
