(* ===== verification/DeepCopy.v ===== *)
(** * Deep copies

    [apis/kvswitch/v1alpha1/zz_generated.deepcopy.go] on a store of memory
    cells, because sharing is all that a deep copy is about.  A pointer, map or
    slice is an optional location (nil is [None]); structs are values.  The
    components that copy are instances of [Copyable]: a value stands for what
    it points to ([rep], with its footprint, the locations it reaches), and the
    copy stands for the same and reaches fresh locations only.

    [Initializers] and [ManagedFields] of the metadata, which the program never
    looks at, are one cell with a tree of any type in it. *)
From S2P Require Import Prelude Objects.

(** ** Memory *)

Abbreviation loc := nat.

Section memory.
Context {Tree : Type}.

(** [metav1.OwnerReference]. *)
Record OwnerReference := {
  or_APIVersion : string; or_Kind : string; or_Name : string; or_UID : string;
  or_Controller : option loc; or_BlockOwnerDeletion : option loc
}.

(** [metav1.ObjectMeta]. *)
Record ObjectMeta := {
  om_Name : string; om_GenerateName : string; om_Namespace : string; om_SelfLink : string;
  om_UID : string; om_ResourceVersion : string; om_Generation : Z; om_CreationTimestamp : Z;
  om_DeletionTimestamp : option loc; om_DeletionGracePeriodSeconds : option loc;
  om_Labels : option loc; om_Annotations : option loc; om_OwnerReferences : option loc;
  om_Initializers : option loc; om_Finalizers : option loc; om_ClusterName : string;
  om_ManagedFields : option loc
}.

Record TypeMeta := { tm_Kind : string; tm_APIVersion : string }.
Record ListMeta := { lm_SelfLink : string; lm_ResourceVersion : string; lm_Continue : string }.

(** [VSwitchConfig] and [VSwitchConfigList] as they are in memory. *)
Record ConfigObject := { co_TypeMeta : TypeMeta; co_ObjectMeta : ObjectMeta; co_Spec : VSwitchConfigSpec }.
Record ConfigList := { cl_TypeMeta : TypeMeta; cl_ListMeta : ListMeta; cl_Items : option loc }.

Inductive cell :=
| CTime (t : Z)
| CInt64 (n : Z)
| CBool (b : bool)
| CMap (m : gmap string string)
| CStrings (l : list string)
| CTree (t : Tree)
| COwners (l : list OwnerReference)
| CItems (l : list ConfigObject)
| CConfig (c : ConfigObject)
| CConfigList (l : ConfigList)
| CSpec (s : VSwitchConfigSpec).

Abbreviation heap := (gmap loc cell).

(** [new] and [make]. *)
Definition alloc (c : cell) : M heap loc := fun h => let l := fresh (dom h) in (Ok l, <[l := c]> h).
(** [*p]; a nil or wrong pointer panics. *)
Definition load (l : loc) : M heap cell := fun h =>
  match h !! l with Some c => (Ok c, h) | None => (Panic, h) end.
Definition store (l : loc) (c : cell) : M heap unit := fun h => (Ok tt, <[l := c]> h).

(** ** The code *)

(** A pointer to what is itself copied by [into]: nil for nil, else [into] a
    fresh cell.  [get] is the type of the pointer. *)
Definition copy_through {A} (get : cell -> option A) (wrap : A -> cell) (into : A -> M heap A)
    (p : option loc) : M heap (option loc) :=
  match p with
  | None => mret None
  | Some l =>
      c ← load l;
      match get c with
      | Some a => a' ← into a; l' ← alloc (wrap a'); mret (Some l')
      | None => panic
      end
  end.

(** [if in.P != nil] then a [new] cell with the same content. *)
Definition copy_pointer : option loc -> M heap (option loc) := copy_through Some id mret.

Definition as_map (c : cell) : option (gmap string string) := match c with CMap m => Some m | _ => None end.
Definition as_owners (c : cell) : option (list OwnerReference) := match c with COwners l => Some l | _ => None end.
Definition as_items (c : cell) : option (list ConfigObject) := match c with CItems l => Some l | _ => None end.
Definition as_config (c : cell) : option ConfigObject := match c with CConfig v => Some v | _ => None end.
Definition as_list (c : cell) : option ConfigList := match c with CConfigList v => Some v | _ => None end.
Definition as_spec (c : cell) : option VSwitchConfigSpec := match c with CSpec v => Some v | _ => None end.

(** The loop [for key, val := range in] into a new map. *)
Definition copy_entries (m : gmap string string) : M heap (gmap string string) :=
  mret (fold_left (fun out kv => <[kv.1 := kv.2]> out) (map_to_list m) ∅).
Definition copy_map : option loc -> M heap (option loc) := copy_through as_map CMap copy_entries.

(** [for i := range *in] with a [DeepCopyInto] of the [i]th item. *)
Fixpoint copy_each {A} (into : A -> M heap A) (l : list A) : M heap (list A) :=
  match l with
  | [] => mret []
  | a :: l' => b ← into a; bs ← copy_each into l'; mret (b :: bs)
  end.

Definition OwnerReference_DeepCopyInto (o : OwnerReference) : M heap OwnerReference :=
  controller ← copy_pointer (or_Controller o);
  block ← copy_pointer (or_BlockOwnerDeletion o);
  mret {| or_APIVersion := or_APIVersion o; or_Kind := or_Kind o; or_Name := or_Name o; or_UID := or_UID o;
          or_Controller := controller; or_BlockOwnerDeletion := block |}.

Definition copy_owners : option loc -> M heap (option loc) :=
  copy_through as_owners COwners (copy_each OwnerReference_DeepCopyInto).

Definition ObjectMeta_DeepCopyInto (m : ObjectMeta) : M heap ObjectMeta :=
  deletion ← copy_pointer (om_DeletionTimestamp m);
  grace ← copy_pointer (om_DeletionGracePeriodSeconds m);
  labels ← copy_map (om_Labels m);
  annotations ← copy_map (om_Annotations m);
  owners ← copy_owners (om_OwnerReferences m);
  initializers ← copy_pointer (om_Initializers m);
  finalizers ← copy_pointer (om_Finalizers m);
  managed ← copy_pointer (om_ManagedFields m);
  mret {| om_Name := om_Name m; om_GenerateName := om_GenerateName m; om_Namespace := om_Namespace m;
          om_SelfLink := om_SelfLink m; om_UID := om_UID m; om_ResourceVersion := om_ResourceVersion m;
          om_Generation := om_Generation m; om_CreationTimestamp := om_CreationTimestamp m;
          om_DeletionTimestamp := deletion; om_DeletionGracePeriodSeconds := grace;
          om_Labels := labels; om_Annotations := annotations; om_OwnerReferences := owners;
          om_Initializers := initializers; om_Finalizers := finalizers; om_ClusterName := om_ClusterName m;
          om_ManagedFields := managed |}.

Definition VSwitchConfig_DeepCopyInto (c : ConfigObject) : M heap ConfigObject :=
  meta ← ObjectMeta_DeepCopyInto (co_ObjectMeta c);
  mret {| co_TypeMeta := co_TypeMeta c; co_ObjectMeta := meta; co_Spec := co_Spec c |}.

Definition copy_items : option loc -> M heap (option loc) :=
  copy_through as_items CItems (copy_each VSwitchConfig_DeepCopyInto).

Definition VSwitchConfigList_DeepCopyInto (l : ConfigList) : M heap ConfigList :=
  items ← copy_items (cl_Items l);
  mret {| cl_TypeMeta := cl_TypeMeta l; cl_ListMeta := cl_ListMeta l; cl_Items := items |}.

Definition VSwitchConfigSpec_DeepCopyInto (s : VSwitchConfigSpec) : M heap VSwitchConfigSpec := mret s.

(** [in.DeepCopy()]: nil for nil, else [DeepCopyInto] a [new] struct. *)
Definition VSwitchConfig_DeepCopy : option loc -> M heap (option loc) :=
  copy_through as_config CConfig VSwitchConfig_DeepCopyInto.
Definition VSwitchConfigList_DeepCopy : option loc -> M heap (option loc) :=
  copy_through as_list CConfigList VSwitchConfigList_DeepCopyInto.
Definition VSwitchConfigSpec_DeepCopy : option loc -> M heap (option loc) :=
  copy_through as_spec CSpec VSwitchConfigSpec_DeepCopyInto.

(** A [runtime.Object]: nil, or a pointer of one of the two kinds. *)
Inductive Object := NilObject | ConfigPtr (l : loc) | ListPtr (l : loc).

Definition VSwitchConfig_DeepCopyObject (p : option loc) : M heap Object :=
  c ← VSwitchConfig_DeepCopy p;
  mret match c with Some l => ConfigPtr l | None => NilObject end.
Definition VSwitchConfigList_DeepCopyObject (p : option loc) : M heap Object :=
  c ← VSwitchConfigList_DeepCopy p;
  mret match c with Some l => ListPtr l | None => NilObject end.

(** The copy that [syncVSwitchConfig] changes: [newVSwitchCfg :=
    vswitchCfg.DeepCopy()] and the assignments to its [Spec]. *)
Definition set_Spec (spec : VSwitchConfigSpec) (p : option loc) : M heap unit :=
  match p with
  | None => panic
  | Some l =>
      c ← load l;
      match as_config c with
      | Some v => store l (CConfig {| co_TypeMeta := co_TypeMeta v; co_ObjectMeta := co_ObjectMeta v; co_Spec := spec |})
      | None => panic
      end
  end.
Definition newVSwitchCfg (spec : VSwitchConfigSpec) (vswitchCfg : option loc) : M heap (option loc) :=
  copy ← VSwitchConfig_DeepCopy vswitchCfg; _ ← set_Spec spec copy; mret copy.

(** ** Specification *)

(** [rep h a v L]: in memory [h] the value [a] stands for [v], and reaches
    exactly the locations [L].  A copyable kind of value depends on its
    footprint only, and [into] gives a value for the same [v] in a memory that
    has only grown, reaching new locations. *)
Class Copyable {A V} (rep : heap -> A -> V -> gset loc -> Prop) (into : A -> M heap A) : Prop := {
  cp_dom h a v L : rep h a v L -> L ⊆ dom h;
  cp_local h h' a v L : rep h a v L -> (forall l, l ∈ L -> h' !! l = h !! l) -> rep h' a v L;
  cp_copy h a v L : rep h a v L ->
    exists a' h' L', into a h = (Ok a', h') /\ h ⊆ h' /\ rep h' a' v L' /\ L' ## dom h
}.

Lemma disjoint_grow (X : gset loc) (h h' : heap) : X ## dom h' -> h ⊆ h' -> X ## dom h.
Proof. intros Hd Hh l Hl Hin. apply (Hd l Hl). by apply (subseteq_dom h h'). Qed.

Section copyable.
Context {A V : Type} (rep : heap -> A -> V -> gset loc -> Prop) (into : A -> M heap A) `{!Copyable rep into}.

Lemma cp_mono h h' a v L : rep h a v L -> h ⊆ h' -> rep h' a v L.
Proof.
  intros Hr Hh. apply (cp_local h h'); [done|]. intros l Hl.
  destruct (proj1 (elem_of_dom h l) (cp_dom _ _ _ _ Hr l Hl)) as [c Hc].
  rewrite Hc. by apply (lookup_weaken h).
Qed.

Lemma cp_bind h a v L {B} (k : A -> M heap B) :
  rep h a v L ->
  exists a' h' L', h ⊆ h' /\ rep h' a' v L' /\ L' ## dom h /\ (into a ≫= k) h = k a' h'.
Proof.
  intros Hr. destruct (cp_copy h a v L Hr) as (a' & h' & L' & Hi & Hh & Hr' & Hd).
  exists a', h', L'. do 3 (split; [done|]). unfold mbind, M_bind. by rewrite Hi.
Qed.

(** *** Pointers *)

Definition rep_through (get : cell -> option A) (h : heap) (p : option loc) (x : option V) (L : gset loc) : Prop :=
  match p, x with
  | None, None => L = ∅
  | Some l, Some v => exists c a L', h !! l = Some c /\ get c = Some a /\ rep h a v L' /\ L = {[l]} ∪ L'
  | _, _ => False
  end.

Lemma fresh_none (h : heap) : h !! fresh (dom h) = None.
Proof. apply not_elem_of_dom, is_fresh. Qed.

#[export] Instance through_copyable get wrap :
  (forall a, get (wrap a) = Some a) -> Copyable (rep_through get) (copy_through get wrap into).
Proof.
  intros Hgw. split.
  - intros h [l|] [x|] L; cbn; try done; [|by intros ->].
    intros (c & a & L' & Hl & _ & Hr & ->). apply union_subseteq. split.
    + by apply singleton_subseteq_l, elem_of_dom.
    + by eapply cp_dom.
  - intros h h' [l|] [x|] L; cbn; try done. intros (c & a & L' & Hl & Hg & Hr & ->) Hloc.
    exists c, a, L'. split; [rewrite Hloc by (by apply elem_of_union_l, elem_of_singleton_2); done|].
    split; [done|]. split; [|done]. eapply cp_local; [done|]. intros l' Hl'. apply Hloc. by apply elem_of_union_r.
  - intros h [l|] [x|] L; cbn; try done.
    + intros (c & a & L' & Hl & Hg & Hr & ->). unfold copy_through, mbind, M_bind, load.
      rewrite Hl, Hg. destruct (cp_copy h a x L' Hr) as (a' & h' & L2 & Hi & Hh & Hr' & Hd). rewrite Hi. cbn.
      set (l' := fresh (dom h')). exists (Some l'), (<[l' := wrap a']> h'), ({[l']} ∪ L2).
      assert (Hh' : h' ⊆ <[l' := wrap a']> h') by apply insert_subseteq, fresh_none.
      split; [done|]. split; [by transitivity h'|]. split.
      * exists (wrap a'), a', L2. rewrite lookup_insert_eq. do 2 (split; [done|]). split; [|done].
        by apply (cp_mono h').
      * apply disjoint_union_l. split; [|done]. apply disjoint_singleton_l. intros Hin.
        apply (subseteq_dom _ _ Hh) in Hin. by apply (is_fresh (dom h')) in Hin.
    + intros ->. exists None, h, ∅. split; [done|]. split; [done|]. split; [done|]. apply disjoint_empty_l.
Qed.

(** *** Slices *)

Definition rep_each (h : heap) (l : list A) (vs : list V) (L : gset loc) : Prop :=
  exists Ls, Forall3 (rep h) l vs Ls /\ L = ⋃ Ls.

#[export] Instance each_copyable : Copyable rep_each (copy_each into).
Proof.
  split.
  - intros h l vs L (Ls & HF & ->). induction HF as [|a v L l vs Ls Hr HF IH]; [done|].
    cbn. apply union_subseteq. split; [by eapply cp_dom|done].
  - intros h h' l vs L (Ls & HF & ->) Hloc. exists Ls. split; [|done].
    induction HF as [|a v L l vs Ls Hr HF IH]; constructor.
    + eapply cp_local; [done|]. intros l' Hl'. apply Hloc. cbn. by apply elem_of_union_l.
    + apply IH. intros l' Hl'. apply Hloc. cbn. by apply elem_of_union_r.
  - intros h l vs L (Ls & HF & ->). revert h HF. revert vs Ls.
    induction l as [|a l IH]; intros vs Ls h HF; inversion HF as [|a0 v L0 l0 vs' Ls' Hr HF']; subst.
    + exists [], h, ∅. split; [done|]. split; [done|]. split; [by exists []|]. apply disjoint_empty_l.
    + destruct (cp_bind h a v L0 (fun b => bs ← copy_each into l; mret (b :: bs)) Hr)
        as (a' & h1 & L1 & Hh1 & Hr1 & Hd1 & Hrun).
      destruct (IH vs' Ls' h1) as (l' & h2 & L2 & Hi2 & Hh2 & (Ls2 & HF2 & ->) & Hd2).
      { eapply Forall3_impl; [exact HF'|]. intros. by eapply cp_mono. }
      exists (a' :: l'), h2, (L1 ∪ ⋃ Ls2). split; [|split; [by transitivity h1|split]].
      * cbn [copy_each]. rewrite Hrun. unfold mbind, M_bind. by rewrite Hi2.
      * exists (L1 :: Ls2). split; [|done]. constructor; [|done]. by apply (cp_mono h1).
      * apply disjoint_union_l. split; [done|]. by apply (disjoint_grow _ h h1).
Qed.
End copyable.

(** *** Values without pointers *)

Definition rep_value {A} (h : heap) (a v : A) (L : gset loc) : Prop := a = v /\ L = ∅.

Lemma value_copyable {A} (into : A -> M heap A) : (forall a h, into a h = (Ok a, h)) -> Copyable rep_value into.
Proof.
  intros Hi. split.
  - by intros h a v L [_ ->].
  - done.
  - intros h a v L [-> ->]. exists v, h, ∅. rewrite Hi. do 3 (split; [done|]). apply disjoint_empty_l.
Qed.

Lemma fold_entries (l : list (string * string)) : forall out : gmap string string,
  NoDup l.*1 -> fold_left (fun out kv => <[kv.1 := kv.2]> out) l out = list_to_map l ∪ out.
Proof.
  induction l as [|[k v] l IH]; intros out Hnd; cbn; [by rewrite (left_id_L ∅ (∪))|].
  apply NoDup_cons in Hnd as [Hk Hnd]. rewrite IH by done.
  rewrite <- insert_union_r; [by rewrite insert_union_l|]. by apply not_elem_of_list_to_map_1.
Qed.

Lemma copy_entries_id m (h : heap) : copy_entries m h = (Ok m, h).
Proof.
  unfold copy_entries. rewrite fold_entries by apply NoDup_fst_map_to_list.
  by rewrite list_to_map_to_list, (right_id_L ∅ (∪)).
Qed.

#[export] Instance cell_copyable : Copyable rep_value (mret : cell -> M heap cell).
Proof. by apply value_copyable. Qed.
#[export] Instance entries_copyable : Copyable rep_value copy_entries.
Proof. apply value_copyable, copy_entries_id. Qed.
#[export] Instance spec_copyable : Copyable rep_value VSwitchConfigSpec_DeepCopyInto.
Proof. by apply value_copyable. Qed.

(** *** Structs *)

Definition rep_prod {A B V X} (r1 : heap -> A -> V -> gset loc -> Prop) (r2 : heap -> B -> X -> gset loc -> Prop)
    (h : heap) (p : A * B) (v : V * X) (L : gset loc) : Prop :=
  exists L1 L2, r1 h p.1 v.1 L1 /\ r2 h p.2 v.2 L2 /\ L = L1 ∪ L2.
Definition copy_prod {A B} (i1 : A -> M heap A) (i2 : B -> M heap B) (p : A * B) : M heap (A * B) :=
  a ← i1 p.1; b ← i2 p.2; mret (a, b).

#[export] Instance prod_copyable {A B V X} r1 r2 (i1 : A -> M heap A) (i2 : B -> M heap B) :
  Copyable (V := V) r1 i1 -> Copyable (V := X) r2 i2 -> Copyable (rep_prod r1 r2) (copy_prod i1 i2).
Proof.
  intros C1 C2. split.
  - intros h p v L (L1 & L2 & H1 & H2 & ->). apply union_subseteq.
    split; [exact (cp_dom _ _ _ _ H1)|exact (cp_dom _ _ _ _ H2)].
  - intros h h' p v L (L1 & L2 & H1 & H2 & ->) Hloc. exists L1, L2. split; [|split; [|done]].
    + apply (cp_local _ _ _ _ _ H1). intros l Hl. apply Hloc. by apply elem_of_union_l.
    + apply (cp_local _ _ _ _ _ H2). intros l Hl. apply Hloc. by apply elem_of_union_r.
  - intros h [a b] [v x] L (L1 & L2 & H1 & H2 & ->). unfold copy_prod. cbn [fst snd] in *.
    destruct (cp_bind _ i1 h a v L1 (fun a' => b' ← i2 b; mret (a', b')) H1) as (a' & h1 & L1' & Hh1 & Hr1 & Hd1 & ->).
    destruct (cp_bind _ i2 h1 b x L2 (fun b' => mret (a', b')) (cp_mono _ _ _ _ _ _ _ H2 Hh1))
      as (b' & h2 & L2' & Hh2 & Hr2 & Hd2 & ->).
    exists (a', b'), h2, (L1' ∪ L2'). split; [done|]. split; [by transitivity h1|]. split.
    + exists L1', L2'. split; [exact (cp_mono _ _ _ _ _ _ _ Hr1 Hh2)|done].
    + apply disjoint_union_l. split; [done|]. by apply (disjoint_grow _ h h1).
Qed.

(** A struct is the values [flat] of its fields that are no pointers, and the
    tuple [ptrs] of the others; [rebuild] puts other pointers in. *)
Definition rep_struct {A B V F} (flat : A -> F) (ptrs : A -> B) (r : heap -> B -> V -> gset loc -> Prop)
    (h : heap) (a : A) (v : F * V) (L : gset loc) : Prop :=
  flat a = v.1 /\ r h (ptrs a) v.2 L.

Lemma struct_copyable {A B V F} (flat : A -> F) (ptrs : A -> B) (rebuild : A -> B -> A)
    (r : heap -> B -> V -> gset loc -> Prop) (copyB : B -> M heap B) (into : A -> M heap A) :
  Copyable r copyB ->
  (forall a b, ptrs (rebuild a b) = b /\ flat (rebuild a b) = flat a) ->
  (forall a h, into a h = (b ← copyB (ptrs a); mret (rebuild a b)) h) ->
  Copyable (rep_struct flat ptrs r) into.
Proof.
  intros CB Hre Hinto. split.
  - intros h a v L [_ Hr]. exact (cp_dom _ _ _ _ Hr).
  - intros h h' a v L [Hf Hr] Hloc. split; [done|]. exact (cp_local _ _ _ _ _ Hr Hloc).
  - intros h a v L [Hf Hr]. rewrite Hinto.
    destruct (cp_bind _ copyB h (ptrs a) v.2 L (fun b => mret (rebuild a b)) Hr) as (b & h' & L' & Hh & Hr' & Hd & ->).
    exists (rebuild a b), h', L'. split; [done|]. split; [done|]. split; [|done].
    unfold rep_struct. destruct (Hre a b) as [-> ->]. done.
Qed.

(** *** The API types *)

(** What a pointer to a leaf, and one to a map, stands for. *)
Definition rep_pointer : heap -> option loc -> option cell -> gset loc -> Prop := rep_through rep_value Some.
Definition rep_map : heap -> option loc -> option (gmap string string) -> gset loc -> Prop :=
  rep_through rep_value as_map.
#[export] Instance pointer_copyable : Copyable rep_pointer copy_pointer.
Proof. by apply through_copyable; [apply cell_copyable|]. Qed.
#[export] Instance map_copyable : Copyable rep_map copy_map.
Proof. by apply through_copyable; [apply entries_copyable|]. Qed.


(** The equation of a struct's [DeepCopyInto]: the copies one after the other. *)
Ltac copies_in_order into ptrs :=
  intros ? ?; unfold into, ptrs, copy_prod, mret, M_ret, mbind, M_bind; cbn [fst snd];
  repeat (case_match; simplify_eq); done.

Definition flat_owner (o : OwnerReference) := (or_APIVersion o, or_Kind o, or_Name o, or_UID o).
Definition owner_ptrs (o : OwnerReference) := (or_Controller o, or_BlockOwnerDeletion o).
Definition rep_owner := rep_struct flat_owner owner_ptrs (rep_prod rep_pointer rep_pointer).
#[export] Instance owner_copyable : Copyable rep_owner OwnerReference_DeepCopyInto.
Proof.
  apply (struct_copyable _ _ (fun o p => {| or_APIVersion := or_APIVersion o; or_Kind := or_Kind o;
    or_Name := or_Name o; or_UID := or_UID o; or_Controller := p.1; or_BlockOwnerDeletion := p.2 |})
    _ (copy_prod copy_pointer copy_pointer)); [apply _|by intros ? []|copies_in_order OwnerReference_DeepCopyInto owner_ptrs].
Qed.

Definition rep_owners := rep_through (rep_each rep_owner) as_owners.
#[export] Instance owners_copyable : Copyable rep_owners copy_owners.
Proof. by apply through_copyable; [apply _|]. Qed.

(** The fields of the metadata that are no pointers, and the others. *)
Definition flat_meta (m : ObjectMeta) :=
  (om_Name m, om_GenerateName m, om_Namespace m, om_SelfLink m, om_UID m, om_ResourceVersion m,
   om_Generation m, om_CreationTimestamp m, om_ClusterName m).
Definition meta_ptrs (m : ObjectMeta) :=
  (om_DeletionTimestamp m, (om_DeletionGracePeriodSeconds m, (om_Labels m, (om_Annotations m,
   (om_OwnerReferences m, (om_Initializers m, (om_Finalizers m, om_ManagedFields m))))))).
Definition rep_meta := rep_struct flat_meta meta_ptrs
  (rep_prod rep_pointer (rep_prod rep_pointer (rep_prod rep_map (rep_prod rep_map
  (rep_prod rep_owners (rep_prod rep_pointer (rep_prod rep_pointer rep_pointer))))))).

#[export] Instance meta_copyable : Copyable rep_meta ObjectMeta_DeepCopyInto.
Proof.
  apply (struct_copyable _ _ (fun m '(dt, (gp, (ls, (an, (ow, (ini, (fin, mf))))))) =>
    {| om_Name := om_Name m; om_GenerateName := om_GenerateName m; om_Namespace := om_Namespace m;
       om_SelfLink := om_SelfLink m; om_UID := om_UID m; om_ResourceVersion := om_ResourceVersion m;
       om_Generation := om_Generation m; om_CreationTimestamp := om_CreationTimestamp m;
       om_DeletionTimestamp := dt; om_DeletionGracePeriodSeconds := gp; om_Labels := ls; om_Annotations := an;
       om_OwnerReferences := ow; om_Initializers := ini; om_Finalizers := fin;
       om_ClusterName := om_ClusterName m; om_ManagedFields := mf |}) _
    (copy_prod copy_pointer (copy_prod copy_pointer (copy_prod copy_map (copy_prod copy_map
    (copy_prod copy_owners (copy_prod copy_pointer (copy_prod copy_pointer copy_pointer)))))))).
  - apply _.
  - by intros m (? & ? & ? & ? & ? & ? & ? & ?).
  - copies_in_order ObjectMeta_DeepCopyInto meta_ptrs.
Qed.

Definition rep_config := rep_struct (fun c => (co_TypeMeta c, co_Spec c)) co_ObjectMeta rep_meta.
#[export] Instance config_copyable : Copyable rep_config VSwitchConfig_DeepCopyInto.
Proof.
  by apply (struct_copyable _ _ (fun c m => {| co_TypeMeta := co_TypeMeta c; co_ObjectMeta := m; co_Spec := co_Spec c |})
    _ ObjectMeta_DeepCopyInto); [apply _| |].
Qed.

Definition rep_items := rep_through (rep_each rep_config) as_items.
Definition rep_list := rep_struct (fun l => (cl_TypeMeta l, cl_ListMeta l)) cl_Items rep_items.
#[export] Instance list_copyable : Copyable rep_list VSwitchConfigList_DeepCopyInto.
Proof.
  apply (struct_copyable _ _ (fun l i => {| cl_TypeMeta := cl_TypeMeta l; cl_ListMeta := cl_ListMeta l; cl_Items := i |})
    _ copy_items); [|done|done]. by apply through_copyable; [apply _|].
Qed.

(** The pointers the program's callers hold. *)
Definition rep_config_ptr := rep_through rep_config as_config.
Definition rep_list_ptr := rep_through rep_list as_list.
#[export] Instance config_ptr_copyable : Copyable rep_config_ptr VSwitchConfig_DeepCopy.
Proof. by apply through_copyable; [apply _|]. Qed.
#[export] Instance list_ptr_copyable : Copyable rep_list_ptr VSwitchConfigList_DeepCopy.
Proof. by apply through_copyable; [apply _|]. Qed.

(** ** Properties *)

(** A copy and what it was copied from do not share memory. *)
Lemma copy_independent {A V} (r : heap -> A -> V -> gset loc -> Prop) (into : A -> M heap A) `{!Copyable r into}
    h a v L :
  r h a v L ->
  exists a' h' L', into a h = (Ok a', h') /\ r h' a v L /\ r h' a' v L' /\ L ## L' /\
    (forall h'' , (forall l, l ∈ L -> h'' !! l = h' !! l) -> r h'' a v L) /\
    (forall h'', (forall l, l ∈ L' -> h'' !! l = h' !! l) -> r h'' a' v L').
Proof.
  intros Hr. destruct (cp_copy h a v L Hr) as (a' & h' & L' & Hi & Hh & Hr' & Hd).
  pose proof (cp_mono _ _ _ _ _ _ _ Hr Hh) as Hrm. exists a', h', L'. split; [done|]. do 2 (split; [done|]). split.
  - intros l Hl Hl'. apply (Hd l Hl'). exact (cp_dom _ _ _ _ Hr l Hl).
  - split; intros h''; by apply cp_local.
Qed.
(** C38.  DeepCopy makes independent copies.  The copy of a config, or of a list
    of configs, stands for the same value, is nil exactly for nil, and shares no
    memory with the original, through the metadata's maps, slices and pointers
    included: whatever is written to the one's memory, the other stands for what
    it did. *)
Theorem DeepCopy_independent h :
  (forall p x L, rep_config_ptr h p x L ->
     exists p' h' L', VSwitchConfig_DeepCopy p h = (Ok p', h') /\
       rep_config_ptr h' p x L /\ rep_config_ptr h' p' x L' /\ L ## L' /\
       (forall h'', (forall l, l ∈ L -> h'' !! l = h' !! l) -> rep_config_ptr h'' p x L) /\
       (forall h'', (forall l, l ∈ L' -> h'' !! l = h' !! l) -> rep_config_ptr h'' p' x L')) /\
  (forall p x L, rep_list_ptr h p x L ->
     exists p' h' L', VSwitchConfigList_DeepCopy p h = (Ok p', h') /\
       rep_list_ptr h' p x L /\ rep_list_ptr h' p' x L' /\ L ## L' /\
       (forall h'', (forall l, l ∈ L -> h'' !! l = h' !! l) -> rep_list_ptr h'' p x L) /\
       (forall h'', (forall l, l ∈ L' -> h'' !! l = h' !! l) -> rep_list_ptr h'' p' x L')) /\
  VSwitchConfig_DeepCopyObject None h = (Ok NilObject, h) /\
  VSwitchConfigList_DeepCopyObject None h = (Ok NilObject, h).
Proof. split; [|split; [|done]]; intros p x L; apply (copy_independent _ _ h). Qed.

(** A sync does not touch the informer's cache.  The config that
    syncVSwitchConfig sends has the metadata of the cached one and the new
    spec, and the cached one, which other goroutines read, still stands for
    what it did. *)
Theorem newVSwitchCfg_leaves_cache h spec l tm old meta L :
  rep_config_ptr h (Some l) (Some (tm, old, meta)) L ->
  exists l' h' L', newVSwitchCfg spec (Some l) h = (Ok (Some l'), h') /\
    rep_config_ptr h' (Some l) (Some (tm, old, meta)) L /\
    rep_config_ptr h' (Some l') (Some (tm, spec, meta)) L' /\ L ## L'.
Proof.
  intros (c & a & L0 & Hl & Hg & Ha & ->). destruct c as [| | | | | | | |v| |]; try done. injection Hg as ->.
  destruct (cp_copy h a _ L0 Ha) as (a' & h1 & L1 & Hi & Hh & Ha' & Hd).
  set (l' := fresh (dom h1)). assert (Hl' : h1 !! l' = None) by apply fresh_none.
  set (c' := CConfig {| co_TypeMeta := co_TypeMeta a'; co_ObjectMeta := co_ObjectMeta a'; co_Spec := spec |}).
  assert (Hrun : newVSwitchCfg spec (Some l) h = (Ok (Some l'), <[l' := c']> (<[l' := CConfig a']> h1))).
  { unfold newVSwitchCfg, VSwitchConfig_DeepCopy, copy_through, mbind, M_bind, load. rewrite Hl. cbn [as_config].
    rewrite Hi. unfold alloc, mret, M_ret, set_Spec, mbind, M_bind, load. fold l'. by rewrite lookup_insert_eq. }
  rewrite insert_insert_eq in Hrun. assert (Hgrow : h1 ⊆ <[l' := c']> h1) by (by apply insert_subseteq).
  exists l', (<[l' := c']> h1), ({[l']} ∪ L1). split; [done|]. split; [|split].
  - exists (CConfig a), a, L0. split; [by apply (lookup_weaken h1); [apply (lookup_weaken h)|]|].
    split; [done|]. split; [|done]. exact (cp_mono _ _ _ _ _ _ _ (cp_mono _ _ _ _ _ _ _ Ha Hh) Hgrow).
  - exists c', {| co_TypeMeta := co_TypeMeta a'; co_ObjectMeta := co_ObjectMeta a'; co_Spec := spec |}, L1.
    rewrite lookup_insert_eq. do 2 (split; [done|]). split; [|done].
    destruct Ha' as [Hf Hm]. injection Hf as Ht _. split; [cbn; by rewrite Ht|]. exact (cp_mono _ _ _ _ _ _ _ Hm Hgrow).
  - assert (Hold : {[l]} ∪ L0 ⊆ dom h).
    { apply union_subseteq. split; [by apply singleton_subseteq_l, elem_of_dom|exact (cp_dom _ _ _ _ Ha)]. }
    intros x Hx [->%elem_of_singleton|Hx1]%elem_of_union; [|by apply (Hd x Hx1), Hold].
    apply (is_fresh (dom h1)). by apply (subseteq_dom _ _ Hh), Hold.
Qed.
End memory.

(** ** Witnesses *)

(** A cached config with labels, and the memory it is in. *)
Definition demo_meta : ObjectMeta :=
  {| om_Name := "node-a"; om_GenerateName := ""; om_Namespace := ""; om_SelfLink := ""; om_UID := "u1";
     om_ResourceVersion := "7"; om_Generation := 1; om_CreationTimestamp := 0; om_DeletionTimestamp := None;
     om_DeletionGracePeriodSeconds := None; om_Labels := Some 1; om_Annotations := None;
     om_OwnerReferences := None; om_Initializers := None; om_Finalizers := None; om_ClusterName := "";
     om_ManagedFields := None |}.
Definition demo_spec (ip : string) : VSwitchConfigSpec :=
  {| PodCIDR := "10.1.0.0/24"; ClusterCIDR := "10.0.0.0/8"; ServiceCIDR := ""; OverlayIP := ip; OverlayType := "vxlan" |}.
Definition demo_type : TypeMeta := {| tm_Kind := "VSwitchConfig"; tm_APIVersion := "kvswitch.io/v1alpha1" |}.
Definition demo_labels_cell : cell (Tree := unit) := CMap {["zone" := "b"]}.
Definition demo_heap : gmap nat (cell (Tree := unit)) :=
  {[ 0 := CConfig {| co_TypeMeta := demo_type; co_ObjectMeta := demo_meta; co_Spec := demo_spec "172.20.0.1" |};
     1 := demo_labels_cell ]}.

Definition demo_value :=
  (flat_meta demo_meta,
   (@None (cell (Tree := unit)), (@None (cell (Tree := unit)), (Some ({["zone" := "b"]} : gmap string string),
    (@None (gmap string string), (@None (list (string * string * string * string *
      (option (cell (Tree := unit)) * option (cell (Tree := unit))))), (@None (cell (Tree := unit)),
      (@None (cell (Tree := unit)), @None (cell (Tree := unit)))))))))).

Lemma demo_rep : exists L, rep_config_ptr demo_heap (Some 0) (Some (demo_type, demo_spec "172.20.0.1", demo_value)) L.
Proof.
  eexists. exists (CConfig {| co_TypeMeta := demo_type; co_ObjectMeta := demo_meta; co_Spec := demo_spec "172.20.0.1" |}).
  eexists _, _. split; [reflexivity|]. split; [reflexivity|]. split; [|reflexivity].
  split; [reflexivity|]. split; [reflexivity|].
  eexists _, _. split; [reflexivity|]. split; [|reflexivity].
  eexists _, _. split; [reflexivity|]. split; [|reflexivity].
  eexists _, _. split.
  { exists demo_labels_cell, {["zone" := "b"]}, ∅. split; [reflexivity|]. split; [reflexivity|]. split; [by split|reflexivity]. }
  split; [|reflexivity]. do 4 (eexists _, _; split; [reflexivity|]; split; [|reflexivity]). reflexivity.
Qed.

Lemma DeepCopy_independent_witness :
  exists p h L, VSwitchConfig_DeepCopy (Some 0) demo_heap = (Ok p, h) /\
    rep_config_ptr h p (Some (demo_type, demo_spec "172.20.0.1", demo_value)) L.
Proof.
  destruct demo_rep as [L HL].
  destruct (proj1 (DeepCopy_independent demo_heap) (Some 0) _ L HL) as (p & h & L' & Hrun & _ & Hr & _).
  exists p, h, L'. exact (conj Hrun Hr).
Defined.

Lemma newVSwitchCfg_leaves_cache_witness :
  exists l h L, newVSwitchCfg (demo_spec "172.20.0.9") (Some 0) demo_heap = (Ok (Some l), h) /\
    rep_config_ptr h (Some 0) (Some (demo_type, demo_spec "172.20.0.1", demo_value)) L.
Proof.
  destruct demo_rep as [L HL].
  destruct (newVSwitchCfg_leaves_cache demo_heap (demo_spec "172.20.0.9") 0 _ _ _ L HL)
    as (l & h & L' & Hrun & Hr & _).
  exists l, h, L. exact (conj Hrun Hr).
Defined.
