(* ===== verification/Labels.v ===== *)
(** * Label selectors and listers

    [labels.Set.AsSelector] and [Selector.Matches] of
    [vendor/k8s.io/apimachinery/pkg/labels], the label validation they call,
    and the cache listers of [vendor/k8s.io/client-go] that filter an
    informer's store with a selector.

    Main facts: a selector made from valid labels matches exactly the label
    sets that contain them ([AsSelector_Matches]), and a lister returns the
    matching objects of the namespace ([ListAllByNamespace_In]). *)
From S2P Require Import Prelude GoStrings Objects.

(** ** Validation (pkg/util/validation) *)

Definition is_alnum (c : ascii) : bool := is_digit c || is_upper c || is_lower c.
(** [-A-Za-z0-9_.] *)
Definition is_qname_ext (c : ascii) : bool :=
  is_alnum c || in_range 45 46 c || in_range 95 95 c.
(** [a-z0-9] and [-a-z0-9] *)
Definition is_dns (c : ascii) : bool := is_digit c || is_lower c.
Definition is_dns_ext (c : ascii) : bool := is_dns c || in_range 45 45 c.

Definition first_byte (p : ascii -> bool) (s : string) : bool :=
  match s with String c _ => p c | EmptyString => false end.
Fixpoint last_byte (p : ascii -> bool) (s : string) : bool :=
  match s with
  | EmptyString => false
  | String c EmptyString => p c
  | String _ s' => last_byte p s'
  end.

(** The language of the validators' regular expressions, for a class [e]
    inside a class [x]: not empty, begins and ends in [e], all of [x]. *)
Definition bracketed (e x : ascii -> bool) (s : string) : bool :=
  first_byte e s && last_byte e s && string_forall x s.

Definition qualifiedName_match : string -> bool := bracketed is_alnum is_qname_ext.
Definition labelValue_match (s : string) : bool :=
  string_is_empty s || qualifiedName_match s.
Definition dns1123Subdomain_match (s : string) : bool :=
  forallb (bracketed is_dns is_dns_ext) (Split s "."%char).

(** The validators return lists of messages; the callers only ask whether the
    list is empty. *)
Definition IsDNS1123Subdomain (s : string) : bool :=
  (String.length s <=? 253)%nat && dns1123Subdomain_match s.

Definition IsQualifiedName (s : string) : bool :=
  let name_ok n := negb (string_is_empty n) && (String.length n <=? 63)%nat
                   && qualifiedName_match n in
  match Split s "/"%char with
  | [name] => name_ok name
  | [prefix; name] => negb (string_is_empty prefix) && IsDNS1123Subdomain prefix && name_ok name
  | _ => false
  end.

Definition IsValidLabelValue (s : string) : bool :=
  (String.length s <=? 63)%nat && labelValue_match s.

(** ** Selectors *)

Inductive Operator := Op_In | Op_NotIn | Op_Equals | Op_DoubleEquals | Op_NotEquals
| Op_Exists | Op_DoesNotExist | Op_GreaterThan | Op_LessThan.

Record Requirement := {
  req_key : string;
  req_operator : Operator;
  req_strValues : list string
}.

(** [internalSelector]. *)
Abbreviation Selector := (list Requirement).

Definition Everything : Selector := [].
Definition Selector_Empty (s : Selector) : bool :=
  match s with [] => true | _ => false end.

Definition int_parses (v : string) : bool :=
  match snd (ParseInt10 v) with None => true | Some _ => false end.

(** [NewRequirement]; [None] is an error. *)
Definition NewRequirement (key : string) (op : Operator) (vals : list string)
  : option Requirement :=
  let vals_ok :=
    match op with
    | Op_In | Op_NotIn => negb (bool_decide (vals = []))
    | Op_Equals | Op_DoubleEquals | Op_NotEquals => (length vals =? 1)%nat
    | Op_Exists | Op_DoesNotExist => bool_decide (vals = [])
    | Op_GreaterThan | Op_LessThan => (length vals =? 1)%nat && forallb int_parses vals
    end in
  if IsQualifiedName key && vals_ok && forallb IsValidLabelValue vals
  then Some {| req_key := key; req_operator := op; req_strValues := vals |}
  else None.

Definition hasValue (r : Requirement) (v : string) : bool :=
  existsb (fun x => bool_decide (x = v)) (req_strValues r).

(** [func (r *Requirement) Matches(ls Labels) bool] *)
Definition Requirement_Matches (r : Requirement) (ls : labels_map) : bool :=
  match req_operator r with
  | Op_In | Op_Equals | Op_DoubleEquals =>
      match ls !! req_key r with Some v => hasValue r v | None => false end
  | Op_NotIn | Op_NotEquals =>
      match ls !! req_key r with Some v => negb (hasValue r v) | None => true end
  | Op_Exists => match ls !! req_key r with Some _ => true | None => false end
  | Op_DoesNotExist => match ls !! req_key r with Some _ => false | None => true end
  | Op_GreaterThan | Op_LessThan =>
      match ls !! req_key r with
      | None => false
      | Some v =>
          match ParseInt10 v, req_strValues r with
          | (lv, None), [rv] =>
              match ParseInt10 rv with
              | (rv, None) =>
                  match req_operator r with
                  | Op_GreaterThan => (rv <? lv)%Z
                  | _ => (lv <? rv)%Z
                  end
              | _ => false
              end
          | _, _ => false
          end
      end
  end.

(** [func (lsel internalSelector) Matches(l Labels) bool] *)
Definition Selector_Matches (s : Selector) (ls : labels_map) : bool :=
  forallb (fun r => Requirement_Matches r ls) s.

(** The loop of [SelectorFromSet]: stops at the first label that is not
    valid. *)
Fixpoint set_requirements (l : list (string * string)) : option (list Requirement) :=
  match l with
  | [] => Some []
  | (k, v) :: l' =>
      match NewRequirement k Op_Equals [v] with
      | Some r => match set_requirements l' with Some rs => Some (r :: rs) | None => None end
      | None => None
      end
  end.

Definition req_key_le (a b : Requirement) : Prop := String.le (req_key a) (req_key b).
#[export] Instance req_key_le_dec : RelDecision req_key_le.
Proof. intros a b. unfold req_key_le. apply _. Defined.

(** [SelectorFromSet], which [Set.AsSelector] calls.  A label that is not
    valid gives the selector that matches everything. *)
Definition SelectorFromSet (ls : labels_map) : Selector :=
  if bool_decide (ls = ∅) then Everything
  else match set_requirements (map_to_list ls) with
       | Some rs => merge_sort req_key_le rs
       | None => Everything
       end.
Definition AsSelector : labels_map -> Selector := SelectorFromSet.

(** ** Listers *)

(** An informer's indexed store: its objects in the order Go happens to range
    over the map, and whether the namespace index was registered. *)
Record Indexer (T : Type) := { idx_List : list T; idx_has_namespace : bool }.
Arguments idx_List {T} i.
Arguments idx_has_namespace {T} i.

Section listers.
Context {T : Type} `{HasMeta T}.

Definition sel_keep (s : Selector) (m : T) : bool :=
  if Selector_Empty s then true else Selector_Matches s (meta_Labels m).

(** [cache.ListAll] *)
Definition ListAll (store : Indexer T) (s : Selector) : list T :=
  List.filter (sel_keep s) (idx_List store).

(** [indexer.Index(NamespaceIndex, ...)] *)
Definition Index (store : Indexer T) (ns : string) : option (list T) :=
  if idx_has_namespace store
  then Some (List.filter (fun m => bool_decide (meta_Namespace m = ns)) (idx_List store))
  else None.

(** [cache.ListAllByNamespace]; the empty namespace is [NamespaceAll]. *)
Definition ListAllByNamespace (store : Indexer T) (ns : string) (s : Selector) : list T :=
  if bool_decide (ns = "") then List.filter (sel_keep s) (idx_List store)
  else match Index store ns with
       | None => List.filter (fun m => bool_decide (meta_Namespace m = ns) &&
                                       Selector_Matches s (meta_Labels m)) (idx_List store)
       | Some items => List.filter (sel_keep s) items
       end.
End listers.

(** ** Facts about selectors *)

Definition valid_label (k v : string) : Prop :=
  IsQualifiedName k = true /\ IsValidLabelValue v = true.
Definition valid_labels (ls : labels_map) : Prop := map_Forall valid_label ls.

#[export] Instance valid_label_dec k v : Decision (valid_label k v).
Proof. unfold valid_label. apply _. Defined.

Definition eq_req (kv : string * string) : Requirement :=
  {| req_key := kv.1; req_operator := Op_Equals; req_strValues := [kv.2] |}.

Lemma NewRequirement_Equals k v :
  NewRequirement k Op_Equals [v] = if decide (valid_label k v) then Some (eq_req (k, v)) else None.
Proof.
  unfold NewRequirement. cbn. rewrite !andb_true_r.
  case_decide as Hv; unfold valid_label in Hv.
  - by destruct Hv as [-> ->].
  - destruct (IsQualifiedName k), (IsValidLabelValue v); naive_solver.
Qed.

Lemma set_requirements_valid l :
  Forall (fun kv => valid_label kv.1 kv.2) l -> set_requirements l = Some (eq_req <$> l).
Proof.
  induction 1 as [|[k v] l Hkv Hl IH]; [done|]. cbn [set_requirements].
  rewrite NewRequirement_Equals, decide_True by done. by rewrite IH.
Qed.

Lemma set_requirements_invalid l :
  ~ Forall (fun kv => valid_label kv.1 kv.2) l -> set_requirements l = None.
Proof.
  induction l as [|[k v] l IH]; intros Hn; [by destruct Hn|]. cbn [set_requirements].
  rewrite NewRequirement_Equals. case_decide as Hkv; [|done].
  rewrite IH; [done|]. intros Hl. apply Hn. by constructor.
Qed.

Lemma Requirement_Matches_eq k v ls :
  Requirement_Matches (eq_req (k, v)) ls = true <-> ls !! k = Some v.
Proof.
  unfold Requirement_Matches, hasValue, eq_req; cbn.
  destruct (ls !! k) as [w|]; [|done]. rewrite orb_false_r, bool_decide_eq_true.
  naive_solver.
Qed.

Lemma valid_labels_list ls :
  valid_labels ls <-> Forall (fun kv => valid_label kv.1 kv.2) (map_to_list ls).
Proof.
  unfold valid_labels. rewrite map_Forall_to_list. apply Forall_iff. by intros [].
Qed.

Lemma AsSelector_requirements ls :
  valid_labels ls ->
  AsSelector ls ≡ₚ (eq_req <$> map_to_list ls).
Proof.
  intros Hv. unfold AsSelector, SelectorFromSet. case_bool_decide as He.
  - subst ls. by rewrite map_to_list_empty.
  - rewrite set_requirements_valid by by apply valid_labels_list.
    apply merge_sort_Permutation.
Qed.

Lemma forallb_perm {A} (p : A -> bool) l k : l ≡ₚ k -> forallb p l = forallb p k.
Proof.
  induction 1; cbn; try congruence. by rewrite !andb_assoc, (andb_comm (p y)).
Qed.

(** The selector of valid labels matches the label sets that contain them. *)
Lemma AsSelector_Matches ls lab :
  valid_labels ls -> Selector_Matches (AsSelector ls) lab = true <-> ls ⊆ lab.
Proof.
  intros Hv. unfold Selector_Matches.
  rewrite (forallb_perm _ _ _ (AsSelector_requirements ls Hv)).
  rewrite forallb_forall, map_subseteq_spec. split.
  - intros Hall k v Hk. apply Requirement_Matches_eq, Hall.
    apply list_elem_of_In, list_elem_of_fmap. exists (k, v).
    by rewrite elem_of_map_to_list.
  - intros Hsub r Hr. apply list_elem_of_In, list_elem_of_fmap in Hr as ([k v] & -> & Hkv).
    apply Requirement_Matches_eq, Hsub. by apply elem_of_map_to_list.
Qed.

(** One label that is not valid and the selector selects everything. *)
Lemma AsSelector_invalid ls : ~ valid_labels ls -> AsSelector ls = Everything.
Proof.
  intros Hv. unfold AsSelector, SelectorFromSet. case_bool_decide; [done|].
  rewrite set_requirements_invalid; [done|]. by rewrite <- valid_labels_list.
Qed.

(** ** Facts about listers *)

Section lister_facts.
Context {T : Type} `{HasMeta T}.
Implicit Types (store : Indexer T) (m : T).

(** [selectAll] is only a shortcut. *)
Lemma sel_keep_Matches s m : sel_keep s m = Selector_Matches s (meta_Labels m).
Proof. unfold sel_keep. by destruct s. Qed.

Lemma ListAll_In store s m :
  In m (ListAll store s) <-> In m (idx_List store) /\ Selector_Matches s (meta_Labels m) = true.
Proof. unfold ListAll. by rewrite filter_In, sel_keep_Matches. Qed.

Lemma ListAll_Everything store : ListAll store Everything = idx_List store.
Proof.
  unfold ListAll. induction (idx_List store) as [|x l IH]; [done|]. cbn. by rewrite IH.
Qed.

(** With or without the index, the lister returns the objects of the
    namespace that match. *)
Lemma ListAllByNamespace_In store ns s m :
  In m (ListAllByNamespace store ns s) <->
  In m (idx_List store) /\ (ns = "" \/ meta_Namespace m = ns) /\
  Selector_Matches s (meta_Labels m) = true.
Proof.
  unfold ListAllByNamespace, Index. case_bool_decide as Hns.
  - rewrite filter_In, sel_keep_Matches. tauto.
  - destruct (idx_has_namespace store).
    + rewrite !filter_In, sel_keep_Matches, bool_decide_eq_true. tauto.
    + rewrite filter_In, andb_true_iff, bool_decide_eq_true. tauto.
Qed.

(** The order of the store only changes the order of the result. *)
Lemma filter_perm {A} (p : A -> bool) l k :
  l ≡ₚ k -> List.filter p l ≡ₚ List.filter p k.
Proof.
  induction 1 as [|x l k Hlk IH|x y l|l k j H1 IH1 H2 IH2]; cbn.
  - done.
  - destruct (p x); [by constructor|done].
  - destruct (p x), (p y); try done. constructor.
  - by etrans.
Qed.

Definition store_equiv (s1 s2 : Indexer T) : Prop :=
  idx_List s1 ≡ₚ idx_List s2 /\ idx_has_namespace s1 = idx_has_namespace s2.

#[export] Instance store_equiv_equivalence : Equivalence store_equiv.
Proof.
  unfold store_equiv. split.
  - by intros s.
  - by intros s1 s2 [-> ->].
  - by intros s1 s2 s3 [-> ->] [-> ->].
Qed.

#[export] Instance ListAll_proper : Proper (store_equiv ==> (=) ==> (≡ₚ)) ListAll.
Proof. intros s1 s2 [Hl _] sel _ <-. by apply filter_perm. Qed.

#[export] Instance ListAllByNamespace_proper :
  Proper (store_equiv ==> (=) ==> (=) ==> (≡ₚ)) ListAllByNamespace.
Proof.
  intros s1 s2 [Hl Hi] ns _ <- sel _ <-. unfold ListAllByNamespace, Index. rewrite Hi.
  case_bool_decide; [by apply filter_perm|].
  destruct (idx_has_namespace s2); repeat apply filter_perm; done.
Qed.
End lister_facts.

(** ** Properties *)

(** C32.  Listing the pods (or other objects) of a namespace by labels.  When
    the labels are valid the lister returns exactly the stored objects of the
    namespace whose labels contain them, with or without the namespace index;
    when one label is not valid the selector degrades to "everything" and all
    the objects of the namespace are returned. *)
Theorem lister_by_labels {T} `{HasMeta T} (store : Indexer T) ns ls m :
  ns <> "" ->
  In m (ListAllByNamespace store ns (AsSelector ls)) <->
  In m (idx_List store) /\ meta_Namespace m = ns /\ (valid_labels ls -> ls ⊆ meta_Labels m).
Proof.
  intros Hns. rewrite ListAllByNamespace_In. destruct (decide (valid_labels ls)) as [Hv|Hv].
  - rewrite AsSelector_Matches by done. tauto.
  - rewrite AsSelector_invalid by done. tauto.
Qed.

Lemma lister_by_labels_witness :
  let web : Pod := {| pod_Namespace := "default"; pod_Name := "web";
                      pod_Labels := {["app" := "web"]}; pod_PodIP := "" |} in
  In web (ListAllByNamespace {| idx_List := [web]; idx_has_namespace := true |} "default"
            (AsSelector {["app" := "web"]})).
Proof.
  intros web. apply (lister_by_labels _ "default" {["app" := "web"]} web).
  - discriminate.
  - split; [left; reflexivity|]. split; [reflexivity|]. intros _. reflexivity.
Defined.
