(* ===== verification/Store.v ===== *)
(** * The informer's store

    [tools/cache] of client-go: the keys of objects ([store.go], [controller.go]),
    the map with its indices ([thread_safe_store.go], [index.go]) and the
    indexer made of the two ([cache] in [store.go]).  A method that takes the
    lock is one step.  Go's iteration over a map is in the order of
    [map_to_list]; what depends on it is stated up to order.

    [indexed_objects] shows that the namespace index answers what the listers
    of [Labels] assume of it. *)
From S2P Require Import Prelude GoStrings Objects Labels.

(** ** Keys *)

(** What [meta.Accessor] gives of an API object. *)
Class Meta (T : Type) := { GetNamespace : T -> string; GetName : T -> string }.
#[export] Instance Pod_Meta : Meta Pod := {| GetNamespace := pod_Namespace; GetName := pod_Name |}.
#[export] Instance Namespace_Meta : Meta Namespace := {| GetNamespace := fun _ => ""; GetName := ns_Name |}.
#[export] Instance NetworkPolicy_Meta : Meta NetworkPolicy :=
  {| GetNamespace := np_Namespace; GetName := np_Name |}.
#[export] Instance VSwitchConfig_Meta : Meta VSwitchConfig :=
  {| GetNamespace := fun _ => ""; GetName := vsc_Name |}.
#[export] Instance Node_Meta : Meta Node := {| GetNamespace := fun _ => ""; GetName := node_Name |}.

Section keys.
Context {T : Type} `{HMeta : Meta T}.

Definition Accessor (obj : EventObj T) : option T := type_assert obj.

Definition object_key (t : T) : string :=
  if bool_decide (GetNamespace t = "") then GetName t else GetNamespace t +:+ "/" +:+ GetName t.

Definition MetaNamespaceKeyFunc (obj : EventObj T) : result string :=
  match Accessor obj with
  | None => Err (ErrNew "object has no meta")
  | Some t => Ok (object_key t)
  end.

Definition DeletionHandlingMetaNamespaceKeyFunc (obj : EventObj T) : result string :=
  match obj with ObjTombstone key _ => Ok key | _ => MetaNamespaceKeyFunc obj end.

(** What an index function is given: a stored object, or the bare metadata
    with which a namespace lister asks. *)
Inductive indexed := Stored (obj : EventObj T) | MetaOnly (namespace : string).

Abbreviation IndexFunc := (indexed -> result (list string)).

Definition MetaNamespaceIndexFunc (obj : indexed) : result (list string) :=
  match obj with
  | Stored o => match Accessor o with
                | None => Err (ErrNew "object has no meta")
                | Some t => Ok [GetNamespace t]
                end
  | MetaOnly ns => Ok [ns]
  end.
End keys.
Arguments indexed T : clear implicits.

(** [cache.NamespaceIndex] *)
Definition NamespaceIndex : string := "namespace".

(** ** The map with its indices *)

(** [cache.Index]: the keys of the objects, by indexed value. *)
Definition Index_t : Type := gmap string (gset string).

Section store.
Context {T : Type} `{HMeta : Meta T}.
Abbreviation E := (EventObj T).
Abbreviation IndexFunc := (indexed T -> result (list string)).

Record threadSafeMap := {
  ts_items : gmap string E;
  ts_indexers : gmap string IndexFunc;
  ts_indices : gmap string Index_t
}.

Definition NewThreadSafeStore (indexers : gmap string IndexFunc) (indices : gmap string Index_t) : threadSafeMap :=
  {| ts_items := ∅; ts_indexers := indexers; ts_indices := indices |}.

Definition set_items (m : gmap string E) (c : threadSafeMap) : threadSafeMap :=
  {| ts_items := m; ts_indexers := ts_indexers c; ts_indices := ts_indices c |}.
Definition set_index (name : string) (i : Index_t) (c : threadSafeMap) : threadSafeMap :=
  {| ts_items := ts_items c; ts_indexers := ts_indexers c; ts_indices := <[name := i]> (ts_indices c) |}.

(** The index function of a stored object; an error panics. *)
Definition index_values (indexFunc : IndexFunc) (obj : E) : M threadSafeMap (list string) :=
  match indexFunc (Stored obj) with Ok vs => mret vs | _ => panic end.

Definition drop_key (key : string) (index : Index_t) (value : string) : Index_t :=
  match index !! value with Some s => <[value := s ∖ {[key]}]> index | None => index end.
Definition put_key (key : string) (index : Index_t) (value : string) : Index_t :=
  <[value := default ∅ (index !! value) ∪ {[key]}]> index.

Definition deleteFromIndices (obj : E) (key : string) : M threadSafeMap unit :=
  fun c => for_range (map_to_list (ts_indexers c)) (fun '(name, indexFunc) =>
    indexValues ← index_values indexFunc obj;
    modify (fun c => match ts_indices c !! name with
                     | None => c
                     | Some index => set_index name (foldl (drop_key key) index indexValues) c
                     end)) c.

(** The loop of [updateIndices]. *)
Definition insertIntoIndices (newObj : E) (key : string) : M threadSafeMap unit := fun c =>
  for_range (map_to_list (ts_indexers c)) (fun '(name, indexFunc) =>
    indexValues ← index_values indexFunc newObj;
    modify (fun c =>
      let index := default ∅ (ts_indices c !! name) in
      set_index name (foldl (put_key key) index indexValues) c)) c.

Definition updateIndices (oldObj : option E) (newObj : E) (key : string) : M threadSafeMap unit :=
  match oldObj with
  | Some o => deleteFromIndices o key ≫= fun _ => insertIntoIndices newObj key
  | None => insertIntoIndices newObj key
  end.

Definition ts_Add (key : string) (obj : E) : M threadSafeMap unit := fun c =>
  let oldObject := ts_items c !! key in
  updateIndices oldObject obj key (set_items (<[key := obj]> (ts_items c)) c).

Definition ts_Update (key : string) (obj : E) : M threadSafeMap unit := fun c =>
  let oldObject := ts_items c !! key in
  updateIndices oldObject obj key (set_items (<[key := obj]> (ts_items c)) c).

Definition ts_Delete (key : string) : M threadSafeMap unit := fun c =>
  match ts_items c !! key with
  | Some obj => (deleteFromIndices obj key ≫= fun _ => modify (fun c => set_items (delete key (ts_items c)) c)) c
  | None => (Ok tt, c)
  end.

Definition ts_Get (key : string) (c : threadSafeMap) : option E := ts_items c !! key.
Definition ts_List (c : threadSafeMap) : list E := (map_to_list (ts_items c)).*2.
Definition ts_ListKeys (c : threadSafeMap) : list string := (map_to_list (ts_items c)).*1.

Definition ts_Replace (items : gmap string E) : M threadSafeMap unit := fun c =>
  for_range (map_to_list items) (fun '(key, item) => updateIndices None item key)
    {| ts_items := items; ts_indexers := ts_indexers c; ts_indices := ∅ |}.

(** The object a key of an index stands for; a key without one would give a nil
    interface, [ObjOther]. *)
Definition item_of (c : threadSafeMap) (key : string) : E := default ObjOther (ts_items c !! key).

Definition ts_Index (indexName : string) (obj : indexed T) (c : threadSafeMap) : result (list E) :=
  match ts_indexers c !! indexName with
  | None => Err (ErrNew ("Index with name " +:+ indexName +:+ " does not exist"))
  | Some indexFunc =>
      indexKeys ← indexFunc obj;
      let index := default ∅ (ts_indices c !! indexName) in
      let returnKeySet : gset string :=
        match indexKeys with
        | [k] => default ∅ (index !! k)
        | ks => foldl (fun s k => s ∪ default ∅ (index !! k)) ∅ ks
        end in
      Ok (item_of c <$> elements returnKeySet)
  end.

Definition ts_AddIndexers (newIndexers : gmap string IndexFunc) : M threadSafeMap unit := fun c =>
  if bool_decide (ts_items c = ∅) then
    if bool_decide (dom (ts_indexers c) ∩ dom newIndexers = ∅) then
      (Ok tt, {| ts_items := ts_items c; ts_indexers := newIndexers ∪ ts_indexers c; ts_indices := ts_indices c |})
    else (Err (ErrNew "indexer conflict"), c)
  else (Err (ErrNew "cannot add indexers to running index"), c).

(** ** The indexer: keys and the map *)

Definition KeyError {A} (key : result A) : result A := wrap_err "couldn't create key for object: " key.

Section indexer.
Variable keyFunc : E -> result string.

Definition Add (obj : E) : M threadSafeMap unit := key ← lift (KeyError (keyFunc obj)); ts_Add key obj.
Definition Update (obj : E) : M threadSafeMap unit := key ← lift (KeyError (keyFunc obj)); ts_Update key obj.
Definition Delete (obj : E) : M threadSafeMap unit := key ← lift (KeyError (keyFunc obj)); ts_Delete key.
Definition Get (obj : E) : M threadSafeMap (option E) :=
  key ← lift (KeyError (keyFunc obj)); gets (ts_Get key).

Fixpoint keyed_items (list : list E) (items : gmap string E) : result (gmap string E) :=
  match list with
  | [] => Ok items
  | item :: list' => key ← KeyError (keyFunc item); keyed_items list' (<[key := item]> items)
  end.
Definition Replace (list : list E) : M threadSafeMap unit :=
  items ← lift (keyed_items list ∅); ts_Replace items.
End indexer.

(** [NewIndexer] *)
Definition NewIndexer (indexers : gmap string IndexFunc) : threadSafeMap := NewThreadSafeStore indexers ∅.

(** ** The indices are exact *)

Definition index_set (c : threadSafeMap) (name value : string) : gset string :=
  default ∅ (default ∅ (ts_indices c !! name) !! value).

(** An object that every index function understands. *)
Definition indexable (fs : gmap string IndexFunc) (o : E) : Prop :=
  map_Forall (fun _ f => exists vs, f (Stored o) = Ok vs) fs.

(** The keys under an index value are those of the items with that value. *)
Definition indices_exact (c : threadSafeMap) : Prop :=
  forall name f value key, ts_indexers c !! name = Some f ->
    key ∈ index_set c name value <->
    exists o vs, ts_items c !! key = Some o /\ f (Stored o) = Ok vs /\ value ∈ vs.

Record store_ok (c : threadSafeMap) : Prop := {
  sok_items : map_Forall (fun _ o => indexable (ts_indexers c) o) (ts_items c);
  sok_exact : indices_exact c
}.

(** *** One loop over the index functions *)

Definition marked (key value : string) (vs : list string) : gset string :=
  if bool_decide (value ∈ vs) then {[key]} else ∅.

Lemma marked_cons key value v vs :
  marked key value (v :: vs) = (if bool_decide (v = value) then {[key]} else ∅) ∪ marked key value vs.
Proof. unfold marked. repeat case_bool_decide; set_solver. Qed.

Lemma drop_key_set key vs : forall index value,
  default ∅ (foldl (drop_key key) index vs !! value) = default ∅ (index !! value) ∖ marked key value vs.
Proof.
  induction vs as [|v vs IH]; intros index value; cbn [foldl]; [set_solver|].
  rewrite IH, marked_cons. assert (default ∅ (drop_key key index v !! value) =
    default ∅ (index !! value) ∖ (if bool_decide (v = value) then {[key]} else ∅)) as ->; [|set_solver].
  unfold drop_key, Index_t in *. case_bool_decide as Hv; [subst v|].
  - destruct (index !! value) as [s|] eqn:Hs; [by rewrite lookup_insert_eq|rewrite Hs; set_solver].
  - destruct (index !! v); rewrite ?lookup_insert_ne by done; set_solver.
Qed.

Lemma put_key_set key vs : forall index value,
  default ∅ (foldl (put_key key) index vs !! value) = default ∅ (index !! value) ∪ marked key value vs.
Proof.
  induction vs as [|v vs IH]; intros index value; cbn [foldl]; [set_solver|].
  rewrite IH, marked_cons. unfold put_key at 1. unfold Index_t in *. case_bool_decide as Hv; [subst v|].
  - rewrite lookup_insert_eq. cbn. set_solver.
  - rewrite lookup_insert_ne by done. set_solver.
Qed.

(** What both loops do: change the index of each name. *)
Definition each_index (change : list string -> option Index_t -> option Index_t) (o : E)
    (l : list (string * IndexFunc)) : M threadSafeMap unit :=
  for_range l (fun '(name, indexFunc) =>
    indexValues ← index_values indexFunc o;
    modify (fun c => match change indexValues (ts_indices c !! name) with
                     | None => c
                     | Some index => set_index name index c
                     end)).

Lemma each_index_run change o l : forall c,
  NoDup l.*1 -> (forall name f, (name, f) ∈ l -> exists vs, f (Stored o) = Ok vs) ->
  exists c', each_index change o l c = (Ok tt, c') /\ ts_items c' = ts_items c /\ ts_indexers c' = ts_indexers c /\
    (forall name f vs, (name, f) ∈ l -> f (Stored o) = Ok vs ->
       ts_indices c' !! name = match change vs (ts_indices c !! name) with Some i => Some i | None => ts_indices c !! name end) /\
    (forall name, name ∉ l.*1 -> ts_indices c' !! name = ts_indices c !! name).
Proof.
  induction l as [|[name f] l IH]; intros c Hnd Hf; [exists c; repeat split; set_solver|].
  destruct (Hf name f) as [vs Hvs]; [by left|]. apply NoDup_cons in Hnd as [Hni Hnd].
  set (c1 := match change vs (ts_indices c !! name) with None => c | Some index => set_index name index c end).
  assert (Hc1 : ts_items c1 = ts_items c /\ ts_indexers c1 = ts_indexers c /\
    (forall n, n <> name -> ts_indices c1 !! n = ts_indices c !! n) /\
    ts_indices c1 !! name = match change vs (ts_indices c !! name) with Some i => Some i | None => ts_indices c !! name end).
  { unfold c1. destruct (change vs _); cbn; repeat split; intros; try done; [by apply lookup_insert_ne|apply lookup_insert_eq]. }
  destruct Hc1 as (Hi1 & Hx1 & Hn1 & Hname1).
  destruct (IH c1 Hnd) as (c' & Hrun & Hi & Hx & Hin & Hout); [intros n g Hg; apply (Hf n g); by right|].
  exists c'. split; [unfold each_index in *; cbn [for_range]; unfold index_values, mbind, M_bind; by rewrite Hvs|].
  split; [congruence|]. split; [congruence|]. split.
  - intros n g ws [[= -> ->]|Hl]%elem_of_cons Hws.
    + rewrite Hout by exact Hni. rewrite Hname1. assert (ws = vs) as -> by congruence. reflexivity.
    + rewrite (Hin n g ws Hl Hws), Hn1; [done|]. intros ->. apply Hni. apply list_elem_of_fmap. by exists (name, g).
  - intros n [Hne Hni']%not_elem_of_cons. rewrite Hout by exact Hni'. by apply Hn1.
Qed.

Lemma indexable_elem c o : indexable (ts_indexers c) o ->
  forall name f, (name, f) ∈ map_to_list (ts_indexers c) -> exists vs, f (Stored o) = Ok vs.
Proof. intros Ho name f Hl. apply elem_of_map_to_list in Hl. by apply (Ho name f). Qed.

Lemma deleteFromIndices_run o key c :
  indexable (ts_indexers c) o ->
  exists c', deleteFromIndices o key c = (Ok tt, c') /\ ts_items c' = ts_items c /\ ts_indexers c' = ts_indexers c /\
    forall name f vs value, ts_indexers c !! name = Some f -> f (Stored o) = Ok vs ->
      index_set c' name value = index_set c name value ∖ marked key value vs.
Proof.
  intros Ho.
  destruct (each_index_run (fun vs i => (fun index => foldl (drop_key key) index vs) <$> i) o
    (map_to_list (ts_indexers c)) c (NoDup_fst_map_to_list _) (indexable_elem c o Ho)) as (c' & Hrun & Hi & Hx & Hin & _).
  exists c'. split.
  { rewrite <- Hrun. unfold deleteFromIndices, each_index. apply for_range_ext. intros [name f] t.
    unfold mbind, M_bind. destruct (index_values f o t) as [[vs|e|] t']; [|done..].
    unfold modify. by destruct (ts_indices t' !! name). }
  split; [done|]. split; [done|]. intros name f vs value Hf Hvs. unfold index_set.
  rewrite (Hin name f vs (proj2 (elem_of_map_to_list _ _ _) Hf) Hvs).
  destruct (ts_indices c !! name) as [index|]; cbn; [apply drop_key_set|set_solver].
Qed.

Lemma insertIntoIndices_run o key c :
  indexable (ts_indexers c) o ->
  exists c', insertIntoIndices o key c = (Ok tt, c') /\ ts_items c' = ts_items c /\ ts_indexers c' = ts_indexers c /\
    forall name f vs value, ts_indexers c !! name = Some f -> f (Stored o) = Ok vs ->
      index_set c' name value = index_set c name value ∪ marked key value vs.
Proof.
  intros Ho.
  destruct (each_index_run (fun vs i => Some (foldl (put_key key) (default ∅ i) vs)) o
    (map_to_list (ts_indexers c)) c (NoDup_fst_map_to_list _) (indexable_elem c o Ho)) as (c' & Hrun & Hi & Hx & Hin & _).
  exists c'. split; [exact Hrun|].
  split; [done|]. split; [done|]. intros name f vs value Hf Hvs. unfold index_set at 1.
  rewrite (Hin name f vs (proj2 (elem_of_map_to_list _ _ _) Hf) Hvs). cbn. apply put_key_set.
Qed.

(** *** The operations *)

Lemma elem_marked key k value vs : k ∈ marked key value vs <-> k = key /\ value ∈ vs.
Proof. unfold marked. case_bool_decide; set_solver. Qed.

Lemma index_values_item c name f key o :
  store_ok c -> ts_indexers c !! name = Some f -> ts_items c !! key = Some o -> exists vs, f (Stored o) = Ok vs.
Proof. intros [Hit _] Hf Ho. exact (Hit key o Ho name f Hf). Qed.

(** A key without an item is in no index. *)
Lemma index_fresh c name f value key :
  store_ok c -> ts_indexers c !! name = Some f -> ts_items c !! key = None -> key ∉ index_set c name value.
Proof. intros [_ Hex] Hf Hk Hin. apply (Hex name f) in Hin as (o & vs & Ho & _); [congruence|done]. Qed.

Lemma index_item c name f value key o vs :
  store_ok c -> ts_indexers c !! name = Some f -> ts_items c !! key = Some o -> f (Stored o) = Ok vs ->
  key ∈ index_set c name value <-> value ∈ vs.
Proof.
  intros [_ Hex] Hf Ho Hvs. rewrite (Hex name f value key Hf). split; [|by eauto].
  intros (o' & vs' & Ho' & Hvs' & Hin). assert (vs' = vs) as -> by congruence. done.
Qed.

(** Removing the object of a key from the indices, whatever the items are by
    then. *)
Lemma forget_run m o key c :
  store_ok c -> ts_items c !! key = Some o ->
  exists c', deleteFromIndices o key (set_items m c) = (Ok tt, c') /\ ts_items c' = m /\
    ts_indexers c' = ts_indexers c /\
    forall name f value k, ts_indexers c !! name = Some f ->
      k ∈ index_set c' name value <-> k <> key /\ k ∈ index_set c name value.
Proof.
  intros Hok Ho.
  destruct (deleteFromIndices_run o key (set_items m c)) as (c' & Hrun & Hi & Hx & Hidx); [by apply (sok_items c Hok key)|].
  exists c'. do 3 (split; [done|]). intros name f value k Hf.
  destruct (index_values_item c name f key o Hok Hf Ho) as [vs Hvs].
  rewrite (Hidx name f vs value Hf Hvs), elem_of_difference, elem_marked.
  change (index_set (set_items m c) name value) with (index_set c name value).
  pose proof (index_item c name f value key o vs Hok Hf Ho Hvs) as Hkey. split.
  - intros [Hin Hn]. split; [|done]. intros ->. apply Hn. by rewrite <- Hkey.
  - intros [Hk Hin]. split; [done|]. by intros [-> _].
Qed.

(** Adding an object, and updating one, put it under its key. *)
Lemma ts_Add_run key o c :
  store_ok c -> indexable (ts_indexers c) o ->
  exists c', ts_Add key o c = (Ok tt, c') /\ store_ok c' /\
    ts_items c' = <[key := o]> (ts_items c) /\ ts_indexers c' = ts_indexers c.
Proof.
  intros Hok Ho. unfold ts_Add, updateIndices. set (c0 := set_items _ c).
  assert (exists c1, (match ts_items c !! key with
     | Some o0 => deleteFromIndices o0 key ≫= fun _ => insertIntoIndices o key
     | None => insertIntoIndices o key end) c0 = insertIntoIndices o key c1 /\
    ts_items c1 = ts_items c0 /\ ts_indexers c1 = ts_indexers c /\
    forall name f value k, ts_indexers c !! name = Some f ->
      k ∈ index_set c1 name value <-> k <> key /\ k ∈ index_set c name value) as (c1 & -> & Hi1 & Hx1 & Hidx1).
  { destruct (ts_items c !! key) as [o0|] eqn:Hold.
    - destruct (forget_run (<[key := o]> (ts_items c)) o0 key c Hok Hold) as (c1 & Hrun & Hi & Hx & Hidx).
      exists c1. split; [|split; [exact Hi|split; [exact Hx|exact Hidx]]]. unfold mbind, M_bind, c0. by rewrite Hrun.
    - exists c0. do 3 (split; [done|]). intros name f value k Hf. change (index_set c0 name value) with (index_set c name value).
      pose proof (index_fresh c name f value key Hok Hf Hold). split; [|by intros []].
      intros Hin. split; [|done]. by intros ->. }
  destruct (insertIntoIndices_run o key c1) as (c' & -> & Hi & Hx & Hidx); [by rewrite Hx1|].
  exists c'. split; [done|]. rewrite Hi, Hi1, Hx, Hx1. split; [|done]. split.
  - rewrite Hi, Hi1, Hx, Hx1. apply map_Forall_insert_2; [done|apply Hok].
  - intros name f value k. rewrite Hx, Hx1. intros Hf. destruct (Ho name f Hf) as [vs Hvs].
    rewrite (Hidx name f vs value) by (rewrite ?Hx1; done). rewrite elem_of_union, elem_marked, (Hidx1 name f value k Hf).
    rewrite Hi, Hi1. cbn [c0 set_items ts_items]. destruct (decide (k = key)) as [->|Hk].
    + rewrite lookup_insert_eq. split; [intros [[? _]|[_ Hv]]; [done|by exists o, vs]|].
      intros (o1 & vs1 & [= <-] & Hvs1 & Hv). right. split; [done|]. congruence.
    + rewrite lookup_insert_ne by done. rewrite <- (sok_exact c Hok name f value k Hf).
      split; [intros [[_ ?]|[? _]]; done|by left].
Qed.

Lemma ts_Delete_run key c :
  store_ok c ->
  exists c', ts_Delete key c = (Ok tt, c') /\ store_ok c' /\
    ts_items c' = delete key (ts_items c) /\ ts_indexers c' = ts_indexers c.
Proof.
  intros Hok. unfold ts_Delete. destruct (ts_items c !! key) as [o|] eqn:Ho.
  - destruct (forget_run (ts_items c) o key c Hok Ho) as (c1 & Hrun & Hi & Hx & Hidx).
    replace (set_items (ts_items c) c) with c in Hrun by by destruct c.
    exists (set_items (delete key (ts_items c1)) c1). split; [unfold mbind, M_bind; by rewrite Hrun|].
    split; [|split; [cbn; by rewrite Hi|exact Hx]]. split.
    + cbn. rewrite Hi, Hx. apply map_Forall_delete, Hok.
    + intros name f value k. cbn. rewrite Hx, Hi. intros Hf.
      change (index_set _ name value) with (index_set c1 name value). rewrite (Hidx name f value k Hf).
      destruct (decide (k = key)) as [->|Hk].
      * rewrite lookup_delete_eq. split; [by intros [? _]|by intros (? & ? & ? & _)].
      * rewrite lookup_delete_ne by done. rewrite <- (sok_exact c Hok name f value k Hf).
        split; [by intros [_ ?]|done].
  - exists c. by rewrite delete_id.
Qed.

Lemma NewIndexer_ok indexers : store_ok (NewIndexer indexers).
Proof. split; [done|]. intros name f value key _. cbn. split; [done|]. by intros (? & ? & ? & _). Qed.

(** [Replace] of the map, whatever was there before. *)
Lemma ts_Replace_run items c :
  map_Forall (fun _ o => indexable (ts_indexers c) o) items ->
  exists c', ts_Replace items c = (Ok tt, c') /\ store_ok c' /\ ts_items c' = items /\ ts_indexers c' = ts_indexers c.
Proof.
  intros Hall. unfold ts_Replace.
  set (ins := fun '(key, item) => updateIndices None item key).
  set (c0 := {| ts_items := items; ts_indexers := ts_indexers c; ts_indices := ∅ |}).
  assert (forall l c1, l ⊆ map_to_list items -> ts_items c1 = items -> ts_indexers c1 = ts_indexers c ->
    exists c', for_range l ins c1 = (Ok tt, c') /\ ts_items c' = items /\ ts_indexers c' = ts_indexers c /\
      forall name f value k, ts_indexers c !! name = Some f -> k ∈ index_set c' name value <->
        k ∈ index_set c1 name value \/ exists o vs, (k, o) ∈ l /\ f (Stored o) = Ok vs /\ value ∈ vs) as Hloop.
  { induction l as [|[key o] l IH]; intros c1 Hsub Hi1 Hx1.
    - exists c1. split; [done|]. split; [done|]. split; [done|]. intros name f value k _.
      split; [by left|]. intros [?|(? & ? & Hin & _)]; [done|by apply not_elem_of_nil in Hin].
    - assert (Ho : indexable (ts_indexers c1) o).
      { rewrite Hx1. apply (Hall key), elem_of_map_to_list, Hsub. by left. }
      destruct (insertIntoIndices_run o key c1 Ho) as (c2 & Hrun & Hi2 & Hx2 & Hidx2).
      destruct (IH c2) as (c' & Hrun' & Hi' & Hx' & Hidx'); [by intros x Hx; apply Hsub; right|congruence..|].
      exists c'. split; [cbn [for_range ins]; unfold mbind, M_bind; cbn [updateIndices]; by rewrite Hrun|].
      split; [done|]. split; [done|]. intros name f value k Hf. rewrite Hx1 in Ho. destruct (Ho name f Hf) as [vs Hvs].
      rewrite (Hidx' name f value k Hf), (Hidx2 name f vs value), elem_of_union, elem_marked by (rewrite ?Hx1; done). split.
      + intros [[?|[-> Hv]]|(o' & vs' & Hin & ?)]; [by left|right; exists o, vs; split; [by left|done]|].
        right. exists o', vs'. split; [by right|done].
      + intros [?|(o' & vs' & [[= -> ->]|Hin]%elem_of_cons & Hvs' & Hv)]; [by left; left| |right; by exists o', vs'].
        left. right. split; [done|]. congruence. }
  destruct (Hloop (map_to_list items) c0) as (c' & Hrun & Hi & Hx & Hidx); [done..|].
  exists c'. split; [exact Hrun|]. split; [|done]. split; [by rewrite Hi, Hx|].
  intros name f value key. rewrite Hx, Hi. intros Hf. rewrite (Hidx name f value key Hf).
  setoid_rewrite elem_of_map_to_list. split; [intros [Hn|?]; [|done]|by right].
  cbn in Hn. by apply not_elem_of_empty in Hn.
Qed.

(** ** What the listers see *)

(** The store as the listers of [Labels] see it: its typed objects. *)
Definition lister_view (c : threadSafeMap) : Indexer T :=
  {| idx_List := omap Accessor (ts_List c);
     idx_has_namespace := bool_decide (is_Some (ts_indexers c !! NamespaceIndex)) |}.

(** Only objects of the type, under their keys. *)
Definition typed (c : threadSafeMap) : Prop :=
  map_Forall (fun key o => exists t, o = ObjOf t /\ object_key t = key) (ts_items c).

Lemma elem_lister_view c t :
  typed c -> t ∈ idx_List (lister_view c) <-> ts_items c !! object_key t = Some (ObjOf t).
Proof.
  intros Ht. cbn. rewrite list_elem_of_omap. unfold ts_List. split.
  - intros (o & Ho & Hacc). apply list_elem_of_fmap in Ho as ([key o'] & -> & Ho). apply elem_of_map_to_list in Ho.
    destruct (Ht _ _ Ho) as (t' & -> & <-). cbn in Hacc. by injection Hacc as ->.
  - intros Ho. exists (ObjOf t). split; [|done]. apply list_elem_of_fmap.
    exists (object_key t, ObjOf t). split; [done|]. by apply elem_of_map_to_list.
Qed.

(** The objects of some keys have these keys. *)
Lemma keys_back c ks :
  typed c -> Forall (fun key => is_Some (ts_items c !! key)) ks ->
  object_key <$> omap Accessor (item_of c <$> ks) = ks.
Proof.
  intros Ht Hks. induction Hks as [|key ks [o Ho] _ IH]; [done|]. unfold item_of at 1. cbn. rewrite Ho. cbn.
  destruct (Ht _ _ Ho) as (t & -> & <-). cbn. by f_equal.
Qed.

Lemma ts_List_keys c : ts_List c = item_of c <$> ts_ListKeys c.
Proof.
  unfold ts_List, ts_ListKeys. rewrite <- list_fmap_compose. apply list_fmap_ext. intros i [key o] Hl. cbn.
  apply list_elem_of_lookup_2, elem_of_map_to_list in Hl. unfold item_of. by rewrite Hl.
Qed.

Lemma ListKeys_items c : Forall (fun key => is_Some (ts_items c !! key)) (ts_ListKeys c).
Proof.
  apply Forall_forall. intros key Hk. apply list_elem_of_fmap in Hk as ([key' o] & -> & Hk).
  apply elem_of_map_to_list in Hk. by exists o.
Qed.

(** The listed objects are different ones. *)
Lemma lister_view_NoDup c : typed c -> NoDup (idx_List (lister_view c)).
Proof.
  intros Ht. cbn. rewrite ts_List_keys. apply (NoDup_fmap_1 object_key).
  rewrite keys_back by (done || apply ListKeys_items). apply NoDup_fst_map_to_list.
Qed.

(** The namespace index answers exactly the objects of the namespace, each
    once: what [Index] of [Labels] says of an informer's store. *)
Lemma indexed_objects `{!HasMeta T} ns c :
  (forall t, meta_Namespace t = GetNamespace t) -> store_ok c -> typed c ->
  ts_indexers c !! NamespaceIndex = Some MetaNamespaceIndexFunc ->
  exists objs l, ts_Index NamespaceIndex (MetaOnly ns) c = Ok objs /\ objs = ObjOf <$> l /\
    exists l', Index (lister_view c) ns = Some l' /\ l ≡ₚ l'.
Proof.
  intros Hns Hok Ht Hf. unfold ts_Index. rewrite Hf. cbn [mbind result_bind MetaNamespaceIndexFunc].
  change (default ∅ (default ∅ (ts_indices c !! NamespaceIndex) !! ns)) with (index_set c NamespaceIndex ns).
  set (ks := elements (index_set c NamespaceIndex ns)).
  assert (Hks : forall key, key ∈ ks <-> exists t, ts_items c !! key = Some (ObjOf t) /\ object_key t = key /\ GetNamespace t = ns).
  { intros key. unfold ks. rewrite elem_of_elements, (sok_exact c Hok NamespaceIndex _ ns key Hf). split.
    - intros (o & vs & Ho & Hvs & Hin). destruct (Ht _ _ Ho) as (t & -> & Hkey). exists t. cbn in Hvs.
      injection Hvs as <-. by apply list_elem_of_singleton in Hin.
    - intros (t & Ho & _ & <-). exists (ObjOf t), [GetNamespace t]. split; [done|]. split; [done|]. by left. }
  assert (Hall : Forall (fun key => is_Some (ts_items c !! key)) ks).
  { apply Forall_forall. intros key (t & Ho & _)%Hks. by exists (ObjOf t). }
  exists (item_of c <$> ks), (omap Accessor (item_of c <$> ks)). split; [done|]. split.
  { clear Hks. induction Hall as [|key ks' [o Ho] _ IH]; [done|]. cbn. unfold item_of at 1 3. rewrite Ho. cbn.
    destruct (Ht _ _ Ho) as (t & -> & _). cbn. by f_equal. }
  eexists. split; [unfold Index; cbn [lister_view idx_has_namespace]; rewrite bool_decide_eq_true_2; [reflexivity|by rewrite Hf]|].
  apply NoDup_Permutation.
  - apply (NoDup_fmap_1 object_key). rewrite keys_back by done. apply NoDup_elements.
  - apply NoDup_ListNoDup, List.NoDup_filter, NoDup_ListNoDup, lister_view_NoDup, Ht.
  - intros t. rewrite (list_elem_of_In (List.filter _ _)), List.filter_In, <- list_elem_of_In, elem_lister_view, Hns, bool_decide_eq_true by done.
    rewrite list_elem_of_omap. split.
    + intros (o & Ho & Hacc). apply list_elem_of_fmap in Ho as (key & -> & (t' & Hkey & <- & Hn)%Hks).
      unfold item_of in Hacc. rewrite Hkey in Hacc. cbn in Hacc. injection Hacc as ->. done.
    + intros [Ho Hn]. exists (ObjOf t). split; [|done]. apply list_elem_of_fmap. exists (object_key t).
      split; [unfold item_of; by rewrite Ho|]. apply Hks. by exists t.
Qed.

(** ** The indexer's operations *)

Abbreviation keyFunc := DeletionHandlingMetaNamespaceKeyFunc.

(** An indexer of typed objects whose index functions understand all objects. *)
Record indexer_ok (c : threadSafeMap) : Prop := {
  iok_store : store_ok c;
  iok_typed : typed c;
  iok_total t : indexable (ts_indexers c) (ObjOf t)
}.

Lemma indexer_Add_run t c :
  indexer_ok c ->
  exists c', Add keyFunc (ObjOf t) c = (Ok tt, c') /\ indexer_ok c' /\
    ts_items c' = <[object_key t := ObjOf t]> (ts_items c) /\ ts_indexers c' = ts_indexers c.
Proof.
  intros [Hs Ht Htot]. destruct (ts_Add_run (object_key t) (ObjOf t) c Hs (Htot t)) as (c' & Hrun & Hok & Hi & Hx).
  exists c'. split; [exact Hrun|]. split; [|done]. split; [done| |by rewrite Hx].
  unfold typed. rewrite Hi. apply map_Forall_insert_2; [by exists t|done].
Qed.

Lemma Update_Add (o : E) c : Update keyFunc o c = Add keyFunc o c.
Proof. done. Qed.

Lemma indexer_Delete_run o key c :
  indexer_ok c -> keyFunc o = Ok key ->
  exists c', Delete keyFunc o c = (Ok tt, c') /\ indexer_ok c' /\
    ts_items c' = delete key (ts_items c) /\ ts_indexers c' = ts_indexers c.
Proof.
  intros [Hs Ht Htot] Hk. destruct (ts_Delete_run key c Hs) as (c' & Hrun & Hok & Hi & Hx).
  exists c'. split; [unfold Delete; rewrite Hk; exact Hrun|]. split; [|done]. split; [done| |by rewrite Hx].
  unfold typed. rewrite Hi. by apply map_Forall_delete.
Qed.

Lemma NewIndexer_typed indexers :
  (forall t, indexable indexers (ObjOf t)) -> indexer_ok (NewIndexer indexers).
Proof. intros Hf. split; [apply NewIndexer_ok|done|done]. Qed.
End store.
Arguments threadSafeMap T : clear implicits.

(** The indexers of the program's informers. *)
Definition namespace_indexers {T} `{Meta T} : gmap string (indexed T -> result (list string)) :=
  {[NamespaceIndex := MetaNamespaceIndexFunc]}.

Lemma namespace_indexers_ok {T} `{Meta T} : indexer_ok (NewIndexer namespace_indexers).
Proof.
  apply NewIndexer_typed. intros t. apply map_Forall_singleton. by exists [GetNamespace t].
Qed.
