(* ===== verification/DeltaFifo.v ===== *)
(** * The queue of changes

    [delta_fifo.go] of client-go: what an informer's reflector has heard and
    its controller has not processed yet, as a list of changes per key and a
    queue of keys.  A method holds the queue's lock, so each is one step.  The
    informer's indexer ([knownObjects]) changes only under that lock (while
    [Pop] processes), so a method is given it as it is at that moment.

    [fifo_invariant] is the comment of the struct, [settles] what the changes
    of a key amount to; both are used in [Watch]. *)
From S2P Require Import Prelude GoStrings Objects Labels Store.

Inductive DeltaType := Added | Updated | Deleted | Sync.
#[export] Instance DeltaType_eq_dec : EqDecision DeltaType.
Proof. solve_decision. Defined.

Section fifo.
Context {T : Type} `{HMeta : Meta T}.
Abbreviation E := (EventObj T).

Record Delta := { d_Type : DeltaType; d_Object : E }.
Abbreviation Deltas := (list Delta).

Definition Newest (d : Deltas) : option Delta := last d.

(** [KeyListerGetter] *)
Record KeyListerGetter := { ListKeys : list string; GetByKey : string -> result (option E) }.

Record DeltaFIFO := {
  f_items : gmap string Deltas;
  f_queue : list string;
  f_populated : bool;
  f_initialPopulationCount : Z;
  f_closed : bool
}.

Definition NewDeltaFIFO : DeltaFIFO :=
  {| f_items := ∅; f_queue := []; f_populated := false; f_initialPopulationCount := 0; f_closed := false |}.

Definition set_f_items (m : gmap string Deltas) (f : DeltaFIFO) : DeltaFIFO :=
  {| f_items := m; f_queue := f_queue f; f_populated := f_populated f;
     f_initialPopulationCount := f_initialPopulationCount f; f_closed := f_closed f |}.
Definition set_f_queue (q : list string) (f : DeltaFIFO) : DeltaFIFO :=
  {| f_items := f_items f; f_queue := q; f_populated := f_populated f;
     f_initialPopulationCount := f_initialPopulationCount f; f_closed := f_closed f |}.
Definition set_f_populated (n : Z) (f : DeltaFIFO) : DeltaFIFO :=
  {| f_items := f_items f; f_queue := f_queue f; f_populated := true;
     f_initialPopulationCount := n; f_closed := f_closed f |}.

Definition Close (f : DeltaFIFO) : DeltaFIFO :=
  {| f_items := f_items f; f_queue := f_queue f; f_populated := f_populated f;
     f_initialPopulationCount := f_initialPopulationCount f; f_closed := true |}.

(** [KeyOf] of an object; the queue is never given a list of changes. *)
Definition KeyOf (obj : E) : result string :=
  match obj with ObjTombstone key _ => Ok key | _ => MetaNamespaceKeyFunc obj end.

Definition HasSynced (f : DeltaFIFO) : bool := f_populated f && bool_decide (f_initialPopulationCount f = 0%Z).

(** [f.populated = true]; the count stays. *)
Definition populate (f : DeltaFIFO) : DeltaFIFO := set_f_populated (f_initialPopulationCount f) f.

(** *** Combining changes *)

Definition is_tombstone (o : E) : bool := match o with ObjTombstone _ _ => true | _ => false end.

Definition isDeletionDup (a b : Delta) : option Delta :=
  if bool_decide (d_Type b <> Deleted) || bool_decide (d_Type a <> Deleted) then None
  else if is_tombstone (d_Object b) then Some a else Some b.

Definition isDup (a b : Delta) : option Delta :=
  match isDeletionDup a b with Some out => Some out | None => None end.

Definition dedupDeltas (deltas : Deltas) : Deltas :=
  let n := length deltas in
  if (n <? 2)%nat then deltas else
  match deltas !! (n - 1), deltas !! (n - 2) with
  | Some a, Some b => match isDup a b with
                      | Some out => take (n - 2) deltas ++ [out]
                      | None => deltas
                      end
  | _, _ => deltas
  end.

Definition willObjectBeDeletedLocked (f : DeltaFIFO) (id : string) : bool :=
  match Newest (default [] (f_items f !! id)) with
  | Some d => bool_decide (d_Type d = Deleted)
  | None => false
  end.

(** [queueActionLocked] once it has the key. *)
Definition queue_delta (actionType : DeltaType) (obj : E) (id : string) : M DeltaFIFO unit := fun f =>
  if bool_decide (actionType = Sync) && willObjectBeDeletedLocked f id then (Ok tt, f) else
  let newDeltas := dedupDeltas (default [] (f_items f !! id) ++ [{| d_Type := actionType; d_Object := obj |}]) in
  if (0 <? length newDeltas)%nat then
    let f := match f_items f !! id with
             | Some _ => f
             | None => set_f_queue (f_queue f ++ [id]) f
             end in
    (Ok tt, set_f_items (<[id := newDeltas]> (f_items f)) f)
  else (Ok tt, set_f_items (delete id (f_items f)) f).

Definition queueActionLocked (actionType : DeltaType) (obj : E) : M DeltaFIFO unit :=
  id ← lift (KeyError (KeyOf obj)); queue_delta actionType obj id.

(** *** Producing *)

Definition Add (obj : E) : M DeltaFIFO unit := fun f => queueActionLocked Added obj (populate f).
Definition Update (obj : E) : M DeltaFIFO unit := fun f => queueActionLocked Updated obj (populate f).

(** Whether a deletion has been reported already. *)
Definition already_gone (knownObjects : option KeyListerGetter) (id : string) (f : DeltaFIFO) : bool :=
  let itemsExist := bool_decide (is_Some (f_items f !! id)) in
  match knownObjects with
  | None => negb itemsExist
  | Some known => match GetByKey known id with Ok None => negb itemsExist | _ => false end
  end.

Definition Delete (knownObjects : option KeyListerGetter) (obj : E) : M DeltaFIFO unit :=
  id ← lift (KeyError (KeyOf obj));
  modify populate ≫= fun _ =>
  gone ← gets (already_gone knownObjects id);
  if gone : bool then mret tt else queueActionLocked Deleted obj.

(** The first loop of [Replace]. *)
Fixpoint sync_all (l : list E) (keys : gset string) : M DeltaFIFO (gset string) :=
  match l with
  | [] => mret keys
  | item :: l' =>
      key ← lift (KeyError (KeyOf item));
      wrapped "couldn't enqueue object: " (queueActionLocked Sync item) ≫= fun _ =>
      sync_all l' ({[key]} ∪ keys)
  end.

(** Its second loop: how many keys are reported deleted. *)
Fixpoint delete_missing (keys : gset string) (ks : list string) (last_known : string -> E) (queued : Z)
  : M DeltaFIFO Z :=
  match ks with
  | [] => mret queued
  | k :: ks' =>
      if bool_decide (k ∈ keys) then delete_missing keys ks' last_known queued else
      queueActionLocked Deleted (ObjTombstone k (last_known k)) ≫= fun _ =>
      delete_missing keys ks' last_known (queued + 1)
  end.

Definition queued_deletions (keys : gset string) (knownObjects : option KeyListerGetter) : M DeltaFIFO Z := fun f =>
  match knownObjects with
  | None =>
      let newest k := match f_items f !! k ≫= Newest with Some d => d_Object d | None => ObjOther end in
      delete_missing keys (map_to_list (f_items f)).*1 newest 0 f
  | Some known =>
      delete_missing keys (ListKeys known)
        (fun k => match GetByKey known k with Ok (Some o) => o | _ => ObjOther end) 0 f
  end.

Definition Replace (knownObjects : option KeyListerGetter) (list : list E) : M DeltaFIFO unit :=
  keys ← sync_all list ∅;
  queuedDeletions ← queued_deletions keys knownObjects;
  modify (fun f => if f_populated f then f else set_f_populated (Z.of_nat (length list) + queuedDeletions) f).

(** The end of [syncKeyLocked]: nothing when there are changes already. *)
Definition sync_unless_queued (obj : E) (id : string) : M DeltaFIFO unit := fun f =>
  if (0 <? length (default [] (f_items f !! id)))%nat then (Ok tt, f)
  else wrapped "couldn't queue object: " (queueActionLocked Sync obj) f.

Definition syncKeyLocked (known : KeyListerGetter) (key : string) : M DeltaFIFO unit :=
  match GetByKey known key with
  | Ok (Some obj) => id ← lift (KeyError (KeyOf obj)); sync_unless_queued obj id
  | _ => mret tt
  end.

Definition Resync (knownObjects : option KeyListerGetter) : M DeltaFIFO unit :=
  match knownObjects with
  | None => mret tt
  | Some known => for_range (ListKeys known) (syncKeyLocked known)
  end.

(** *** Consuming *)

Definition addIfNotPresent (id : string) (deltas : Deltas) (f : DeltaFIFO) : DeltaFIFO :=
  let f := populate f in
  match f_items f !! id with
  | Some _ => f
  | None => set_f_items (<[id := deltas]> (f_items f)) (set_f_queue (f_queue f ++ [id]) f)
  end.

(** The changes of a popped key put back; none at all would be read through nil. *)
Definition AddIfNotPresent (deltas : Deltas) : M DeltaFIFO unit :=
  match Newest deltas with
  | None => panic
  | Some d => id ← lift (KeyError (KeyOf (d_Object d))); modify (addIfNotPresent id deltas)
  end.

Definition FIFOClosedError : goerr := ErrNew "DeltaFIFO: manipulating with closed queue".

Section pop.
(** The consumer: its state, what it does with the changes of a key, and which
    of its errors is an [ErrRequeue], with the error inside (or nil). *)
Context {S : Type} (process : Deltas -> M S unit) (as_ErrRequeue : goerr -> option (option goerr)).

(** One turn of the loop of [Pop] for each key at the head of the queue that
    has no changes; [None] when it would wait. *)
Fixpoint pop_from (queue : list string) : M (DeltaFIFO * S) (option Deltas) := fun '(f, s) =>
  match queue with
  | [] => if f_closed f then (Err FIFOClosedError, (set_f_queue [] f, s)) else (Ok None, (set_f_queue [] f, s))
  | id :: rest =>
      let f := set_f_queue rest f in
      let f := if (0 <? f_initialPopulationCount f)%Z
               then {| f_items := f_items f; f_queue := f_queue f; f_populated := f_populated f;
                       f_initialPopulationCount := f_initialPopulationCount f - 1; f_closed := f_closed f |}
               else f in
      match f_items f !! id with
      | None => pop_from rest (f, s)
      | Some item =>
          let f := set_f_items (delete id (f_items f)) f in
          match process item s with
          | (Ok _, s') => (Ok (Some item), (f, s'))
          | (Panic, s') => (Panic, (f, s'))
          | (Err e, s') =>
              match as_ErrRequeue e with
              | Some None => (Ok (Some item), (addIfNotPresent id item f, s'))
              | Some (Some e') => (Err e', (addIfNotPresent id item f, s'))
              | None => (Err e, (f, s'))
              end
          end
      end
  end.

Definition Pop : M (DeltaFIFO * S) (option Deltas) := fun st => pop_from (f_queue st.1) st.
End pop.

(** ** What the changes of a key amount to *)

Definition settle (st : option T) (d : Delta) : option T :=
  match d_Type d with Deleted => None | _ => type_assert (d_Object d) end.
Definition settles (st : option T) (ds : Deltas) : option T := foldl settle st ds.

Lemma settles_snoc st ds d : settles st (ds ++ [d]) = settle (settles st ds) d.
Proof. apply foldl_snoc. Qed.

Lemma settle_deleted st d : d_Type d = Deleted -> settle st d = None.
Proof. unfold settle. by intros ->. Qed.

(** What is known of all objects that come in, and of those whose deletion is
    reported. *)
Variables P Q : T -> Prop.

(** A change is about its key; unless it is a deletion, it is about an object
    of the type, with [P]; a deletion is about a reported object, with [Q], or a
    tombstone. *)
Definition delta_ok (id : string) (d : Delta) : Prop :=
  KeyOf (d_Object d) = Ok id /\ (d_Type d <> Deleted -> exists t, d_Object d = ObjOf t /\ P t) /\
  (d_Type d = Deleted -> forall t, d_Object d = ObjOf t -> Q t).

Lemma isDup_spec a b out :
  isDup a b = Some out -> (out = a \/ out = b) /\ d_Type a = Deleted /\ d_Type b = Deleted.
Proof.
  unfold isDup, isDeletionDup. destruct (decide (d_Type b = Deleted)) as [Hb|Hb].
  - rewrite bool_decide_eq_false_2 by (intros Hn; by apply Hn). destruct (decide (d_Type a = Deleted)) as [Ha|Ha].
    + rewrite bool_decide_eq_false_2 by (intros Hn; by apply Hn). cbn.
      destruct (is_tombstone (d_Object b)); intros [= <-]; [by split; [left|]|by split; [right|]].
    + by rewrite (bool_decide_eq_true_2 (d_Type a <> Deleted)).
  - by rewrite bool_decide_eq_true_2.
Qed.

(** Deduplication keeps the outcome and the last kind of change. *)
Lemma dedupDeltas_spec ds d :
  exists ds' d', dedupDeltas (ds ++ [d]) = ds' ++ [d'] /\ d_Type d' = d_Type d /\
    (d' = d \/ d' ∈ ds) /\ (forall d0, d0 ∈ ds' -> d0 ∈ ds) /\
    forall st, settles st (ds' ++ [d']) = settles st (ds ++ [d]).
Proof.
  unfold dedupDeltas. destruct ds as [|b ds _] using rev_ind; [exists [], d; repeat split; auto|].
  rewrite <- (assoc_L app). cbn [app]. rewrite length_app. cbn [length].
  replace (length ds + 2 <? 2)%nat with false by (symmetry; apply Nat.ltb_ge; lia).
  replace (length ds + 2 - 1)%nat with (length ds + 1)%nat by lia.
  replace (length ds + 2 - 2)%nat with (length ds + 0)%nat by lia.
  rewrite !lookup_app_r, take_app_add by lia. cbn [take]. rewrite app_nil_r.
  replace (length ds + 1 - length ds)%nat with 1%nat by lia. replace (length ds + 0 - length ds)%nat with 0%nat by lia.
  cbn [lookup list_lookup]. destruct (isDup d b) as [out|] eqn:Hd.
  - apply isDup_spec in Hd as (Ho & Ha & Hb). exists ds, out. split; [done|].
    assert (Hout : d_Type out = Deleted) by by destruct Ho as [-> | ->].
    split; [congruence|]. split; [destruct Ho as [-> | ->]; [by left|right; set_solver]|]. split; [set_solver|].
    intros st. change [b; d] with ([b] ++ [d]). rewrite (assoc_L app), !settles_snoc. by rewrite !settle_deleted.
  - exists (ds ++ [b]), d. rewrite <- (assoc_L app). repeat split; auto.
Qed.

(** ** The queue's invariant

    "Items in the set are in the queue and vice versa, and all Deltas in this
    map have at least one Delta"; each key is queued once, and the changes of a
    key are about that key. *)
Record fifo_ok (f : DeltaFIFO) : Prop := {
  fo_once : NoDup (f_queue f);
  fo_keys k : k ∈ f_queue f <-> is_Some (f_items f !! k);
  fo_deltas k ds : f_items f !! k = Some ds -> ds <> [] /\ Forall (delta_ok k) ds
}.

Definition pending (f : DeltaFIFO) (k : string) : Deltas := default [] (f_items f !! k).

Lemma pending_ok f k : fifo_ok f -> Forall (delta_ok k) (pending f k).
Proof. intros Hok. unfold pending. destruct (f_items f !! k) as [ds|] eqn:Hk; [by apply (fo_deltas f Hok)|constructor]. Qed.

Lemma NewDeltaFIFO_ok : fifo_ok NewDeltaFIFO.
Proof. split; [constructor| |done]. intros k. cbn. rewrite elem_of_nil. split; [done|]. by intros [? ?]. Qed.

Lemma populate_ok f : fifo_ok (populate f) <-> fifo_ok f.
Proof. split; intros []; by split. Qed.

(** The key is to be deleted: what [Sync] does not change. *)
Definition doomed (f : DeltaFIFO) (k : string) : bool := willObjectBeDeletedLocked f k.

Lemma doomed_settles f k st : doomed f k = true -> settles st (pending f k) = None.
Proof.
  unfold doomed, willObjectBeDeletedLocked, pending, Newest. destruct (default [] (f_items f !! k)) as [|d ds _] using rev_ind; [done|].
  rewrite last_snoc, settles_snoc. intros Hd%bool_decide_eq_true. by apply settle_deleted.
Qed.

(** The changes of [k] settle to [out] whatever the object was before, nothing
    else of the queue's content is different. *)
Record queued (k : string) (f f' : DeltaFIFO) : Prop := {
  qd_ok : fifo_ok f';
  qd_others k' : k' <> k -> pending f' k' = pending f k';
  qd_sub : f_queue f ⊆ f_queue f'
}.

Lemma queue_delta_run ty o id f :
  fifo_ok f -> delta_ok id {| d_Type := ty; d_Object := o |} ->
  exists f', queue_delta ty o id f = (Ok tt, f') /\ queued id f f' /\ f_closed f' = f_closed f /\
    if bool_decide (ty = Sync) && doomed f id then pending f' id = pending f id
    else (forall st, settles st (pending f' id) = settle (settles st (pending f id)) {| d_Type := ty; d_Object := o |}) /\
         (doomed f' id = bool_decide (ty = Deleted)) /\
         pending f' id = dedupDeltas (pending f id ++ [{| d_Type := ty; d_Object := o |}]).
Proof.
  intros Hok Hd. unfold queue_delta. fold (doomed f id). destruct (bool_decide (ty = Sync) && doomed f id).
  { exists f. split; [done|]. split; [by split|done]. }
  fold (pending f id). destruct (dedupDeltas_spec (pending f id) {| d_Type := ty; d_Object := o |})
    as (ds' & d' & Hdd & Hty & Hd' & Hsub & Hset). rewrite Hdd. cbn in Hty.
  replace (0 <? length (ds' ++ [d']))%nat with true by (rewrite length_app; symmetry; apply Nat.ltb_lt; cbn; lia).
  set (q := match f_items f !! id with Some _ => f_queue f | None => f_queue f ++ [id] end).
  set (f' := set_f_items (<[id := ds' ++ [d']]> (f_items f)) (set_f_queue q f)).
  exists f'. split; [unfold f', q; by destruct (f_items f !! id); destruct f|].
  assert (Hall : Forall (delta_ok id) (ds' ++ [d'])).
  { pose proof (proj1 (Forall_forall _ _) (pending_ok f id Hok)) as Hp. apply Forall_forall.
    intros d [Hin| ->%list_elem_of_singleton]%elem_of_app; [by apply Hp, Hsub|]. destruct Hd' as [->|Hin]; [done|by apply Hp]. }
  split; [split|].
  - split; cbn.
    + unfold q. destruct (f_items f !! id) eqn:Hid; [apply Hok|]. apply NoDup_app. split; [apply Hok|].
      split; [|apply NoDup_singleton]. intros x Hx ->%list_elem_of_singleton. apply (fo_keys f Hok) in Hx as [? Hx]. congruence.
    + intros k. destruct (decide (k = id)) as [->|Hk].
      * rewrite lookup_insert_eq. split; [by eauto|intros _]. unfold q. destruct (f_items f !! id) eqn:Hid; [apply (fo_keys f Hok); eauto|set_solver].
      * rewrite lookup_insert_ne by done. rewrite <- (fo_keys f Hok). unfold q. destruct (f_items f !! id); [done|set_solver].
    + intros k ds. destruct (decide (k = id)) as [->|Hk].
      * rewrite lookup_insert_eq. intros [= <-]. split; [by destruct ds'|done].
      * rewrite lookup_insert_ne by done. apply (fo_deltas f Hok).
  - intros k Hk. unfold pending, f'. cbn. by rewrite lookup_insert_ne.
  - cbn. unfold q. destruct (f_items f !! id); set_solver.
  - split; [done|]. unfold doomed, willObjectBeDeletedLocked, Newest, pending at 1, f'. cbn. rewrite lookup_insert_eq. cbn.
    split; [intros st; by rewrite Hset, settles_snoc|]. split; [by rewrite last_snoc, Hty|].
    unfold pending. cbn. by rewrite lookup_insert_eq.
Qed.

Lemma queueActionLocked_key ty o id f : KeyOf o = Ok id -> queueActionLocked ty o f = queue_delta ty o id f.
Proof. intros Hk. unfold queueActionLocked. by rewrite Hk. Qed.

Lemma doomed_pending f f' k : pending f' k = pending f k -> doomed f' k = doomed f k.
Proof.
  unfold doomed, willObjectBeDeletedLocked. fold (pending f' k). fold (pending f k). by intros ->.
Qed.

Lemma doomed_nil f k : pending f k = [] -> doomed f k = false.
Proof. unfold doomed, willObjectBeDeletedLocked. fold (pending f k). by intros ->. Qed.

(** ** The methods *)

Lemma KeyOf_obj t : KeyOf (ObjOf t) = Ok (object_key t).
Proof. done. Qed.

Lemma delta_ok_obj ty t :
  (if bool_decide (ty = Deleted) then Q t else P t) -> delta_ok (object_key t) {| d_Type := ty; d_Object := ObjOf t |}.
Proof. intros Hp. split; [done|]. case_bool_decide; (split; [|by intros ? ? [= <-]]); [done|]. intros _. by exists t. Qed.

Lemma delta_ok_tombstone k o : delta_ok k {| d_Type := Deleted; d_Object := ObjTombstone k o |}.
Proof. done. Qed.

(** Adding and updating. *)
Lemma put_run ty t f :
  ty = Added \/ ty = Updated -> P t -> fifo_ok f ->
  exists f', queueActionLocked ty (ObjOf t) (populate f) = (Ok tt, f') /\ queued (object_key t) f f' /\
    forall st, settles st (pending f' (object_key t)) = Some t.
Proof.
  intros Hty Hp Hok. rewrite (queueActionLocked_key ty (ObjOf t) _ _ (KeyOf_obj t)).
  destruct (queue_delta_run ty (ObjOf t) (object_key t) (populate f)) as (f' & -> & Hq & _ & Hset);
    [by apply populate_ok|apply delta_ok_obj; by destruct Hty as [-> | ->]|].
  exists f'. split; [done|]. split; [by destruct Hq; split|].
  rewrite (bool_decide_eq_false_2 (ty = Sync)) in Hset by by destruct Hty as [-> | ->]. cbn in Hset.
  intros st. rewrite (proj1 Hset). by destruct Hty as [-> | ->].
Qed.

(** The indexer whose objects are [base]. *)
Record known_is (known : KeyListerGetter) (base : gmap string T) : Prop := {
  kn_get k : GetByKey known k = Ok (ObjOf <$> base !! k);
  kn_once : NoDup (ListKeys known);
  kn_keys k : k ∈ ListKeys known <-> is_Some (base !! k)
}.

Lemma Delete_run known base t f :
  Q t -> fifo_ok f -> known_is known base ->
  exists f', Delete (Some known) (ObjOf t) f = (Ok tt, f') /\ queued (object_key t) f f' /\
    settles (base !! object_key t) (pending f' (object_key t)) = None /\
    (is_Some (base !! object_key t) -> doomed f' (object_key t) = true).
Proof.
  intros Hqt Hok Hkn. unfold Delete. rewrite KeyOf_obj. unfold lift, modify, gets, mbind, M_bind. cbn.
  rewrite (kn_get _ _ Hkn). set (k := object_key t) in *. case_bool_decide as Hk.
  - assert (match ObjOf <$> base !! k with Some _ => false | None => negb true end = false) as -> by by destruct (base !! k).
    rewrite (queueActionLocked_key Deleted (ObjOf t) k _ eq_refl).
    destruct (queue_delta_run Deleted (ObjOf t) k (populate f)) as (f' & -> & Hq & _ & Hset); [by apply populate_ok|by apply delta_ok_obj|].
    exists f'. split; [done|]. split; [by destruct Hq; split|]. cbn in Hset. destruct Hset as (Hset & Hdm & _). by rewrite Hset.
  - destruct (base !! k) as [t'|] eqn:Hb; cbn.
    + rewrite (queueActionLocked_key Deleted (ObjOf t) k _ eq_refl).
      destruct (queue_delta_run Deleted (ObjOf t) k (populate f)) as (f' & -> & Hq & _ & Hset); [by apply populate_ok|by apply delta_ok_obj|].
      exists f'. split; [done|]. split; [by destruct Hq; split|]. cbn in Hset. destruct Hset as (Hset & Hdm & _). by rewrite Hset.
    + exists (populate f). split; [done|]. split; [split; [by apply populate_ok|done|done]|].
      unfold pending. cbn. apply eq_None_not_Some in Hk. rewrite Hk. split; [done|]. by intros [? ?].
Qed.

(** What a list of objects says of a key. *)
Definition heard_at (k : string) (st : option T) (t : T) : option T :=
  if bool_decide (object_key t = k) then Some t else st.

Lemma sync_all_run l : forall keys f,
  Forall P l -> fifo_ok f ->
  exists f', sync_all (ObjOf <$> l) keys f = (Ok (list_to_set (object_key <$> l) ∪ keys), f') /\ fifo_ok f' /\
    (forall k, doomed f' k = doomed f k) /\
    (forall k st, settles st (pending f' k) =
      if doomed f k then settles st (pending f k) else foldl (heard_at k) (settles st (pending f k)) l) /\
    (forall k, k ∉ object_key <$> l -> pending f' k = pending f k) /\
    (NoDup (object_key <$> l) -> forall t, t ∈ l -> pending f (object_key t) = [] ->
      pending f' (object_key t) = [{| d_Type := Sync; d_Object := ObjOf t |}]).
Proof.
  induction l as [|t l IH]; intros keys f Hpl Hok.
  { exists f. split; [cbn; by rewrite (left_id_L ∅ union)|]. split; [done|]. split; [done|].
    split; [intros k st; by destruct (doomed f k)|]. split; [done|]. by intros _ t ?%elem_of_nil. }
  inversion Hpl as [|? ? Hpt Hpl']; subst. cbn [fmap list_fmap sync_all]. rewrite KeyOf_obj. unfold wrapped, lift, mbind, M_bind. cbn [KeyError wrap_err].
  set (k0 := object_key t). rewrite (queueActionLocked_key Sync (ObjOf t) k0 _ eq_refl).
  destruct (queue_delta_run Sync (ObjOf t) k0 f Hok (delta_ok_obj Sync t Hpt)) as (f1 & -> & [Hok1 Hoth _] & _ & Hset).
  cbn [wrap_err]. destruct (IH ({[k0]} ∪ keys) f1 Hpl' Hok1) as (f' & Hrun & Hok' & Hdm & Hset' & Hother & Hexact).
  assert (Hdm1 : forall k, doomed f1 k = doomed f k).
  { intros k. destruct (decide (k = k0)) as [->|Hk]; [|by apply doomed_pending, Hoth]. cbn in Hset.
    destruct (doomed f k0) eqn:Hd; [by rewrite (doomed_pending f f1 k0 Hset)|by destruct Hset as (_ & -> & _)]. }
  exists f'. split; [rewrite Hrun; do 2 f_equal; cbn; set_solver|]. split; [done|]. split; [intros k; by rewrite Hdm|]. split; [|split].
  - intros k st. rewrite Hset', Hdm1. destruct (decide (k = k0)) as [->|Hk].
    + cbn in Hset. destruct (doomed f k0) eqn:Hd; [by rewrite Hset|]. rewrite (proj1 Hset). cbn.
      unfold heard_at at 3. rewrite bool_decide_eq_true_2 by done. done.
    + rewrite Hoth by done. destruct (doomed f k); [done|]. cbn. unfold heard_at at 3. by rewrite bool_decide_eq_false_2.
  - intros k [Hk Hl]%not_elem_of_cons. rewrite Hother by done. by apply Hoth.
  - intros [Hni Hnd]%NoDup_cons t' Ht' Hp. apply elem_of_cons in Ht' as [->|Ht'].
    + fold k0 in Hp |- *. rewrite Hother by done. cbn in Hset. rewrite (doomed_nil f k0 Hp) in Hset.
      destruct Hset as (_ & _ & ->). by rewrite Hp.
    + apply Hexact; [done|done|]. rewrite Hoth; [done|]. intros Heq. apply Hni. rewrite <- Heq. apply list_elem_of_fmap. by exists t'.
Qed.

Lemma delete_missing_run keys lk ks : forall n f,
  fifo_ok f ->
  exists m f', delete_missing keys ks lk n f = (Ok m, f') /\ fifo_ok f' /\
    (forall k st, settles st (pending f' k) =
      if bool_decide (k ∈ ks /\ k ∉ keys) then None else settles st (pending f k)) /\
    (forall k, k ∉ ks \/ k ∈ keys -> pending f' k = pending f k) /\
    (NoDup ks -> forall k, k ∈ ks -> k ∉ keys -> pending f k = [] ->
      pending f' k = [{| d_Type := Deleted; d_Object := ObjTombstone k (lk k) |}]).
Proof.
  induction ks as [|k0 ks IH]; intros n f Hok.
  { exists n, f. split; [done|]. split; [done|]. split; [|split; [done|by intros _ k ?%elem_of_nil]].
    intros k st. rewrite bool_decide_eq_false_2; [done|]. by intros [?%elem_of_nil _]. }
  cbn [delete_missing]. destruct (decide (k0 ∈ keys)) as [Hk0|Hk0].
  - rewrite bool_decide_eq_true_2 by done. destruct (IH n f Hok) as (m & f' & -> & Hok' & Hset & Hother & Hexact).
    exists m, f'. split; [done|]. split; [done|]. split; [|split].
    + intros k st. rewrite Hset. rewrite (bool_decide_ext _ (k ∈ k0 :: ks /\ k ∉ keys)); [done|]. set_solver.
    + intros k Hk. apply Hother. set_solver.
    + intros [_ Hnd]%NoDup_cons k Hk Hnk. apply Hexact; [done| |done]. set_solver.
  - rewrite bool_decide_eq_false_2 by done. unfold mbind, M_bind.
    rewrite (queueActionLocked_key Deleted (ObjTombstone k0 (lk k0)) k0 _ eq_refl).
    destruct (queue_delta_run Deleted (ObjTombstone k0 (lk k0)) k0 f Hok) as (f1 & -> & [Hok1 Hoth _] & _ & Hset1);
      [apply delta_ok_tombstone|]. destruct Hset1 as (Hset1 & _ & Hpend1). cbn in Hset1.
    destruct (IH (n + 1)%Z f1 Hok1) as (m & f' & -> & Hok' & Hset & Hother & Hexact).
    exists m, f'. split; [done|]. split; [done|]. split; [|split].
    + intros k st. rewrite Hset. destruct (decide (k = k0)) as [->|Hk].
      * rewrite (bool_decide_eq_true_2 (k0 ∈ k0 :: ks /\ k0 ∉ keys)) by (split; [by left|done]).
        rewrite Hset1. by case_bool_decide.
      * rewrite Hoth by done. rewrite (bool_decide_ext _ (k ∈ k0 :: ks /\ k ∉ keys)); [done|]. set_solver.
    + intros k Hk. assert (Hne : k <> k0) by (intros ->; set_solver). rewrite <- (Hoth k Hne). apply Hother. set_solver.
    + intros [Hni Hnd]%NoDup_cons k Hk Hnk Hp. destruct (decide (k = k0)) as [->|Hne].
      * rewrite Hother by by left. by rewrite Hpend1, Hp.
      * apply Hexact; [done| |done|by rewrite Hoth]. set_solver.
Qed.
Lemma foldl_heard k l : forall m : gmap string T,
  foldl (heard_at k) (m !! k) l = foldl (fun m t => <[object_key t := t]> m) m l !! k.
Proof.
  induction l as [|t l IH]; intros m; [done|]. cbn. rewrite <- IH. f_equal. unfold heard_at.
  case_bool_decide as Hk; [by rewrite <- Hk, lookup_insert_eq|by rewrite lookup_insert_ne].
Qed.

(** The objects of a list. *)
Definition list_view (l : list T) : gmap string T := foldl (fun m t => <[object_key t := t]> m) ∅ l.

Lemma foldl_heard_other k l : forall st, k ∉ object_key <$> l -> foldl (heard_at k) st l = st.
Proof.
  induction l as [|t l IH]; intros st Hk; [done|]. cbn in Hk |- *. apply not_elem_of_cons in Hk as [Hne Hk].
  unfold heard_at at 2. rewrite bool_decide_eq_false_2 by congruence. by apply IH.
Qed.

Lemma foldl_heard_in k l : forall st, k ∈ object_key <$> l -> foldl (heard_at k) st l = list_view l !! k.
Proof.
  intros st Hk. unfold list_view. rewrite <- (foldl_heard k l ∅), lookup_empty. revert st.
  generalize (@None T). induction l as [|t l IH]; intros st' st; [by apply elem_of_nil in Hk|]. cbn in Hk |- *.
  destruct (decide (k ∈ object_key <$> l)) as [Hl|Hl]; [by apply IH|].
  apply elem_of_cons in Hk as [->|?]; [|done]. rewrite !foldl_heard_other by done.
  unfold heard_at. by rewrite bool_decide_eq_true_2.
Qed.

Lemma list_view_other k l : k ∉ object_key <$> l -> list_view l !! k = None.
Proof. intros Hk. unfold list_view. by rewrite <- (foldl_heard k l ∅), foldl_heard_other. Qed.

(** Which lists the queue can take: no key that waits for its deletion is
    listed, and every key that waits, that the indexer does not know and that
    is not listed waits for a deletion. *)
Record relist_safe (base : gmap string T) (f : DeltaFIFO) (l : list T) : Prop := {
  rs_listed k : k ∈ object_key <$> l -> doomed f k = false;
  rs_unknown k : k ∉ object_key <$> l -> base !! k = None -> settles None (pending f k) = None
}.

(** The queue after a list.  A key that was listed gets the listed object,
    unless it waits for its deletion; a known key that was not listed is
    deleted; any other keeps what it waits for. *)
Lemma Replace_run known base l f :
  Forall P l -> fifo_ok f -> known_is known base ->
  exists f', Replace (Some known) (ObjOf <$> l) f = (Ok tt, f') /\ fifo_ok f' /\
    (forall k, settles (base !! k) (pending f' k) =
       if bool_decide (k ∈ object_key <$> l) then (if doomed f k then None else list_view l !! k)
       else match base !! k with Some _ => None | None => settles None (pending f k) end) /\
    (NoDup (object_key <$> l) -> forall k, pending f k = [] ->
       (forall t, t ∈ l -> object_key t = k -> pending f' k = [{| d_Type := Sync; d_Object := ObjOf t |}]) /\
       (k ∉ object_key <$> l -> forall t, base !! k = Some t ->
          pending f' k = [{| d_Type := Deleted; d_Object := ObjTombstone k (ObjOf t) |}])).
Proof.
  intros Hpl Hok Hkn. destruct (sync_all_run l ∅ f Hpl Hok) as (f1 & Hrun1 & Hok1 & _ & Hset1 & Hoth1 & Hex1).
  set (keys := list_to_set (object_key <$> l) ∪ ∅ : gset string) in *.
  set (lk := fun k => match GetByKey known k with Ok (Some o) => o | _ => ObjOther end).
  destruct (delete_missing_run keys lk (ListKeys known) 0%Z f1 Hok1) as (m & f2 & Hrun2 & Hok2 & Hset2 & Hoth2 & Hex2).
  unfold Replace, mbind, M_bind. rewrite Hrun1. unfold queued_deletions. fold lk. rewrite Hrun2.
  set (f3 := if f_populated f2 then f2 else set_f_populated (Z.of_nat (length (ObjOf <$> l)) + m) f2).
  exists f3. split; [done|].
  assert (Hp3 : forall k, pending f3 k = pending f2 k) by (intros k; unfold f3; by destruct (f_populated f2)).
  split; [unfold f3; destruct (f_populated f2); [done|by destruct Hok2; split]|].
  assert (Hkeys : forall k, k ∈ keys <-> k ∈ object_key <$> l) by (intros k; unfold keys; set_solver). split.
  - intros k. rewrite Hp3, Hset2, Hset1. case_bool_decide as Hd; case_bool_decide as Hk.
    + exfalso. destruct Hd as [_ Hd]. by apply Hd, Hkeys.
    + destruct (base !! k) as [t|] eqn:Hb; [done|]. apply proj1, (kn_keys _ _ Hkn) in Hd as [t Hd]. congruence.
    + destruct (doomed f k) eqn:Hdm; [by apply doomed_settles|by apply foldl_heard_in].
    + destruct (base !! k) as [t|] eqn:Hb; [destruct Hd; split; [apply (kn_keys _ _ Hkn); eauto|by rewrite Hkeys]|].
      rewrite foldl_heard_other by done. by destruct (doomed f k).
  - intros Hnd k Hp. rewrite Hp3. split.
    + intros t Ht <-. rewrite Hoth2; [by apply Hex1|]. right. apply Hkeys, list_elem_of_fmap. by exists t.
    + intros Hk t Hb. rewrite (Hex2 (kn_once _ _ Hkn)).
      * unfold lk. by rewrite (kn_get _ _ Hkn), Hb.
      * apply (kn_keys _ _ Hkn). eauto.
      * by rewrite Hkeys.
      * by rewrite Hoth1.
Qed.

Lemma relist_safe_view base l f f' :
  relist_safe base f l ->
  (forall k, settles (base !! k) (pending f' k) =
     if bool_decide (k ∈ object_key <$> l) then (if doomed f k then None else list_view l !! k)
     else match base !! k with Some _ => None | None => settles None (pending f k) end) ->
  forall k, settles (base !! k) (pending f' k) = list_view l !! k.
Proof.
  intros [Hlisted Hunknown] Hset k. rewrite Hset. case_bool_decide as Hk; [by rewrite (Hlisted k Hk)|].
  rewrite (list_view_other k l Hk). destruct (base !! k) eqn:Hb; [done|by apply Hunknown].
Qed.

(** A resync queues what the indexer has, for keys that wait for nothing. *)
Lemma Resync_run known base f :
  fifo_ok f -> known_is known base -> (forall k t, base !! k = Some t -> object_key t = k /\ P t) ->
  exists f', Resync (Some known) f = (Ok tt, f') /\ fifo_ok f' /\
    forall k, settles (base !! k) (pending f' k) = settles (base !! k) (pending f k).
Proof.
  intros Hok Hkn Hkey. cbn [Resync]. generalize (ListKeys known). intros ks. revert f Hok.
  induction ks as [|k0 ks IH]; intros f Hok; [by exists f|]. cbn [for_range].
  assert (exists f1, syncKeyLocked known k0 f = (Ok tt, f1) /\ fifo_ok f1 /\
    forall k, settles (base !! k) (pending f1 k) = settles (base !! k) (pending f k)) as (f1 & Hrun1 & Hok1 & Hset1).
  { unfold syncKeyLocked. rewrite (kn_get _ _ Hkn). destruct (base !! k0) as [t|] eqn:Hb; cbn; [|by exists f].
    unfold mbind, M_bind, lift, sync_unless_queued. cbn. destruct (Hkey k0 t Hb) as [Hk0 Hpt]. rewrite Hk0. fold (pending f k0).
    destruct (pending f k0) as [|d ds] eqn:Hp; cbn [length]; [|by exists f]. cbn [Nat.ltb Nat.leb]. unfold wrapped.
    rewrite (queueActionLocked_key Sync (ObjOf t) k0) by (cbn; by rewrite Hk0).
    destruct (queue_delta_run Sync (ObjOf t) k0 f Hok) as (f1 & -> & [Hok1 Hoth _] & _ & Hset);
      [rewrite <- Hk0; by apply delta_ok_obj|].
    exists f1. split; [done|]. split; [done|]. intros k. destruct (decide (k = k0)) as [->|Hk]; [|by rewrite Hoth].
    cbn in Hset. destruct (doomed f k0) eqn:Hd; [by rewrite Hset|]. rewrite (proj1 Hset), Hp, Hb. done. }
  unfold mbind, M_bind. rewrite Hrun1. destruct (IH f1 Hok1) as (f' & Hrun & Hok' & Hset).
  exists f'. split; [done|]. split; [done|]. intros k. by rewrite Hset.
Qed.

(** [Pop] takes the first key with all its changes. *)
Lemma Pop_run {S} (process : Deltas -> M S unit) re f id rest s s' :
  fifo_ok f -> f_queue f = id :: rest -> process (pending f id) s = (Ok tt, s') ->
  exists f', Pop process re (f, s) = (Ok (Some (pending f id)), (f', s')) /\ fifo_ok f' /\ f_queue f' = rest /\
    pending f' id = [] /\ forall k, k <> id -> pending f' k = pending f k.
Proof.
  intros Hok Hq Hp. destruct (proj1 (fo_keys f Hok id)) as [ds Hds]; [rewrite Hq; by left|].
  assert (Hpend : pending f id = ds) by (unfold pending; by rewrite Hds).
  pose proof (fo_once f Hok) as Hnd. rewrite Hq in Hnd. apply NoDup_cons in Hnd as [Hni Hnd].
  unfold Pop. cbn [fst]. rewrite Hq. cbn [pop_from]. set (f1 := if (0 <? _)%Z then _ else _).
  assert (Hf1 : f_items f1 = f_items f /\ f_queue f1 = rest) by (unfold f1; by destruct (0 <? _)%Z).
  destruct Hf1 as [Hi1 Hq1]. rewrite Hi1, Hds, <- Hpend, Hp. eexists. split; [done|].
  split; [split|split; [done|split]]; cbn.
  - by rewrite Hq1.
  - intros k. rewrite Hq1. destruct (decide (k = id)) as [->|Hk].
    + rewrite lookup_delete_eq. split; [done|by intros [? ?]].
    + rewrite lookup_delete_ne, <- (fo_keys f Hok), Hq by done. set_solver.
  - intros k ds'. destruct (decide (k = id)) as [->|Hk]; [by rewrite lookup_delete_eq|].
    rewrite lookup_delete_ne by done. apply (fo_deltas f Hok).
  - unfold pending. cbn. by rewrite lookup_delete_eq.
  - intros k Hk. unfold pending. cbn. by rewrite lookup_delete_ne.
Qed.

(** With nothing queued it waits. *)
Lemma Pop_waits {S} (process : Deltas -> M S unit) re f s :
  f_queue f = [] -> f_closed f = false -> Pop process re (f, s) = (Ok None, (set_f_queue [] f, s)).
Proof. intros Hq Hc. unfold Pop. cbn [fst]. rewrite Hq. cbn. by rewrite Hc. Qed.
End fifo.
Arguments Delta T : clear implicits.
Arguments DeltaFIFO T : clear implicits.
Arguments KeyListerGetter T : clear implicits.
