(* ===== verification/Watch.v ===== *)
(** * A shared informer

    [shared_informer.go], [reflector.go] and [controller.go] of client-go: the
    reflector lists and watches and fills the queue ([DeltaFifo]); the
    controller pops it into [HandleDeltas], which changes the indexer ([Store])
    and notifies the listeners.  The methods interleave in any order ([iact]).

    [informer_mirrors] is the contract: the indexer with what is queued is what
    the reflector was last told, and once the queue is drained the indexer is
    that.  It needs relists that the queue can take ([relist_safe]);
    [relist_hazards] shows the two ways in which this version of the library
    does not keep it otherwise.  What a listener among [syncingListeners] is
    told, applied in order to what was cached, gives what is cached
    ([isteps_ok]); [list_notifies] says how it hears of a list.

    The program's informers are made with resync period 0, for which no resync
    timer runs.  Resource versions, and how long a watch lasts, are not part of
    the model: the events of a watch are any sequence. *)
From S2P Require Import Prelude GoStrings Objects Labels Store DeltaFifo.

Section informer.
Context {T : Type} `{HMeta : Meta T}.
Abbreviation E := (EventObj T).

(** ** The indexer and the listeners *)

Inductive notification :=
| updateNotification (oldObj newObj : E)
| addNotification (newObj : E)
| deleteNotification (oldObj : E).

(** A listener: whether it is among [syncingListeners], and all notifications it
    was given, the oldest first; it hands them to its handler in this order
    ([Listener]). *)
Record processorListener := { pl_syncing : bool; pl_given : list notification }.

Record sharedIndexInformer := { si_indexer : threadSafeMap T; si_listeners : list processorListener }.

Definition set_si_indexer (x : threadSafeMap T) (s : sharedIndexInformer) : sharedIndexInformer :=
  {| si_indexer := x; si_listeners := si_listeners s |}.

Definition listener_add (n : notification) (l : processorListener) : processorListener :=
  {| pl_syncing := pl_syncing l; pl_given := pl_given l ++ [n] |}.

Definition distribute (n : notification) (sync : bool) : M sharedIndexInformer unit :=
  modify (fun s => {| si_indexer := si_indexer s;
    si_listeners := (fun l => if negb sync || pl_syncing l then listener_add n l else l) <$> si_listeners s |}).

Definition on_indexer {A} (m : M (threadSafeMap T) A) : M sharedIndexInformer A := zoom si_indexer set_si_indexer m.

(** [keyFunc] of the indexer. *)
Abbreviation keyFunc := DeletionHandlingMetaNamespaceKeyFunc.

(** One change of [HandleDeltas]. *)
Definition handle_delta (d : Delta T) : M sharedIndexInformer unit :=
  match d_Type d with
  | Deleted =>
      on_indexer (Store.Delete keyFunc (d_Object d)) ≫= fun _ =>
      distribute (deleteNotification (d_Object d)) false
  | ty =>
      let isSync := bool_decide (ty = Sync) in
      old ← try_m (on_indexer (Store.Get keyFunc (d_Object d)));
      match old with
      | inl (Some old) =>
          on_indexer (Store.Update keyFunc (d_Object d)) ≫= fun _ =>
          distribute (updateNotification old (d_Object d)) isSync
      | _ =>
          on_indexer (Store.Add keyFunc (d_Object d)) ≫= fun _ =>
          distribute (addNotification (d_Object d)) isSync
      end
  end.

Definition HandleDeltas (obj : list (Delta T)) : M sharedIndexInformer unit := for_range obj handle_delta.

(** [AddEventHandler]: before the start a listener is added; after it, it also
    gets the objects that are there. *)
Definition AddEventHandler (started : bool) (s : sharedIndexInformer) : sharedIndexInformer :=
  let l := {| pl_syncing := true;
              pl_given := if started then addNotification <$> ts_List (si_indexer s) else [] |} in
  {| si_indexer := si_indexer s; si_listeners := si_listeners s ++ [l] |}.

(** ** The whole informer *)

Record informer := { in_fifo : DeltaFIFO T; in_shared : sharedIndexInformer }.

(** [NewSharedIndexInformer] and the queue that [Run] makes. *)
Definition NewSharedIndexInformer (indexers : gmap string (indexed T -> result (list string)))
    (handlers : nat) : informer :=
  {| in_fifo := NewDeltaFIFO;
     in_shared := Nat.iter handlers (AddEventHandler false) {| si_indexer := NewIndexer indexers; si_listeners := [] |} |}.

Definition known_objects (x : threadSafeMap T) : KeyListerGetter T :=
  {| ListKeys := ts_ListKeys x; GetByKey := fun k => Ok (ts_Get k x) |}.
Definition knownObjects (i : informer) : option (KeyListerGetter T) := Some (known_objects (si_indexer (in_shared i))).

Definition on_fifo (m : option (KeyListerGetter T) -> M (DeltaFIFO T) unit) : M informer unit := fun i =>
  match m (knownObjects i) (in_fifo i) with
  | (r, f) => (r, {| in_fifo := f; in_shared := in_shared i |})
  end.

(** *** The reflector *)

Inductive watch_event :=
| WatchAdded (obj : E)
| WatchModified (obj : E)
| WatchDeleted (obj : E)
| WatchError (e : goerr)
| WatchUnknown (obj : E).

(** One event of [watchHandler], whether the loop goes on; an error of the
    queue is only logged.  An object of another type is skipped. *)
Definition watch_one (event : watch_event) : M informer bool :=
  match event with
  | WatchError e => mret false
  | WatchAdded obj | WatchModified obj | WatchDeleted obj | WatchUnknown obj =>
      match type_assert obj with
      | None => mret true
      | Some _ =>
          logged (on_fifo (fun known =>
            match event with
            | WatchAdded _ => DeltaFifo.Add obj
            | WatchModified _ => DeltaFifo.Update obj
            | WatchDeleted _ => DeltaFifo.Delete known obj
            | _ => mret tt
            end)) ≫= fun _ => mret true
      end
  end.

(** The list of [ListAndWatch]. *)
Definition syncWith (items : list E) : M informer unit := on_fifo (fun known => DeltaFifo.Replace known items).

(** *** The controller: one turn of [processLoop]; errors are dropped, since
    [RetryOnError] is false, and nothing of [HandleDeltas] is an [ErrRequeue]. *)

Definition process_one : M informer unit := fun i =>
  match DeltaFifo.Pop HandleDeltas (fun _ => None) (in_fifo i, in_shared i) with
  | (Panic, (f, s)) => (Panic, {| in_fifo := f; in_shared := s |})
  | (_, (f, s)) => (Ok tt, {| in_fifo := f; in_shared := s |})
  end.

(** *** Their interleaving *)

Inductive iact :=
| Listed (items : list T)       (* a list succeeds *)
| Heard (event : watch_event)   (* an event of a watch *)
| Resynced                      (* the resync timer *)
| Processed.                    (* a turn of [processLoop] *)

Definition istep (a : iact) (i : informer) : informer :=
  match a with
  | Listed items => (syncWith (ObjOf <$> items) i).2
  | Heard event => (watch_one event i).2
  | Resynced => (on_fifo DeltaFifo.Resync i).2
  | Processed => (process_one i).2
  end.
Definition isteps (acts : list iact) (i : informer) : informer := fold_left (fun i a => istep a i) acts i.

(** ** Specification: what the reflector was told *)

Definition heard (v : gmap string T) (event : watch_event) : gmap string T :=
  match event with
  | WatchAdded (ObjOf t) | WatchModified (ObjOf t) => <[object_key t := t]> v
  | WatchDeleted (ObjOf t) => delete (object_key t) v
  | _ => v
  end.

Definition told_view (v : gmap string T) (a : iact) : gmap string T :=
  match a with
  | Listed items => list_view items
  | Heard event => heard v event
  | _ => v
  end.

(** The typed objects of an indexer. *)
Definition stored (x : threadSafeMap T) : gmap string T := omap type_assert (ts_items x).
Definition cached (i : informer) : gmap string T := stored (si_indexer (in_shared i)).

(** What is known of all objects that the API server sends, and of those whose
    deletion it reports. *)
Variables P Q : T -> Prop.

Definition iact_objects (a : iact) : Prop :=
  match a with
  | Listed items => Forall P items
  | Heard (WatchAdded (ObjOf t)) | Heard (WatchModified (ObjOf t)) => P t
  | Heard (WatchDeleted (ObjOf t)) => Q t
  | _ => True
  end.

Record informer_ok (i : informer) : Prop := {
  inf_fifo : fifo_ok P Q (in_fifo i);
  inf_indexer : indexer_ok (si_indexer (in_shared i));
  inf_objects : map_Forall (fun _ => P) (cached i)
}.

(** The indexer with what is queued is [v]. *)
Definition mirrors (i : informer) (v : gmap string T) : Prop :=
  forall k, settles (cached i !! k) (pending (in_fifo i) k) = v !! k.

(** The lists of a run are ones the queue can take. *)
Definition iact_safe (a : iact) (i : informer) : Prop :=
  match a with Listed items => relist_safe (cached i) (in_fifo i) items | _ => True end.
Fixpoint iacts_safe (acts : list iact) (i : informer) : Prop :=
  match acts with [] => True | a :: acts' => iact_safe a i /\ iacts_safe acts' (istep a i) end.

(** What a listener is told of a change, and what it makes of it. *)
Definition note_of (old : option T) (d : Delta T) : notification :=
  match d_Type d, old with
  | Deleted, _ => deleteNotification (d_Object d)
  | _, Some t => updateNotification (ObjOf t) (d_Object d)
  | _, None => addNotification (d_Object d)
  end.
Fixpoint notes (syncing : bool) (old : option T) (ds : list (Delta T)) : list notification :=
  match ds with
  | [] => []
  | d :: ds' => (if syncing || bool_decide (d_Type d <> Sync) then [note_of old d] else []) ++
                notes syncing (settle old d) ds'
  end.
Definition apply_note (m : gmap string T) (n : notification) : gmap string T :=
  match n with
  | addNotification (ObjOf t) | updateNotification _ (ObjOf t) => <[object_key t := t]> m
  | deleteNotification o => match KeyOf o with Ok k => delete k m | _ => m end
  | _ => m
  end.
Definition give (ns : bool -> list notification) (l : processorListener) : processorListener :=
  {| pl_syncing := pl_syncing l; pl_given := pl_given l ++ ns (pl_syncing l) |}.

(** What a handler may be called with: objects that came in, and deletions of
    reported objects or tombstones. *)
Definition note_ok (n : notification) : Prop :=
  match n with
  | addNotification o | updateNotification _ o => exists t, o = ObjOf t /\ P t
  | deleteNotification o => forall t, o = ObjOf t -> Q t
  end.

(** ** The indexer *)

Lemma stored_lookup x k : stored x !! k = ts_items x !! k ≫= type_assert.
Proof. apply lookup_omap. Qed.

Lemma typed_lookup x k : typed x -> ts_items x !! k = ObjOf <$> stored x !! k.
Proof.
  intros Ht. rewrite stored_lookup. destruct (ts_items x !! k) as [o|] eqn:Ho; [|done]. by destruct (Ht k o Ho) as (t & -> & _).
Qed.

Lemma stored_key x k t : typed x -> stored x !! k = Some t -> object_key t = k.
Proof. intros Ht. rewrite stored_lookup. intros (o & Ho & Hta)%bind_Some. destruct (Ht k o Ho) as (t' & -> & <-). by injection Hta as ->. Qed.

Lemma known_objects_is x : typed x -> known_is (known_objects x) (stored x).
Proof.
  intros Ht. split; cbn.
  - intros k. unfold ts_Get. by rewrite typed_lookup.
  - apply NoDup_fst_map_to_list.
  - intros k. unfold ts_ListKeys. rewrite stored_lookup. split.
    + intros Hk. apply list_elem_of_fmap in Hk as ([k' o] & -> & Hk). apply elem_of_map_to_list in Hk. cbn. rewrite Hk.
      destruct (Ht _ _ Hk) as (t & -> & _). cbn. eauto.
    + intros [t (o & Ho & _)%bind_Some]. apply list_elem_of_fmap. exists (k, o). split; [done|]. by apply elem_of_map_to_list.
Qed.

Lemma stored_insert x x' k t :
  ts_items x' = <[k := ObjOf t]> (ts_items x) -> stored x' = <[k := t]> (stored x).
Proof. intros Hi. unfold stored. rewrite Hi. by apply omap_insert_Some. Qed.

Lemma stored_delete x x' k : ts_items x' = delete k (ts_items x) -> stored x' = delete k (stored x).
Proof. intros Hi. unfold stored. by rewrite Hi, omap_delete. Qed.

(** ** [HandleDeltas] *)

Lemma distribute_give n sync (ls : list processorListener) :
  (fun l => if negb sync || pl_syncing l then listener_add n l else l) <$> ls =
  give (fun syncing => if negb sync || syncing then [n] else []) <$> ls.
Proof.
  apply list_fmap_ext. intros i [sy p] _. unfold listener_add, give. cbn.
  destruct (negb sync || sy); [done|by rewrite app_nil_r].
Qed.

(** A deletion, and a change of an object. *)
Lemma drop_run k o s :
  KeyOf o = Ok k -> indexer_ok (si_indexer s) ->
  exists s', handle_delta {| d_Type := Deleted; d_Object := o |} s = (Ok tt, s') /\ indexer_ok (si_indexer s') /\
    ts_indexers (si_indexer s') = ts_indexers (si_indexer s) /\
    stored (si_indexer s') = delete k (stored (si_indexer s)) /\
    si_listeners s' = give (fun _ => [deleteNotification o]) <$> si_listeners s.
Proof.
  destruct s as [x ls]. cbn [si_indexer si_listeners]. intros Hk Hx.
  unfold handle_delta. cbn [d_Type d_Object]. unfold mbind, M_bind, on_indexer, zoom, distribute, modify. cbn [si_indexer].
  destruct (indexer_Delete_run o k x Hx) as (x' & -> & Hx' & Hi & Hxs); [by destruct o|].
  eexists. split; [done|]. cbn. split; [done|]. split; [done|]. split; [by apply stored_delete|].
  exact (distribute_give _ false ls).
Qed.

Lemma upsert_run ty t s :
  ty <> Deleted -> indexer_ok (si_indexer s) ->
  let d := {| d_Type := ty; d_Object := ObjOf t |} in
  exists s', handle_delta d s = (Ok tt, s') /\ indexer_ok (si_indexer s') /\
    ts_indexers (si_indexer s') = ts_indexers (si_indexer s) /\
    stored (si_indexer s') = <[object_key t := t]> (stored (si_indexer s)) /\
    si_listeners s' = give (fun syncing => if syncing || bool_decide (ty <> Sync)
      then [note_of (stored (si_indexer s) !! object_key t) d] else []) <$> si_listeners s.
Proof.
  intros Hty Hx d. destruct s as [x ls]. cbn [si_indexer si_listeners] in *.
  set (s0 := {| si_indexer := x; si_listeners := ls |}). set (n := note_of _ d).
  assert (Hrun : handle_delta d s0 =
    (on_indexer (Store.Add keyFunc (ObjOf t)) ≫= fun _ => distribute n (bool_decide (ty = Sync))) s0).
  { assert (Hget : try_m (on_indexer (Store.Get keyFunc (ObjOf t))) s0 = (Ok (inl (ObjOf <$> stored x !! object_key t)), s0)).
    { unfold try_m, on_indexer, zoom, Store.Get. cbn. unfold mbind, M_bind, lift, gets, ts_Get. cbn.
      by rewrite (typed_lookup x _ (iok_typed x Hx)). }
    unfold n, note_of, handle_delta, d. cbn [d_Type d_Object].
    destruct ty; try done; unfold mbind at 1, M_bind at 1; rewrite Hget; by destruct (stored x !! object_key t). }
  rewrite Hrun. destruct (indexer_Add_run t x Hx) as (x' & Hadd & Hx' & Hi & Hxs).
  unfold mbind, M_bind, on_indexer, zoom, distribute, modify. cbn [s0 si_indexer]. rewrite Hadd.
  eexists. split; [done|]. cbn. split; [done|]. split; [done|]. split; [by apply stored_insert|].
  etransitivity; [exact (distribute_give n _ ls)|]. apply list_fmap_ext. intros i l _. unfold give. f_equal. f_equal.
  by destruct ty, (pl_syncing l).
Qed.

Lemma handle_delta_run k d s :
  delta_ok P Q k d -> indexer_ok (si_indexer s) ->
  exists s', handle_delta d s = (Ok tt, s') /\ indexer_ok (si_indexer s') /\
    ts_indexers (si_indexer s') = ts_indexers (si_indexer s) /\
    stored (si_indexer s') = partial_alter (fun st => settle st d) k (stored (si_indexer s)) /\
    si_listeners s' = give (fun syncing => notes syncing (stored (si_indexer s) !! k) [d]) <$> si_listeners s.
Proof.
  destruct d as [ty o]. intros (Hk & Ht & _) Hx. cbn [d_Type d_Object] in *. destruct (decide (ty = Deleted)) as [->|Hty].
  - destruct (drop_run k o s Hk Hx) as (s' & Hrun & Hx' & Hxs & Hst & Hl). exists s'. do 3 (split; [done|]). split; [exact Hst|].
    rewrite Hl. apply list_fmap_ext. intros i l _. unfold give. cbn. by destruct (pl_syncing l).
  - destruct (Ht Hty) as (t & -> & _). cbn in Hk. injection Hk as <-.
    destruct (upsert_run ty t s Hty Hx) as (s' & Hrun & Hx' & Hxs & Hst & Hl). exists s'. do 3 (split; [done|]). split.
    + rewrite Hst. apply map_eq. intros k. destruct (decide (k = object_key t)) as [->|Hne].
      * rewrite lookup_insert_eq, lookup_partial_alter_eq. by destruct ty.
      * by rewrite lookup_insert_ne, lookup_partial_alter_ne.
    + rewrite Hl. apply list_fmap_ext. intros i l _. unfold give. cbn [notes d_Type]. by rewrite app_nil_r.
Qed.

Lemma give_nothing (ls : list processorListener) : ls = give (fun _ => []) <$> ls.
Proof.
  rewrite <- (list_fmap_id ls) at 1. apply list_fmap_ext. intros j [] _. unfold give. cbn. by rewrite app_nil_r.
Qed.

Lemma give_give ns ns' (ls : list processorListener) : give ns' <$> (give ns <$> ls) = give (fun sy => ns sy ++ ns' sy) <$> ls.
Proof. rewrite <- list_fmap_compose. apply list_fmap_ext. intros i l _. unfold compose, give. cbn. by rewrite (assoc_L app). Qed.

(** The changes of a key: the indexer has what they settle to, and each
    listener is told of each of them. *)
Lemma HandleDeltas_run k ds : forall s,
  Forall (delta_ok P Q k) ds -> indexer_ok (si_indexer s) ->
  exists s', HandleDeltas ds s = (Ok tt, s') /\ indexer_ok (si_indexer s') /\
    ts_indexers (si_indexer s') = ts_indexers (si_indexer s) /\
    stored (si_indexer s') = partial_alter (fun st => settles st ds) k (stored (si_indexer s)) /\
    si_listeners s' = give (fun syncing => notes syncing (stored (si_indexer s) !! k) ds) <$> si_listeners s.
Proof.
  induction ds as [|d ds IH]; intros s Hall Hx.
  - exists s. split; [done|]. split; [done|]. split; [done|]. split; [symmetry; by apply partial_alter_id|apply give_nothing].
  - inversion Hall as [|? ? Hd Hds]; subst.
    destruct (handle_delta_run k d s Hd Hx) as (s1 & Hrun1 & Hx1 & Hxs1 & Hst1 & Hl1).
    destruct (IH s1 Hds Hx1) as (s' & Hrun & Hx' & Hxs & Hst & Hl). exists s'.
    split; [unfold HandleDeltas; cbn [for_range]; unfold mbind, M_bind; by rewrite Hrun1|]. split; [done|].
    split; [congruence|]. split.
    + rewrite Hst, Hst1. apply map_eq. intros j. destruct (decide (j = k)) as [->|Hj].
      * by rewrite !lookup_partial_alter_eq.
      * by rewrite !lookup_partial_alter_ne.
    + rewrite Hl, Hl1, give_give, Hst1, lookup_partial_alter_eq. apply list_fmap_ext. intros i l _.
      unfold give. cbn [notes]. by rewrite app_nil_r.
Qed.

(** A listener that syncs can follow the indexer with what it is told. *)
Lemma notes_replay k ds : forall m,
  Forall (delta_ok P Q k) ds ->
  foldl apply_note m (notes true (m !! k) ds) = partial_alter (fun st => settles st ds) k m.
Proof.
  induction ds as [|d ds IH]; intros m Hall; [symmetry; by apply partial_alter_id|].
  inversion Hall as [|? ? (Hk & Ht & _) Hds]; subst. cbn [notes orb app foldl].
  assert (Hm : apply_note m (note_of (m !! k) d) = partial_alter (fun st => settle st d) k m).
  { apply map_eq. intros j. destruct d as [ty o]. cbn [d_Object d_Type] in *. destruct (decide (ty = Deleted)) as [->|Hty].
    - cbn. rewrite Hk. destruct (decide (j = k)) as [->|Hj].
      + by rewrite lookup_delete_eq, lookup_partial_alter_eq.
      + by rewrite lookup_delete_ne, lookup_partial_alter_ne.
    - destruct (Ht Hty) as (t & -> & _). cbn in Hk. injection Hk as <-.
      assert (apply_note m (note_of (m !! object_key t) {| d_Type := ty; d_Object := ObjOf t |}) = <[object_key t := t]> m) as ->.
      { unfold note_of. cbn. by destruct ty, (m !! object_key t). }
      destruct (decide (j = object_key t)) as [->|Hj].
      + rewrite lookup_insert_eq, lookup_partial_alter_eq. by destruct ty.
      + by rewrite lookup_insert_ne, lookup_partial_alter_ne. }
  rewrite Hm. pose proof (IH (partial_alter (fun st => settle st d) k m) Hds) as IH'.
  rewrite lookup_partial_alter_eq in IH'. rewrite IH'. apply map_eq. intros j. destruct (decide (j = k)) as [->|Hj].
  - by rewrite !lookup_partial_alter_eq.
  - by rewrite !lookup_partial_alter_ne.
Qed.

Lemma notes_ok sy k ds : forall st, Forall (delta_ok P Q k) ds -> Forall note_ok (notes sy st ds).
Proof.
  induction ds as [|d ds IH]; intros st Hall; [constructor|]. inversion Hall as [|? ? (_ & Hp & Hd) Hds]; subst.
  cbn [notes]. apply Forall_app. split; [|by apply IH].
  destruct (sy || bool_decide (d_Type d <> Sync)); [|constructor]. constructor; [|constructor].
  unfold note_of. destruct (d_Type d); [..|exact (Hd eq_refl)|]; by destruct st; apply Hp.
Qed.

(** What changes settle to is an object that came in. *)
Lemma settles_objects k ds : forall st t,
  Forall (delta_ok P Q k) ds -> (forall t0, st = Some t0 -> P t0) -> settles st ds = Some t -> P t.
Proof.
  induction ds as [|d ds IH]; intros st t Hall Hst Hs; [by apply Hst|].
  inversion Hall as [|? ? (_ & Hd & _) Hds]; subst. apply (IH (settle st d)); [done| |done].
  intros t0 Ht0. unfold settle in Ht0. destruct d as [[] o]; cbn [d_Type d_Object] in *; try done;
    destruct (Hd ltac:(done)) as (t1 & -> & Hp); cbn in Ht0; by injection Ht0 as <-.
Qed.

(** ** The steps *)

(** A new queue, and an unchanged indexer. *)
Lemma informer_ok_queue f i :
  informer_ok i -> fifo_ok P Q f -> informer_ok {| in_fifo := f; in_shared := in_shared i |}.
Proof. intros [_ Hx Hp] Hf. by split. Qed.

(** Only the queue changed. *)
Lemma on_fifo_run (m : option (KeyListerGetter T) -> M (DeltaFIFO T) unit) i f :
  m (knownObjects i) (in_fifo i) = (Ok tt, f) ->
  on_fifo m i = (Ok tt, {| in_fifo := f; in_shared := in_shared i |}).
Proof. unfold on_fifo. by intros ->. Qed.

Lemma mirrors_queued k i f v out :
  queued P Q k (in_fifo i) f -> mirrors i v -> settles (cached i !! k) (pending f k) = out ->
  mirrors {| in_fifo := f; in_shared := in_shared i |} (partial_alter (fun _ => out) k v).
Proof.
  intros [_ Hoth _] Hm Hk j. cbn. change (cached {| in_fifo := f; in_shared := in_shared i |}) with (cached i).
  destruct (decide (j = k)) as [->|Hj]; [by rewrite lookup_partial_alter_eq|].
  rewrite lookup_partial_alter_ne by done. by rewrite Hoth.
Qed.

Lemma watch_put ty t i :
  ty = Added \/ ty = Updated -> P t -> informer_ok i ->
  exists f, logged (on_fifo (fun _ f => queueActionLocked ty (ObjOf t) (populate f))) i =
      (Ok tt, {| in_fifo := f; in_shared := in_shared i |}) /\
    fifo_ok P Q f /\ forall v, mirrors i v -> mirrors {| in_fifo := f; in_shared := in_shared i |} (<[object_key t := t]> v).
Proof.
  intros Hty Hpt [Hf _ _]. destruct (put_run P Q ty t (in_fifo i) Hty Hpt Hf) as (f & Hrun & Hq & Hset). exists f. split.
  - unfold logged. by rewrite (on_fifo_run _ i f Hrun).
  - split; [apply Hq|]. intros v Hm. by apply (mirrors_queued (object_key t) i f v (Some t) Hq Hm).
Qed.

Lemma watch_delete t i :
  Q t -> informer_ok i ->
  exists f, logged (on_fifo (fun known => DeltaFifo.Delete known (ObjOf t))) i =
      (Ok tt, {| in_fifo := f; in_shared := in_shared i |}) /\
    fifo_ok P Q f /\ (forall v, mirrors i v -> mirrors {| in_fifo := f; in_shared := in_shared i |} (delete (object_key t) v)) /\
    (is_Some (cached i !! object_key t) -> doomed f (object_key t) = true).
Proof.
  intros Hqt [Hf Hx _]. pose proof (known_objects_is _ (iok_typed _ Hx)) as Hkn.
  destruct (Delete_run P Q _ _ t (in_fifo i) Hqt Hf Hkn) as (f & Hrun & Hq & Hset & Hdm). exists f. split.
  - unfold logged. by rewrite (on_fifo_run (fun known => DeltaFifo.Delete known (ObjOf t)) i f Hrun).
  - split; [apply Hq|]. split; [|done]. intros v Hm. by apply (mirrors_queued (object_key t) i f v None Hq Hm).
Qed.

(** An event of the watch. *)
Lemma watch_run event i :
  iact_objects (Heard event) -> informer_ok i ->
  exists f, (watch_one event i).2 = {| in_fifo := f; in_shared := in_shared i |} /\ fifo_ok P Q f /\
    forall v, mirrors i v -> mirrors {| in_fifo := f; in_shared := in_shared i |} (heard v event).
Proof.
  intros Hobj Hok. assert (Hsame : exists f, i = {| in_fifo := f; in_shared := in_shared i |} /\ fifo_ok P Q f /\
    forall v, mirrors i v -> mirrors {| in_fifo := f; in_shared := in_shared i |} v).
  { exists (in_fifo i). split; [by destruct i|]. split; [apply Hok|]. by destruct i. }
  destruct event as [o|o|o|e|o]; [..|exact Hsame|]; unfold watch_one; (destruct o as [t| |]; cbn [type_assert]; [|exact Hsame..]).
  - destruct (watch_put Added t i (or_introl eq_refl) Hobj Hok) as (f & Hrun & Hf & Hm). exists f. unfold mbind, M_bind.
    unfold DeltaFifo.Add. by rewrite Hrun.
  - destruct (watch_put Updated t i (or_intror eq_refl) Hobj Hok) as (f & Hrun & Hf & Hm). exists f. unfold mbind, M_bind.
    unfold DeltaFifo.Update. by rewrite Hrun.
  - destruct (watch_delete t i Hobj Hok) as (f & Hrun & Hf & Hm & _). exists f. unfold mbind, M_bind. by rewrite Hrun.
  - by destruct i.
Qed.

Lemma list_run items i :
  Forall P items -> informer_ok i ->
  exists f, (syncWith (ObjOf <$> items) i).2 = {| in_fifo := f; in_shared := in_shared i |} /\ fifo_ok P Q f /\
    (forall k, settles (cached i !! k) (pending f k) =
       if bool_decide (k ∈ object_key <$> items) then (if doomed (in_fifo i) k then None else list_view items !! k)
       else match cached i !! k with Some _ => None | None => settles None (pending (in_fifo i) k) end) /\
    (NoDup (object_key <$> items) -> forall k, pending (in_fifo i) k = [] ->
       (forall t, t ∈ items -> object_key t = k -> pending f k = [{| d_Type := Sync; d_Object := ObjOf t |}]) /\
       (k ∉ object_key <$> items -> forall t, cached i !! k = Some t ->
          pending f k = [{| d_Type := Deleted; d_Object := ObjTombstone k (ObjOf t) |}])).
Proof.
  intros Hpl [Hf Hx _]. destruct (Replace_run P Q _ _ items (in_fifo i) Hpl Hf (known_objects_is _ (iok_typed _ Hx))) as (f & Hrun & Hf' & Hset & Hexact).
  exists f. unfold syncWith. rewrite (on_fifo_run (fun known => DeltaFifo.Replace known (ObjOf <$> items)) i f Hrun).
  done.
Qed.

Lemma resync_run i :
  informer_ok i ->
  exists f, (on_fifo DeltaFifo.Resync i).2 = {| in_fifo := f; in_shared := in_shared i |} /\ fifo_ok P Q f /\
    forall v, mirrors i v -> mirrors {| in_fifo := f; in_shared := in_shared i |} v.
Proof.
  intros [Hf Hx Hp].
  destruct (Resync_run P Q _ _ (in_fifo i) Hf (known_objects_is _ (iok_typed _ Hx))) as (f & Hrun & Hf' & Hset).
  { intros k t Ht. split; [by apply (stored_key _ k t (iok_typed _ Hx))|by apply (Hp k)]. }
  exists f. rewrite (on_fifo_run DeltaFifo.Resync i f Hrun). split; [done|]. split; [done|].
  intros v Hm k. cbn. change (cached {| in_fifo := f; in_shared := in_shared i |}) with (cached i). rewrite Hset. apply Hm.
Qed.

(** A turn of the controller: the first key of the queue is done. *)
Lemma process_head i id rest :
  informer_ok i -> f_queue (in_fifo i) = id :: rest ->
  exists i', process_one i = (Ok tt, i') /\ informer_ok i' /\ f_queue (in_fifo i') = rest /\
    cached i' = partial_alter (fun st => settles st (pending (in_fifo i) id)) id (cached i) /\
    pending (in_fifo i') id = [] /\ (forall k, k <> id -> pending (in_fifo i') k = pending (in_fifo i) k) /\
    ts_indexers (si_indexer (in_shared i')) = ts_indexers (si_indexer (in_shared i)) /\
    si_listeners (in_shared i') =
      give (fun sy => notes sy (cached i !! id) (pending (in_fifo i) id)) <$> si_listeners (in_shared i).
Proof.
  intros [Hf Hx Hp] Hq. pose proof (pending_ok P Q (in_fifo i) id Hf) as Hd.
  destruct (HandleDeltas_run id (pending (in_fifo i) id) (in_shared i) Hd Hx) as (s' & Hrun & Hx' & Hxs & Hst & Hl).
  destruct (Pop_run P Q HandleDeltas (fun _ => None) (in_fifo i) id rest (in_shared i) s' Hf Hq Hrun)
    as (f' & Hpop & Hf' & Hq' & Hpid & Hpo).
  unfold process_one. rewrite Hpop. eexists. split; [done|]. split; [|split; [done|]; split; [exact Hst|done]].
  split; [done|done|]. intros k t Ht. unfold cached in Ht. cbn [in_shared] in Ht. rewrite Hst in Ht.
  destruct (decide (k = id)) as [->|Hk].
  - rewrite lookup_partial_alter_eq in Ht. apply (settles_objects id _ _ t Hd) in Ht; [done|]. intros t0. apply Hp.
  - rewrite lookup_partial_alter_ne in Ht by done. by apply (Hp k).
Qed.

Lemma process_idle i :
  f_queue (in_fifo i) = [] -> process_one i = (Ok tt, i).
Proof.
  intros Hq. unfold process_one, Pop. cbn [fst]. rewrite Hq. cbn [pop_from].
  assert (Hsame : set_f_queue [] (in_fifo i) = in_fifo i) by (rewrite <- Hq; by destruct (in_fifo i)).
  rewrite Hsame. destruct i. by destruct (f_closed _).
Qed.

Lemma process_run i :
  informer_ok i ->
  exists i' ns, process_one i = (Ok tt, i') /\ informer_ok i' /\
    f_queue (in_fifo i') = tail (f_queue (in_fifo i)) /\
    (forall v, mirrors i v -> mirrors i' v) /\
    si_listeners (in_shared i') = give ns <$> si_listeners (in_shared i) /\
    foldl apply_note (cached i) (ns true) = cached i' /\ forall sy, Forall note_ok (ns sy).
Proof.
  intros Hok. destruct (f_queue (in_fifo i)) as [|id rest] eqn:Hq.
  - exists i, (fun _ => []). rewrite process_idle by done. do 2 (split; [done|]). split; [exact Hq|]. split; [done|].
    split; [apply give_nothing|]. split; [done|constructor].
  - destruct (process_head i id rest Hok Hq) as (i' & Hrun & Hok' & Hq' & Hst & Hpid & Hpo & _ & Hl).
    eexists i', _. do 3 (split; [done|]). split; [|split; [exact Hl|]].
    + intros v Hm k. rewrite Hst. destruct (decide (k = id)) as [->|Hk].
      * rewrite Hpid, lookup_partial_alter_eq. apply Hm.
      * rewrite Hpo, lookup_partial_alter_ne by done. apply Hm.
    + pose proof (pending_ok P Q _ id (inf_fifo _ Hok)) as Hp. cbv beta. rewrite (notes_replay id) by done.
      split; [done|]. intros sy. by apply (notes_ok sy id).
Qed.

(** ** Runs *)

(** The index functions stay. *)
Lemma istep_indexers a i :
  iact_objects a -> informer_ok i ->
  ts_indexers (si_indexer (in_shared (istep a i))) = ts_indexers (si_indexer (in_shared i)).
Proof.
  intros Hobj Hok. destruct a as [items|event| |]; cbn [istep].
  - by destruct (list_run items i Hobj Hok) as (f & -> & _).
  - by destruct (watch_run event i Hobj Hok) as (f & -> & _).
  - by destruct (resync_run i Hok) as (f & -> & _).
  - destruct (f_queue (in_fifo i)) as [|id rest] eqn:Hq; [by rewrite process_idle|].
    destruct (process_head i id rest Hok Hq) as (i' & -> & _ & _ & _ & _ & _ & Hx & _). exact Hx.
Qed.

Lemma istep_ok a i :
  iact_objects a -> informer_ok i ->
  informer_ok (istep a i) /\
  (forall v, mirrors i v -> iact_safe a i -> mirrors (istep a i) (told_view v a)) /\
  exists ns, si_listeners (in_shared (istep a i)) = give ns <$> si_listeners (in_shared i) /\
    foldl apply_note (cached i) (ns true) = cached (istep a i) /\ forall sy, Forall note_ok (ns sy).
Proof.
  intros Hobj Hok. assert (Hquiet : forall f, istep a i = {| in_fifo := f; in_shared := in_shared i |} ->
    exists ns, si_listeners (in_shared (istep a i)) = give ns <$> si_listeners (in_shared i) /\
      foldl apply_note (cached i) (ns true) = cached (istep a i) /\ forall sy, Forall note_ok (ns sy)).
  { intros f ->. exists (fun _ => []). split; [apply give_nothing|]. split; [done|constructor]. }
  destruct a as [items|event| |]; cbn [istep iact_safe told_view] in *.
  - destruct (list_run items i Hobj Hok) as (f & Hrun & Hf & Hset & _). split; [rewrite Hrun; by apply informer_ok_queue|].
    split; [intros v _ Hs; rewrite Hrun; exact (relist_safe_view _ _ _ _ Hs Hset)|by apply (Hquiet f)].
  - destruct (watch_run event i Hobj Hok) as (f & Hrun & Hf & Hm). split; [rewrite Hrun; by apply informer_ok_queue|].
    split; [intros v Hv _; rewrite Hrun; by apply Hm|by apply (Hquiet f)].
  - destruct (resync_run i Hok) as (f & Hrun & Hf & Hm). split; [rewrite Hrun; by apply informer_ok_queue|].
    split; [intros v Hv _; rewrite Hrun; by apply Hm|by apply (Hquiet f)].
  - destruct (process_run i Hok) as (i' & ns & Hrun & Hok' & _ & Hm & Hl & Hns). rewrite Hrun. cbn [snd].
    split; [done|]. split; [intros v Hv _; by apply Hm|]. by exists ns.
Qed.

Lemma isteps_ok acts : forall i,
  Forall iact_objects acts -> informer_ok i ->
  informer_ok (isteps acts i) /\
  (forall v, mirrors i v -> iacts_safe acts i -> mirrors (isteps acts i) (foldl told_view v acts)) /\
  exists ns, si_listeners (in_shared (isteps acts i)) = give ns <$> si_listeners (in_shared i) /\
    foldl apply_note (cached i) (ns true) = cached (isteps acts i) /\ forall sy, Forall note_ok (ns sy).
Proof.
  induction acts as [|a acts IH]; intros i Hobj Hok.
  - split; [done|]. split; [done|]. exists (fun _ => []). split; [apply give_nothing|]. split; [done|constructor].
  - inversion Hobj as [|? ? Ha Hobj']; subst. destruct (istep_ok a i Ha Hok) as (Hok1 & Hm1 & ns1 & Hl1 & Hn1 & Hf1).
    destruct (IH (istep a i) Hobj' Hok1) as (Hok' & Hm' & ns2 & Hl2 & Hn2 & Hf2). split; [done|]. split.
    + intros v Hv [Hs Hss]. by apply Hm'; [apply Hm1|].
    + exists (fun sy => ns1 sy ++ ns2 sy). change (isteps (a :: acts) i) with (isteps acts (istep a i)).
      split; [by rewrite Hl2, Hl1, give_give|]. split; [by rewrite foldl_app, Hn1|]. intros sy. by apply Forall_app.
Qed.

(** An informer that has just been made. *)
Lemma new_informer_ok indexers n :
  (forall t, indexable indexers (ObjOf t)) -> informer_ok (NewSharedIndexInformer indexers n) /\
  mirrors (NewSharedIndexInformer indexers n) ∅.
Proof.
  intros Hf. assert (Hx : si_indexer (in_shared (NewSharedIndexInformer indexers n)) = NewIndexer indexers).
  { cbn. by induction n. }
  split; [split; [apply NewDeltaFIFO_ok|rewrite Hx; by apply NewIndexer_typed|unfold cached; rewrite Hx; unfold stored; cbn; by rewrite omap_empty]|].
  intros k. unfold cached, pending. rewrite Hx, stored_lookup. cbn [NewIndexer NewThreadSafeStore ts_items].
  assert (f_items (in_fifo (NewSharedIndexInformer indexers n)) = ∅) as -> by done. by rewrite !lookup_empty.
Qed.

(** Draining the queue. *)
Lemma drained n : forall i,
  informer_ok i -> n = length (f_queue (in_fifo i)) ->
  informer_ok (isteps (replicate n Processed) i) /\ f_queue (in_fifo (isteps (replicate n Processed) i)) = [].
Proof.
  induction n as [|n IH]; intros i Hok Hn; [split; [done|by apply nil_length_inv]|]. cbn [replicate].
  change (isteps (Processed :: replicate n Processed) i) with (isteps (replicate n Processed) (process_one i).2).
  destruct (process_run i Hok) as (i' & ns & -> & Hok' & Hq & _). cbn [snd].
  apply IH; [done|]. rewrite Hq. revert Hn. destruct (f_queue (in_fifo i)); [done|]. by intros [= ->].
Qed.

Lemma empty_pending i k : informer_ok i -> f_queue (in_fifo i) = [] -> pending (in_fifo i) k = [].
Proof.
  intros [Hf _ _] Hq. unfold pending. destruct (f_items (in_fifo i) !! k) as [ds|] eqn:Hk; [|done].
  exfalso. assert (Hin : k ∈ f_queue (in_fifo i)) by (apply (fo_keys P Q _ Hf); eauto).
  rewrite Hq in Hin. by apply elem_of_nil in Hin.
Qed.

Lemma empty_queue i v : informer_ok i -> mirrors i v -> f_queue (in_fifo i) = [] -> cached i = v.
Proof.
  intros Hok Hm Hq. apply map_eq. intros k. by rewrite <- Hm, (empty_pending i k Hok Hq).
Qed.

Lemma drained_told acts i v :
  Forall iact_objects acts -> informer_ok i -> mirrors i v -> iacts_safe acts i -> f_queue (in_fifo (isteps acts i)) = [] ->
  cached (isteps acts i) = foldl told_view v acts.
Proof.
  intros Hobj Hok Hm Hs Hq. destruct (isteps_ok acts i Hobj Hok) as (Hok' & Hm' & _). apply empty_queue; [done| |done]. by apply Hm'.
Qed.

Lemma told_processed n (v : gmap string T) : foldl told_view v (replicate n Processed) = v.
Proof. by induction n. Qed.

Lemma processed_safe n : forall i, iacts_safe (replicate n Processed) i.
Proof. induction n as [|n IH]; intros i; [done|]. split; [done|]. apply IH. Qed.

Lemma isteps_app acts acts' i : isteps (acts ++ acts') i = isteps acts' (isteps acts i).
Proof. apply fold_left_app. Qed.

(** The notifications about a key while the queue is drained: those of what it
    waited for. *)
Definition about (k : string) (n : notification) : bool :=
  match n with
  | updateNotification _ o | addNotification o | deleteNotification o => bool_decide (KeyOf o = Ok k)
  end.

Lemma notes_about k id sy ds : forall st,
  Forall (delta_ok P Q id) ds ->
  List.filter (about k) (notes sy st ds) = if bool_decide (k = id) then notes sy st ds else [].
Proof.
  induction ds as [|d ds IH]; intros st Hall; [by case_bool_decide|]. inversion Hall as [|? ? [Hd _] Hds]; subst.
  cbn [notes]. rewrite List.filter_app, IH by done.
  assert (Hn : about k (note_of st d) = bool_decide (k = id)).
  { assert (about k (note_of st d) = bool_decide (KeyOf (d_Object d) = Ok k)) as ->.
    { unfold note_of. by destruct (d_Type d), st. }
    rewrite Hd. apply bool_decide_ext. split; [by intros [= ->]|by intros ->]. }
  destruct (sy || bool_decide (d_Type d <> Sync)); cbn; rewrite ?Hn; by case_bool_decide.
Qed.

Lemma drained_about n : forall i,
  informer_ok i -> n = length (f_queue (in_fifo i)) ->
  exists ns, si_listeners (in_shared (isteps (replicate n Processed) i)) = give ns <$> si_listeners (in_shared i) /\
    forall k sy, List.filter (about k) (ns sy) = notes sy (cached i !! k) (pending (in_fifo i) k).
Proof.
  induction n as [|n IH]; intros i Hok Hn; destruct (f_queue (in_fifo i)) as [|id rest] eqn:Hq; try done.
  - exists (fun _ => []). split; [apply give_nothing|]. intros k sy.
    by rewrite (empty_pending i k Hok Hq).
  - destruct (process_head i id rest Hok Hq) as (i1 & Hrun & Hok1 & Hq1 & Hst & Hpid & Hpo & _ & Hl).
    destruct (IH i1 Hok1) as (ns & Hl' & Hns); [rewrite Hq1; by injection Hn|].
    exists (fun sy => notes sy (cached i !! id) (pending (in_fifo i) id) ++ ns sy). cbn [replicate].
    change (isteps (Processed :: replicate n Processed) i) with (isteps (replicate n Processed) (process_one i).2).
    rewrite Hrun. cbn [snd]. split; [by rewrite Hl', Hl, give_give|]. intros k sy.
    rewrite List.filter_app, (notes_about k id), Hns by (apply pending_ok, Hok). rewrite Hst. case_bool_decide as Hk.
    + subst id. rewrite Hpid. apply app_nil_r.
    + by rewrite Hpo, lookup_partial_alter_ne.
Qed.

Lemma drained_settles n : forall i k,
  informer_ok i -> n = length (f_queue (in_fifo i)) ->
  cached (isteps (replicate n Processed) i) !! k = settles (cached i !! k) (pending (in_fifo i) k).
Proof.
  induction n as [|n IH]; intros i k Hok Hn; destruct (f_queue (in_fifo i)) as [|id rest] eqn:Hq; try done.
  - by rewrite (empty_pending i k Hok Hq).
  - destruct (process_head i id rest Hok Hq) as (i1 & Hrun & Hok1 & Hq1 & Hst & Hpid & Hpo & _ & Hl). cbn [replicate].
    change (isteps (Processed :: replicate n Processed) i) with (isteps (replicate n Processed) (process_one i).2).
    rewrite Hrun. cbn [snd]. rewrite IH; [|done|rewrite Hq1; by injection Hn]. rewrite Hst. destruct (decide (k = id)) as [->|Hk].
    + by rewrite Hpid, lookup_partial_alter_eq.
    + by rewrite Hpo, lookup_partial_alter_ne.
Qed.

Lemma empty_mirrors i : informer_ok i -> f_queue (in_fifo i) = [] -> mirrors i (cached i).
Proof. intros Hok Hq k. by rewrite (empty_pending i k Hok Hq). Qed.

(** With nothing queued every list is one the queue can take. *)
Lemma idle_safe items i : f_items (in_fifo i) = ∅ -> iact_safe (Listed items) i.
Proof.
  intros Hi. assert (Hp : forall k, pending (in_fifo i) k = []) by (intros k; unfold pending; by rewrite Hi, lookup_empty).
  split; intros k _; [by apply doomed_nil|by rewrite Hp].
Qed.

(** ** Properties *)

(** The run of an informer from its start, and from there to an empty queue. *)
Lemma informer_run indexers n acts :
  (forall t, indexable indexers (ObjOf t)) -> Forall iact_objects acts ->
  iacts_safe acts (NewSharedIndexInformer indexers n) ->
  informer_ok (isteps acts (NewSharedIndexInformer indexers n)) /\
  mirrors (isteps acts (NewSharedIndexInformer indexers n)) (foldl told_view ∅ acts).
Proof.
  intros Hfs Hobj Hs. destruct (new_informer_ok indexers n Hfs) as [Hok0 Hm0].
  destruct (isteps_ok acts _ Hobj Hok0) as (Hok & Hm & _). split; [done|]. by apply Hm.
Qed.

Lemma processed_objects n : Forall iact_objects (replicate n Processed).
Proof. by apply Forall_replicate. Qed.

(** C11.  An informer catches up.  However the lists and watches of the
    reflector, the resyncs and the controller's turns interleave, as long as
    every list is one the queue can take, the objects of the indexer with the
    changes still queued are what the reflector was told, the latest word on
    each key; as many turns as keys are queued leave nothing queued and exactly
    that in the indexer, whose indices are exact; and what holds of all objects
    that came in holds of those cached at any moment. *)
Theorem informer_mirrors indexers n acts :
  (forall t, indexable indexers (ObjOf t)) -> Forall iact_objects acts ->
  let i0 := NewSharedIndexInformer indexers n in
  iacts_safe acts i0 ->
  let i := isteps acts i0 in
  let told := foldl told_view ∅ acts in
  (forall k, settles (cached i !! k) (pending (in_fifo i) k) = told !! k) /\
  map_Forall (fun _ => P) (cached i) /\
  forall m, m = length (f_queue (in_fifo i)) ->
    let i' := isteps (replicate m Processed) i in
    f_queue (in_fifo i') = [] /\ cached i' = told /\ indices_exact (si_indexer (in_shared i')).
Proof.
  intros Hfs Hobj i0 Hs i told. destruct (informer_run indexers n acts Hfs Hobj Hs) as [Hok Hmir].
  split; [exact Hmir|]. split; [apply Hok|].
  intros m Hmq i'. destruct (drained m i Hok Hmq) as [Hok' Hq]. split; [done|].
  split; [|apply (sok_exact _ (iok_store _ (inf_indexer _ Hok')))].
  unfold i', told. rewrite <- (told_processed m (foldl told_view ∅ acts)).
  apply drained_told; [apply processed_objects|done|exact Hmir|apply processed_safe|done].
Qed.

(** What a listener hears of a list.  When nothing was queued, a list of
    objects with distinct keys and its processing tell a listener of a cached
    object exactly this: that it was deleted, as a tombstone with the cached
    object, if it is not listed; and if it is, an update from the cached to the
    listed object, also when the listed one was created after a deletion. *)
Lemma list_notifies i items k t :
  Forall P items -> informer_ok i -> f_queue (in_fifo i) = [] -> NoDup (object_key <$> items) -> cached i !! k = Some t ->
  let i1 := istep (Listed items) i in
  let i' := isteps (replicate (length (f_queue (in_fifo i1))) Processed) i1 in
  exists ns, si_listeners (in_shared i') = give ns <$> si_listeners (in_shared i) /\
    (k ∉ object_key <$> items -> forall sy,
       List.filter (about k) (ns sy) = [deleteNotification (ObjTombstone k (ObjOf t))]) /\
    (forall t', t' ∈ items -> object_key t' = k ->
       List.filter (about k) (ns true) = [updateNotification (ObjOf t) (ObjOf t')]).
Proof.
  intros Hpl Hok Hq Hnd Ht i1. destruct (list_run items i Hpl Hok) as (f & Hrun & Hf & _ & Hexact).
  pose proof (empty_pending i k Hok Hq) as Hp.
  assert (Hi1 : i1 = {| in_fifo := f; in_shared := in_shared i |}) by exact Hrun.
  assert (Hok1 : informer_ok i1) by (rewrite Hi1; by apply informer_ok_queue). intros i'.
  destruct (drained_about _ i1 Hok1 eq_refl) as (ns & Hl & Hns). exists ns.
  destruct (Hexact Hnd k Hp) as [Hlisted Hgone]. split; [unfold i'; rewrite Hl, Hi1; done|].
  assert (Hc : cached i1 !! k = Some t) by (rewrite Hi1; exact Ht). split.
  - intros Hk sy. rewrite Hns, Hc. rewrite Hi1. cbn [in_fifo]. rewrite (Hgone Hk t Ht). by destruct sy.
  - intros t' Hin Hk. rewrite Hns, Hc. rewrite Hi1. cbn [in_fifo]. by rewrite (Hlisted t' Hin Hk).
Qed.

(** Where [relist_safe] is needed.  When the watch reported an object that
    was not cached, the watch then broke and the next list, before the
    controller's turn, does not have the object any more, it is cached and
    stays.  When the watch reported the deletion of a cached object and the
    next list, before the controller's turn, has an object of that key again,
    the key is not cached. *)
Theorem relist_hazards i t items :
  P t -> Q t -> Forall P items -> informer_ok i -> f_queue (in_fifo i) = [] ->
  let drain i := isteps (replicate (length (f_queue (in_fifo i))) Processed) i in
  (cached i !! object_key t = None -> object_key t ∉ object_key <$> items ->
     cached (drain (isteps [Heard (WatchAdded (ObjOf t)); Listed items] i)) !! object_key t = Some t) /\
  (is_Some (cached i !! object_key t) -> object_key t ∈ object_key <$> items ->
     cached (drain (isteps [Heard (WatchDeleted (ObjOf t)); Listed items] i)) !! object_key t = None /\
     is_Some (list_view items !! object_key t)).
Proof.
  intros Hpt Hqt Hpl Hok Hq drain. pose proof (empty_mirrors i Hok Hq) as Hm0.
  assert (Hend : forall event f, (watch_one event i).2 = {| in_fifo := f; in_shared := in_shared i |} -> fifo_ok P Q f ->
    cached (drain (isteps [Heard event; Listed items] i)) !! object_key t =
    if bool_decide (object_key t ∈ object_key <$> items)
    then (if doomed f (object_key t) then None else list_view items !! object_key t)
    else match cached i !! object_key t with Some _ => None | None => settles None (pending f (object_key t)) end).
  { intros event f Hw Hf. cbn [isteps fold_left istep]. rewrite Hw.
    set (i1 := {| in_fifo := f; in_shared := in_shared i |}). assert (Hok1 : informer_ok i1) by by apply informer_ok_queue.
    destruct (list_run items i1 Hpl Hok1) as (f2 & Hrun & Hf2 & Hset & _). rewrite Hrun. unfold drain.
    rewrite drained_settles by (done || by apply informer_ok_queue). exact (Hset (object_key t)). }
  split.
  - intros Hn Hk. destruct (watch_run (WatchAdded (ObjOf t)) i Hpt Hok) as (f & Hw & Hf & Hm).
    rewrite (Hend _ f Hw Hf), bool_decide_eq_false_2, Hn by done. pose proof (Hm _ Hm0 (object_key t)) as Hset.
    cbn in Hset. change (cached {| in_fifo := f; in_shared := in_shared i |}) with (cached i) in Hset.
    rewrite Hn, lookup_insert_eq in Hset. exact Hset.
  - intros Hs Hk. destruct (watch_delete t i Hqt Hok) as (f & Hrun & Hf & _ & Hdm). split.
    + rewrite (Hend _ f); [|unfold watch_one, mbind, M_bind; cbn [type_assert]; by rewrite Hrun|done].
      by rewrite bool_decide_eq_true_2, Hdm.
    + rewrite <- (foldl_heard_in _ _ None Hk). clear -Hk. revert Hk. generalize (@None T). induction items as [|t1 l IH]; intros st Hk.
      * by apply elem_of_nil in Hk.
      * cbn. destruct (decide (object_key t ∈ object_key <$> l)) as [Hl|Hl]; [by apply IH|].
        apply elem_of_cons in Hk as [He|?]; [|done]. rewrite foldl_heard_other by done. unfold heard_at.
        rewrite bool_decide_eq_true_2 by done. eauto.
Qed.
End informer.
Arguments notification T : clear implicits.
Arguments processorListener T : clear implicits.
Arguments sharedIndexInformer T : clear implicits.
Arguments informer T : clear implicits.
Arguments watch_event T : clear implicits.
Arguments iact T : clear implicits.

(** ** Witnesses *)

Definition fleet_node (name cidr : string) : Node := {| node_Name := name; node_PodCIDR := cidr; node_Addresses := [] |}.
Abbreviation yes := (fun _ : Node => True).

(** A list, watch events that the controller has not handled yet, and a list
    after the watch broke. *)
Definition fleet_acts : list (iact Node) :=
  [Listed [fleet_node "a" ""; fleet_node "b" "10.2.0.0/24"]; Processed; Processed;
   Heard (WatchModified (ObjOf (fleet_node "a" "10.1.0.0/24"))); Heard (WatchDeleted (ObjOf (fleet_node "b" "10.2.0.0/24")));
   Heard (WatchAdded (ObjOf (fleet_node "c" ""))); Resynced; Processed; Processed; Processed;
   Listed [fleet_node "a" "10.1.0.0/24"; fleet_node "d" ""]].

Lemma fleet_indexable t : indexable namespace_indexers (ObjOf (t : Node)).
Proof. apply map_Forall_singleton. by exists [GetNamespace t]. Qed.

Lemma fleet_objects (l : list Node) : Forall yes l.
Proof. by apply Forall_true. Qed.

Lemma fleet_acts_objects : Forall (iact_objects yes yes) fleet_acts.
Proof. repeat (constructor; [first [apply fleet_objects|exact I]|]). constructor. Qed.

Lemma fleet_safe : iacts_safe fleet_acts (NewSharedIndexInformer namespace_indexers 1).
Proof.
  do 10 (split; [first [exact I|apply idle_safe; vm_compute; reflexivity]|]).
  split; [apply idle_safe; vm_compute; reflexivity|exact I].
Qed.

(** The node that the last list does not have is gone. *)
Lemma informer_mirrors_witness :
  let i := isteps fleet_acts (NewSharedIndexInformer namespace_indexers 1) in
  cached (isteps (replicate 3 Processed) i) =
    {["a" := fleet_node "a" "10.1.0.0/24"; "d" := fleet_node "d" ""]} /\
  is_Some (cached i !! "c").
Proof.
  intros i. split; [|eexists; vm_compute; reflexivity].
  destruct (informer_mirrors yes yes namespace_indexers 1 fleet_acts fleet_indexable fleet_acts_objects fleet_safe) as (_ & _ & H).
  destruct (H 3 ltac:(vm_compute; reflexivity)) as (_ & Hc & _). etransitivity; [exact Hc|]. vm_compute. reflexivity.
Defined.

(** After a list with one node. *)
Definition small_acts : list (iact Node) := [Listed [fleet_node "a" ""]; Processed].
Definition small : informer Node := isteps small_acts (NewSharedIndexInformer namespace_indexers 1).

Lemma small_ok : informer_ok yes yes small.
Proof.
  apply (informer_run yes yes namespace_indexers 1 small_acts fleet_indexable).
  - repeat (constructor; [first [apply fleet_objects|exact I]|]). constructor.
  - split; [apply idle_safe; vm_compute; reflexivity|]. split; exact I.
Qed.

(** A node that is gone stays cached, and one that is there is not. *)
Lemma relist_hazards_witness :
  let drain i := isteps (replicate (length (f_queue (in_fifo i))) Processed) i in
  cached (drain (isteps [Heard (WatchAdded (ObjOf (fleet_node "b" ""))); Listed [fleet_node "a" ""]] small)) !! "b" =
    Some (fleet_node "b" "") /\
  cached (drain (isteps [Heard (WatchDeleted (ObjOf (fleet_node "a" ""))); Listed [fleet_node "a" "10.1.0.0/24"]] small)) !! "a" =
    None.
Proof.
  split.
  - apply (relist_hazards yes yes small (fleet_node "b" "") [fleet_node "a" ""] I I (fleet_objects _) small_ok);
      [vm_compute; reflexivity|vm_compute; reflexivity|]. apply (bool_decide_eq_false_1 (_ ∈ _)). reflexivity.
  - apply (relist_hazards yes yes small (fleet_node "a" "") [fleet_node "a" "10.1.0.0/24"] I I (fleet_objects _) small_ok);
      [vm_compute; reflexivity|eexists; vm_compute; reflexivity|].
    apply (bool_decide_eq_true_1 (_ ∈ _)). reflexivity.
Defined.
