(* ===== verification/Listener.v ===== *)
(** * A listener of an informer

    [processorListener] of [shared_informer.go] and the buffer it keeps,
    [RingGrowing] of [k8s.io/utils/buffer]: [add] never waits for a handler,
    [pop] keeps what the handler is not ready for, [run] calls the handler.

    The ring is a queue ([ring_holds]), however often it wraps around and
    grows; and [pop] hands out what was added, in order, none lost and none
    twice ([listener_fifo]): what [Watch] assumes of [pl_given].

    Sizes are natural numbers: a buffer of 2^62 notifications is out of reach. *)
From S2P Require Import Prelude.

Section listener.
Context {A : Type}.

(** ** The ring; [None] is nil *)

Record RingGrowing := { r_data : list (option A); r_n : nat; r_beg : nat; r_readable : nat }.

Definition NewRingGrowing (initialSize : nat) : RingGrowing :=
  {| r_data := replicate initialSize None; r_n := initialSize; r_beg := 0; r_readable := 0 |}.

(** An index out of range panics, and so does a division by zero. *)
Definition ReadOne : M RingGrowing (option A * bool) := fun r =>
  if r_readable r =? 0 then (Ok (None, false), r) else
  match r_data r !! r_beg r with
  | None => (Panic, {| r_data := r_data r; r_n := r_n r; r_beg := r_beg r; r_readable := r_readable r - 1 |})
  | Some element =>
      (Ok (element, true),
       {| r_data := <[r_beg r := None]> (r_data r); r_n := r_n r;
          r_beg := if r_beg r =? r_n r - 1 then 0 else r_beg r + 1; r_readable := r_readable r - 1 |})
  end.

(** The two calls of [copy] into the new array. *)
Definition grown (r : RingGrowing) : list (option A) :=
  let newN := r_n r * 2 in
  let to := r_beg r + r_readable r in
  let copied := if to <=? r_n r then take (to - r_beg r) (drop (r_beg r) (r_data r))
                else drop (r_beg r) (r_data r) ++ take (to mod r_n r) (r_data r) in
  take newN copied ++ replicate (newN - length copied) None.

Definition grow_ring (r : RingGrowing) : RingGrowing :=
  if r_readable r =? r_n r
  then {| r_data := grown r; r_n := r_n r * 2; r_beg := 0; r_readable := r_readable r |} else r.

Definition WriteOne (data : option A) : M RingGrowing unit := fun r =>
  let r := grow_ring r in
  if r_n r =? 0 then (Panic, r) else
  let i := (r_readable r + r_beg r) mod r_n r in
  match r_data r !! i with
  | None => (Panic, r)
  | Some _ => (Ok tt, {| r_data := <[i := data]> (r_data r); r_n := r_n r; r_beg := r_beg r; r_readable := r_readable r + 1 |})
  end.

(** ** The listener *)

(** [pop]'s variables: the buffer, the notification that waits for [run] (nil
    if none), whether the case of [select] that sends it is enabled. *)
Record listener := { l_pending : RingGrowing; l_notification : option A; l_nextCh : bool }.

Definition newProcessListener (bufferSize : nat) : listener :=
  {| l_pending := NewRingGrowing bufferSize; l_notification := None; l_nextCh := false |}.

(** The first case of [select]: [run] takes the notification. *)
Definition pop_dispatch (l : listener) : result (option A * listener) :=
  match ReadOne (l_pending l) with
  | (Ok (notification, ok), r) =>
      Ok (l_notification l, {| l_pending := r; l_notification := notification; l_nextCh := if ok then l_nextCh l else false |})
  | (Err e, _) => Err e
  | (Panic, _) => Panic
  end.

(** The second case: a notification comes in. *)
Definition pop_add (notificationToAdd : A) (l : listener) : result listener :=
  match l_notification l with
  | None => Ok {| l_pending := l_pending l; l_notification := Some notificationToAdd; l_nextCh := true |}
  | Some _ =>
      match WriteOne (Some notificationToAdd) (l_pending l) with
      | (Ok _, r) => Ok {| l_pending := r; l_notification := l_notification l; l_nextCh := l_nextCh l |}
      | (Err e, _) => Err e
      | (Panic, _) => Panic
      end
  end.

(** The loop of [pop], a case after the other; a disabled case is not taken. *)
Inductive lcase := Dispatched | Given (x : A).

Definition pop_case (c : lcase) (l : listener) : result (list (option A) * listener) :=
  match c with
  | Given x => l' ← pop_add x l; Ok ([], l')
  | Dispatched => if l_nextCh l then o ← pop_dispatch l; Ok ([o.1], o.2) else Ok ([], l)
  end.
Fixpoint pop_loop (cs : list lcase) (l : listener) : result (list (option A) * listener) :=
  match cs with
  | [] => Ok ([], l)
  | c :: cs' => o ← pop_case c l; o' ← pop_loop cs' o.2; Ok (o.1 ++ o'.1, o'.2)
  end.

(** ** The ring is a queue *)

Record ring_ok (r : RingGrowing) : Prop := {
  ro_length : length (r_data r) = r_n r;
  ro_beg : r_beg r < r_n r;
  ro_readable : r_readable r <= r_n r
}.

Record ring_holds (r : RingGrowing) (q : list A) : Prop := {
  rh_ok : ring_ok r;
  rh_length : length q = r_readable r;
  rh_items i x : q !! i = Some x -> r_data r !! ((r_beg r + i) mod r_n r) = Some (Some x)
}.

(** Indices around the ring. *)
Lemma wrap_small n b i : b + i < n -> (b + i) mod n = b + i.
Proof. apply Nat.mod_small. Qed.
Lemma wrap_large n b i : b < n -> i <= n -> n <= b + i -> (b + i) mod n = b + i - n.
Proof. intros. symmetry. apply (Nat.mod_unique _ _ 1); lia. Qed.
Lemma wrap_inj n b i j : b < n -> i < n -> j < n -> (b + i) mod n = (b + j) mod n -> i = j.
Proof.
  intros Hb Hi Hj. destruct (decide (b + i < n)), (decide (b + j < n));
    [rewrite (wrap_small n b i), (wrap_small n b j) by lia|rewrite (wrap_small n b i), (wrap_large n b j) by lia
    |rewrite (wrap_large n b i), (wrap_small n b j) by lia|rewrite (wrap_large n b i), (wrap_large n b j) by lia]; lia.
Qed.
Lemma wrap_next n b i : b < n -> i < n ->
  ((if b =? n - 1 then 0 else b + 1) + i) mod n = (b + S i) mod n.
Proof.
  intros Hb Hi. destruct (b =? n - 1) eqn:E; [apply Nat.eqb_eq in E|apply Nat.eqb_neq in E; f_equal; lia].
  rewrite (wrap_large n b (S i)), Nat.mod_small by lia. lia.
Qed.

Lemma NewRingGrowing_holds n : 0 < n -> ring_holds (NewRingGrowing n) [].
Proof. intros Hn. split; [split; cbn; [by rewrite length_replicate|lia..]|done|done]. Qed.

Lemma ReadOne_empty r : ring_holds r [] -> ReadOne r = (Ok (None, false), r).
Proof. intros [_ Hl _]. unfold ReadOne. by rewrite <- Hl. Qed.

Lemma ReadOne_head r x q :
  ring_holds r (x :: q) -> exists r', ReadOne r = (Ok (Some x, true), r') /\ ring_holds r' q.
Proof.
  intros [[Hd Hb Hr] Hl Hi]. cbn in Hl. unfold ReadOne. rewrite <- Hl. cbn [Nat.eqb].
  pose proof (Hi 0 x eq_refl) as H0. rewrite Nat.add_0_r, Nat.mod_small in H0 by done. rewrite H0.
  eexists. split; [done|]. split; cbn.
  - split; cbn; [by rewrite length_insert| |lia]. destruct (r_beg r =? r_n r - 1) eqn:E; [lia|]. apply Nat.eqb_neq in E. lia.
  - lia.
  - intros i y Hy. pose proof (lookup_lt_Some _ _ _ Hy) as Hlt. rewrite wrap_next by lia.
    rewrite list_lookup_insert_ne; [by apply (Hi (S i))|].
    intros He. assert (H : 0 = S i); [|done]. apply (wrap_inj (r_n r) (r_beg r)); [lia..|].
    by rewrite Nat.add_0_r, Nat.mod_small.
Qed.

(** Growing moves the items to the front. *)
Lemma grow_holds r q : ring_holds r q -> ring_holds (grow_ring r) q /\ r_readable (grow_ring r) < r_n (grow_ring r).
Proof.
  intros Hq. pose proof Hq as [[Hd Hb Hr] Hl Hi]. unfold grow_ring. destruct (r_readable r =? r_n r) eqn:E.
  2:{ apply Nat.eqb_neq in E. split; [done|lia]. }
  apply Nat.eqb_eq in E. split; [|cbn; lia].
  set (copied := drop (r_beg r) (r_data r) ++ take (r_beg r) (r_data r)).
  assert (Hc : length copied = r_n r) by (unfold copied; rewrite length_app, length_drop, length_take; lia).
  assert (Hg : grown r = copied ++ replicate (r_n r) None).
  { unfold grown. rewrite E. destruct (r_beg r + r_n r <=? r_n r) eqn:Ele.
    - apply Nat.leb_le in Ele. assert (Hb0 : r_beg r = 0) by lia. unfold copied. rewrite Hb0. cbn [Nat.add]. rewrite Nat.sub_0_r, drop_0.
      rewrite (take_ge (r_data r) (r_n r)) by lia. rewrite take_ge by lia. cbn [take]. rewrite app_nil_r. f_equal. f_equal. lia.
    - assert ((r_beg r + r_n r) mod r_n r = r_beg r) as -> by (rewrite wrap_large; lia). fold copied.
      rewrite take_ge by lia. f_equal. f_equal. lia. }
  split; cbn.
  - split; cbn; [rewrite Hg, length_app, length_replicate; lia|lia|lia].
  - done.
  - intros i x Hx. pose proof (lookup_lt_Some _ _ _ Hx) as Hlt. pose proof (Hi i x Hx) as Hx'.
    rewrite Nat.mod_small by lia. rewrite Hg, lookup_app_l by lia. unfold copied.
    destruct (decide (r_beg r + i < r_n r)).
    + rewrite lookup_app_l by (rewrite length_drop; lia). rewrite lookup_drop. by rewrite wrap_small in Hx'.
    + rewrite lookup_app_r by (rewrite length_drop; lia). rewrite length_drop, Hd, lookup_take_lt by lia.
      rewrite wrap_large in Hx' by lia. replace (i - (r_n r - r_beg r)) with (r_beg r + i - r_n r) by lia. done.
Qed.

Lemma WriteOne_tail r q x :
  ring_holds r q -> exists r', WriteOne (Some x) r = (Ok tt, r') /\ ring_holds r' (q ++ [x]).
Proof.
  intros Hq. destruct (grow_holds r q Hq) as [[[Hd Hb Hr] Hl Hi] Hlt]. unfold WriteOne. set (g := grow_ring r) in *.
  destruct (r_n g =? 0) eqn:E; [apply Nat.eqb_eq in E; lia|]. set (i := (r_readable g + r_beg g) mod r_n g).
  assert (Hin : i < length (r_data g)) by (rewrite Hd; apply Nat.mod_upper_bound; lia).
  destruct (r_data g !! i) as [o|] eqn:Ho; [|apply lookup_ge_None in Ho; lia].
  eexists. split; [done|]. split; cbn.
  - split; cbn; [by rewrite length_insert|lia|lia].
  - rewrite length_app. cbn. lia.
  - intros j y Hj. destruct (decide (j < length q)) as [Hjl|Hjl].
    + rewrite lookup_app_l in Hj by done. rewrite list_lookup_insert_ne; [by apply Hi|].
      unfold i. rewrite (Nat.add_comm (r_readable g)). intros He. apply wrap_inj in He; lia.
    + pose proof (lookup_lt_Some _ _ _ Hj) as Hjb. rewrite length_app in Hjb. cbn in Hjb. assert (j = length q) as -> by lia.
      rewrite lookup_app_r, Nat.sub_diag in Hj by lia. injection Hj as <-. rewrite Hl, Nat.add_comm. fold i.
      by apply list_lookup_insert_eq.
Qed.

(** ** The listener is a queue *)

(** What waits: the notification at hand and the buffer. *)
Record listener_holds (l : listener) (q : list A) : Prop := {
  lh_ring : ring_holds (l_pending l) (tail q);
  lh_first : l_notification l = head q;
  lh_next : l_nextCh l = bool_decide (q <> [])
}.

Lemma newProcessListener_holds n : 0 < n -> listener_holds (newProcessListener n) [].
Proof. intros Hn. split; [by apply NewRingGrowing_holds|done|done]. Qed.

Lemma pop_case_run c l q :
  listener_holds l q ->
  exists l', pop_case c l = Ok (match c with Dispatched => Some <$> take 1 q | Given _ => [] end, l') /\
    listener_holds l' (match c with Dispatched => tail q | Given x => q ++ [x] end).
Proof.
  intros [Hr Hf Hn]. destruct c as [|x]; cbn [pop_case].
  - rewrite Hn. destruct q as [|y q]; [exists l; done|]. cbn [head tail] in *. cbn.
    unfold pop_dispatch. destruct q as [|z q].
    + rewrite (ReadOne_empty _ Hr). cbn. rewrite Hf. eexists. split; [done|]. by split.
    + destruct (ReadOne_head _ z q Hr) as (r' & -> & Hr'). cbn. rewrite Hf. eexists. split; [done|]. split; [done|done|].
      cbn. by rewrite Hn.
  - unfold pop_add. rewrite Hf. destruct q as [|y q]; cbn [head tail] in *.
    + cbn. eexists. split; [done|]. by split.
    + destruct (WriteOne_tail _ q x Hr) as (r' & -> & Hr'). cbn. eexists. split; [done|]. split; [done|done|].
      cbn. by rewrite Hn.
Qed.

(** What comes in. *)
Definition received (cs : list lcase) : list A := omap (fun c => match c with Given x => Some x | Dispatched => None end) cs.

Lemma pop_loop_run cs : forall l q,
  listener_holds l q ->
  exists out l' q', pop_loop cs l = Ok (Some <$> out, l') /\ listener_holds l' q' /\ q ++ received cs = out ++ q'.
Proof.
  induction cs as [|c cs IH]; intros l q Hl; [exists [], l, q; by rewrite app_nil_r|].
  destruct (pop_case_run c l q Hl) as (l1 & Hc & Hl1). destruct (IH l1 _ Hl1) as (out & l' & q' & Hrun & Hl' & Hq).
  cbn [pop_loop]. rewrite Hc. cbn. rewrite Hrun. cbn. destruct c as [|x]; cbn.
  - exists (take 1 q ++ out), l', q'. split; [by rewrite fmap_app|]. split; [done|].
    rewrite <- (assoc_L app), <- Hq. destruct q as [|y q]; [done|]. cbn. by rewrite take_0.
  - exists out, l', q'. split; [done|]. split; [done|]. rewrite <- Hq. cbn. by rewrite <- (assoc_L app).
Qed.

(** C19.  A listener delivers.  In every interleaving of notifications that
    come in and of [run] taking one, [pop] does not panic, [run] has been
    handed exactly a prefix of what came in, in order, and as many more turns
    of [run] as are left hand it the rest; [pop] offers one exactly when some
    is left. *)
Theorem listener_fifo n cs :
  0 < n ->
  exists out l' rest, pop_loop cs (newProcessListener n) = Ok (Some <$> out, l') /\
    received cs = out ++ rest /\ l_nextCh l' = bool_decide (rest <> []) /\
    forall m, length rest <= m ->
      exists l'', pop_loop (cs ++ replicate m Dispatched) (newProcessListener n) = Ok (Some <$> received cs, l'').
Proof.
  intros Hn. pose proof (newProcessListener_holds n Hn) as H0.
  destruct (pop_loop_run cs _ [] H0) as (out & l' & rest & Hrun & Hl & Hq). exists out, l', rest.
  split; [done|]. split; [done|]. split; [apply Hl|]. intros m Hm.
  assert (Hdrain : forall m l q, listener_holds l q -> length q <= m ->
    exists l'', pop_loop (replicate m Dispatched) l = Ok (Some <$> q, l'')).
  { clear. induction m as [|m IH]; intros l q Hl Hm; [destruct q; [by exists l|cbn in Hm; lia]|].
    destruct (pop_case_run Dispatched l q Hl) as (l1 & Hc & Hl1).
    destruct (IH l1 (tail q) Hl1) as (l'' & Hr); [destruct q; cbn in *; lia|]. exists l''.
    cbn [replicate pop_loop]. rewrite Hc. cbn. rewrite Hr. cbn. by destruct q as [|y q]; [|cbn; rewrite take_0]. }
  assert (Happ : forall cs cs' l o l1, pop_loop cs l = Ok (o, l1) ->
    pop_loop (cs ++ cs') l = (o' ← pop_loop cs' l1; Ok (o ++ o'.1, o'.2))).
  { clear. induction cs as [|c cs IH]; intros cs' l o l1; cbn.
    - intros [= <- <-]. by destruct (pop_loop cs' l) as [[]| |].
    - destruct (pop_case c l) as [[o1 l2]| |]; try done. cbn. destruct (pop_loop cs l2) as [[o2 l3]| |] eqn:Hr; try done. cbn.
      intros [= <- <-]. rewrite (IH cs' l2 o2 l3 Hr). destruct (pop_loop cs' l3) as [[]| |]; try done. cbn. by rewrite <- (assoc_L app). }
  destruct (Hdrain m l' rest Hl Hm) as (l'' & Hd). exists l''. rewrite (Happ _ _ _ _ _ Hrun), Hd. cbn.
  by rewrite <- fmap_app, <- Hq.
Qed.
End listener.
Arguments RingGrowing A : clear implicits.
Arguments listener A : clear implicits.
Arguments lcase A : clear implicits.

(** ** Witness *)

(** A buffer of one that grows, wraps around and grows again. *)
Definition busy : list (lcase nat) :=
  [Given 1; Given 2; Given 3; Dispatched; Given 4; Given 5; Dispatched; Dispatched; Given 6; Given 7; Given 8].

Lemma listener_fifo_witness :
  exists l', pop_loop (busy ++ replicate 5 Dispatched) (newProcessListener 1) =
    Ok (Some <$> [1; 2; 3; 4; 5; 6; 7; 8], l').
Proof.
  destruct (listener_fifo 1 busy ltac:(lia)) as (out & l' & rest & Hrun & Hout & _ & H). apply (H 5).
  assert (Hl : match pop_loop busy (newProcessListener 1) with Ok o => length o.1 | _ => 0 end = 3) by (vm_compute; reflexivity).
  rewrite Hrun in Hl. cbn [fst] in Hl. rewrite length_fmap in Hl.
  pose proof (f_equal length Hout) as Hlen. rewrite length_app, Hl in Hlen. change (length (received busy)) with 8 in Hlen. lia.
Defined.
