(* ===== verification/Json.v ===== *)
(** * Package encoding/json

    [json.Unmarshal] as the program uses it: the grammar check of the whole
    text, then the values.  The decoder into a Go struct is written for each
    struct next to the code that declares it; this file holds the text level:
    values, strings with their escapes and the UTF-8 repair of [unquote],
    numbers, white space. *)
From S2P Require Import Prelude GoStrings.

#[warnings="-register-all"]
Inductive json :=
| JNull
| JBool (b : bool)
| JNum (text : string)
| JStr (s : string)
| JArr (l : list json)
| JObj (l : list (string * json)).

(** The double quote and the backslash. *)
Definition dq : ascii := "034"%char.
Definition bs : ascii := "092"%char.

Definition json_space (c : ascii) : bool :=
  in_range 32 32 c || in_range 9 10 c || in_range 13 13 c.

Fixpoint skip_ws (s : string) : string :=
  match s with
  | String c s' => if json_space c then skip_ws s' else s
  | EmptyString => s
  end.

(** ** Strings *)

Definition byte_of (z : Z) : ascii := Ascii.ascii_of_N (Z.to_N z).

(** [utf8.EncodeRune]. *)
Definition encode_rune (r : Z) : string :=
  let b := byte_of in
  if (r <? 128)%Z then String (b r) ""
  else if (r <? 2048)%Z then
    String (b (192 + r / 64)%Z) (String (b (128 + r mod 64)%Z) "")
  else if (r <? 65536)%Z then
    String (b (224 + r / 4096)%Z) (String (b (128 + r / 64 mod 64)%Z)
      (String (b (128 + r mod 64)%Z) ""))
  else
    String (b (240 + r / 262144)%Z) (String (b (128 + r / 4096 mod 64)%Z)
      (String (b (128 + r / 64 mod 64)%Z) (String (b (128 + r mod 64)%Z) ""))).

Definition rune_error : Z := 65533.

Definition hex4_val (c : ascii) : option Z :=
  if is_digit c then Some (byte_val c - 48)%Z
  else if in_range 97 102 c then Some (byte_val c - 87)%Z
  else if in_range 65 70 c then Some (byte_val c - 55)%Z
  else None.

(** Four hexadecimal digits after [\u]. *)
Definition getu4 (s : string) : option (Z * string) :=
  match s with
  | String a (String b (String c (String d s'))) =>
      match hex4_val a, hex4_val b, hex4_val c, hex4_val d with
      | Some a, Some b, Some c, Some d => Some (((a * 16 + b) * 16 + c) * 16 + d, s')%Z
      | _, _, _, _ => None
      end
  | _ => None
  end.

(** The length of the UTF-8 sequence that starts with byte [c], and the bounds
    of its second byte: the tables of package unicode/utf8. *)
Definition utf8_first (c : ascii) : option (nat * Z * Z) :=
  let b := byte_val c in
  if in_range 194 223 c then Some (2%nat, 128%Z, 191%Z)
  else if (b =? 224)%Z then Some (3%nat, 160%Z, 191%Z)
  else if (b =? 237)%Z then Some (3%nat, 128%Z, 159%Z)
  else if in_range 225 239 c then Some (3%nat, 128%Z, 191%Z)
  else if (b =? 240)%Z then Some (4%nat, 144%Z, 191%Z)
  else if in_range 241 243 c then Some (4%nat, 128%Z, 191%Z)
  else if (b =? 244)%Z then Some (4%nat, 128%Z, 143%Z)
  else None.

(** [n] more continuation bytes. *)
Fixpoint utf8_rest (n : nat) (lo hi : Z) (s : string) : option (string * string) :=
  match n with
  | O => Some ("", s)
  | S n' =>
      match s with
      | String c s' =>
          if in_range lo hi c then
            match utf8_rest n' 128 191 s' with
            | Some (a, r) => Some (String c a, r)
            | None => None
            end
          else None
      | EmptyString => None
      end
  end.

Definition simple_escape (c : ascii) : option Z :=
  match c with
  | "b"%char => Some 8 | "f"%char => Some 12 | "n"%char => Some 10
  | "r"%char => Some 13 | "t"%char => Some 9 | "/"%char => Some 47
  | _ => if bool_decide (c = dq) then Some 34
         else if bool_decide (c = bs) then Some 92 else None
  end%Z.

(** The body of a string literal up to its closing quote, unquoted. *)
Fixpoint json_string (fuel : nat) (s : string) : option (string * string) :=
  match fuel with
  | O => None
  | S fuel' =>
      let emit (piece rest : string) :=
        match json_string fuel' rest with
        | Some (t, r) => Some (piece +:+ t, r)
        | None => None
        end in
      match s with
      | EmptyString => None
      | String c s' =>
          if bool_decide (c = dq) then Some ("", s')
          else if bool_decide (c = bs) then
            match s' with
            | String "u"%char s2 =>
                match getu4 s2 with
                | None => None
                | Some (u, s3) =>
                    if (55296 <=? u)%Z && (u <? 57344)%Z then
                      match s3 with
                      | String d (String "u"%char s4) =>
                          match (if bool_decide (d = bs) then getu4 s4 else None) with
                          | Some (v, s5) =>
                              if (u <? 56320)%Z && (56320 <=? v)%Z && (v <? 57344)%Z
                              then emit (encode_rune ((u - 55296) * 1024 + (v - 56320) + 65536)%Z) s5
                              else emit (encode_rune rune_error) s3
                          | None => emit (encode_rune rune_error) s3
                          end
                      | _ => emit (encode_rune rune_error) s3
                      end
                    else emit (encode_rune u) s3
                end
            | String e s2 =>
                match simple_escape e with
                | Some r => emit (encode_rune r) s2
                | None => None
                end
            | EmptyString => None
            end
          else if (byte_val c <? 32)%Z then None
          else if (byte_val c <? 128)%Z then emit (String c "") s'
          else match utf8_first c with
               | Some (n, lo, hi) =>
                   match utf8_rest (n - 1) lo hi s' with
                   | Some (a, r) => emit (String c a) r
                   | None => emit (encode_rune rune_error) s'
                   end
               | None => emit (encode_rune rune_error) s'
               end
      end
  end.

(** ** Numbers *)

Fixpoint take_digits (s : string) : string * string :=
  match s with
  | String c s' => if is_digit c then let '(a, r) := take_digits s' in (String c a, r)
                   else ("", s)
  | EmptyString => ("", s)
  end.

Definition json_frac (s : string) : option (string * string) :=
  match s with
  | String "."%char s' =>
      let '(d, r) := take_digits s' in
      if string_is_empty d then None else Some (String "."%char d, r)
  | _ => Some ("", s)
  end.

Definition json_exp (s : string) : option (string * string) :=
  match s with
  | String e s' =>
      if bool_decide (e = "e"%char) || bool_decide (e = "E"%char) then
        let '(sg, s2) := match s' with
                         | String "+"%char s2 => ("+", s2)
                         | String "-"%char s2 => ("-", s2)
                         | _ => ("", s') end in
        let '(d, r) := take_digits s2 in
        if string_is_empty d then None else Some (String e sg +:+ d, r)
      else Some ("", s)
  | EmptyString => Some ("", s)
  end.

Definition json_number (s : string) : option (string * string) :=
  let '(sg, s1) := match s with String "-"%char s1 => ("-", s1) | _ => ("", s) end in
  let int := match s1 with
             | String "0"%char s2 => Some ("0", s2)
             | _ => let '(d, r) := take_digits s1 in
                    if string_is_empty d then None else Some (d, r)
             end in
  '(i, r1) ← int; '(f, r2) ← json_frac r1; '(e, r3) ← json_exp r2;
  Some (sg +:+ i +:+ f +:+ e, r3).

(** ** Values *)

Definition json_literal (s : string) : option (json * string) :=
  if HasPrefix s "true" then Some (JBool true, drop_bytes 4 s)
  else if HasPrefix s "false" then Some (JBool false, drop_bytes 5 s)
  else if HasPrefix s "null" then Some (JNull, drop_bytes 4 s)
  else match json_number s with Some (n, r) => Some (JNum n, r) | None => None end.

(** Values, the elements of an array after its first byte, and the members of
    an object.  Every call consumes a byte or closes the list, so the length
    of the text is fuel enough. *)
Fixpoint json_value (fuel : nat) (s : string) : option (json * string) :=
  match fuel with
  | O => None
  | S fuel' =>
      match skip_ws s with
      | EmptyString => None
      | String c s' =>
          if bool_decide (c = dq) then
            match json_string (S (String.length s')) s' with
            | Some (t, r) => Some (JStr t, r)
            | None => None
            end
          else if bool_decide (c = "["%char) then
            match skip_ws s' with
            | String "]"%char r => Some (JArr [], r)
            | _ => match json_elems fuel' s' with
                   | Some (l, r) => Some (JArr l, r)
                   | None => None
                   end
            end
          else if bool_decide (c = "{"%char) then
            match skip_ws s' with
            | String "}"%char r => Some (JObj [], r)
            | _ => match json_members fuel' s' with
                   | Some (l, r) => Some (JObj l, r)
                   | None => None
                   end
            end
          else json_literal (String c s')
      end
  end
with json_elems (fuel : nat) (s : string) : option (list json * string) :=
  match fuel with
  | O => None
  | S fuel' =>
      match json_value fuel' s with
      | None => None
      | Some (v, r) =>
          match skip_ws r with
          | String ","%char r' =>
              match json_elems fuel' r' with
              | Some (l, r2) => Some (v :: l, r2)
              | None => None
              end
          | String "]"%char r' => Some ([v], r')
          | _ => None
          end
      end
  end
with json_members (fuel : nat) (s : string) : option (list (string * json) * string) :=
  match fuel with
  | O => None
  | S fuel' =>
      match skip_ws s with
      | String c s' =>
          if bool_decide (c = dq) then
            match json_string (S (String.length s')) s' with
            | None => None
            | Some (k, r) =>
                match skip_ws r with
                | String ":"%char r1 =>
                    match json_value fuel' r1 with
                    | None => None
                    | Some (v, r2) =>
                        match skip_ws r2 with
                        | String ","%char r3 =>
                            match json_members fuel' r3 with
                            | Some (l, r4) => Some ((k, v) :: l, r4)
                            | None => None
                            end
                        | String "}"%char r3 => Some ([(k, v)], r3)
                        | _ => None
                        end
                    end
                | _ => None
                end
            end
          else None
      | EmptyString => None
      end
  end.

(** The value of a whole text: nothing but white space may follow it. *)
Definition json_parse (s : string) : option json :=
  match json_value (2 * String.length s + 2) s with
  | Some (v, r) => if string_is_empty (skip_ws r) then Some v else None
  | None => None
  end.

(** Field names are matched without regard to ASCII case. *)
Definition fold_key (a b : string) : bool := bool_decide (ToLower a = ToLower b).

(** ** Printing plain texts, for the round trip *)

(** Bytes that a JSON string holds unescaped. *)
Definition plain_byte (c : ascii) : bool :=
  (32 <=? byte_val c)%Z && (byte_val c <? 128)%Z &&
  negb (bool_decide (c = dq)) && negb (bool_decide (c = bs)).

Definition quote (s : string) : string := String dq (s +:+ String dq "").

Lemma json_string_plain s rest fuel :
  string_forall plain_byte s = true -> String.length s < fuel ->
  json_string fuel (s +:+ String dq rest) = Some (s, rest).
Proof.
  revert s. induction fuel as [|fuel IH]; intros s Hs Hlen; [lia|].
  destruct s as [|c s]; [done|]. str_cbn. cbn in Hs, Hlen.
  apply andb_true_iff in Hs as [Hc Hs]. unfold plain_byte in Hc.
  repeat match type of Hc with _ && _ = true =>
    let H := fresh "Hc" in apply andb_true_iff in Hc as [Hc H] end.
  apply negb_true_iff in Hc0, Hc1. rewrite Hc0, Hc1.
  rewrite (proj2 (Z.ltb_ge _ _)) by lia. rewrite Hc2.
  rewrite IH by (done || lia). done.
Qed.
