(* ===== verification/OvsSim.v ===== *)
(** * A small Open vSwitch

    A concrete instance of [Exec], for evaluating the model: a switch that
    holds ports with their pod labels and, per bridge, the flow text last
    given to [replace-flows].  No theorem about the program depends on it; the
    closed witnesses of theorems with hypotheses on the outside world use it. *)
From S2P Require Import Prelude GoStrings Exec Json.

Record ovs_port := {
  op_name : string; op_namespace : string; op_pod : string;
  op_mac : string; op_ofport : string
}.

Record ovs := {
  ovs_ports : list ovs_port;
  ovs_flows : gmap string string;
  ovs_down : bool
}.

Definition ovs_find (ns name : string) (w : ovs) : list ovs_port :=
  List.filter (fun p => bool_decide (op_namespace p = ns) && bool_decide (op_pod p = name))
    (ovs_ports w).

Definition ovs_named (name : string) (w : ovs) : option ovs_port :=
  List.find (fun p => bool_decide (op_name p = name)) (ovs_ports w).

(** [--format=json] output: one row per port. *)
Definition ovs_rows (ps : list ovs_port) : string :=
  "{" +:+ quote "data" +:+ ":[" +:+
    Join ((fun p => "[" +:+ quote (op_name p) +:+ "]") <$> ps) "," +:+ "]," +:+
  quote "headings" +:+ ":[" +:+ quote "name" +:+ "]}".

Definition lf : string := String (Ascii.ascii_of_nat 10) "".

Definition ovs_vsctl (args : list string) (w : ovs) : result string :=
  match args with
  | ["--format=json"; "--column=name"; "find"; "port"; ns; name] =>
      Ok (ovs_rows (ovs_find (TrimPrefix ns "external-ids:k8s_pod_namespace=")
                             (TrimPrefix name "external-ids:k8s_pod_name=") w))
  | ["get"; "port"; name; "mac"] =>
      match ovs_named name w with
      | Some p => Ok (quote (op_mac p) +:+ lf)
      | None => Err (ErrExt "exit status 1")
      end
  | ["get"; "Interface"; name; "ofport"] =>
      match ovs_named name w with
      | Some p => Ok (op_ofport p +:+ lf)
      | None => Err (ErrExt "exit status 1")
      end
  | _ => Err (ErrExt "exit status 1")
  end.

Definition ovs_run (name : string) (args : list string) (stdin : string) : M ovs string :=
  fun w =>
  if ovs_down w then (Err (ErrExt "exit status 1"), w)
  else if bool_decide (name = "ovs-vsctl") then (ovs_vsctl args w, w)
  else match args with
       | ["-O"; "OpenFlow13"; "replace-flows"; bridge; "-"] =>
           (Ok "", {| ovs_ports := ovs_ports w; ovs_flows := <[bridge := stdin]> (ovs_flows w);
                      ovs_down := ovs_down w |})
       | _ => (Err (ErrExt "exit status 1"), w)
       end.

Definition ovs_exec : Exec ovs := {|
  exec_Output name args := ovs_run name args "";
  exec_CombinedOutput := ovs_run
|}.

(** A switch with one pod port, used by the witnesses. *)
Definition ovs_one : ovs := {|
  ovs_ports := [{| op_name := "veth0"; op_namespace := "default"; op_pod := "web";
                   op_mac := "aa:bb:cc:dd:ee:01"; op_ofport := "5" |}];
  ovs_flows := ∅;
  ovs_down := false
|}.
