(* ===== verification/Host.v ===== *)
(** * The host: calls, answers and traces

    The node's daemon ([cmd/k-vswitchd]) and the CNI plugin
    ([cmd/k-vswitch-cni]) do their work through calls to things outside the
    repository: processes, the kernel's links, addresses and namespaces, the
    IPAM plugin, iptables, the API server, the clock.  [call] lists the calls
    with the type of their answers.  The outside world is any function from
    what happened so far and a call to an answer (class [Env]); running a part
    of the program extends the list of what happened.  Theorems hold for every
    [Env], and state what they need of one call or another as hypotheses.

    [emits] says what kind of events a computation may add; its lemmas follow
    the control structures and are the hint database [emits]. *)
From S2P Require Import Prelude GoStrings GoNet Exec Objects.

(** ** Data of the libraries *)

(** [netlink.Link]'s attributes; [net.Interface]. *)
Record Link := { link_Name : string; link_Index : Z; link_HardwareAddr : list Z }.
Abbreviation Interface := Link.

(** [current.Interface]. *)
Record CniInterface := { ci_Name : string; ci_Mac : string; ci_Sandbox : string }.

(** [current.IPConfig]; a nil [Gateway] is the empty address. *)
Record IPConfig := {
  ipc_Version : string; ipc_Interface : option Z; ipc_Address : IPNet; ipc_Gateway : IP
}.

(** [types.Route]. *)
Record Route := { rt_Dst : IPNet; rt_GW : IP }.

(** [types.DNS]. *)
Record DNS := { Nameservers : list string; Domain : string; Search : list string; Options : list string }.

(** [current.Result]. *)
Record Result := {
  CNIVersion : string; Interfaces : list CniInterface; IPs : list IPConfig;
  Routes : list Route; res_DNS : DNS
}.

(** [netlink.Route] with the fields the program sets. *)
Record LinkRoute := { lr_LinkIndex : Z; lr_Scope_link : bool; lr_Dst : IPNet }.

(** [ns.NetNS]. *)
Record NetNS := { ns_Path : string }.

(** [iptables.IPTables]: whether the command knows [--check]. *)
Record IPTables := { hasCheck : bool }.

Inductive family := FAMILY_V4 | FAMILY_V6.

#[export] Instance family_eq_dec : EqDecision family.
Proof. solve_decision. Defined.

(** [syscall.ENOENT]. *)
Definition ENOENT : goerr := ErrExt "no such file or directory".
(** [ip.ErrLinkNotFound]. *)
Definition ErrLinkNotFound : goerr := ErrExt "link not found".

(** ** Calls *)

Inductive call : Type -> Type :=
(* processes, files, environment, clock *)
| Output (name : string) (args : list string) : call string
| CombinedOutput (name : string) (args : list string) (stdin : string) : call string
| ReadFile (path : string) : call string
| WriteFile (path data : string) : call unit
| Getenv (key : string) : call string
| Setenv (key value : string) : call unit
| Now : call Z
| Sleep (ns : Z) : call unit
(* links and addresses *)
| LinkByName (name : string) : call Link
| LinkSetUp (l : Link) : call unit
| LinkSetHardwareAddr (l : Link) (mac : list Z) : call unit
| AddrList (l : Link) (f : family) : call (list IPNet)
| AddrAdd (l : Link) (a : IPNet) : call unit
| AddrDel (l : Link) (a : IPNet) : call unit
| AddrReplace (l : Link) (a : IPNet) : call unit
| RouteReplace (r : LinkRoute) : call unit
| InterfaceByName (name : string) : call Interface
| EnableIP4Forward : call unit
| EnableIP6Forward : call unit
(* namespaces *)
| GetNS (path : string) : call NetNS
| CloseNS (n : NetNS) : call unit
| EnterNS (n : NetNS) : call unit
| LeaveNS (n : NetNS) : call unit
| SetupVeth (contName : string) (mtu : Z) : call (Interface * Interface)
| DelLinkByNameAddr (name : string) : call (list IPNet)
(* IPAM, ARP, masquerading, the result *)
| IpamExecAdd (plugin netconf : string) : call string
| IpamExecDel (plugin netconf : string) : call unit
| NewResultFromResult (r : string) : call Result
| ConfigureIface (ifName : string) (res : Result) : call unit
| GratuitousArp (ip : IP) (i : Interface) : call unit
| SetupIPMasq (n : IPNet) (chain comment : string) : call unit
| TeardownIPMasq (n : IPNet) (chain comment : string) : call unit
| PrintResult (res : Result) (version : string) : call unit
(* iptables: the exit status of a command *)
| IptNew : call IPTables
| IptExistsOld (table chain : string) (rule : list string) : call bool
| IptRun (args : list string) : call Z
(* the cluster *)
| InClusterConfig : call unit
| NewForConfig (kind : string) : call unit
| GetNode (name : string) : call Node
| GetVSwitchConfig (name : string) : call VSwitchConfig
| ListenTCP (port : Z) : call unit.

(** A call with its answer. *)
Inductive event :=
| Event {A : Type} (c : call A) (r : result A).

Abbreviation trace := (list event).

Class Env := answer : trace -> forall A, call A -> result A.

Definition perform `{Env} {A} (c : call A) : M trace A := fun t =>
  let r := answer t A c in (r, t ++ [Event c r]).

(** A world whose calls return: package os, the kernel's netlink interface and
    the plugins report failures as errors. *)
Class CallsReturn `{Env} := calls_return : forall t A (c : call A), answer t A c <> Panic.

(** The processes of the port cache and the flow buffer run in the same world. *)
#[export] Instance env_exec `{Env} : Exec trace := {|
  exec_Output name args := perform (Output name args);
  exec_CombinedOutput name args stdin := perform (CombinedOutput name args stdin)
|}.

(** ** What a computation adds to the trace *)

Section emits.
Context `{HEnv : Env}.

Definition emits {A} (P : event -> Prop) (m : M trace A) : Prop :=
  forall t, exists u, (m t).2 = t ++ u /\ Forall P u.

Lemma emits_none {A} P (m : M trace A) : (forall t, (m t).2 = t) -> emits P m.
Proof. intros Hm t. exists []. by rewrite Hm, app_nil_r. Qed.

Lemma emits_ret {A} P (a : A) : emits P (mret a).
Proof. by apply emits_none. Qed.
Lemma emits_lift {A} P (r : result A) : emits P (lift r).
Proof. by apply emits_none. Qed.
Lemma emits_throw {A} P e : emits P (throw (A := A) e).
Proof. by apply emits_none. Qed.

Lemma emits_perform {A} (P : event -> Prop) (c : call A) :
  (forall r, P (Event c r)) -> emits P (perform c).
Proof. intros Hc t. eexists. split; [done|]. by constructor. Qed.

Lemma emits_run {A} P (m : M trace A) t r t' :
  emits P m -> m t = (r, t') -> exists u, t' = t ++ u /\ Forall P u.
Proof. intros Hm Hr. destruct (Hm t) as (u & Hu & HP). exists u. by rewrite Hr in Hu. Qed.

Lemma emits_bind {A B} P (m : M trace A) (k : A -> M trace B) :
  emits P m -> (forall a, emits P (k a)) -> emits P (m ≫= k).
Proof.
  intros Hm Hk t. destruct (Hm t) as (u & Hu & HP). unfold mbind, M_bind.
  destruct (m t) as [[a|e|] t1]; cbn [snd] in *; subst t1; [|by eauto..].
  destruct (Hk a (t ++ u)) as (v & Hv & HQ). exists (u ++ v). rewrite Hv, <- app_assoc.
  split; [done|]. by apply Forall_app.
Qed.

Lemma emits_same {A B} P (m : M trace A) (m' : M trace B) :
  (forall t, (m' t).2 = (m t).2) -> emits P m -> emits P m'.
Proof. intros He Hm t. rewrite He. apply Hm. Qed.

Lemma emits_wrapped {A} P msg (m : M trace A) : emits P m -> emits P (wrapped msg m).
Proof. apply emits_same. intros t. unfold wrapped. by destruct (m t). Qed.
Lemma emits_logged {A} P (m : M trace A) : emits P m -> emits P (logged m).
Proof. apply emits_same. intros t. unfold logged. by destruct (m t) as [[] ?]. Qed.
Lemma emits_try {A} P (m : M trace A) : emits P m -> emits P (try_m m).
Proof. apply emits_same. intros t. unfold try_m. by destruct (m t) as [[] ?]. Qed.

Lemma emits_if {A} P (b : bool) (m m' : M trace A) :
  emits P m -> emits P m' -> emits P (if b then m else m').
Proof. by destruct b. Qed.

Lemma emits_for_range {A} P (l : list A) (f : A -> M trace unit) :
  (forall x, emits P (f x)) -> emits P (for_range l f).
Proof.
  intros Hf. induction l as [|x l IH]; cbn [for_range]; [apply emits_ret|].
  apply emits_bind; [apply Hf|intros _; apply IH].
Qed.

Lemma emits_deferred {A} P (c : M trace unit) (m : M trace A) :
  emits P c -> emits P m -> emits P (deferred c m).
Proof.
  intros Hc Hm t. unfold deferred. destruct (Hm t) as (u & Hu & HP).
  destruct (m t) as [r t1]. cbn in Hu. subst t1. destruct (Hc (t ++ u)) as (v & Hv & HQ).
  destruct (c (t ++ u)) as [rc t2]. cbn in Hv |- *. subst t2. exists (u ++ v).
  rewrite <- app_assoc. split; [done|]. by apply Forall_app.
Qed.

Lemma emits_on_failure {A} P (c : M trace unit) (m : M trace A) :
  emits P c -> emits P m -> emits P (on_failure c m).
Proof.
  intros Hc Hm t. unfold on_failure. destruct (Hm t) as (u & Hu & HP).
  destruct (m t) as [r t1]. cbn in Hu. subst t1.
  destruct (emits_deferred P c (lift r) Hc (emits_lift P r) (t ++ u))
    as (v & Hv & HQ).
  destruct r as [a|e|]; [by eauto| |]; rewrite Hv; exists (u ++ v); rewrite <- app_assoc;
    (split; [done|by apply Forall_app]).
Qed.

Lemma emits_weaken {A} (P Q : event -> Prop) (m : M trace A) :
  (forall e, P e -> Q e) -> emits P m -> emits Q m.
Proof.
  intros HPQ Hm t. destruct (Hm t) as (u & Hu & HP). exists u. split; [done|].
  by eapply Forall_impl.
Qed.
(** A call that succeeded, and where it stands in the trace. *)
Lemma perform_Ok_inv {A} (c : call A) t a t' :
  perform c t = (Ok a, t') -> answer t A c = Ok a /\ t' = t ++ [Event c (Ok a)].
Proof. unfold perform. intros [= Ha <-]. by rewrite Ha. Qed.

Lemma perform_trace {A} (c : call A) t : (perform c t).2 = t ++ [Event c (answer t A c)].
Proof. done. Qed.

(** Events stay in the trace. *)
Lemma emits_keeps {A} P (m : M trace A) t r t' e :
  emits P m -> m t = (r, t') -> In e t -> In e t'.
Proof.
  intros Hm Hr He. destruct (emits_run P m t r t' Hm Hr) as (u & -> & _).
  apply in_or_app. by left.
Qed.
(** A deferred call: the outcome is that of the body. *)
Lemma deferred_perform `{!CallsReturn} {A} (c : call unit) (m : M trace A) t r t' :
  deferred (perform c) m t = (r, t') ->
  exists t1 rc, m t = (r, t1) /\ t' = t1 ++ [Event c rc].
Proof.
  unfold deferred, perform. destruct (m t) as [rm t1]. pose proof (calls_return t1 _ c) as Hc.
  destruct (answer t1 unit c) as [[]|e|]; [| |done]; intros [= <- <-]; eauto.
Qed.
End emits.

Create HintDb emits.
#[export] Hint Resolve emits_ret emits_lift emits_throw emits_perform emits_bind emits_wrapped
  emits_logged emits_try emits_if emits_for_range emits_deferred emits_on_failure : emits.
#[export] Hint Extern 2 (emits _ _) =>
  match goal with |- emits _ (match ?x with _ => _ end) => destruct x end : emits.
