(* ===== verification/PortCache.v ===== *)
(** * The port cache

    [controllers/openflow/port_cache.go]: the OVS port of a pod, asked of
    ovs-vsctl once and kept by ["namespace/name"].  The three queries run
    through the [Exec] interface; their output is decoded as the code does.

    [query_port] is the abstract contract, the lookup without a cache;
    [GetPortInfo_refines] shows the cached lookup implements it as long as
    the cache is coherent with Open vSwitch, and the other theorems say how
    it stays or stops being so. *)
From S2P Require Import Prelude GoStrings Exec Objects Json OvsSim.

Record portInfo := { pi_name : string; pi_ofport : Z; pi_mac : string }.

#[export] Instance portInfo_eq_dec : EqDecision portInfo.
Proof. solve_decision. Defined.

(** [type portCache struct]; the mutex makes each method atomic. *)
Record portCache := { store : gmap string portInfo }.

Definition NewPortCache : portCache := {| store := ∅ |}.

Definition portCacheKeyForPod (pod : Pod) : string :=
  pod_Namespace pod +:+ "/" +:+ pod_Name pod.

(** ** Decoding the output of ovs-vsctl *)

(** Into a [string] element: [null] leaves the zero value. *)
Definition decode_cell (v : json) : result string :=
  match v with
  | JStr s => Ok s
  | JNull => Ok ""
  | _ => Err (ErrExt "json: cannot unmarshal into string")
  end.

Fixpoint decode_list {A} (f : json -> result A) (l : list json) : result (list A) :=
  match l with
  | [] => Ok []
  | v :: l' => x ← f v; xs ← decode_list f l'; Ok (x :: xs)
  end.

Definition decode_slice {A} (f : json -> result A) (v : json) : result (list A) :=
  match v with
  | JArr l => decode_list f l
  | JNull => Ok []
  | _ => Err (ErrExt "json: cannot unmarshal into slice")
  end.

(** [json.Unmarshal] into [struct { Data [][]string }]: members other than
    [data] are skipped, the last [data] wins. *)
Fixpoint decode_db_members (kvs : list (string * json)) (acc : list (list string))
  : result (list (list string)) :=
  match kvs with
  | [] => Ok acc
  | (k, v) :: kvs' =>
      if fold_key k "Data" then
        rows ← decode_slice (decode_slice decode_cell) v; decode_db_members kvs' rows
      else decode_db_members kvs' acc
  end.

Definition unmarshal_db (text : string) : result (list (list string)) :=
  match json_parse text with
  | None => Err (ErrExt "invalid JSON")
  | Some (JObj kvs) => decode_db_members kvs []
  | Some JNull => Ok []
  | Some _ => Err (ErrExt "json: cannot unmarshal into struct")
  end.

(** ** The queries *)

Section queries.
Context `{Exec W}.

Definition find_args (podNamespace podName : string) : list string :=
  ["--format=json"; "--column=name"; "find"; "port";
   "external-ids:k8s_pod_namespace=" +:+ podNamespace;
   "external-ids:k8s_pod_name=" +:+ podName].

(** [dbData.Data[0][0]] panics when the first row is empty. *)
Definition first_cell (rows : list (list string)) : result string :=
  match rows with
  | [] => Err (ErrNew "OVS port was not found")
  | [] :: _ => Panic
  | (name :: _) :: _ => Ok name
  end.

Definition findPort (podNamespace podName : string) : M W string :=
  out ← wrapped "failed to get OVS port" (exec_Output "ovs-vsctl" (find_args podNamespace podName));
  rows ← lift (unmarshal_db out);
  lift (first_cell rows).

Definition quotation : string := String dq "".

Definition macAddrFromPort (portName : string) : M W string :=
  out ← wrapped "failed to get MAC address from OVS port"
          (exec_Output "ovs-vsctl" ["get"; "port"; portName; "mac"]);
  mret (TrimSuffix (TrimPrefix (TrimSpace out) quotation) quotation).

Definition ofPortFromName (portName : string) : M W Z :=
  out ← wrapped "failed to get ofport"
          (exec_CombinedOutput "ovs-vsctl" ["get"; "Interface"; portName; "ofport"] "");
  match Atoi (TrimSpace out) with
  | (n, None) => mret n
  | (_, Some _) => throw (ErrNew "error converting ofport output to int")
  end.
End queries.

(** ** The cache *)

Section cache.
Context `{Exec W}.

(** The receiver and the outside world. *)
Abbreviation st := (portCache * W)%type.

Definition on_world {A} (m : M W A) : M st A := zoom snd (fun w s => (s.1, w)) m.

Definition GetPortInfo (pod : Pod) : M st portInfo :=
  let key := portCacheKeyForPod pod in
  cached ← gets (fun s => store s.1 !! key);
  match cached with
  | Some port => mret port
  | None =>
      portName ← on_world (findPort (pod_Namespace pod) (pod_Name pod));
      mac ← on_world (macAddrFromPort portName);
      ofport ← on_world (ofPortFromName portName);
      let podPortInfo := {| pi_name := portName; pi_mac := mac; pi_ofport := ofport |} in
      _ ← modify (fun s => ({| store := <[key := podPortInfo]> (store s.1) |}, s.2));
      mret podPortInfo
  end.

Definition DelPortInfo (pod : Pod) : M st unit :=
  let key := portCacheKeyForPod pod in
  modify (fun s => ({| store := delete key (store s.1) |}, s.2)).

(** ** Contract: the lookup without a cache *)

Definition query_port (podNamespace podName : string) : M W portInfo :=
  portName ← findPort podNamespace podName;
  mac ← macAddrFromPort portName;
  ofport ← ofPortFromName portName;
  mret {| pi_name := portName; pi_mac := mac; pi_ofport := ofport |}.

(** A namespace name has no slash (it is a DNS label). *)
Definition slashless (ns : string) : Prop := has_char "/"%char ns = false.

(** Every cached entry is what Open vSwitch would answer now. *)
Definition coherent (s : st) : Prop :=
  forall ns name port, slashless ns ->
    store s.1 !! (ns +:+ "/" +:+ name) = Some port ->
    (query_port ns name s.2).1 = Ok port.

(** What the daemon takes for the port of a pod: what is cached, or else what
    Open vSwitch answers. *)
Definition believed (s : st) (ns name : string) : result portInfo :=
  match store s.1 !! (ns +:+ "/" +:+ name) with
  | Some port => Ok port
  | None => (query_port ns name s.2).1
  end.

(** A cache that learned from Open vSwitch: it changes no belief, forgets
    nothing, and what is new in it is an answer. *)
Record learned (w : W) (pc0 pc : portCache) : Prop := {
  ln_beliefs ns name : slashless ns -> believed (pc, w) ns name = believed (pc0, w) ns name;
  ln_keeps key port : store pc0 !! key = Some port -> store pc !! key = Some port;
  ln_ports key port : store pc !! key = Some port ->
    store pc0 !! key = Some port \/ exists ns name, (query_port ns name w).1 = Ok port
}.

(** The queries do not change the world they ask about. *)
Definition queries_read_only (w : W) : Prop :=
  forall ns name, (query_port ns name w).2 = w.

(** One step of the code: the cached entry, or the query and its insertion. *)
Lemma GetPortInfo_run pod s :
  GetPortInfo pod s =
    match store s.1 !! portCacheKeyForPod pod with
    | Some port => (Ok port, s)
    | None =>
        match query_port (pod_Namespace pod) (pod_Name pod) s.2 with
        | (Ok port, w) =>
            (Ok port, ({| store := <[portCacheKeyForPod pod := port]> (store s.1) |}, w))
        | (r, w) => (r, (s.1, w))
        end
    end.
Proof.
  destruct s as [c w]. unfold GetPortInfo, gets, on_world, zoom, modify, mbind, M_bind.
  cbn [fst snd]. destruct (store c !! _) as [port|]; [done|].
  unfold query_port, mbind, M_bind, mret, M_ret. cbn [fst snd].
  destruct (findPort _ _ w) as [[name|e|] w1]; cbn [fst snd]; [|done..].
  destruct (macAddrFromPort name w1) as [[mac|e|] w2]; cbn [fst snd]; [|done..].
  by destruct (ofPortFromName name w2) as [[p|e|] w3].
Qed.

(** The key separates namespace and name. *)
Lemma key_inj ns1 n1 ns2 n2 :
  slashless ns1 -> slashless ns2 ->
  ns1 +:+ "/" +:+ n1 = ns2 +:+ "/" +:+ n2 -> ns1 = ns2 /\ n1 = n2.
Proof.
  intros H1 H2 Heq.
  assert (Hc : cut_byte "/"%char (ns1 +:+ "/" +:+ n1) = cut_byte "/"%char (ns2 +:+ "/" +:+ n2))
    by by rewrite Heq.
  change ("/" +:+ ?x) with (String "/"%char x) in Hc.
  rewrite !cut_byte_app in Hc by done. naive_solver.
Qed.

Lemma coherent_insert c w pod port :
  slashless (pod_Namespace pod) -> coherent (c, w) ->
  (query_port (pod_Namespace pod) (pod_Name pod) w).1 = Ok port ->
  coherent ({| store := <[portCacheKeyForPod pod := port]> (store c) |}, w).
Proof.
  intros Hs Hc Hq ns name port' Hns. cbn [fst snd store]. unfold portCacheKeyForPod.
  rewrite lookup_insert_Some. intros [[Hk <-]|[_ Hl]]; [|by apply Hc].
  by apply key_inj in Hk as [<- <-].
Qed.

(** *** Beliefs *)

Lemma believed_coherent s ns name :
  slashless ns -> coherent s -> believed s ns name = (query_port ns name s.2).1.
Proof.
  intros Hs Hc. unfold believed. destruct (store s.1 !! _) as [port|] eqn:Hl; [|done]. symmetry. by apply Hc.
Qed.

Lemma learned_refl w pc : learned w pc pc.
Proof. split; [done|done|by left]. Qed.

Lemma learned_trans w pc0 pc1 pc2 : learned w pc0 pc1 -> learned w pc1 pc2 -> learned w pc0 pc2.
Proof.
  intros [Hb1 Hk1 Hp1] [Hb2 Hk2 Hp2]. split.
  - intros ns name Hs. by rewrite Hb2, Hb1.
  - intros key port Hk. by apply Hk2, Hk1.
  - intros key port Hk. destruct (Hp2 key port Hk) as [?|?]; [by apply Hp1|by right].
Qed.

(** Learning keeps a cache coherent. *)
Lemma learned_coherent w pc0 pc : learned w pc0 pc -> coherent (pc0, w) -> coherent (pc, w).
Proof.
  intros [Hb _ _] Hc ns name port Hs Hl. pose proof (Hb ns name Hs) as Hbel.
  rewrite (believed_coherent (pc0, w)) in Hbel by done. cbn [snd] in *. rewrite <- Hbel.
  unfold believed. cbn [fst] in *. by rewrite Hl.
Qed.

(** A lookup returns the belief, and the cache learns. *)
Lemma GetPortInfo_believed pod pc (w : W) :
  slashless (pod_Namespace pod) -> queries_read_only w ->
  exists pc', GetPortInfo pod (pc, w) = (believed (pc, w) (pod_Namespace pod) (pod_Name pod), (pc', w)) /\ learned w pc pc'.
Proof.
  intros Hs Hro. rewrite GetPortInfo_run. unfold believed. cbn [fst snd]. unfold portCacheKeyForPod.
  destruct (store pc !! _) as [port|] eqn:Hl; [exists pc; split; [done|apply learned_refl]|].
  specialize (Hro (pod_Namespace pod) (pod_Name pod)).
  destruct (query_port _ _ w) as [[port|e|] w'] eqn:Hq; cbn [fst snd] in *; subst w';
    [|exists pc; split; [done|apply learned_refl]..].
  eexists. split; [done|]. split.
  - intros ns name Hns. unfold believed. cbn [fst snd store].
    destruct (decide (pod_Namespace pod +:+ "/" +:+ pod_Name pod = ns +:+ "/" +:+ name)) as [He|Hne].
    + rewrite <- He, lookup_insert_eq, Hl. apply key_inj in He as [<- <-]; [|done..]. by rewrite Hq.
    + by rewrite lookup_insert_ne.
  - intros key port' Hk. cbn [store]. rewrite lookup_insert_ne; [done|]. intros <-. congruence.
  - intros key port' Hk. cbn [store] in Hk. apply lookup_insert_Some in Hk as [[_ <-]|[_ Hk]]; [|by left].
    right. eexists _, _. by rewrite Hq.
Qed.

(** *** Properties *)

(** C15.  The cache is transparent: from a cache that agrees with Open vSwitch,
    GetPortInfo answers exactly what the three queries would answer now, and
    leaves a cache that still agrees. *)
Theorem GetPortInfo_refines pod c w :
  slashless (pod_Namespace pod) -> queries_read_only w -> coherent (c, w) ->
  let (r, s') := GetPortInfo pod (c, w) in
  r = (query_port (pod_Namespace pod) (pod_Name pod) w).1 /\ s'.2 = w /\ coherent s'.
Proof.
  intros Hs Hro Hc. rewrite GetPortInfo_run. cbn [fst snd].
  destruct (store c !! portCacheKeyForPod pod) as [port|] eqn:Hl.
  - split; [|done]. symmetry. by apply Hc.
  - pose proof (Hro (pod_Namespace pod) (pod_Name pod)) as Hw.
    destruct (query_port _ _ w) as [[port|e|] w'] eqn:Hq; cbn [fst snd] in Hw; subst w';
      split; try done.
    split; [done|]. apply coherent_insert; [done..|]. by rewrite Hq.
Qed.

(** DelPortInfo drops the entry of its pod and no other: the next lookup
    of that pod asks Open vSwitch again and its answer, not the dropped one,
    is returned; a pod with another namespace or name still hits its entry
    without running a command. *)
Theorem DelPortInfo_forgets pod other c w :
  slashless (pod_Namespace pod) -> slashless (pod_Namespace other) ->
  let s := (DelPortInfo pod (c, w)).2 in
  (GetPortInfo pod s).1 = (query_port (pod_Namespace pod) (pod_Name pod) w).1 /\
  ((pod_Namespace other, pod_Name other) <> (pod_Namespace pod, pod_Name pod) ->
   forall port, store c !! portCacheKeyForPod other = Some port ->
   GetPortInfo other s = (Ok port, s)).
Proof.
  intros Hs Ho s. subst s. cbn. split.
  - rewrite GetPortInfo_run. cbn [fst snd store]. rewrite lookup_delete_eq.
    by destruct (query_port _ _ w) as [[| |] ?].
  - intros Hne port Hl. rewrite GetPortInfo_run. cbn [fst snd store].
    rewrite lookup_delete_ne; [by rewrite Hl|].
    intros Hk. apply Hne. apply key_inj in Hk as [-> ->]; done.
Qed.

(** A failed lookup caches nothing: the error (or panic) reaches the
    caller, the cache is unchanged, and the next lookup queries again. *)
Theorem GetPortInfo_failure_not_cached pod c w :
  store c !! portCacheKeyForPod pod = None ->
  is_ok (query_port (pod_Namespace pod) (pod_Name pod) w).1 = false ->
  (GetPortInfo pod (c, w)).1 = (query_port (pod_Namespace pod) (pod_Name pod) w).1 /\
  (GetPortInfo pod (c, w)).2.1 = c.
Proof.
  intros Hl Hq. rewrite GetPortInfo_run. cbn [fst snd]. rewrite Hl.
  by destruct (query_port _ _ w) as [[| |] ?].
Qed.
End cache.

(** *** On the concrete switch *)

#[local] Existing Instance ovs_exec.

Definition web_pod : Pod :=
  {| pod_Namespace := "default"; pod_Name := "web"; pod_Labels := ∅; pod_PodIP := "10.1.0.7" |}.
Definition web_port : portInfo :=
  {| pi_name := "veth0"; pi_ofport := 5; pi_mac := "aa:bb:cc:dd:ee:01" |}.

Example query_web : query_port "default" "web" ovs_one = (Ok web_port, ovs_one).
Proof. vm_compute. reflexivity. Qed.

Lemma ovs_queries_read_only (w : ovs) : queries_read_only w.
Proof.
  intros ns name.
  assert (Hout : forall args, (ovs_run "ovs-vsctl" args "" w).2 = w).
  { intros args. unfold ovs_run. by destruct (ovs_down w). }
  assert (Hf : (findPort ns name w).2 = w).
  { unfold findPort, wrapped, lift, mbind, M_bind. cbn [exec_Output ovs_exec].
    specialize (Hout (find_args ns name)). destruct (ovs_run _ _ _ w) as [[out|e|] w1];
      cbn in Hout |- *; subst w1; try done. by destruct (unmarshal_db out). }
  assert (Hm : forall p, (macAddrFromPort p w).2 = w).
  { intros p. unfold macAddrFromPort, wrapped, mbind, M_bind. cbn [exec_Output ovs_exec].
    specialize (Hout ["get"; "port"; p; "mac"]). by destruct (ovs_run _ _ _ w) as [[| |] w1]. }
  assert (Ho : forall p, (ofPortFromName p w).2 = w).
  { intros p. unfold ofPortFromName, wrapped, mbind, M_bind. cbn [exec_CombinedOutput ovs_exec].
    specialize (Hout ["get"; "Interface"; p; "ofport"]).
    destruct (ovs_run _ _ _ w) as [[out| |] w1]; cbn in Hout |- *; subst w1; try done.
    by destruct (Atoi (TrimSpace out)) as [? [|]]. }
  unfold query_port, mbind, M_bind.
  destruct (findPort ns name w) as [[p| |] w1]; cbn in Hf; subst w1; try done.
  specialize (Hm p). destruct (macAddrFromPort p w) as [[m| |] w1]; cbn in Hm; subst w1; try done.
  specialize (Ho p). by destruct (ofPortFromName p w) as [[o| |] w1].
Qed.

Lemma empty_coherent (w : ovs) : coherent (NewPortCache, w).
Proof. intros ns name port _. cbn. by rewrite lookup_empty. Qed.

Lemma GetPortInfo_refines_witness :
  let (r, s') := GetPortInfo web_pod (NewPortCache, ovs_one) in
  r = (query_port "default" "web" ovs_one).1 /\ s'.2 = ovs_one /\ coherent s'.
Proof.
  exact (GetPortInfo_refines web_pod NewPortCache ovs_one eq_refl
           (ovs_queries_read_only ovs_one) (empty_coherent ovs_one)).
Defined.

Definition db_pod : Pod :=
  {| pod_Namespace := "default"; pod_Name := "db"; pod_Labels := ∅; pod_PodIP := "10.1.0.8" |}.

Lemma DelPortInfo_forgets_witness :
  (GetPortInfo web_pod (DelPortInfo web_pod
     ({| store := {["default/web" := {| pi_name := "old"; pi_ofport := 9; pi_mac := "" |}]} |},
      ovs_one)).2).1 = Ok web_port.
Proof.
  pose proof (DelPortInfo_forgets web_pod db_pod
    {| store := {["default/web" := {| pi_name := "old"; pi_ofport := 9; pi_mac := "" |}]} |}
    ovs_one eq_refl eq_refl) as [H _].
  rewrite H. change (pod_Namespace web_pod) with "default". change (pod_Name web_pod) with "web".
  by rewrite query_web.
Defined.

Lemma GetPortInfo_failure_not_cached_witness :
  (GetPortInfo db_pod (NewPortCache, ovs_one)).1 = Err (ErrNew "OVS port was not found") /\
  (GetPortInfo db_pod (NewPortCache, ovs_one)).2.1 = NewPortCache.
Proof.
  destruct (GetPortInfo_failure_not_cached db_pod NewPortCache ovs_one) as [H1 H2].
  - reflexivity.
  - vm_compute. reflexivity.
  - split; [|exact H2]. rewrite H1. vm_compute. reflexivity.
Defined.
