(* ===== verification/HostSim.v ===== *)
(** * A small host

    The semantics of the ovs-vsctl commands that write ports, and a concrete
    instance of [Env] for evaluating the model: a host whose links, namespaces
    and plugins answer, with a port database, iptables rules and a clock that
    are computed from the trace.  No theorem about the program depends on the
    host; the closed witnesses of theorems about the plugin and the daemon use
    it. *)
From S2P Require Import Prelude GoStrings GoNet Exec Objects Json OvsSim Host PortCache.

(** ** Ports with external ids *)

Record db_port := { dp_name : string; dp_ids : gmap string string }.

(** [--may-exist add-port] with [set port external-ids:...]: keys are set on the
    port of that name, which is created when there is none. *)
Fixpoint set_port (name : string) (ids : gmap string string) (ports : list db_port) : list db_port :=
  match ports with
  | [] => [{| dp_name := name; dp_ids := ids |}]
  | p :: ports' =>
      if bool_decide (dp_name p = name) then {| dp_name := name; dp_ids := ids ∪ dp_ids p |} :: ports'
      else p :: set_port name ids ports'
  end.

Definition del_port (name : string) (ports : list db_port) : list db_port :=
  List.filter (fun p => negb (bool_decide (dp_name p = name))) ports.

Definition has_id (key value : string) (p : db_port) : bool := bool_decide (dp_ids p !! key = Some value).

(** ** The host *)

(** What differs between hosts: the environment, whether the IPAM plugin and
    the output work, the addresses the plugin gives, when the API server has the config, and what it is. *)
Record sim := {
  sim_getenv : string -> string;
  sim_ipam : bool;
  sim_print : bool;
  sim_addresses : list IPConfig;
  sim_ready : Z;
  sim_node : Node;
  sim_vswitch : VSwitchConfig
}.

Definition id_value (key arg : string) : string := TrimPrefix arg ("external-ids:" +:+ key +:+ "=").

Definition sim_ids (i1 i2 i3 : string) : gmap string string :=
  {["netns" := id_value "netns" i1; "k8s_pod_namespace" := id_value "k8s_pod_namespace" i2;
    "k8s_pod_name" := id_value "k8s_pod_name" i3]}.

Definition sim_command (args : list string) (ports : list db_port) : list db_port :=
  match args with
  | ["--may-exist"; "add-port"; _; port; "--"; "set"; "port"; _; i1; i2; i3;
     "--"; "set"; "interface"; _; _; _; _; "--"; "set"; "port"; _; _] => set_port port (sim_ids i1 i2 i3) ports
  | ["--if-exists"; "del-port"; _; port] => del_port port ports
  | _ => ports
  end.

Definition sim_apply (ports : list db_port) (e : event) : list db_port :=
  match e with
  | Event c r =>
      (match c in call A return result A -> list db_port with
       | CombinedOutput name args _ => fun r =>
           if bool_decide (name = "ovs-vsctl") && is_ok r then sim_command args ports else ports
       | _ => fun _ => ports
       end) r
  end.

Definition sim_db (t : trace) : list db_port := foldl sim_apply [] t.

(** The output of [find]; a name that the JSON text would garble is an error. *)
Definition sim_find (p : db_port -> bool) (ports : list db_port) : result string :=
  let names := dp_name <$> List.filter p ports in
  let text := "{" +:+ quote "data" +:+ ":[" +:+ Join ((fun n => "[" +:+ quote n +:+ "]") <$> names) "," +:+ "]}" in
  if bool_decide (unmarshal_db text = Ok ((fun n => [n]) <$> names)) then Ok text
  else Err (ErrExt "exit status 1").

Definition sim_output (args : list string) (ports : list db_port) : result string :=
  match args with
  | ["--format=json"; "--column=name"; "find"; "port"; i2; i3] =>
      sim_find (fun p => has_id "k8s_pod_namespace" (id_value "k8s_pod_namespace" i2) p
                         && has_id "k8s_pod_name" (id_value "k8s_pod_name" i3) p) ports
  | ["--format=json"; "--column=name"; "find"; "port"; i1; i2; i3] =>
      sim_find (fun p => has_id "netns" (id_value "netns" i1) p
                         && (has_id "k8s_pod_namespace" (id_value "k8s_pod_namespace" i2) p
                             && has_id "k8s_pod_name" (id_value "k8s_pod_name" i3) p)) ports
  | _ => Ok "1"
  end.

(** The clock: only sleeping takes time. *)
Definition sim_tick (now : Z) (e : event) : Z :=
  match e with
  | Event c r =>
      match c with Sleep d => (now + Z.max d 0)%Z | _ => now end
  end.

Definition sim_now (t : trace) : Z := foldl sim_tick 0%Z t.

(** The rules appended with iptables, each with its table and chain. *)
Definition sim_rule (rules : list (list string)) (e : event) : list (list string) :=
  match e with
  | Event c r =>
      (match c in call A return result A -> list (list string) with
       | IptRun args => fun r =>
           match args, r with
           | "-t" :: table :: "-A" :: chain :: rule, Ok 0%Z => rules ++ [table :: chain :: rule]
           | _, _ => rules
           end
       | _ => fun _ => rules
       end) r
  end.

Definition sim_rules (t : trace) : list (list string) := foldl sim_rule [] t.

Definition sim_ipt (args : list string) (rules : list (list string)) : Z :=
  match args with
  | "-t" :: table :: "-C" :: chain :: rule => if bool_decide (table :: chain :: rule ∈ rules) then 0 else 1
  | _ => 0
  end%Z.

Definition sim_link (name : string) : Link :=
  {| link_Name := name; link_Index := 7; link_HardwareAddr := [2; 0; 0; 0; 0; 7]%Z |}.

Definition sim_veth : Interface * Interface :=
  ({| link_Name := "veth0123"; link_Index := 8; link_HardwareAddr := [2; 0; 0; 0; 0; 8]%Z |},
   {| link_Name := "eth0"; link_Index := 3; link_HardwareAddr := [2; 0; 0; 0; 0; 9]%Z |}).

Definition sim_pod_address : IPConfig :=
  {| ipc_Version := "4"; ipc_Interface := None;
     ipc_Address := {| net_IP := [10; 244; 1; 5]%Z; net_Mask := [255; 255; 255; 0]%Z |};
     ipc_Gateway := [10; 244; 1; 1]%Z |}.

Definition sim_ipam_result (ips : list IPConfig) : Result :=
  {| CNIVersion := "0.3.1"; Interfaces := []; IPs := ips; Routes := [];
     res_DNS := {| Nameservers := []; Domain := ""; Search := []; Options := [] |} |}.

Definition sim_answer (s : sim) : Env := fun t A c =>
  match c in call A return result A with
  | Output _ args => sim_output args (sim_db t)
  | CombinedOutput _ _ _ => Ok "1"
  | ReadFile _ => Ok ""
  | Getenv k => Ok (sim_getenv s k)
  | Now => Ok (sim_now t)
  | LinkByName n => Ok (sim_link n)
  | InterfaceByName n => Ok (sim_link n)
  | AddrList _ _ => Ok []
  | GetNS p => Ok {| ns_Path := p |}
  | SetupVeth _ _ => Ok sim_veth
  | DelLinkByNameAddr _ => Ok []
  | IpamExecAdd _ _ => if sim_ipam s then Ok "" else Err (ErrExt "no address")
  | NewResultFromResult _ => Ok (sim_ipam_result (sim_addresses s))
  | PrintResult _ _ => if sim_print s then Ok tt else Err (ErrExt "broken pipe")
  | IptNew => Ok {| hasCheck := true |}
  | IptExistsOld _ _ _ => Ok false
  | IptRun args => Ok (sim_ipt args (sim_rules t))
  | GetNode _ => Ok (sim_node s)
  | GetVSwitchConfig n => if (sim_now t <? sim_ready s)%Z then Err (ErrNotFound n) else Ok (sim_vswitch s)
  | _ => Ok tt
  end.

(** A host on which everything works. *)
Definition good_host : sim := {|
  sim_getenv := fun k =>
    if bool_decide (k = "CNI_ARGS") then "IgnoreUnknown=1;K8S_POD_NAMESPACE=default;K8S_POD_NAME=web"
    else if bool_decide (k = "NODE_NAME") then "node1" else "";
  sim_ipam := true; sim_print := true; sim_addresses := [sim_pod_address]; sim_ready := 0;
  sim_node := {| node_Name := "node1"; node_PodCIDR := "10.244.1.0/24"; node_Addresses := [] |};
  sim_vswitch := {| vsc_Name := "node1"; vsc_Spec := {| OverlayIP := "192.168.0.1"; OverlayType := "vxlan";
    PodCIDR := "10.244.1.0/24"; ClusterCIDR := "10.244.0.0/16"; ServiceCIDR := "10.96.0.0/12" |} |}
|}.

Lemma sim_find_returns p ports : sim_find p ports <> Panic.
Proof. unfold sim_find. by case_bool_decide. Qed.

Lemma sim_returns s : CallsReturn (H := sim_answer s).
Proof.
  intros t A c. unfold answer, sim_answer. destruct c; try done.
  - unfold sim_output. repeat case_match; try done; apply sim_find_returns.
  - by destruct (sim_ipam s).
  - by destruct (sim_print s).
  - by case_match.
Qed.
