(* ===== verification/NetConf.v ===== *)
(** * The network configuration of the CNI plugin

    The daemon writes the configuration file ([installCNIConf] of
    [cmd/k-vswitchd/main.go]) and the plugin reads it ([loadNetConf] of
    [cmd/k-vswitch-cni/plugin.go]), through package encoding/json and the
    struct tags of [NetConf] and of the embedded [types.NetConf].

    The names of the JSON members are computed from the declarations as
    package reflect does it, so a misspelt tag has the effect it has in the
    program: [installed_conf_loaded] shows what the plugin gets from the file
    the daemon writes. *)
From S2P Require Import Prelude GoStrings Json PortCache Host.

(** ** Struct tags *)

(** A byte that may occur in the key of a tag. *)
Definition tag_key_byte (c : ascii) : bool :=
  (32 <? byte_val c)%Z && negb (bool_decide (c = ":"%char)) && negb (bool_decide (c = dq))
  && negb (byte_val c =? 127)%Z.

Fixpoint span (p : ascii -> bool) (s : string) : string * string :=
  match s with
  | String c s' => if p c then let '(a, b) := span p s' in (String c a, b) else ("", s)
  | EmptyString => ("", "")
  end.

(** The quoted value up to its closing quote. *)
Fixpoint tag_value (s : string) : option (string * string) :=
  match s with
  | EmptyString => None
  | String c s' =>
      if bool_decide (c = dq) then Some ("", s')
      else if bool_decide (c = bs) then
        match s' with
        | String d s2 => match tag_value s2 with
                         | Some (a, b) => Some (String c (String d a), b)
                         | None => None
                         end
        | EmptyString => None
        end
      else match tag_value s' with
           | Some (a, b) => Some (String c a, b)
           | None => None
           end
  end.

(** [StructTag.Lookup]; the tags of the program hold no escapes, so the quoted
    value is its own text.  Each round drops at least the three bytes of a key, a
    colon and a quote. *)
Fixpoint StructTag_Lookup (fuel : nat) (tag key : string) : option string :=
  match fuel with
  | O => None
  | S fuel' =>
      let '(_, tag) := span (fun c => bool_decide (c = " "%char)) tag in
      let '(name, rest) := span tag_key_byte tag in
      if string_is_empty name then None else
      match rest with
      | String c (String d rest') =>
          if bool_decide (c = ":"%char) && bool_decide (d = dq) then
            match tag_value rest' with
            | None => None
            | Some (value, tag') =>
                if bool_decide (key = name) then Some value else StructTag_Lookup fuel' tag' key
            end
          else None
      | _ => None
      end
  end.

(** The JSON name of a field: the tag up to its first comma, or the field's own
    name. *)
Definition json_name (go_name tag : string) : string :=
  let value := default "" (StructTag_Lookup (S (String.length tag)) tag "json") in
  let name := match cut_byte ","%char value with Some (n, _) => n | None => value end in
  if string_is_empty name then go_name else name.

(** ** Matching a member with a field *)

(** [equalFoldRight]: letters match without regard to case, [s] also matches
    the long s (U+017F) and [k] the Kelvin sign (U+212A). *)
Fixpoint equalFoldRight (s t : string) : bool :=
  match s with
  | EmptyString => string_is_empty t
  | String a s' =>
      match t with
      | EmptyString => false
      | String b t' =>
          if (byte_val b <? 128)%Z then
            bool_decide (lower_byte a = lower_byte b) && equalFoldRight s' t'
          else if bool_decide (lower_byte a = "s"%char) && HasPrefix t (encode_rune 383) then
            equalFoldRight s' (drop_bytes 2 t)
          else if bool_decide (lower_byte a = "k"%char) && HasPrefix t (encode_rune 8490) then
            equalFoldRight s' (drop_bytes 3 t)
          else false
      end
  end.

(** The field of a member: by its exact name, else the first that folds to it. *)
Definition find_field {F} (fields : list (F * string)) (key : string) : option F :=
  match List.find (fun f => bool_decide (f.2 = key)) fields with
  | Some f => Some f.1
  | None => fst <$> List.find (fun f => equalFoldRight f.2 key) fields
  end.

(** ** The structs *)

(** [NetConf]: the embedded [types.NetConf] first. *)
Record NetConf := {
  nc_CNIVersion : string; nc_Name : string; nc_Type : string;
  nc_Capabilities : gmap string bool; IPAM_Type : string; nc_DNS : DNS;
  BridgeName : string; IsGW : bool; IsDefaultGW : bool; ForceAddress : bool;
  IPMasq : bool; MTU : Z; HairpinMode : bool; PromiscMode : bool
}.

Inductive nc_field :=
| F_CNIVersion | F_Name | F_Type | F_Capabilities | F_IPAM | F_DNS
| F_BridgeName | F_IsGW | F_IsDefaultGW | F_ForceAddress | F_IPMasq | F_MTU | F_HairpinMode | F_PromiscMode.

Definition tagged (text : string) : string := "json:" +:+ quote text.

(** The fields with their names and tags, as declared.  The tag of [IsGW]
    lacks its closing quote. *)
Definition netconf_decl : list (nc_field * string * string) :=
  [ (F_CNIVersion, "CNIVersion", tagged "cniVersion,omitempty");
    (F_Name, "Name", tagged "name,omitempty");
    (F_Type, "Type", tagged "type,omitempty");
    (F_Capabilities, "Capabilities", tagged "capabilities,omitempty");
    (F_IPAM, "IPAM", tagged "ipam,omitempty");
    (F_DNS, "DNS", tagged "dns");
    (F_BridgeName, "BridgeName", tagged "bridge");
    (F_IsGW, "IsGW", "json:" +:+ String dq "isGateway");
    (F_IsDefaultGW, "IsDefaultGW", tagged "isDefaultGateway");
    (F_ForceAddress, "ForceAddress", tagged "forceAddress");
    (F_IPMasq, "IPMasq", tagged "ipMasq");
    (F_MTU, "MTU", tagged "mtu");
    (F_HairpinMode, "HairpinMode", tagged "hairpinMode");
    (F_PromiscMode, "PromiscMode", tagged "promiscMode") ].

Definition netconf_fields : list (nc_field * string) :=
  (fun d => (d.1.1, json_name d.1.2 d.2)) <$> netconf_decl.

(** ** Decoding into Go values: [null] leaves the old value *)

Definition type_error {A} : result A := Err (ErrExt "json: cannot unmarshal").

Definition into_string (old : string) (v : json) : result string :=
  match v with JStr s => Ok s | JNull => Ok old | _ => type_error end.

Definition into_bool (old : bool) (v : json) : result bool :=
  match v with JBool b => Ok b | JNull => Ok old | _ => type_error end.

Definition into_int (old : Z) (v : json) : result Z :=
  match v with
  | JNum text => match ParseInt10 text with (n, None) => Ok n | (_, Some _) => type_error end
  | JNull => Ok old
  | _ => type_error
  end.

Definition into_strings (v : json) : result (list string) := decode_slice (into_string "") v.

(** The members of an object, one after the other. *)
Fixpoint into_members {A} (step : string -> json -> A -> result A) (kvs : list (string * json)) (acc : A)
  : result A :=
  match kvs with
  | [] => Ok acc
  | (k, v) :: kvs' => acc' ← step k v acc; into_members step kvs' acc'
  end.

Definition into_object {A} (step : string -> json -> A -> result A) (old : A) (v : json) : result A :=
  match v with JObj kvs => into_members step kvs old | JNull => Ok old | _ => type_error end.

(** [map[string]bool]: members are added to the map, [null] makes it nil. *)
Definition into_capabilities (old : gmap string bool) (v : json) : result (gmap string bool) :=
  match v with
  | JNull => Ok ∅
  | _ => into_object (fun k v m => b ← into_bool false v; Ok (<[k := b]> m)) old v
  end.

Definition into_ipam (old : string) (v : json) : result string :=
  into_object (fun k v t =>
    match find_field [(tt, json_name "Type" (tagged "type,omitempty"))] k with
    | Some _ => into_string t v
    | None => Ok t
    end) old v.

Inductive dns_field := F_Nameservers | F_Domain | F_Search | F_Options.

Definition dns_fields : list (dns_field * string) :=
  [ (F_Nameservers, json_name "Nameservers" (tagged "nameservers,omitempty"));
    (F_Domain, json_name "Domain" (tagged "domain,omitempty"));
    (F_Search, json_name "Search" (tagged "search,omitempty"));
    (F_Options, json_name "Options" (tagged "options,omitempty")) ].

Definition into_dns (old : DNS) (v : json) : result DNS :=
  into_object (fun k v d =>
    match find_field dns_fields k with
    | None => Ok d
    | Some F_Nameservers => l ← into_strings v;
        Ok {| Nameservers := l; Domain := Domain d; Search := Search d; Options := Options d |}
    | Some F_Domain => s ← into_string (Domain d) v;
        Ok {| Nameservers := Nameservers d; Domain := s; Search := Search d; Options := Options d |}
    | Some F_Search => l ← into_strings v;
        Ok {| Nameservers := Nameservers d; Domain := Domain d; Search := l; Options := Options d |}
    | Some F_Options => l ← into_strings v;
        Ok {| Nameservers := Nameservers d; Domain := Domain d; Search := Search d; Options := l |}
    end) old v.

(** One member of the configuration. *)
Definition into_netconf_member (k : string) (v : json) (n : NetConf) : result NetConf :=
  let '{| nc_CNIVersion := cv; nc_Name := nm; nc_Type := ty; nc_Capabilities := cap; IPAM_Type := it;
          nc_DNS := dns; BridgeName := br; IsGW := gw; IsDefaultGW := dgw; ForceAddress := fa;
          IPMasq := mq; MTU := mtu; HairpinMode := hp; PromiscMode := pm |} := n in
  match find_field netconf_fields k with
  | None => Ok n
  | Some F_CNIVersion => x ← into_string cv v; Ok (Build_NetConf x nm ty cap it dns br gw dgw fa mq mtu hp pm)
  | Some F_Name => x ← into_string nm v; Ok (Build_NetConf cv x ty cap it dns br gw dgw fa mq mtu hp pm)
  | Some F_Type => x ← into_string ty v; Ok (Build_NetConf cv nm x cap it dns br gw dgw fa mq mtu hp pm)
  | Some F_Capabilities => x ← into_capabilities cap v; Ok (Build_NetConf cv nm ty x it dns br gw dgw fa mq mtu hp pm)
  | Some F_IPAM => x ← into_ipam it v; Ok (Build_NetConf cv nm ty cap x dns br gw dgw fa mq mtu hp pm)
  | Some F_DNS => x ← into_dns dns v; Ok (Build_NetConf cv nm ty cap it x br gw dgw fa mq mtu hp pm)
  | Some F_BridgeName => x ← into_string br v; Ok (Build_NetConf cv nm ty cap it dns x gw dgw fa mq mtu hp pm)
  | Some F_IsGW => x ← into_bool gw v; Ok (Build_NetConf cv nm ty cap it dns br x dgw fa mq mtu hp pm)
  | Some F_IsDefaultGW => x ← into_bool dgw v; Ok (Build_NetConf cv nm ty cap it dns br gw x fa mq mtu hp pm)
  | Some F_ForceAddress => x ← into_bool fa v; Ok (Build_NetConf cv nm ty cap it dns br gw dgw x mq mtu hp pm)
  | Some F_IPMasq => x ← into_bool mq v; Ok (Build_NetConf cv nm ty cap it dns br gw dgw fa x mtu hp pm)
  | Some F_MTU => x ← into_int mtu v; Ok (Build_NetConf cv nm ty cap it dns br gw dgw fa mq x hp pm)
  | Some F_HairpinMode => x ← into_bool hp v; Ok (Build_NetConf cv nm ty cap it dns br gw dgw fa mq mtu x pm)
  | Some F_PromiscMode => x ← into_bool pm v; Ok (Build_NetConf cv nm ty cap it dns br gw dgw fa mq mtu hp x)
  end.

Definition no_dns : DNS := {| Nameservers := []; Domain := ""; Search := []; Options := [] |}.

Definition defaultBridgeName : string := "k-vswitch0".

(** [&NetConf{BridgeName: defaultBridgeName}] *)
Definition netconf_default : NetConf :=
  Build_NetConf "" "" "" ∅ "" no_dns defaultBridgeName false false false false 0 false false.

Definition unmarshal_netconf (text : string) (old : NetConf) : result NetConf :=
  match json_parse text with
  | None => Err (ErrExt "invalid JSON")
  | Some v => into_object into_netconf_member old v
  end.

Definition loadNetConf (bytes : string) : result (NetConf * string) :=
  n ← wrap_err "failed to load netconf" (unmarshal_netconf bytes netconf_default);
  Ok (n, nc_CNIVersion n).

(** ** The file the daemon writes *)

Definition nl : string := String (Ascii.ascii_of_nat 10) "".
Definition tab : string := String (Ascii.ascii_of_nat 9) "".
Definition line1 : string := nl +:+ tab.
Definition line2 : string := nl +:+ tab +:+ tab.

(** The [Sprintf] of [installCNIConf]. *)
Definition cni_conf (podCIDR : string) : string :=
  "{" +:+
  line1 +:+ quote "name" +:+ ":" +:+ " " +:+ quote "k-vswitch-cni" +:+ "," +:+
  line1 +:+ quote "type" +:+ ":" +:+ " " +:+ quote "k-vswitch-cni" +:+ "," +:+
  line1 +:+ quote "bridge" +:+ ":" +:+ " " +:+ quote "k-vswitch0" +:+ "," +:+
  line1 +:+ quote "isGateway" +:+ ":" +:+ " true" +:+ "," +:+
  line1 +:+ quote "isDefaultGateway" +:+ ":" +:+ " true" +:+ "," +:+
  line1 +:+ quote "ipam" +:+ ":" +:+ " " +:+ "{" +:+
    line2 +:+ quote "type" +:+ ":" +:+ " " +:+ quote "host-local" +:+ "," +:+
    line2 +:+ quote "subnet" +:+ ":" +:+ " " +:+ quote podCIDR +:+
  line1 +:+ "}" +:+ nl +:+ "}".

Definition cniConfigPath : string := "/etc/cni/net.d/10-k-vswitch.json".

Definition installCNIConf `{Env} (podCIDR : string) : M trace unit :=
  perform (WriteFile cniConfigPath (cni_conf podCIDR)).


(** ** Reading it back *)

Definition plain (s : string) : Prop := string_forall plain_byte s = true.

Lemma skip_ws_app ws s : string_forall json_space ws = true -> skip_ws (ws +:+ s) = skip_ws s.
Proof.
  induction ws as [|c ws IH]; [done|]. intros [Hc Hws]%andb_true_iff.
  rewrite str_app_cons. cbn [skip_ws]. rewrite Hc. by apply IH.
Qed.

Lemma skip_ws_quote s r : skip_ws (quote s +:+ r) = quote s +:+ r.
Proof. done. Qed.

(** A string value, after white space. *)
Lemma json_value_str f ws s r :
  string_forall json_space ws = true -> plain s ->
  json_value (S f) (ws +:+ quote s +:+ r) = Some (JStr s, r).
Proof.
  intros Hws Hs. cbn [json_value]. rewrite skip_ws_app by done. unfold quote.
  rewrite str_app_cons. cbn [skip_ws]. change (json_space dq) with false. cbn iota.
  rewrite bool_decide_true by done. rewrite str_app_assoc, str_app_cons, str_app_nil_l.
  rewrite json_string_plain; [done|done|]. rewrite str_length_app. lia.
Qed.

(** One member of an object, after white space, and what follows it. *)
Lemma json_members_step f ws k r v r2 :
  string_forall json_space ws = true -> plain k -> json_value f r = Some (v, r2) ->
  json_members (S f) (ws +:+ quote k +:+ ":" +:+ r) =
  match skip_ws r2 with
  | String ","%char r3 =>
      match json_members f r3 with Some (l, r4) => Some ((k, v) :: l, r4) | None => None end
  | String "}"%char r3 => Some ([(k, v)], r3)
  | _ => None
  end.
Proof.
  intros Hws Hk Hv. cbn [json_members]. rewrite skip_ws_app by done. unfold quote at 1.
  rewrite str_app_cons. cbn [skip_ws]. change (json_space dq) with false. cbn iota.
  rewrite bool_decide_true by done. rewrite str_app_assoc, str_app_cons, str_app_nil_l.
  rewrite json_string_plain; [|done|rewrite str_length_app; lia].
  rewrite str_app_cons, str_app_nil_l. cbn [skip_ws]. change (json_space ":") with false. cbn iota.
  by rewrite Hv.
Qed.

(** The members of the file, as JSON. *)
Definition cni_members (podCIDR : string) : list (string * json) :=
  [ ("name", JStr "k-vswitch-cni"); ("type", JStr "k-vswitch-cni"); ("bridge", JStr "k-vswitch0");
    ("isGateway", JBool true); ("isDefaultGateway", JBool true);
    ("ipam", JObj [("type", JStr "host-local"); ("subnet", JStr podCIDR)]) ].

(** A member whose value is a string, and the rest of the object. *)
Lemma json_members_str f ws k v rest l r4 :
  string_forall json_space ws = true -> plain k -> plain v ->
  json_members (S f) rest = Some (l, r4) ->
  json_members (S (S f)) (ws +:+ quote k +:+ ":" +:+ " " +:+ quote v +:+ "," +:+ rest) =
  Some ((k, JStr v) :: l, r4).
Proof.
  intros Hws Hk Hv Hl.
  rewrite (json_members_step _ _ _ _ (JStr v) ("," +:+ rest)); [|done|done|by apply json_value_str].
  rewrite str_app_cons, str_app_nil_l. cbn [skip_ws]. change (json_space ",") with false. cbn iota.
  by rewrite Hl.
Qed.

(** The same for [true]. *)
Lemma json_members_true f ws k rest l r4 :
  string_forall json_space ws = true -> plain k -> json_members (S f) rest = Some (l, r4) ->
  json_members (S (S f)) (ws +:+ quote k +:+ ":" +:+ " true" +:+ "," +:+ rest) =
  Some ((k, JBool true) :: l, r4).
Proof.
  intros Hws Hk Hl.
  rewrite (json_members_step _ _ _ _ (JBool true) ("," +:+ rest)); [|done|done|done].
  rewrite str_app_cons, str_app_nil_l. cbn [skip_ws]. change (json_space ",") with false. cbn iota.
  by rewrite Hl.
Qed.

(** An object with at least one member. *)
Lemma json_value_obj f ws m l r :
  string_forall json_space ws = true ->
  json_members f m = Some (l, r) -> (match skip_ws m with String "}"%char _ => false | _ => true end) = true ->
  json_value (S f) (ws +:+ "{" +:+ m) = Some (JObj l, r).
Proof.
  intros Hws Hm Hne. cbn [json_value]. rewrite skip_ws_app by done.
  rewrite str_app_cons, str_app_nil_l. cbn [skip_ws]. change (json_space "{") with false. cbn iota.
  rewrite !bool_decide_false by done. rewrite bool_decide_true by done.
  destruct (skip_ws m) as [|c m'] eqn:Hs; [by rewrite Hm|].
  rewrite Hm. destruct c as [[] [] [] [] [] [] [] []]; done.
Qed.

Lemma cni_conf_members f podCIDR : plain podCIDR ->
  json_value (12 + f) (cni_conf podCIDR) = Some (JObj (cni_members podCIDR), "").
Proof.
  intros Hp. unfold cni_conf. cbn [Nat.add].
  rewrite <- (str_app_nil_l ("{" +:+ _)). apply json_value_obj; [reflexivity| |reflexivity].
  unfold cni_members.
  do 3 (apply json_members_str; [reflexivity..|]). do 2 (apply json_members_true; [reflexivity..|]).
  rewrite (json_members_step _ _ _ _ (JObj [("type", JStr "host-local"); ("subnet", JStr podCIDR)]) (nl +:+ "}"));
    [reflexivity|reflexivity|reflexivity|].
  apply json_value_obj; [reflexivity| |reflexivity].
  apply json_members_str; [reflexivity..|].
  rewrite (json_members_step _ _ _ _ (JStr podCIDR) (line1 +:+ "}" +:+ nl +:+ "}"));
    [reflexivity|reflexivity|reflexivity|by apply json_value_str].
Qed.

Lemma cni_conf_length podCIDR : (10 <= String.length (cni_conf podCIDR))%nat.
Proof. unfold cni_conf. rewrite !str_length_app. cbn [String.length quote]. rewrite !str_length_app. lia. Qed.

Lemma json_parse_cni_conf podCIDR : plain podCIDR ->
  json_parse (cni_conf podCIDR) = Some (JObj (cni_members podCIDR)).
Proof.
  intros Hp. unfold json_parse. pose proof (cni_conf_length podCIDR).
  replace (2 * String.length (cni_conf podCIDR) + 2)%nat
    with (12 + (2 * String.length (cni_conf podCIDR) - 10))%nat by lia.
  by rewrite cni_conf_members.
Qed.

(** The names the members are looked up by: all but one are those of the tags. *)
Lemma netconf_names :
  netconf_fields =
  [ (F_CNIVersion, "cniVersion"); (F_Name, "name"); (F_Type, "type"); (F_Capabilities, "capabilities");
    (F_IPAM, "ipam"); (F_DNS, "dns"); (F_BridgeName, "bridge"); (F_IsGW, "IsGW");
    (F_IsDefaultGW, "isDefaultGateway"); (F_ForceAddress, "forceAddress"); (F_IPMasq, "ipMasq");
    (F_MTU, "mtu"); (F_HairpinMode, "hairpinMode"); (F_PromiscMode, "promiscMode") ].
Proof. vm_compute. reflexivity. Qed.

(** What the plugin gets from the daemon's file. *)
Definition installed_netconf : NetConf :=
  Build_NetConf "" "k-vswitch-cni" "k-vswitch-cni" ∅ "host-local" no_dns "k-vswitch0"
    false true false false 0 false false.

(** C27.  From the file to the plugin.  Whatever pod block is written into
    the configuration, as long as it needs no escaping in JSON, the plugin
    reads the file as: the bridge k-vswitch0, host-local address management,
    a default route, and not a gateway: the file says isGateway, but the tag
    of the field has no closing quote, so no member of that name is looked
    for. *)
Theorem installed_conf_loaded podCIDR :
  plain podCIDR -> loadNetConf (cni_conf podCIDR) = Ok (installed_netconf, "").
Proof.
  intros Hp. unfold loadNetConf, unmarshal_netconf. rewrite json_parse_cni_conf by done.
  unfold into_object, cni_members, into_members, into_netconf_member. rewrite netconf_names.
  reflexivity.
Qed.

Lemma installed_conf_loaded_witness : loadNetConf (cni_conf "10.244.1.0/24") = Ok (installed_netconf, "").
Proof. apply installed_conf_loaded. vm_compute. reflexivity. Defined.
