(* ===== verification/Cni.v ===== *)
(** * The CNI plugin

    [cmd/k-vswitch-cni/plugin.go]: [cmdAdd] connects a pod to the bridge and
    gives it an address, [cmdDel] takes both back.  Everything outside the
    plugin is a call to the host ([Host]).

    The first half is the program.  The second half shows that a failing
    [cmdAdd] gives the address back ([cmdAdd_releases]) and what a successful
    one has done ([cmdAdd_registers]); the port database is the subject of
    [OvsDb], names and gateways of [CniNet]. *)
From S2P Require Import Prelude GoStrings GoNet Exec Objects Json OvsSim Host PortCache HostSim NetConf.

(** The MAC address every pod gets. *)
Definition podMacAddr : string := "aa:bb:cc:dd:ee:ff".

(** [skel.CmdArgs]: the fields read. *)
Record CmdArgs := { ContainerID : string; Netns : string; IfName : string; StdinData : string }.

Section plugin.
Context `{HEnv : Env}.
(** The name of the masquerading chain is made from a SHA-512 hash. *)
Variable FormatChainName : string -> string -> string.

(** ** Lookups *)

Definition bridgeByName (name : string) : M trace Link :=
  wrapped ("could not lookup " +:+ quote name) (perform (LinkByName name)).

Definition getBridgeInterface : M trace CniInterface :=
  br ← wrapped ("failed to fetch bridge " +:+ quote defaultBridgeName) (bridgeByName defaultBridgeName);
  mret {| ci_Name := link_Name br; ci_Mac := HardwareAddr_String (link_HardwareAddr br); ci_Sandbox := "" |}.

(** One argument of [CNI_ARGS]. *)
Definition podInfo_arg (acc : string * string) (arg : string) : string * string :=
  let '(podNamespace, podName) := acc in
  if Contains arg "K8S_POD_NAMESPACE" then (TrimPrefix arg "K8S_POD_NAMESPACE=", podName)
  else if Contains arg "K8S_POD_NAME" then (podNamespace, TrimPrefix arg "K8S_POD_NAME=")
  else (podNamespace, podName).

Definition pod_info (cniArgs : string) : string * string :=
  foldl podInfo_arg ("", "") (Split cniArgs ";"%char).

Definition getPodInfo : M trace (string * string) :=
  cniArgs ← perform (Getenv "CNI_ARGS");
  if bool_decide (cniArgs = "") then throw (ErrNew "env var CNI_ARGS was empty") else
  mret (pod_info cniArgs).

(** ** Ports *)

Definition normalizedNetNS (netns : string) : string := remove_byte "/"%char netns.

Definition addPort_args (bridgeName port containerMac netNS podNamespace podName : string) : list string :=
  [ "--may-exist"; "add-port"; bridgeName; port;
    "--"; "set"; "port"; port;
    "external-ids:netns=" +:+ normalizedNetNS netNS;
    "external-ids:k8s_pod_namespace=" +:+ podNamespace;
    "external-ids:k8s_pod_name=" +:+ podName;
    "--"; "set"; "interface"; port;
    "external-ids:netns=" +:+ normalizedNetNS netNS;
    "external-ids:k8s_pod_namespace=" +:+ podNamespace;
    "external-ids:k8s_pod_name=" +:+ podName;
    "--"; "set"; "port"; port; "mac=" +:+ quote containerMac ].

Definition addPort (bridgeName port containerMac netNS podNamespace podName : string) : M trace unit :=
  _ ← wrapped ("failed to add OVS port " +:+ quote port +:+ " to bridge " +:+ quote bridgeName)
        (exec_CombinedOutput "ovs-vsctl"
          (addPort_args bridgeName port containerMac netNS podNamespace podName) "");
  mret tt.

Definition delPort (bridge port : string) : M trace unit :=
  _ ← wrapped ("failed to delete OVS port " +:+ quote port +:+ " on bridge " +:+ quote bridge)
        (exec_CombinedOutput "ovs-vsctl" ["--if-exists"; "del-port"; bridge; port] "");
  mret tt.

Definition find_args (netNS podNamespace podName : string) : list string :=
  [ "--format=json"; "--column=name"; "find";
    "port"; "external-ids:netns=" +:+ normalizedNetNS netNS;
    "external-ids:k8s_pod_namespace=" +:+ podNamespace;
    "external-ids:k8s_pod_name=" +:+ podName ].

Definition findPort (bridge netNS podNamespace podName : string) : M trace string :=
  out ← wrapped ("failed to get OVS port with net namespace " +:+ quote netNS +:+ " from bridge " +:+ quote bridge)
          (exec_Output "ovs-vsctl" (find_args netNS podNamespace podName));
  rows ← lift (unmarshal_db out);
  lift (first_cell rows).

(** ** The pod's interface *)

(** [netns.Do(f)]: the body runs inside the namespace, which is left whatever
    its outcome. *)
Definition ns_Do {A} (n : NetNS) (body : M trace A) : M trace A :=
  _ ← perform (EnterNS n); deferred (perform (LeaveNS n)) body.

(** [ns.WithNetNSPath] *)
Definition WithNetNSPath {A} (path : string) (body : M trace A) : M trace A :=
  n ← perform (GetNS path); deferred (perform (CloseNS n)) (ns_Do n body).

Definition setupVeth (n : NetNS) (ifName : string) : M trace (CniInterface * CniInterface) :=
  '(hostVeth, containerVeth) ← ns_Do n (perform (SetupVeth ifName 1500));
  let contIface := {| ci_Name := link_Name containerVeth;
                      ci_Mac := HardwareAddr_String (link_HardwareAddr containerVeth);
                      ci_Sandbox := ns_Path n |} in
  link ← wrapped ("failed to lookup " +:+ quote (link_Name hostVeth)) (perform (LinkByName (link_Name hostVeth)));
  mret ({| ci_Name := link_Name hostVeth; ci_Mac := HardwareAddr_String (link_HardwareAddr link);
           ci_Sandbox := "" |}, contIface).

(** The override of the container's MAC address in [cmdAdd]. *)
Definition overrideMac (n : NetNS) (ifName : string) : M trace unit :=
  ns_Do n (link ← perform (LinkByName ifName);
           hwAddr ← lift (ParseMAC podMacAddr);
           perform (LinkSetHardwareAddr link hwAddr)).

(** ** Gateways *)

Record gwInfo := { gws : list IPNet; gw_family : option family; defaultRouteFound : bool }.

Definition no_gws : gwInfo := {| gws := []; gw_family := None; defaultRouteFound := false |}.

Definition IPv4zero : IP := v4InV6Prefix ++ [0; 0; 0; 0]%Z.
Definition IPv6zero : IP := replicate 16 0%Z.

Definition calcGatewayIP (ipn : IPNet) : IP := NextIP (or_nil (Mask (net_IP ipn) (net_Mask ipn))).

(** The body of the loop of [calcGateways], once the family is known: the
    address with its gateway, the routes, and the family's gateways. *)
Definition calcGateway (fam : family) (zero : IP) (n : NetConf) (ipc : IPConfig) (routes : list Route)
    (g : gwInfo) : IPConfig * list Route * gwInfo :=
  let defaultNet := {| net_IP := zero; net_Mask := zero |} in
  let gateway := if bool_decide (ipc_Gateway ipc = []) && IsGW n
                 then calcGatewayIP (ipc_Address ipc) else ipc_Gateway ipc in
  let ipc' := {| ipc_Version := ipc_Version ipc; ipc_Interface := Some 2%Z;
                 ipc_Address := ipc_Address ipc; ipc_Gateway := gateway |} in
  let has_default := existsb (fun r => negb (bool_decide (rt_GW r = []))
                        && bool_decide (IPNet_String defaultNet = IPNet_String (rt_Dst r))) routes in
  let add := IsDefaultGW n && negb (defaultRouteFound g) in
  let routes' := if add && negb has_default
                 then routes ++ [{| rt_Dst := defaultNet; rt_GW := gateway |}] else routes in
  let gws' := if IsGW n then gws g ++ [{| net_IP := gateway; net_Mask := net_Mask (ipc_Address ipc) |}]
              else gws g in
  (ipc', routes', {| gws := gws'; gw_family := Some fam; defaultRouteFound := defaultRouteFound g || add |}).

Fixpoint calcGateways_loop (n : NetConf) (ips : list IPConfig) (routes : list Route) (gwsV4 gwsV6 : gwInfo)
  : result (list IPConfig * list Route * gwInfo * gwInfo) :=
  match ips with
  | [] => Ok ([], routes, gwsV4, gwsV6)
  | ipc :: ips' =>
      let ip := net_IP (ipc_Address ipc) in
      match To4 ip with
      | Some _ =>
          let '(ipc', routes', gwsV4') := calcGateway FAMILY_V4 IPv4zero n ipc routes gwsV4 in
          '(l, rs, g4, g6) ← calcGateways_loop n ips' routes' gwsV4' gwsV6; Ok (ipc' :: l, rs, g4, g6)
      | None =>
          if (length ip =? IPv6len)%nat then
            let '(ipc', routes', gwsV6') := calcGateway FAMILY_V6 IPv6zero n ipc routes gwsV6 in
            '(l, rs, g4, g6) ← calcGateways_loop n ips' routes' gwsV4 gwsV6'; Ok (ipc' :: l, rs, g4, g6)
          else Err (ErrNew "Unknown IP object")
      end
  end.

(** [calcGateways]: the result with its addresses and routes completed, and
    the gateways per family. *)
Definition calcGateways (res : Result) (n : NetConf) : result (Result * gwInfo * gwInfo) :=
  '(ips, routes, g4, g6) ← calcGateways_loop n (IPs res) (Routes res) no_gws no_gws;
  Ok ({| CNIVersion := CNIVersion res; Interfaces := Interfaces res; IPs := ips; Routes := routes;
         res_DNS := res_DNS res |}, g4, g6).

(** ** The bridge's addresses *)

Definition deleteBridgeAddr (br : Link) (ipn : IPNet) : M trace unit :=
  wrapped ("could not remove IP address from " +:+ quote (link_Name br)) (perform (AddrDel br ipn)).

(** The loop of [ensureBridgeAddr]; [true] is its [return nil]. *)
Fixpoint check_addrs (br : Link) (fam : family) (ipn : IPNet) (forceAddress : bool) (addrs : list IPNet)
  : M trace bool :=
  match addrs with
  | [] => mret false
  | a :: addrs' =>
      if bool_decide (IPNet_String a = IPNet_String ipn) then mret true else
      _ ← (if bool_decide (fam = FAMILY_V4) || net_Contains a (net_IP ipn) || net_Contains ipn (net_IP a) then
             if forceAddress then deleteBridgeAddr br a
             else throw (ErrNew (quote (link_Name br) +:+ " already has an IP address different from " +:+ IPNet_String ipn))
           else mret tt);
      check_addrs br fam ipn forceAddress addrs'
  end.

Definition ensureBridgeAddr (br : Link) (fam : family) (ipn : IPNet) (forceAddress : bool) : M trace unit :=
  listed ← try_m (perform (AddrList br fam));
  addrs ← lift (match listed with
                | inl l => Ok l
                | inr e => if bool_decide (e = ENOENT) then Ok []
                           else Err (ErrWrap "could not get list of IP addresses" e)
                end);
  found ← check_addrs br fam ipn forceAddress addrs;
  if (found : bool) then mret tt else
  _ ← wrapped ("could not add IP address to " +:+ quote (link_Name br)) (perform (AddrAdd br ipn));
  wrapped "could not set bridge's mac" (perform (LinkSetHardwareAddr br (link_HardwareAddr br))).

Definition disableIPV6DAD (ifName : string) : M trace unit :=
  enh ← try_m (perform (ReadFile ("/proc/sys/net/ipv6/conf/" +:+ ifName +:+ "/enhanced_dad")));
  match enh with
  | inl text => if bool_decide (text = "1" +:+ nl) then mret tt
                else perform (WriteFile ("/proc/sys/net/ipv6/conf/" +:+ ifName +:+ "/accept_dad") "0")
  | inr _ => perform (WriteFile ("/proc/sys/net/ipv6/conf/" +:+ ifName +:+ "/accept_dad") "0")
  end.

Definition enableIPForward (fam : family) : M trace unit :=
  match fam with FAMILY_V4 => perform EnableIP4Forward | FAMILY_V6 => perform EnableIP6Forward end.

(** ** Adding a pod *)

(** The closure that runs in the namespace once the addresses are known. *)
Definition configureContainer (n : NetNS) (args : CmdArgs) (netConf : NetConf) (res : Result) : M trace unit :=
  ns_Do n (
    contVeth ← perform (InterfaceByName (IfName args));
    _ ← (if existsb (fun ipc => bool_decide (ipc_Version ipc = "6") && (HairpinMode netConf || PromiscMode netConf))
              (IPs res)
         then disableIPV6DAD (IfName args) else mret tt);
    _ ← perform (ConfigureIface (IfName args) res);
    for_range (IPs res) (fun ipc =>
      if bool_decide (ipc_Version ipc = "4")
      then logged (perform (GratuitousArp (net_IP (ipc_Address ipc)) contVeth)) else mret tt)).

(** The gateway addresses of one family on the bridge. *)
Definition setGateways (netConf : NetConf) (g : gwInfo) : M trace unit :=
  match gw_family g with
  | None => mret tt
  | Some fam =>
      _ ← for_range (gws g) (fun gw =>
            br ← wrapped "failed to get bridge link" (bridgeByName (BridgeName netConf));
            wrapped "failed to set bridge addr" (ensureBridgeAddr br fam gw true));
      if bool_decide (gws g = []) then mret tt
      else wrapped "failed to enable forwarding" (enableIPForward fam)
  end.

Definition ip_Network (n : IPNet) : IPNet :=
  {| net_IP := or_nil (Mask (net_IP n) (net_Mask n)); net_Mask := net_Mask n |}.

Definition FormatComment (name id : string) : string := "name: " +:+ quote name +:+ " id: " +:+ quote id.

Definition setupMasq (args : CmdArgs) (netConf : NetConf) (res : Result) : M trace unit :=
  for_range (IPs res) (fun ipc =>
    perform (SetupIPMasq (ip_Network (ipc_Address ipc)) (FormatChainName (nc_Name netConf) (ContainerID args))
               (FormatComment (nc_Name netConf) (ContainerID args)))).

(** The part of [cmdAdd] that runs after the IPAM plugin has handed out an
    address. *)
Definition applyIpam (n : NetNS) (args : CmdArgs) (netConf : NetConf) (r : string) (res : Result)
  : M trace Result :=
  ipamResult ← perform (NewResultFromResult r);
  let res := {| CNIVersion := CNIVersion res; Interfaces := Interfaces res; IPs := IPs ipamResult;
                Routes := Routes ipamResult; res_DNS := res_DNS res |} in
  if bool_decide (IPs res = []) then throw (ErrNew "IPAM plugin returned missing IP config") else
  '(res, gwsV4, gwsV6) ← lift (calcGateways res netConf);
  _ ← wrapped "failed to configure container addresses" (configureContainer n args netConf res);
  _ ← (if IsGW netConf then for_range [gwsV4; gwsV6] (setGateways netConf) else mret tt);
  _ ← (if IPMasq netConf then setupMasq args netConf res else mret tt);
  mret res.

(** The end of [cmdAdd], up to [success = true]: the bridge's MAC address
    again, and the DNS settings. *)
Definition refetchBridge (netConf : NetConf) (res : Result) : M trace Result :=
  br ← bridgeByName (BridgeName netConf);
  let mac := HardwareAddr_String (link_HardwareAddr br) in
  mret {| CNIVersion := CNIVersion res;
          Interfaces := match Interfaces res with
                        | b :: rest => {| ci_Name := ci_Name b; ci_Mac := mac; ci_Sandbox := ci_Sandbox b |} :: rest
                        | [] => []
                        end;
          IPs := IPs res; Routes := Routes res; res_DNS := nc_DNS netConf |}.

(** The deferred release of the address; its errors are dropped. *)
Definition releaseIpam (netConf : NetConf) (args : CmdArgs) : M trace unit :=
  _ ← logged (perform (Setenv "CNI_COMMAND" "DEL"));
  _ ← logged (perform (IpamExecDel (IPAM_Type netConf) (StdinData args)));
  logged (perform (Setenv "CNI_COMMAND" "ADD")).

(** From the creation of the interface to the port: what happens before any
    address is asked for. *)
Definition connectPod (n : NetNS) (args : CmdArgs) (netConf : NetConf) : M trace (CniInterface * CniInterface) :=
  '(hostInterface, containerInterface) ← setupVeth n (IfName args);
  _ ← wrapped ("failed to override pod MAC address to " +:+ quote podMacAddr) (overrideMac n (IfName args));
  '(podNamespace, podName) ← getPodInfo;
  _ ← addPort (BridgeName netConf) (ci_Name hostInterface) (ci_Mac containerInterface) (Netns args)
        podNamespace podName;
  hostLink ← perform (LinkByName (ci_Name hostInterface));
  _ ← perform (LinkSetUp hostLink);
  mret (hostInterface, containerInterface).

(** The addresses of the pod, from the IPAM plugin when one is configured. *)
Definition addressPod (n : NetNS) (args : CmdArgs) (netConf : NetConf) (res : Result) : M trace Result :=
  if negb (bool_decide (IPAM_Type netConf = "")) then
    r ← perform (IpamExecAdd (IPAM_Type netConf) (StdinData args));
    on_failure (releaseIpam netConf args)
      (res ← applyIpam n args netConf r res; refetchBridge netConf res)
  else refetchBridge netConf res.

(** [cmdAdd] once the namespace is open. *)
Definition addPod (n : NetNS) (args : CmdArgs) (netConf : NetConf) (cniVersion : string)
    (bridge : CniInterface) : M trace unit :=
  '(hostInterface, containerInterface) ← connectPod n args netConf;
  res ← addressPod n args netConf
          {| CNIVersion := cniVersion; Interfaces := [bridge; hostInterface; containerInterface];
             IPs := []; Routes := []; res_DNS := no_dns |};
  perform (PrintResult res cniVersion).

Definition cmdAdd (args : CmdArgs) : M trace unit :=
  '(netConf, cniVersion) ← lift (loadNetConf (StdinData args));
  bridge ← wrapped "failed to setup bridge" getBridgeInterface;
  n ← wrapped ("failed to open netns " +:+ quote (Netns args)) (perform (GetNS (Netns args)));
  deferred (perform (CloseNS n)) (addPod n args netConf cniVersion bridge).

(** ** Removing a pod *)

(** The closure that runs in the namespace of the pod. *)
Definition deleteLink (ifName : string) : M trace (list IPNet) :=
  r ← try_m (perform (DelLinkByNameAddr ifName));
  lift (match r with
        | inl ipnets => Ok ipnets
        | inr e => if bool_decide (e = ErrLinkNotFound) then Ok [] else Err e
        end).

Definition teardownMasq (args : CmdArgs) (netConf : NetConf) (ipnets : list IPNet) : M trace unit :=
  for_range ipnets (fun ipn =>
    perform (TeardownIPMasq ipn (FormatChainName (nc_Name netConf) (ContainerID args))
               (FormatComment (nc_Name netConf) (ContainerID args)))).

Definition cmdDel (args : CmdArgs) : M trace unit :=
  '(netConf, _) ← lift (loadNetConf (StdinData args));
  '(podNamespace, podName) ← getPodInfo;
  _ ← (if negb (bool_decide (Netns args = "")) then
         portName ← findPort (BridgeName netConf) (Netns args) podNamespace podName;
         delPort (BridgeName netConf) portName
       else mret tt);
  _ ← (if negb (bool_decide (IPAM_Type netConf = "")) then
         perform (IpamExecDel (IPAM_Type netConf) (StdinData args))
       else mret tt);
  if bool_decide (Netns args = "") then mret tt else
  ipnets ← WithNetNSPath (Netns args) (deleteLink (IfName args));
  if negb (bool_decide (IPAM_Type netConf = "")) && IPMasq netConf
  then teardownMasq args netConf ipnets else mret tt.
End plugin.

(** ** The address is given back when the pod cannot be connected *)

(** Whether an address is held after an event. *)
Definition ipam_step (held : bool) (e : event) : bool :=
  match e with
  | Event c r =>
      (match c in call A return result A -> bool with
       | IpamExecAdd _ _ => fun r => is_ok r || held
       | IpamExecDel _ _ => fun _ => false
       | _ => fun _ => held
       end) r
  end.

Definition held (t : trace) : bool := foldl ipam_step false t.

(** The printing of the result failed. *)
Definition failed_print (e : event) : bool :=
  match e with
  | Event c r =>
      (match c in call A return result A -> bool with
       | PrintResult _ _ => fun r => negb (is_ok r)
       | _ => fun _ => false
       end) r
  end.

(** An event that does not change whether an address is held. *)
Definition quiet (e : event) : Prop := forall b, ipam_step b e = b.

Lemma held_quiet t u : Forall quiet u -> held (t ++ u) = held t.
Proof.
  unfold held. rewrite foldl_app. generalize (foldl ipam_step false t) as b. intros b Hu. revert b.
  induction Hu as [|e u He Hu IH]; intros b; [done|]. cbn. by rewrite He.
Qed.

(** A change of the OVS database: a command of ovs-vsctl that succeeded. *)
Definition ovs_write (e : event) : bool :=
  match e with
  | Event c r =>
      (match c in call A return result A -> bool with
       | CombinedOutput name _ _ => fun r => bool_decide (name = "ovs-vsctl") && is_ok r
       | _ => fun _ => false
       end) r
  end.

Definition no_ovs_write (e : event) : Prop := ovs_write e = false.

(** Neither of the two. *)
Definition calm (e : event) : Prop := quiet e /\ no_ovs_write e.

Lemma calm_quiet e : calm e -> quiet e.
Proof. by intros []. Qed.
Lemma calm_no_write e : calm e -> no_ovs_write e.
Proof. by intros []. Qed.

#[local] Hint Extern 1 (quiet _) => intros ?; reflexivity : emits.
#[local] Hint Extern 1 (no_ovs_write _) => reflexivity : emits.
#[local] Hint Extern 1 (calm _) => split; [intros ?; reflexivity|reflexivity] : emits.
#[local] Hint Resolve calm_quiet calm_no_write : emits.

Section cmdAdd.
Context `{HEnv : Env} (FormatChainName : string -> string -> string).

Lemma getBridgeInterface_calm : emits calm getBridgeInterface.
Proof. unfold getBridgeInterface, bridgeByName. auto 10 with emits. Qed.

Lemma setupVeth_calm n ifName : emits calm (setupVeth n ifName).
Proof. unfold setupVeth, ns_Do. auto 20 with emits. Qed.

Lemma overrideMac_calm n ifName : emits calm (overrideMac n ifName).
Proof. unfold overrideMac, ns_Do. auto 20 with emits. Qed.

Lemma getPodInfo_calm : emits calm getPodInfo.
Proof. unfold getPodInfo. auto 10 with emits. Qed.

Lemma addPort_quiet bridge port mac netns ns name : emits quiet (addPort bridge port mac netns ns name).
Proof. unfold addPort, exec_CombinedOutput, env_exec. auto 10 with emits. Qed.

Lemma connectPod_quiet n args netConf : emits quiet (connectPod n args netConf).
Proof.
  unfold connectPod.
  pose proof (fun n i => emits_weaken calm quiet _ calm_quiet (setupVeth_calm n i)).
  pose proof (fun n i => emits_weaken calm quiet _ calm_quiet (overrideMac_calm n i)).
  pose proof (emits_weaken calm quiet _ calm_quiet getPodInfo_calm).
  pose proof addPort_quiet. auto 20 with emits.
Qed.

Lemma check_addrs_calm br fam ipn force addrs : emits calm (check_addrs br fam ipn force addrs).
Proof.
  induction addrs as [|a addrs IH]; cbn [check_addrs]; unfold deleteBridgeAddr; auto 10 with emits.
Qed.

Lemma setGateways_calm netConf g : emits calm (setGateways netConf g).
Proof.
  pose proof check_addrs_calm.
  unfold setGateways, bridgeByName, ensureBridgeAddr, enableIPForward. auto 20 with emits.
Qed.

Lemma applyIpam_calm n args netConf r res : emits calm (applyIpam FormatChainName n args netConf r res).
Proof.
  pose proof setGateways_calm.
  unfold applyIpam, configureContainer, setupMasq, ns_Do, disableIPV6DAD. auto 30 with emits.
Qed.

Lemma refetchBridge_calm netConf res : emits calm (refetchBridge netConf res).
Proof. unfold refetchBridge, bridgeByName. auto 10 with emits. Qed.

(** Nothing after the port is added touches the OVS database. *)
Lemma addressPod_no_write n args netConf res :
  emits no_ovs_write (addressPod FormatChainName n args netConf res).
Proof.
  pose proof (fun r rs => emits_weaken calm no_ovs_write _ calm_no_write (applyIpam_calm n args netConf r rs)).
  pose proof (fun rs => emits_weaken calm no_ovs_write _ calm_no_write (refetchBridge_calm netConf rs)).
  unfold addressPod, releaseIpam. auto 20 with emits.
Qed.

(** A computation that leaves the address as it is: its outcome, and that. *)
Lemma quiet_run {A} (m : M trace A) t r t' :
  emits quiet m -> m t = (r, t') -> held t' = held t.
Proof. intros Hm Hr. destruct (emits_run quiet m t r t' Hm Hr) as (u & -> & Hu). by apply held_quiet. Qed.

Lemma held_snoc t e : held (t ++ [e]) = ipam_step (held t) e.
Proof. unfold held. by rewrite foldl_app. Qed.

Lemma releaseIpam_held `{!CallsReturn} netConf args t :
  held (releaseIpam netConf args t).2 = false.
Proof.
  unfold releaseIpam, logged, perform, mbind, M_bind.
  repeat match goal with |- context [answer ?t ?A ?c] =>
    let H := fresh "H" in pose proof (calls_return t A c) as H; destruct (answer t A c); [| |done] end;
    cbn [snd]; rewrite !held_snoc; reflexivity.
Qed.

(** Asking for an address and using it: held exactly when all of it succeeds,
    if an IPAM plugin is configured. *)
Lemma addressPod_held `{!CallsReturn} n args netConf res t r t' :
  held t = false -> addressPod FormatChainName n args netConf res t = (r, t') ->
  held t' = negb (bool_decide (IPAM_Type netConf = "")) && is_ok r.
Proof.
  intros Ht. unfold addressPod. case_bool_decide as Hty; cbn [negb andb].
  { intros Hr. by rewrite (quiet_run _ _ _ _ (emits_weaken _ _ _ calm_quiet (refetchBridge_calm netConf res)) Hr). }
  unfold mbind at 1, M_bind at 1, perform at 1. set (e := Event _ _).
  destruct (answer t string _) as [x|err|] eqn:Ha.
  2:{ intros [= <- <-]. subst e. by rewrite held_snoc, Ht. }
  2:{ by destruct (calls_return t _ _ Ha). }
  assert (He : held (t ++ [e]) = true) by (subst e; by rewrite held_snoc).
  set (body := res ← _; _). assert (Hq : emits quiet body).
  { eapply emits_weaken, emits_bind; [apply calm_quiet|apply applyIpam_calm|intros; apply refetchBridge_calm]. }
  unfold on_failure. destruct (body (t ++ [e])) as [rb t1] eqn:Hb.
  pose proof (quiet_run body _ _ _ Hq Hb) as Hheld.
  pose proof (releaseIpam_held netConf args t1) as Hrel. unfold deferred, lift.
  destruct rb; [intros [= <- <-]; by rewrite Hheld| |];
    destruct (releaseIpam netConf args t1) as [rc t2]; intros [= <- <-]; by destruct rc.
Qed.

(** A step that leaves the address alone: it fails with nothing held, or the
    rest runs with nothing held. *)
Lemma bind_quiet {A B} (m : M trace A) (k : A -> M trace B) t r t' :
  emits quiet m -> held t = false -> (m ≫= k) t = (r, t') ->
  (is_ok r = false /\ held t' = false) \/
  exists a t1, m t = (Ok a, t1) /\ held t1 = false /\ k a t1 = (r, t').
Proof.
  intros Hm Ht Hr. unfold mbind, M_bind in Hr. destruct (m t) as [rm t1] eqn:Hmt.
  pose proof (quiet_run m t rm t1 Hm Hmt) as Hq.
  destruct rm as [a|e|]; [right; exists a, t1; split; [done|split; [congruence|done]]| |];
    injection Hr as <- <-; left; split; [done|congruence|done|congruence].
Qed.

(** The pod's address is not leaked.  Whatever any call answers, when
    cmdAdd fails no address is left with the IPAM plugin, unless the only thing
    that failed was printing the result; when it succeeds, one is held exactly
    when the configuration names an IPAM plugin. *)
Theorem cmdAdd_releases `{!CallsReturn} args t r t' :
  held t = false -> cmdAdd FormatChainName args t = (r, t') ->
  (is_ok r = true -> exists n v, loadNetConf (StdinData args) = Ok (n, v) /\
     held t' = negb (bool_decide (IPAM_Type n = ""))) /\
  (is_ok r = false -> held t' = true ->
     exists t1 res v err n c, t' = t1 ++ [Event (PrintResult res v) (Err err); Event (CloseNS n) c]).
Proof.
  intros Ht Hrun. unfold cmdAdd in Hrun.
  apply bind_quiet in Hrun; [|auto with emits|done].
  destruct Hrun as [[-> ->]|([netConf v] & t1 & Hconf & Ht1 & Hrun)]; [done|].
  apply bind_quiet in Hrun; [|apply emits_wrapped, (emits_weaken _ _ _ calm_quiet getBridgeInterface_calm)|done].
  destruct Hrun as [[-> ->]|(b & t2 & _ & Ht2 & Hrun)]; [done|].
  apply bind_quiet in Hrun; [|auto with emits|done].
  destruct Hrun as [[-> ->]|(n & t3 & _ & Ht3 & Hrun)]; [done|].
  apply lift_Ok_inv in Hconf as [Hconf _].
  apply deferred_perform in Hrun as (t4 & c & Hrun & ->). rewrite held_snoc. cbn [ipam_step].
  apply bind_quiet in Hrun; [|apply connectPod_quiet|done].
  destruct Hrun as [[-> ->]|([hi ci] & t5 & _ & Ht5 & Hrun)]; [done|].
  unfold mbind, M_bind in Hrun. destruct (addressPod _ _ _ _ _ t5) as [ra t6] eqn:Hra in Hrun.
  apply addressPod_held in Hra; [|done].
  destruct ra as [res|e|]; [|injection Hrun as <- <-; by rewrite Hra, andb_false_r..].
  rewrite andb_true_r in Hra. unfold perform in Hrun. injection Hrun as <- <-.
  rewrite held_snoc. cbn [ipam_step]. rewrite Hra. split.
  - intros _. by exists netConf, v.
  - pose proof (calls_return t6 _ (PrintResult res v)) as Hp.
    destruct (answer t6 unit _) as [x|e|]; [done| |done]. intros _ _.
    exists t6, res, v, e, n, c. by rewrite <- app_assoc.
Qed.

(** ** What a successful run has done *)

(** The bytes of [podMacAddr]. *)
Definition pod_mac_bytes : list Z := [170; 187; 204; 221; 238; 255]%Z.

(** The command that registers the pod's interface. *)
Definition register (args : CmdArgs) (netConf : NetConf) (a : string) (host cont : Interface) : call string :=
  CombinedOutput "ovs-vsctl"
    (addPort_args (BridgeName netConf) (link_Name host) (HardwareAddr_String (link_HardwareAddr cont))
       (Netns args) (pod_info a).1 (pod_info a).2) "".

Lemma ns_Do_Ok_inv {A} n (m : M trace A) t r t' :
  ns_Do n m t = (Ok r, t') ->
  exists t1 c, m (t ++ [Event (EnterNS n) (Ok tt)]) = (Ok r, t1) /\ t' = t1 ++ [Event (LeaveNS n) c].
Proof.
  unfold ns_Do. intros H. run_inv. apply perform_Ok_inv in Hm as [Ha ->]. destruct v.
  apply deferred_Ok_inv in H as (t1 & Hm & <-). exists t1. by eexists.
Qed.

Lemma setupVeth_Ok_inv n ifName t h c t' :
  setupVeth n ifName t = (Ok (h, c), t') ->
  exists host cont u, t' = t ++ u /\ Forall calm u /\
    In (Event (SetupVeth ifName 1500) (Ok (host, cont))) u /\
    ci_Name h = link_Name host /\ ci_Mac c = HardwareAddr_String (link_HardwareAddr cont).
Proof.
  intros H. pose proof (emits_run calm _ _ _ _ (setupVeth_calm n ifName) H) as Hq.
  unfold setupVeth in H. run_inv. destruct v as [host cont]. run_inv.
  apply ns_Do_Ok_inv in Hm as (t1 & x & Hv & ->).
  apply perform_Ok_inv in Hv as [_ ->], Hm0 as [_ ->].
  destruct Hq as (u & He & Hu). exists host, cont, u. split; [done|]. split; [done|].
  rewrite <- !app_assoc in He. apply app_inv_head in He as <-. rewrite !in_app_iff. cbn. tauto.
Qed.

Lemma overrideMac_Ok_inv n ifName t t' :
  overrideMac n ifName t = (Ok tt, t') ->
  exists link u, t' = t ++ u /\ Forall calm u /\
    In (Event (LinkByName ifName) (Ok link)) u /\
    In (Event (LinkSetHardwareAddr link pod_mac_bytes) (Ok tt)) u.
Proof.
  intros H. pose proof (emits_run calm _ _ _ _ (overrideMac_calm n ifName) H) as Hq.
  unfold overrideMac in H. apply ns_Do_Ok_inv in H as (t1 & x & H & ->). run_inv.
  apply perform_Ok_inv in Hm as [_ ->], H as [_ ->].
  assert (v0 = pod_mac_bytes) as -> by (cbv in Hm0; by injection Hm0 as <-).
  destruct Hq as (u & He & Hu). exists v, u. split; [done|]. split; [done|].
  rewrite <- !app_assoc in He. apply app_inv_head in He as <-. rewrite !in_app_iff. cbn. tauto.
Qed.

Lemma getPodInfo_Ok_inv t i t' :
  getPodInfo t = (Ok i, t') ->
  exists a, i = pod_info a /\ answer t _ (Getenv "CNI_ARGS") = Ok a /\ t' = t ++ [Event (Getenv "CNI_ARGS") (Ok a)].
Proof.
  unfold getPodInfo. intros H. run_inv. apply perform_Ok_inv in Hm as [Ha ->].
  case_bool_decide; [done|]. run_inv. by exists v.
Qed.

Lemma addPort_Ok_inv bridge port mac netns ns name t t' :
  addPort bridge port mac netns ns name t = (Ok tt, t') ->
  let c := CombinedOutput "ovs-vsctl" (addPort_args bridge port mac netns ns name) "" in
  exists out, answer t _ c = Ok out /\ t' = t ++ [Event c (Ok out)].
Proof. unfold addPort. intros H. run_inv. apply perform_Ok_inv in Hm as [Hadd ->]. by exists v. Qed.

(** The port is registered once, for the interface that was created, with the
    address it had before the override; nothing else writes to the OVS
    database. *)
Lemma connectPod_Ok_inv n args netConf t h c t' :
  connectPod n args netConf t = (Ok (h, c), t') ->
  exists a host cont link out u1 u2,
    answer (t ++ u1) _ (register args netConf a host cont) = Ok out /\
    t' = t ++ u1 ++ [Event (register args netConf a host cont) (Ok out)] ++ u2 /\
    Forall calm u1 /\ Forall calm u2 /\
    (exists t1, answer t1 _ (Getenv "CNI_ARGS") = Ok a) /\
    In (Event (Getenv "CNI_ARGS") (Ok a)) u1 /\
    In (Event (SetupVeth (IfName args) 1500) (Ok (host, cont))) u1 /\
    In (Event (LinkSetHardwareAddr link pod_mac_bytes) (Ok tt)) u1.
Proof.
  unfold connectPod. intros H. run_inv. destruct v as [hi ci]. run_inv. destruct v as [], v0 as [ns name]. run_inv.
  apply setupVeth_Ok_inv in Hm as (host & cont & w1 & -> & Hw1 & Hveth & Hhi & Hci).
  apply overrideMac_Ok_inv in Hm0 as (link & w2 & -> & Hw2 & _ & Hmac).
  apply getPodInfo_Ok_inv in Hm1 as (a & Hi & Ha & ->).
  destruct v. apply addPort_Ok_inv in Hm2 as (out & Hadd & ->).
  apply perform_Ok_inv in Hm3 as [_ ->], Hm4 as [_ ->].
  assert (Hreg : register args netConf a host cont = CombinedOutput "ovs-vsctl"
    (addPort_args (BridgeName netConf) (ci_Name hi) (ci_Mac ci) (Netns args) ns name) "").
  { unfold register. by rewrite Hhi, Hci, <- Hi. }
  exists a, host, cont, link, out, (w1 ++ w2 ++ [Event (Getenv "CNI_ARGS") (Ok a)]),
    [Event (LinkByName (ci_Name hi)) (Ok v0); Event (LinkSetUp v0) (Ok v1)].
  rewrite Hreg, !app_assoc. split; [done|]. split; [by rewrite <- !app_assoc|].
  split; [rewrite !Forall_app; repeat split; try done; by apply Forall_singleton; split; [intros ?|]|].
  split; [repeat constructor|]. split; [by eexists|].
  rewrite !in_app_iff in *. cbn. tauto.
Qed.

(** What a successful run did, with the rest of the trace around the
    registration. *)
Definition registered args t t' (netConf : NetConf) a host cont link out u1 u2 : Prop :=
  t' = t ++ u1 ++ [Event (register args netConf a host cont) (Ok out)] ++ u2 /\
  answer (t ++ u1) _ (register args netConf a host cont) = Ok out /\
  Forall no_ovs_write u1 /\ Forall no_ovs_write u2 /\
  (exists t1, answer t1 _ (Getenv "CNI_ARGS") = Ok a) /\
  In (Event (Getenv "CNI_ARGS") (Ok a)) u1 /\
  In (Event (SetupVeth (IfName args) 1500) (Ok (host, cont))) u1 /\
  In (Event (LinkSetHardwareAddr link pod_mac_bytes) (Ok tt)) u1.

Lemma cmdAdd_Ok_inv args t t' :
  cmdAdd FormatChainName args t = (Ok tt, t') ->
  exists netConf v a host cont link out u1 u2,
    loadNetConf (StdinData args) = Ok (netConf, v) /\
    registered args t t' netConf a host cont link out u1 u2.
Proof.
  unfold cmdAdd. intros H. run_inv. destruct v as [netConf v]. run_inv.
  destruct (emits_run calm _ _ _ _ getBridgeInterface_calm Hm0) as (w1 & -> & Hw1).
  apply perform_Ok_inv in Hm1 as [_ ->].
  apply deferred_Ok_inv in H as (t1 & H & <-). unfold addPod in H. run_inv. destruct v2 as [hi ci]. run_inv.
  destruct (emits_run _ _ _ _ _ (addressPod_no_write _ _ _ _) Hm2) as (w2 & -> & Hw2).
  apply perform_Ok_inv in H as [_ ->].
  apply connectPod_Ok_inv in Hm1 as (a & host & cont & link & out & u1 & u2 & Hreg & -> & Hu1 & Hu2 & Ha & Henv & Hveth & Hmac).
  rewrite perform_trace. set (close := answer _ _ (CloseNS v1)).
  exists netConf, v, a, host, cont, link, out, (w1 ++ [Event (GetNS (Netns args)) (Ok v1)] ++ u1),
    (u2 ++ w2 ++ [Event (PrintResult v2 v) (Ok tt); Event (CloseNS v1) close]).
  split; [done|]. split; [rewrite <- !app_assoc; reflexivity|].
  rewrite !app_assoc in *. split; [done|].
  assert (Hcalm : forall u, Forall calm u -> Forall no_ovs_write u).
  { intros u Hu. exact (Forall_impl _ _ _ Hu calm_no_write). }
  split; [rewrite !Forall_app; repeat split; auto; by apply Forall_singleton|].
  split; [rewrite !Forall_app; repeat split; auto; by repeat constructor|].
  split; [done|]. rewrite !in_app_iff. tauto.
Qed.

End cmdAdd.

(** ** Witnesses *)

Definition demo_chain (name id : string) : string := "CNI-" +:+ name.
Definition demo_args : CmdArgs :=
  {| ContainerID := "c1"; Netns := "/var/run/netns/c1"; IfName := "eth0"; StdinData := cni_conf "10.244.1.0/24" |}.

(** A host whose IPAM plugin answers without an address: the run fails after
    the address was asked for. *)
Definition no_address_host : sim :=
  {| sim_getenv := sim_getenv good_host; sim_ipam := true; sim_print := true; sim_addresses := [];
     sim_ready := 0; sim_node := sim_node good_host; sim_vswitch := sim_vswitch good_host |}.

Lemma cmdAdd_releases_witness :
  held (@cmdAdd (sim_answer good_host) demo_chain demo_args []).2 = true /\
  held (@cmdAdd (sim_answer no_address_host) demo_chain demo_args []).2 = false.
Proof.
  split.
  - destruct (@cmdAdd_releases (sim_answer good_host) demo_chain (sim_returns good_host) demo_args []
      (Ok tt) (@cmdAdd (sim_answer good_host) demo_chain demo_args []).2) as [H _];
      [reflexivity|vm_compute; reflexivity|].
    destruct (H eq_refl) as (n & v & Hconf & ->). vm_compute in Hconf. injection Hconf as <- <-. reflexivity.
  - destruct (@cmdAdd_releases (sim_answer no_address_host) demo_chain (sim_returns no_address_host) demo_args []
      (Err (ErrNew "IPAM plugin returned missing IP config"))
      (@cmdAdd (sim_answer no_address_host) demo_chain demo_args []).2) as [_ H];
      [reflexivity|vm_compute; reflexivity|].
    vm_compute. reflexivity.
Defined.

