(* ===== verification/OvsDb.v ===== *)
(** * The port database

    What the CNI plugin writes to the OVS database, and what the daemon and the
    plugin itself read from it.  The class [OvsDb] states what the program
    relies on in ovs-vsctl: a database of ports with external ids that only
    successful commands change.  Against it: the daemon finds the port that
    [cmdAdd] registered, [cmdDel] removes one, and a repeated [cmdDel] fails
    before it releases the address. *)
From S2P Require Import Prelude GoStrings GoNet Exec Objects Json OvsSim Host PortCache HostSim NetConf Cni.

#[local] Hint Extern 1 (no_ovs_write _) => reflexivity : emits.
#[local] Hint Extern 1 (calm _) => split; [intros ?; reflexivity|reflexivity] : emits.
#[local] Hint Resolve calm_quiet calm_no_write : emits.

Definition pod_ids (netns ns name : string) : gmap string string :=
  {["netns" := normalizedNetNS netns; "k8s_pod_namespace" := ns; "k8s_pod_name" := name]}.

Definition of_pod (ns name : string) (p : db_port) : bool :=
  has_id "k8s_pod_namespace" ns p && has_id "k8s_pod_name" name p.

Definition of_pod_in (netns ns name : string) (p : db_port) : bool :=
  has_id "netns" (normalizedNetNS netns) p && of_pod ns name p.

(** What the program relies on in ovs-vsctl: a database of ports, which
    only successful commands change, and [find] prints one row per
    port that has the ids asked for. *)
Class OvsDb `{Env} := {
  db : trace -> list db_port;
  db_other t e : no_ovs_write e -> db (t ++ [e]) = db t;
  db_add t bridge port mac netns ns name out :
    let c := CombinedOutput "ovs-vsctl" (addPort_args bridge port mac netns ns name) "" in
    answer t _ c = Ok out ->
    db (t ++ [Event c (Ok out)]) = set_port port (pod_ids netns ns name) (db t);
  db_del t bridge port out :
    let c := CombinedOutput "ovs-vsctl" ["--if-exists"; "del-port"; bridge; port] "" in
    answer t _ c = Ok out -> db (t ++ [Event c (Ok out)]) = del_port port (db t);
  db_find t ns name text :
    answer t _ (Output "ovs-vsctl" (PortCache.find_args ns name)) = Ok text ->
    exists names, unmarshal_db text = Ok ((fun n => [n]) <$> names) /\
      Permutation names (dp_name <$> List.filter (of_pod ns name) (db t));
  db_find_in t netns ns name text :
    answer t _ (Output "ovs-vsctl" (find_args netns ns name)) = Ok text ->
    exists names, unmarshal_db text = Ok ((fun n => [n]) <$> names) /\
      Permutation names (dp_name <$> List.filter (of_pod_in netns ns name) (db t))
}.

Lemma pod_ids_of_pod netns ns name q rest :
  of_pod_in netns ns name {| dp_name := q; dp_ids := pod_ids netns ns name ∪ rest |} = true.
Proof.
  unfold of_pod_in, of_pod, has_id, pod_ids. cbn [dp_ids].
  rewrite !bool_decide_true; [done|..]; apply lookup_union_Some_l; by simplify_map_eq.
Qed.

Lemma of_pod_in_of_pod netns ns name p : of_pod_in netns ns name p = true -> of_pod ns name p = true.
Proof. unfold of_pod_in. by intros [_ ?]%andb_true_iff. Qed.

(** The only port of a pod is the one just set. *)
Lemma set_port_of_pod netns ns name port ports :
  List.filter (of_pod ns name) ports = [] ->
  dp_name <$> List.filter (of_pod ns name) (set_port port (pod_ids netns ns name) ports) = [port].
Proof.
  pose proof (fun q rest => of_pod_in_of_pod _ _ _ _ (pod_ids_of_pod netns ns name q rest)) as Hids.
  induction ports as [|p ports IH]; cbn [set_port List.filter].
  - intros _. specialize (Hids port ∅). rewrite (map_union_empty (pod_ids netns ns name)) in Hids.
    by rewrite Hids.
  - destruct (of_pod ns name p) eqn:Hp; [done|]. intros Hf.
    case_bool_decide; cbn [List.filter].
    + rewrite Hids, Hf. done.
    + rewrite Hp. by apply IH.
Qed.

Section database.
Context `{HEnv : Env} `{!OvsDb} (FormatChainName : string -> string -> string).

Lemma db_no_write u : forall t, Forall no_ovs_write u -> db (t ++ u) = db t.
Proof.
  induction u as [|e u IH]; intros t Hu; [by rewrite app_nil_r|].
  apply Forall_cons in Hu as [He Hu].
  replace (t ++ e :: u) with ((t ++ [e]) ++ u) by by rewrite <- app_assoc.
  by rewrite IH, db_other.
Qed.

(** The first row of a [find] whose only match is [port]. *)
Lemma first_cell_single port names :
  Permutation names [port] -> first_cell ((fun n => [n]) <$> names) = Ok port.
Proof. intros Hp. apply Permutation_sym, Permutation_length_1_inv in Hp as ->. done. Qed.


(** The port a lookup gives is one of the pod's, and the lookup changes
    nothing; without a port it fails. *)
Lemma findPort_run bridge netns ns name t r t' :
  findPort bridge netns ns name t = (r, t') ->
  exists x, t' = t ++ [Event (Output "ovs-vsctl" (find_args netns ns name)) x] /\
  (forall p, r = Ok p -> In p (dp_name <$> List.filter (of_pod_in netns ns name) (db t))) /\
  (List.filter (of_pod_in netns ns name) (db t) = [] -> is_ok r = false).
Proof.
  unfold findPort, wrapped, mbind, M_bind, exec_Output, env_exec, perform, lift.
  destruct (answer t string _) as [text|e|] eqn:Ha; cbn [wrap_err];
    [|intros [= <- <-]; by eexists..].
  destruct (db_find_in t netns ns name text Ha) as (names & -> & Hperm). intros [= <- <-].
  eexists. split; [done|]. destruct names as [|p names]; cbn [fmap list_fmap first_cell].
  { split; [by intros ? [=]|done]. }
  split.
  - intros q [= <-]. eapply Permutation_in; [exact Hperm|by left].
  - intros Hnone. rewrite Hnone in Hperm. by apply Permutation_sym, Permutation_nil in Hperm.
Qed.

Lemma delPort_Ok_inv bridge port t t' :
  delPort bridge port t = (Ok tt, t') ->
  exists u, t' = t ++ u /\ Forall quiet u /\ db t' = del_port port (db t).
Proof.
  unfold delPort. intros Hd. run_inv. apply perform_Ok_inv in Hm as [Hdel ->].
  eexists. split; [done|]. split; [by apply Forall_singleton; intros ?|]. by apply (db_del t bridge port).
Qed.

Lemma deleteLink_calm ifName : emits calm (deleteLink ifName).
Proof. unfold deleteLink. auto 10 with emits. Qed.

(** What follows the release of the address. *)
Lemma cmdDel_rest_no_write args netConf :
  emits no_ovs_write
    (if bool_decide (Netns args = "") then mret tt else
     ipnets ← WithNetNSPath (Netns args) (deleteLink (IfName args));
     if negb (bool_decide (IPAM_Type netConf = "")) && IPMasq netConf
     then teardownMasq FormatChainName args netConf ipnets else mret tt).
Proof.
  pose proof (emits_weaken calm no_ovs_write _ calm_no_write (deleteLink_calm (IfName args))).
  unfold WithNetNSPath, ns_Do, teardownMasq. auto 20 with emits.
Qed.

Lemma releaseAddress_Ok_inv args netConf t t' :
  (if negb (bool_decide (IPAM_Type netConf = "")) then
     perform (IpamExecDel (IPAM_Type netConf) (StdinData args))
   else mret tt) t = (Ok tt, t') ->
  exists u, t' = t ++ u /\ Forall no_ovs_write u /\
    (IPAM_Type netConf <> "" -> In (Event (IpamExecDel (IPAM_Type netConf) (StdinData args)) (Ok tt)) u).
Proof.
  case_bool_decide; cbn [negb]; intros Hr.
  - apply ret_Ok_inv in Hr as [_ ->]. exists []. by rewrite app_nil_r.
  - apply perform_Ok_inv in Hr as [_ ->]. eexists. split; [done|]. split; [by apply Forall_singleton|].
    intros _. by left.
Qed.

(** What a successful cmdDel has done.  For a pod with a namespace, the
    OVS database has lost exactly one port, one of those labelled with the
    pod and its namespace, and the configured IPAM plugin was asked to release
    the pod's address. *)
Theorem cmdDel_cleans args t t' :
  cmdDel FormatChainName args t = (Ok tt, t') -> Netns args <> "" ->
  exists netConf v a port u,
    loadNetConf (StdinData args) = Ok (netConf, v) /\ t' = t ++ u /\
    In (Event (Getenv "CNI_ARGS") (Ok a)) u /\
    In port (dp_name <$> List.filter (of_pod_in (Netns args) (pod_info a).1 (pod_info a).2) (db t)) /\
    db t' = del_port port (db t) /\
    (IPAM_Type netConf <> "" -> In (Event (IpamExecDel (IPAM_Type netConf) (StdinData args)) (Ok tt)) u).
Proof.
  unfold cmdDel. intros Hrun Hns. run_inv. destruct v as [netConf v]. run_inv. destruct v0 as [ns name]. run_inv.
  apply getPodInfo_Ok_inv in Hm0 as (a & Hi & _ & ->).
  destruct (emits_run _ _ _ _ _ (cmdDel_rest_no_write args netConf) Hrun) as (w & -> & Hw). clear Hrun.
  rewrite (bool_decide_false (Netns args = "")) in Hm1 by done. cbn [negb] in Hm1. run_inv.
  apply findPort_run in Hm0 as (x & -> & Hport & _). destruct v0.
  apply delPort_Ok_inv in Hm1 as (u & -> & _ & Hdb).
  rewrite db_no_write in Hport by (by apply Forall_singleton).
  rewrite (db_no_write [Event (Output _ _) _]), (db_no_write [Event (Getenv _) _]) in Hdb
    by (by apply Forall_singleton).
  destruct v1. apply releaseAddress_Ok_inv in Hm2 as (y & -> & Hy & Hrel).
  exists netConf, v, a, v2. eexists. split; [done|]. split; [rewrite <- !app_assoc; reflexivity|].
  rewrite <- Hi. split; [by left|]. split; [by apply Hport|].
  split; [by rewrite (db_no_write w), (db_no_write y)|]. intros Hty. rewrite !in_app_iff. specialize (Hrel Hty). tauto.
Qed.

(** A repeated cmdDel releases nothing.  Once the pod's port is gone,
    cmdDel fails before it reaches the IPAM plugin, so an address that an
    earlier cmdDel could not release stays held whatever is tried again. *)
Theorem cmdDel_retry_releases_nothing args t a netConf v :
  loadNetConf (StdinData args) = Ok (netConf, v) -> Netns args <> "" ->
  answer t _ (Getenv "CNI_ARGS") = Ok a ->
  List.filter (of_pod_in (Netns args) (pod_info a).1 (pod_info a).2) (db t) = [] ->
  let '(r, t') := cmdDel FormatChainName args t in is_ok r = false /\ held t' = held t.
Proof.
  intros Hconf Hns Ha Hnone. unfold cmdDel. rewrite Hconf.
  unfold mbind at 1, M_bind at 1, lift at 1. unfold getPodInfo, mbind at 1, M_bind at 1.
  unfold mbind at 1, M_bind at 1, perform at 1. rewrite Ha. case_bool_decide; [split; [done|apply held_snoc]|].
  cbn [mret M_ret]. destruct (pod_info a) as [ns name]. rewrite (bool_decide_false (Netns args = "")) by done.
  cbn [negb]. unfold mbind at 1, M_bind at 1. unfold mbind at 1, M_bind at 1.
  destruct (findPort _ _ _ _ _) as [rf tf] eqn:Hf. apply findPort_run in Hf as (x & -> & _ & Hfail).
  rewrite (db_no_write [_]) in Hfail by (by apply Forall_singleton).
  specialize (Hfail Hnone). destruct rf; [done| |]; (split; [done|by rewrite !held_snoc]).
Qed.
End database.

(** ** Witnesses *)

Lemma sim_db_step t e : sim_db (t ++ [e]) = sim_apply (sim_db t) e.
Proof. unfold sim_db. by rewrite foldl_app. Qed.

Lemma sim_find_rows p ports text : sim_find p ports = Ok text ->
  exists names, unmarshal_db text = Ok ((fun n => [n]) <$> names) /\
    Permutation names (dp_name <$> List.filter p ports).
Proof.
  unfold sim_find. case_bool_decide as Hrows; [|done]. intros [= <-]. by eexists.
Qed.

Lemma id_values netns ns name :
  id_value "netns" ("external-ids:netns=" +:+ netns) = netns /\
  id_value "k8s_pod_namespace" ("external-ids:k8s_pod_namespace=" +:+ ns) = ns /\
  id_value "k8s_pod_name" ("external-ids:k8s_pod_name=" +:+ name) = name.
Proof.
  unfold id_value. split; [exact (TrimPrefix_app "external-ids:netns=" netns)|].
  split; [exact (TrimPrefix_app "external-ids:k8s_pod_namespace=" ns)|].
  exact (TrimPrefix_app "external-ids:k8s_pod_name=" name).
Qed.

Lemma sim_output_find ns name ports :
  sim_output (PortCache.find_args ns name) ports = sim_find (of_pod ns name) ports.
Proof.
  destruct (id_values "" ns name) as (_ & Hns & Hname).
  unfold PortCache.find_args, sim_output. by rewrite Hns, Hname.
Qed.

Lemma sim_output_find_in netns ns name ports :
  sim_output (find_args netns ns name) ports = sim_find (of_pod_in netns ns name) ports.
Proof.
  destruct (id_values (normalizedNetNS netns) ns name) as (Hnetns & Hns & Hname).
  unfold find_args, sim_output. by rewrite Hnetns, Hns, Hname.
Qed.

Lemma sim_command_add bridge port mac netns ns name ports :
  sim_command (addPort_args bridge port mac netns ns name) ports = set_port port (pod_ids netns ns name) ports.
Proof.
  unfold addPort_args, sim_command, sim_ids, pod_ids.
  by destruct (id_values (normalizedNetNS netns) ns name) as (-> & -> & ->).
Qed.

(** The simulated host has a database in the sense of the class. *)
Lemma sim_db_other t e : no_ovs_write e -> sim_db (t ++ [e]) = sim_db t.
Proof. intros He. destruct e as [A c r]. rewrite sim_db_step. destruct c; try done. cbn in He |- *. by rewrite He. Qed.

Lemma sim_db_write t args out :
  sim_db (t ++ [Event (CombinedOutput "ovs-vsctl" args "") (Ok out)]) = sim_command args (sim_db t).
Proof. rewrite sim_db_step. cbn [sim_apply is_ok]. by rewrite bool_decide_true. Qed.

Lemma sim_answer_output s t args text :
  @answer (sim_answer s) t string (Output "ovs-vsctl" args) = Ok text -> sim_output args (sim_db t) = Ok text.
Proof. done. Qed.

Lemma sim_db_find s t ns name text :
  @answer (sim_answer s) t _ (Output "ovs-vsctl" (PortCache.find_args ns name)) = Ok text ->
  exists names, unmarshal_db text = Ok ((fun n => [n]) <$> names) /\
    Permutation names (dp_name <$> List.filter (of_pod ns name) (sim_db t)).
Proof. intros Ha%sim_answer_output. rewrite sim_output_find in Ha. by apply sim_find_rows in Ha. Qed.

Lemma sim_db_find_in s t netns ns name text :
  @answer (sim_answer s) t _ (Output "ovs-vsctl" (find_args netns ns name)) = Ok text ->
  exists names, unmarshal_db text = Ok ((fun n => [n]) <$> names) /\
    Permutation names (dp_name <$> List.filter (of_pod_in netns ns name) (sim_db t)).
Proof. intros Ha%sim_answer_output. rewrite sim_output_find_in in Ha. by apply sim_find_rows in Ha. Qed.

#[local] Instance sim_ovs_db s : @OvsDb (sim_answer s) := {|
  db := sim_db;
  db_other := sim_db_other;
  db_add t bridge port mac netns ns name out _ :=
    eq_trans (sim_db_write t _ out) (sim_command_add bridge port mac netns ns name (sim_db t));
  db_del t bridge port out _ := sim_db_write t ["--if-exists"; "del-port"; bridge; port] out;
  db_find := sim_db_find s;
  db_find_in := sim_db_find_in s
|}.

(** The trace of adding the pod. *)
Definition demo_added : trace := (@cmdAdd (sim_answer good_host) demo_chain demo_args []).2.

Lemma demo_adds : @cmdAdd (sim_answer good_host) demo_chain demo_args [] = (Ok tt, demo_added).
Proof. vm_compute. reflexivity. Qed.


Definition demo_cni_args : string := "IgnoreUnknown=1;K8S_POD_NAMESPACE=default;K8S_POD_NAME=web".

Lemma demo_env t : @answer (sim_answer good_host) t _ (Getenv "CNI_ARGS") = Ok demo_cni_args.
Proof. reflexivity. Qed.

Lemma demo_pod_info : pod_info demo_cni_args = ("default", "web").
Proof. vm_compute. reflexivity. Qed.

Lemma demo_query_ok :
  is_ok (@answer (sim_answer good_host) demo_added _ (Output "ovs-vsctl" (PortCache.find_args "default" "web"))) = true.
Proof. vm_compute. reflexivity. Qed.


(** The trace of removing it again. *)
Definition demo_removed : trace := (@cmdDel (sim_answer good_host) demo_chain demo_args demo_added).2.

Lemma demo_removes : @cmdDel (sim_answer good_host) demo_chain demo_args demo_added = (Ok tt, demo_removed).
Proof. vm_compute. reflexivity. Qed.

Lemma cmdDel_cleans_witness : exists a port u,
  demo_removed = demo_added ++ u /\ In (Event (Getenv "CNI_ARGS") (Ok a)) u /\
  @db (sim_answer good_host) (sim_ovs_db good_host) demo_removed =
    del_port port (@db (sim_answer good_host) (sim_ovs_db good_host) demo_added).
Proof.
  destruct (@cmdDel_cleans (sim_answer good_host) (sim_ovs_db good_host) demo_chain demo_args demo_added
    demo_removed demo_removes) as (n & v & a & port & u & _ & Ht & Ha & _ & Hdb & _); [discriminate|].
  exists a, port, u. exact (conj Ht (conj Ha Hdb)).
Defined.

Lemma demo_conf : exists netConf v, loadNetConf (StdinData demo_args) = Ok (netConf, v).
Proof. vm_compute. by do 2 eexists. Qed.

Lemma demo_removed_none :
  List.filter (of_pod_in (Netns demo_args) "default" "web") (sim_db demo_removed) = [].
Proof. vm_compute. reflexivity. Qed.

(** The run that deletes the pod a second time. *)
Definition demo_again : result unit * trace := @cmdDel (sim_answer good_host) demo_chain demo_args demo_removed.

Lemma cmdDel_retry_releases_nothing_witness :
  is_ok demo_again.1 = false /\ held demo_again.2 = held demo_removed.
Proof.
  destruct demo_conf as (n & v & Hconf).
  pose proof (@cmdDel_retry_releases_nothing (sim_answer good_host) (sim_ovs_db good_host) demo_chain demo_args
    demo_removed demo_cni_args n v Hconf) as Hretry.
  rewrite demo_pod_info in Hretry. unfold demo_again.
  destruct (@cmdDel (sim_answer good_host) demo_chain demo_args demo_removed) as [r t'].
  apply Hretry; [discriminate|exact (demo_env demo_removed)|exact demo_removed_none].
Defined.
