(* ===== verification/CniNet.v ===== *)
(** * Names, gateways and the bridge's address in the CNI plugin

    The pure parts of [cmd/k-vswitch-cni/plugin.go] and [ensureBridgeAddr]: the
    pod's name from CNI_ARGS, the gateways and default routes of the pod's
    addresses, and the gateway address of the bridge. *)
From S2P Require Import Prelude GoStrings GoNet Exec Objects Json OvsSim Host PortCache HostSim NetConf Cni.

(** ** CNI_ARGS *)

Lemma HasPrefix_Contains s p : HasPrefix s p = true -> Contains s p = true.
Proof. intros Hp. destruct s; cbn [Contains]; by rewrite Hp. Qed.

Lemma Contains_first c s sub : has_char c s = false -> Contains s (String c sub) = false.
Proof.
  induction s as [|d s IH]; [done|]. intros [Hd Hs]%orb_false_iff. cbn [Contains HasPrefix].
  rewrite bool_decide_false; [by apply IH|]. intros <-. by rewrite bool_decide_true in Hd.
Qed.

(** A name of Kubernetes: no upper-case letters. *)
Definition no_upper (s : string) : Prop := string_forall (fun c => negb (is_upper c)) s = true.

Lemma no_upper_K s : no_upper s -> has_char "K"%char s = false.
Proof.
  unfold no_upper. induction s as [|c s IH]; [done|]. intros [Hc Hs]%andb_true_iff. cbn [has_char].
  rewrite IH, orb_false_r by done. apply bool_decide_false. by intros ->.
Qed.

(** An argument that says nothing of the pod's name. *)
Definition neutral (arg : string) : Prop :=
  Contains arg "K8S_POD_NAMESPACE" = false /\ Contains arg "K8S_POD_NAME" = false.

Lemma podInfo_arg_namespace acc ns :
  podInfo_arg acc ("K8S_POD_NAMESPACE=" +:+ ns) = (ns, acc.2).
Proof.
  destruct acc. unfold podInfo_arg. rewrite HasPrefix_Contains by done.
  by rewrite (TrimPrefix_app "K8S_POD_NAMESPACE=").
Qed.

Lemma podInfo_arg_name acc name : no_upper name ->
  podInfo_arg acc ("K8S_POD_NAME=" +:+ name) = (acc.1, name).
Proof.
  intros Hn. destruct acc. unfold podInfo_arg.
  replace (Contains ("K8S_POD_NAME=" +:+ name) "K8S_POD_NAMESPACE") with false.
  - rewrite HasPrefix_Contains by done. by rewrite (TrimPrefix_app "K8S_POD_NAME=").
  - symmetry. str_cbn. by rewrite Contains_first by by apply no_upper_K.
Qed.

Lemma podInfo_arg_neutral acc arg : neutral arg -> podInfo_arg acc arg = acc.
Proof. intros [H1 H2]. destruct acc. unfold podInfo_arg. by rewrite H1, H2. Qed.

Lemma podInfo_fold ns name args : no_upper name -> forall acc,
  Forall (fun arg => arg = "K8S_POD_NAMESPACE=" +:+ ns \/ arg = "K8S_POD_NAME=" +:+ name \/ neutral arg) args ->
  foldl podInfo_arg acc args =
  (if bool_decide ("K8S_POD_NAMESPACE=" +:+ ns ∈ args) then ns else acc.1,
   if bool_decide ("K8S_POD_NAME=" +:+ name ∈ args) then name else acc.2).
Proof.
  intros Hn. induction args as [|arg args IH]; intros acc Hargs; [by destruct acc|].
  apply Forall_cons in Hargs as [Harg Hargs]. cbn [foldl]. rewrite IH by done.
  assert (Hmem : forall s, bool_decide (s ∈ arg :: args) = bool_decide (s = arg) || bool_decide (s ∈ args)).
  { intros s. rewrite <- bool_decide_or. apply bool_decide_ext, elem_of_cons. }
  assert (Hne : "K8S_POD_NAMESPACE=" +:+ ns <> "K8S_POD_NAME=" +:+ name).
  { intros He. vm_compute in He. discriminate He. }
  rewrite !Hmem. destruct Harg as [->|[->|Harg]].
  - rewrite podInfo_arg_namespace, (bool_decide_true (_ = _)) by done.
    rewrite (bool_decide_false (_ = _)) by congruence. cbn. by case_bool_decide.
  - rewrite podInfo_arg_name by done. rewrite (bool_decide_false (_ = _)) by done.
    rewrite (bool_decide_true (_ = _)) by done. cbn. by destruct (bool_decide ("K8S_POD_NAME=" +:+ name ∈ args)).
  - rewrite podInfo_arg_neutral by done.
    rewrite !(bool_decide_false (_ = arg)); [done|intros <-..].
    + destruct Harg as [_ Harg]. by rewrite HasPrefix_Contains in Harg.
    + destruct Harg as [Harg _]. by rewrite HasPrefix_Contains in Harg.
Qed.

(** The pod's name is read from CNI_ARGS.  In whatever order the
    arguments come, and whatever else they hold, the namespace and the name
    are those that follow K8S_POD_NAMESPACE= and K8S_POD_NAME=. *)
Theorem pod_info_spec args ns name :
  no_upper name ->
  "K8S_POD_NAMESPACE=" +:+ ns ∈ args -> "K8S_POD_NAME=" +:+ name ∈ args ->
  Forall (fun arg => has_char ";"%char arg = false /\
    (arg = "K8S_POD_NAMESPACE=" +:+ ns \/ arg = "K8S_POD_NAME=" +:+ name \/ neutral arg)) args ->
  pod_info (Join args ";") = (ns, name).
Proof.
  intros Hn Hns Hname Hargs. unfold pod_info. rewrite Split_Join.
  - rewrite (podInfo_fold ns name) by (done || by eapply Forall_impl; [exact Hargs|intros ? []]).
    by rewrite !bool_decide_true.
  - intros ->. by apply not_elem_of_nil in Hns.
  - eapply Forall_impl; [exact Hargs|]. by intros ? [].
Qed.

(** ** The bridge's address *)

Section bridge.
Context `{HEnv : Env}.

Definition deleted (br : Link) (a : IPNet) : event := Event (AddrDel br a) (Ok tt).

Lemma check_addrs_v4 br ipn addrs : forall t found t',
  check_addrs br FAMILY_V4 ipn true addrs t = (Ok found, t') ->
  exists pre post, addrs = pre ++ post /\
    Forall (fun a => IPNet_String a <> IPNet_String ipn) pre /\ t' = t ++ (deleted br <$> pre) /\
    found = negb (bool_decide (post = [])) /\ (forall a, head post = Some a -> IPNet_String a = IPNet_String ipn).
Proof.
  induction addrs as [|a addrs IH]; intros t found t'; cbn [check_addrs].
  - intros [-> ->]%ret_Ok_inv. exists [], []. cbn. rewrite app_nil_r.
    repeat split; try done.
  - case_bool_decide as Ha.
    + intros [-> ->]%ret_Ok_inv. exists [], (a :: addrs). cbn. rewrite app_nil_r.
      split; [done|]. split; [by constructor|]. do 2 (split; [done|]). by intros b [= <-].
    + rewrite (bool_decide_true (FAMILY_V4 = FAMILY_V4)) by done. cbn [orb].
      unfold deleteBridgeAddr. intros H. run_inv. destruct v. apply perform_Ok_inv in Hm as [_ ->].
      destruct (IH _ _ _ H) as (pre & post & -> & Hpre & -> & Hf & Hpost).
      exists (a :: pre), post. split; [done|]. split; [by constructor|].
      split; [by rewrite <- app_assoc|done].
Qed.

(** The gateway address of the bridge.  When ensureBridgeAddr succeeds
    with forceAddress for IPv4: the addresses listed before the wanted one were
    removed; if the wanted one was there nothing else was done (addresses
    listed after it stay), and if it was not, all were removed, it was added,
    and the bridge's own MAC address was fixed. *)
Theorem ensureBridgeAddr_v4 br ipn t t' :
  ensureBridgeAddr br FAMILY_V4 ipn true t = (Ok tt, t') ->
  exists listed pre post,
    answer t _ (AddrList br FAMILY_V4) = listed /\
    (match listed with Ok l => l | _ => [] end) = pre ++ post /\
    Forall (fun a => IPNet_String a <> IPNet_String ipn) pre /\
    (forall a, head post = Some a -> IPNet_String a = IPNet_String ipn) /\
    t' = t ++ [Event (AddrList br FAMILY_V4) listed] ++ (deleted br <$> pre) ++
         (if bool_decide (post = []) then
            [Event (AddrAdd br ipn) (Ok tt); Event (LinkSetHardwareAddr br (link_HardwareAddr br)) (Ok tt)]
          else []).
Proof.
  unfold ensureBridgeAddr. intros H. run_inv.
  unfold try_m, perform in Hm. set (listed := answer t _ _) in *.
  exists listed. assert (Hv : v0 = match listed with Ok l => l | _ => [] end /\
                              s = t ++ [Event (AddrList br FAMILY_V4) listed]).
  { destruct listed as [l|e|]; [injection Hm as <- <-|injection Hm as <- <-|done].
    - by injection Hm0 as <-.
    - case_bool_decide; [by injection Hm0 as <-|done]. }
  destruct Hv as [-> ->].
  destruct (check_addrs_v4 _ _ _ _ _ _ Hm1) as (pre & post & Hsplit & Hpre & -> & -> & Hpost).
  exists pre, post. do 4 (split; [done|]). revert H. case_bool_decide as Hp; cbn [negb]; intros H.
  - run_inv. apply perform_Ok_inv in Hm2 as [_ ->], H as [_ ->]. destruct v0. by rewrite <- !app_assoc.
  - apply ret_Ok_inv in H as [_ ->]. by rewrite app_nil_r, <- !app_assoc.
Qed.
End bridge.

(** ** Gateways and default routes *)

Definition is_v4 (ipc : IPConfig) : Prop := To4 (net_IP (ipc_Address ipc)) <> None.

(** The gateway of an address: the one the IPAM plugin gave, else, when the
    bridge is to be the gateway, the first address of the block. *)
Definition gateway_of (n : NetConf) (ipc : IPConfig) : IP :=
  if bool_decide (ipc_Gateway ipc = []) && IsGW n then calcGatewayIP (ipc_Address ipc) else ipc_Gateway ipc.

Definition completed (n : NetConf) (ipc : IPConfig) : IPConfig :=
  {| ipc_Version := ipc_Version ipc; ipc_Interface := Some 2%Z; ipc_Address := ipc_Address ipc;
     ipc_Gateway := gateway_of n ipc |}.

Definition default_v4 : IPNet := {| net_IP := IPv4zero; net_Mask := IPv4zero |}.

(** A route to everywhere that has a gateway. *)
Definition is_default (r : Route) : bool :=
  negb (bool_decide (rt_GW r = [])) && bool_decide (IPNet_String (rt_Dst r) = "0.0.0.0/0").

Lemma default_v4_String : IPNet_String default_v4 = "0.0.0.0/0".
Proof. vm_compute. reflexivity. Qed.

Lemma calcGateway_v4 n ipc routes g :
  calcGateway FAMILY_V4 IPv4zero n ipc routes g =
  let add := IsDefaultGW n && negb (defaultRouteFound g) in
  (completed n ipc,
   if add && negb (existsb is_default routes)
   then routes ++ [{| rt_Dst := default_v4; rt_GW := gateway_of n ipc |}] else routes,
   {| gws := if IsGW n then gws g ++ [{| net_IP := gateway_of n ipc; net_Mask := net_Mask (ipc_Address ipc) |}]
             else gws g;
      gw_family := Some FAMILY_V4; defaultRouteFound := defaultRouteFound g || add |}).
Proof.
  unfold calcGateway. fold default_v4. rewrite default_v4_String.
  replace (existsb is_default routes) with
    (existsb (fun r => negb (bool_decide (rt_GW r = []))
       && bool_decide ("0.0.0.0/0" = IPNet_String (rt_Dst r))) routes); [done|].
  induction routes as [|r routes IH]; [done|]. cbn [existsb]. rewrite IH. unfold is_default.
  do 2 f_equal. apply bool_decide_ext. by split.
Qed.

(** From the second address on no route is added. *)
Lemma calcGateways_loop_v4 n ips : forall routes g4 g6,
  Forall is_v4 ips -> IsDefaultGW n && negb (defaultRouteFound g4) = false ->
  exists g4', calcGateways_loop n ips routes g4 g6 = Ok (completed n <$> ips, routes, g4', g6) /\
    gws g4' = gws g4 ++ (if IsGW n then (fun ipc => {| net_IP := gateway_of n ipc; net_Mask := net_Mask (ipc_Address ipc) |}) <$> ips else []).
Proof.
  induction ips as [|ipc ips IH]; intros routes g4 g6 Hv4 Hadd.
  { exists g4. split; [done|]. by destruct (IsGW n); rewrite app_nil_r. }
  apply Forall_cons in Hv4 as [Hipc Hv4]. cbn [calcGateways_loop].
  destruct (To4 _) eqn:HTo4; [|done]. rewrite calcGateway_v4, Hadd. cbn [andb].
  set (g4s := {| gws := _ |}). destruct (IH routes g4s g6 Hv4) as (g4' & Hloop & Hgws).
  { subst g4s. cbn. by rewrite orb_false_r. }
  rewrite Hloop. cbn. exists g4'. split; [done|]. rewrite Hgws. subst g4s. cbn.
  destruct (IsGW n); [by rewrite <- app_assoc|done].
Qed.

(** Gateways of IPv4 addresses.  calcGateways does not fail; every
    address keeps its block and gets the container's interface and its
    gateway; one default route is added, through the gateway of the first
    address, exactly when the configuration asks for it and the IPAM plugin
    gave none; and the bridge gets the gateways only when it is configured as
    one. *)
Theorem calcGateways_v4 res n ipc ips :
  IPs res = ipc :: ips -> Forall is_v4 (ipc :: ips) ->
  exists g4, calcGateways res n =
    Ok ({| CNIVersion := CNIVersion res; Interfaces := Interfaces res; IPs := completed n <$> (ipc :: ips);
           Routes := Routes res ++ (if IsDefaultGW n && negb (existsb is_default (Routes res))
                                    then [{| rt_Dst := default_v4; rt_GW := gateway_of n ipc |}] else []);
           res_DNS := res_DNS res |}, g4, no_gws) /\
    gws g4 = (if IsGW n then
                (fun i => {| net_IP := gateway_of n i; net_Mask := net_Mask (ipc_Address i) |}) <$> (ipc :: ips)
              else []).
Proof.
  intros Hips Hv4. unfold calcGateways. rewrite Hips. cbn [calcGateways_loop].
  apply Forall_cons in Hv4 as [Hipc Hv4]. destruct (To4 _) eqn:HTo4; [|done].
  rewrite calcGateway_v4. cbn [no_gws defaultRouteFound negb gws app orb].
  set (routes := if _ && _ then _ else _). set (g := {| gws := _ |}).
  destruct (calcGateways_loop_v4 n ips routes g no_gws Hv4) as (g4 & Hloop & Hgws).
  { subst g. cbn. by destruct (IsDefaultGW n). }
  rewrite Hloop. cbn. exists g4. split.
  - do 4 f_equal. subst routes. rewrite andb_true_r. 
    destruct (IsDefaultGW n), (existsb is_default (Routes res)); cbn; by rewrite ?app_nil_r.
  - rewrite Hgws. subst g. cbn. by destruct (IsGW n).
Qed.

(** ** Witnesses *)

Lemma pod_info_spec_witness :
  pod_info (Join ["K8S_POD_NAME=web"; "IgnoreUnknown=1"; "K8S_POD_NAMESPACE=default"] ";") = ("default", "web").
Proof.
  apply pod_info_spec; [reflexivity|apply list_elem_of_In; right; right; left; reflexivity|
    apply list_elem_of_In; left; reflexivity|].
  repeat apply List.Forall_cons; [..|apply List.Forall_nil]; split; try reflexivity;
    [right; left; reflexivity|right; right; split; reflexivity|left; reflexivity].
Defined.

Definition demo_bridge : Link := sim_link "k-vswitch0".
Definition demo_gateway : IPNet := {| net_IP := [10; 244; 1; 1]%Z; net_Mask := [255; 255; 255; 0]%Z |}.

Lemma ensureBridgeAddr_v4_witness :
  exists listed pre post,
    @answer (sim_answer good_host) [] _ (AddrList demo_bridge FAMILY_V4) = listed /\
    (match listed with Ok l => l | _ => [] end) = pre ++ post /\
    (@ensureBridgeAddr (sim_answer good_host) demo_bridge FAMILY_V4 demo_gateway true []).2 =
      [Event (AddrList demo_bridge FAMILY_V4) listed] ++ (deleted demo_bridge <$> pre) ++
      (if bool_decide (post = []) then
         [Event (AddrAdd demo_bridge demo_gateway) (Ok tt);
          Event (LinkSetHardwareAddr demo_bridge (link_HardwareAddr demo_bridge)) (Ok tt)]
       else []).
Proof.
  destruct (@ensureBridgeAddr_v4 (sim_answer good_host) demo_bridge demo_gateway []
    (@ensureBridgeAddr (sim_answer good_host) demo_bridge FAMILY_V4 demo_gateway true []).2)
    as (listed & pre & post & Hl & Hs & _ & _ & Ht); [vm_compute; reflexivity|].
  exists listed, pre, post. exact (conj Hl (conj Hs Ht)).
Defined.

(** A configuration that makes the bridge the gateway, and an address without
    a gateway. *)
Definition demo_netconf (gw default_gw : bool) : NetConf :=
  {| nc_CNIVersion := "0.3.1"; nc_Name := "net"; nc_Type := "k-vswitch-cni"; nc_Capabilities := ∅;
     IPAM_Type := "host-local"; nc_DNS := no_dns; BridgeName := "k-vswitch0"; IsGW := gw; IsDefaultGW := default_gw;
     ForceAddress := false; IPMasq := false; MTU := 0; HairpinMode := false; PromiscMode := false |}.

Definition demo_ipc : IPConfig :=
  {| ipc_Version := "4"; ipc_Interface := None;
     ipc_Address := {| net_IP := [10; 244; 1; 5]%Z; net_Mask := [255; 255; 255; 0]%Z |}; ipc_Gateway := [] |}.

Lemma calcGateways_v4_witness :
  exists res g4, calcGateways (sim_ipam_result [demo_ipc]) (demo_netconf true true) = Ok (res, g4, no_gws) /\
    gws g4 = [demo_gateway] /\ Routes res = [{| rt_Dst := default_v4; rt_GW := [10; 244; 1; 1]%Z |}].
Proof.
  destruct (calcGateways_v4 (sim_ipam_result [demo_ipc]) (demo_netconf true true) demo_ipc [] eq_refl)
    as (g4 & Hres & Hgws).
  { apply List.Forall_cons; [discriminate|apply List.Forall_nil]. }
  eexists _, g4. split; [exact Hres|]. split; [rewrite Hgws; vm_compute; reflexivity|vm_compute; reflexivity].
Defined.
