(* ===== verification/CniResult.v ===== *)
(** * The result the CNI plugin prints

    A well-formedness invariant of [cmdAdd]'s result ([result_wf]): the three
    interfaces in their order, and every address at the index of the
    container's interface, in a known family.  [calcGateways], [applyIpam] and
    [refetchBridge] keep it, and whatever the plugin prints has it. *)
From S2P Require Import Prelude GoStrings GoNet Exec Objects Json OvsSim Host PortCache HostSim NetConf Cni CniNet.

(** An address of the result: it belongs to interface 2, and is an IPv4 or an
    IPv6 address. *)
Definition ip_wf (ipc : IPConfig) : Prop :=
  ipc_Interface ipc = Some 2%Z /\ (is_v4 ipc \/ length (net_IP (ipc_Address ipc)) = IPv6len).

(** The bridge, the host's end and the container's end, the last one in the
    namespace of the pod. *)
Definition interfaces_wf (n : NetNS) (res : Result) : Prop :=
  exists bridge host cont, Interfaces res = [bridge; host; cont] /\
    ci_Sandbox bridge = "" /\ ci_Sandbox host = "" /\ ci_Sandbox cont = ns_Path n.

Definition result_wf (n : NetNS) (res : Result) : Prop := interfaces_wf n res /\ Forall ip_wf (IPs res).

Lemma calcGateways_loop_wf netConf ips : forall routes g4 g6 l rs h4 h6,
  calcGateways_loop netConf ips routes g4 g6 = Ok (l, rs, h4, h6) -> Forall ip_wf l.
Proof.
  induction ips as [|ipc ips IH]; intros routes g4 g6 l rs h4 h6; cbn [calcGateways_loop].
  { intros [= <- _ _ _]. constructor. }
  destruct (To4 _) as [ip4|] eqn:H4.
  - unfold calcGateway. destruct (calcGateways_loop _ _ _ _ _) as [[[[l' ?] ?] ?]|e|] eqn:Hl; [|done..].
    intros [= <- _ _ _]. constructor; [|by eapply IH]. split; [done|]. left. unfold is_v4. cbn. by rewrite H4.
  - destruct (length _ =? IPv6len)%nat eqn:H6; [|done]. apply Nat.eqb_eq in H6. unfold calcGateway.
    destruct (calcGateways_loop _ _ _ _ _) as [[[[l' ?] ?] ?]|e|] eqn:Hl; [|done..].
    intros [= <- _ _ _]. constructor; [|by eapply IH]. split; [done|]. by right.
Qed.

Lemma calcGateways_wf n netConf res res' g4 g6 :
  interfaces_wf n res -> calcGateways res netConf = Ok (res', g4, g6) -> result_wf n res'.
Proof.
  intros Hi. unfold calcGateways. destruct (calcGateways_loop _ _ _ _ _) as [[[[l rs] h4] h6]|e|] eqn:Hl; [|done..].
  intros [= <- _ _]. split; [exact Hi|]. by eapply calcGateways_loop_wf.
Qed.

(** An event that prints nothing. *)
Definition prints_nothing (e : event) : Prop :=
  match e with
  | Event c _ => match c with PrintResult _ _ => False | _ => True end
  end.

#[local] Hint Extern 1 (prints_nothing _) => exact I : emits.

Section result.
Context `{HEnv : Env} (FormatChainName : string -> string -> string).

Lemma applyIpam_wf n args netConf r res t res' t' :
  interfaces_wf n res -> applyIpam FormatChainName n args netConf r res t = (Ok res', t') -> result_wf n res'.
Proof.
  intros Hi H. unfold applyIpam in H. run_inv. case_bool_decide; [done|]. run_inv.
  destruct v0 as [[res1 g4] g6]. run_inv. eapply calcGateways_wf; [|exact Hm0]. exact Hi.
Qed.

Lemma refetchBridge_wf n netConf res t res' t' :
  result_wf n res -> refetchBridge netConf res t = (Ok res', t') -> result_wf n res'.
Proof.
  intros [(b & h & c & Hi & Hb & Hh & Hc) Hips] H. unfold refetchBridge in H. run_inv.
  split; [|exact Hips]. cbn [Interfaces]. rewrite Hi. by eexists _, h, c.
Qed.

Lemma addressPod_wf n args netConf res t res' t' :
  result_wf n res -> addressPod FormatChainName n args netConf res t = (Ok res', t') -> result_wf n res'.
Proof.
  intros Hres H. unfold addressPod in H. case_match; [|by eapply refetchBridge_wf].
  run_inv. apply on_failure_Ok_inv in H. run_inv.
  eapply refetchBridge_wf; [|exact H]. eapply applyIpam_wf; [apply Hres|exact Hm0].
Qed.

Lemma getBridgeInterface_Ok_inv t b t' : getBridgeInterface t = (Ok b, t') -> ci_Sandbox b = "".
Proof. intros H. unfold getBridgeInterface in H. by run_inv. Qed.

Lemma setupVeth_sandboxes n ifName t h c t' :
  setupVeth n ifName t = (Ok (h, c), t') -> ci_Sandbox h = "" /\ ci_Sandbox c = ns_Path n.
Proof. intros H. unfold setupVeth in H. run_inv. destruct v. by run_inv. Qed.

Lemma connectPod_sandboxes n args netConf t h c t' :
  connectPod n args netConf t = (Ok (h, c), t') -> ci_Sandbox h = "" /\ ci_Sandbox c = ns_Path n.
Proof.
  intros H. unfold connectPod in H. run_inv. destruct v as [hi ci]. run_inv. destruct v0. run_inv.
  by eapply setupVeth_sandboxes.
Qed.

Lemma getBridgeInterface_silent : emits prints_nothing getBridgeInterface.
Proof. unfold getBridgeInterface, bridgeByName. auto 10 with emits. Qed.

(** Only the last step of [addPod] prints. *)
Lemma connectPod_silent n args netConf : emits prints_nothing (connectPod n args netConf).
Proof.
  unfold connectPod, setupVeth, overrideMac, getPodInfo, addPort, ns_Do, exec_CombinedOutput, env_exec.
  auto 30 with emits.
Qed.

Lemma check_addrs_silent br fam ipn force addrs : emits prints_nothing (check_addrs br fam ipn force addrs).
Proof.
  induction addrs as [|a addrs IH]; cbn [check_addrs]; unfold deleteBridgeAddr; auto 10 with emits.
Qed.

Lemma addressPod_silent n args netConf res :
  emits prints_nothing (addressPod FormatChainName n args netConf res).
Proof.
  pose proof check_addrs_silent.
  assert (forall g, emits prints_nothing (setGateways netConf g)).
  { intros g. unfold setGateways, bridgeByName, ensureBridgeAddr, enableIPForward. auto 20 with emits. }
  assert (forall r rs, emits prints_nothing (applyIpam FormatChainName n args netConf r rs)).
  { intros. unfold applyIpam, configureContainer, setupMasq, ns_Do, disableIPV6DAD. auto 30 with emits. }
  assert (forall rs, emits prints_nothing (refetchBridge netConf rs)).
  { intros. unfold refetchBridge, bridgeByName. auto 10 with emits. }
  unfold addressPod, releaseIpam. auto 20 with emits.
Qed.

Lemma silent_In u res v x : Forall prints_nothing u -> ~ In (Event (PrintResult res v) x) u.
Proof. intros Hu Hin. rewrite List.Forall_forall in Hu. by destruct (Hu _ Hin). Qed.

(** Whatever [addPod] prints is well formed. *)
Lemma addPod_prints n args netConf version bridge t r t' :
  ci_Sandbox bridge = "" -> addPod FormatChainName n args netConf version bridge t = (r, t') ->
  exists u, t' = t ++ u /\
    forall res v x, In (Event (PrintResult res v) x) u -> result_wf n res /\ v = version.
Proof.
  intros Hb. assert (Hsilent : forall (u : trace) P, Forall prints_nothing u ->
    forall res v x, In (Event (PrintResult res v) x) u -> P).
  { intros u P Hu res v x Hin. rewrite List.Forall_forall in Hu. by destruct (Hu _ Hin). }
  unfold addPod, mbind at 1, M_bind at 1.
  destruct (connectPod n args netConf t) as [rc t1] eqn:Hc.
  destruct (emits_run _ _ _ _ _ (connectPod_silent n args netConf) Hc) as (u1 & -> & Hu1).
  destruct rc as [[h c]|e|]; [|intros [= <- <-]; exists u1; split; [done|]; by intros ??? []%silent_In..].
  destruct (connectPod_sandboxes _ _ _ _ _ _ _ Hc) as [Hh Hcont].
  set (res0 := {| CNIVersion := version |}). unfold mbind, M_bind.
  destruct (addressPod _ n args netConf res0 (t ++ u1)) as [ra t2] eqn:Ha.
  destruct (emits_run _ _ _ _ _ (addressPod_silent n args netConf res0) Ha) as (u2 & -> & Hu2).
  assert (Hu : Forall prints_nothing (u1 ++ u2)) by by apply Forall_app.
  destruct ra as [res|e|]; [|intros [= <- <-]; exists (u1 ++ u2); rewrite app_assoc; split; [done|]; by intros ??? []%silent_In..].
  assert (Hwf : result_wf n res).
  { eapply addressPod_wf; [|exact Ha]. split; [|constructor]. by exists bridge, h, c. }
  unfold perform. intros [= _ <-]. eexists. split; [by rewrite <- !app_assoc|].
  intros res' v x. rewrite app_assoc, in_app_iff. intros [[]%silent_In|[Hin|[]]]; [done|].
  by simplify_eq.
Qed.

End result.

(** ** Witness *)

