(* ===== verification/Plugin.v ===== *)
(** * The plugin's process

    [cmd/k-vswitch-cni/main.go] and what it calls of the CNI library: [PluginMain]
    ([pkg/skel]), which reads the environment and the standard input, checks the
    version of the configuration ([pkg/version]), runs [cmdAdd] or [cmdDel], and
    turns an error into a printed one and an exit status.

    The text of an error is not part of the model: a printed error carries its
    cause.  [plugin_process] states what the exit status tells the runtime. *)
From S2P Require Import Prelude GoStrings GoNet Exec Json Host HostSim NetConf Cni.

(** ** The version of a configuration *)

Definition version_fields : list (unit * string) := [(tt, json_name "CNIVersion" (tagged "cniVersion"))].

Definition into_version (k : string) (v : json) (old : string) : result string :=
  match find_field version_fields k with Some _ => into_string old v | None => Ok old end.

Definition Decode (bytes : string) : result string :=
  match json_parse bytes with
  | None => Err (ErrNew "decoding version from network config: invalid JSON")
  | Some v =>
      version ← wrap_err "decoding version from network config: " (into_object into_version "" v);
      Ok (if bool_decide (version = "") then "0.1.0" else version)
  end.

(** [version.All] *)
Definition All : list string := ["0.1.0"; "0.2.0"; "0.3.0"; "0.3.1"].

(** [Reconciler.CheckRaw], whether there is no error. *)
Definition CheckRaw (configVersion : string) (supportedVersions : list string) : bool :=
  existsb (fun v => bool_decide (configVersion = v)) supportedVersions.

(** ** The dispatcher *)

(** [types.Error], with the cause for its message. *)
Record cni_error := { ce_Code : Z; ce_cause : goerr }.
Definition createTypedError (e : goerr) : cni_error := {| ce_Code := 100; ce_cause := e |}.
Definition ErrIncompatibleCNIVersion : Z := 1.

(** The variables, and for which command each is required. *)
Definition env_vars : list (string * list (string * bool)) :=
  [("CNI_COMMAND", [("ADD", true); ("DEL", true)]);
   ("CNI_CONTAINERID", [("ADD", false); ("DEL", false)]);
   ("CNI_NETNS", [("ADD", true); ("DEL", false)]);
   ("CNI_IFNAME", [("ADD", true); ("DEL", true)]);
   ("CNI_ARGS", [("ADD", false); ("DEL", false)]);
   ("CNI_PATH", [("ADD", true); ("DEL", true)])].

Definition reqForCmd (req : list (string * bool)) (cmd : string) : bool :=
  existsb (fun r => bool_decide (r.1 = cmd) && r.2) req.

(** *** The dispatcher and the plugin read the same version *)

Lemma version_field k :
  match find_field netconf_fields k with
  | Some F_CNIVersion => is_Some (find_field version_fields k)
  | _ => find_field version_fields k = None
  end.
Proof.
  assert (Hone : version_fields = [(tt, "cniVersion")]) by (vm_compute; reflexivity).
  unfold find_field. rewrite netconf_names, Hone. cbn [List.find snd fst].
  repeat (case_bool_decide as H; [subst k; vm_compute; first [reflexivity|by eexists]|clear H]). cbn [fmap option_fmap option_map].
  repeat (match goal with |- context [equalFoldRight ?a k] => destruct (equalFoldRight a k) end; cbv beta iota;
          [first [by eexists|reflexivity]|]). reflexivity.
Qed.

Lemma into_member_version k v n n' :
  into_netconf_member k v n = Ok n' -> into_version k v (nc_CNIVersion n) = Ok (nc_CNIVersion n').
Proof.
  pose proof (version_field k) as Hf. revert Hf. unfold into_version, into_netconf_member.
  destruct n as [cv nm ty cap it dns br gw dgw fa mq mtu hp pm].
  destruct (find_field netconf_fields k) as [[]|]; intros Hf H; cbn in *;
    [destruct Hf as [? ->]|rewrite Hf..];
    try (match type of H with context [?m ≫= _] => destruct m end; cbn in H; try done);
    try match type of H with context [result_bind ?A ?B ?f ?m] => destruct m; cbn in H; try done end;
    by injection H as <-.
Qed.

Lemma into_members_version kvs : forall n n',
  into_members into_netconf_member kvs n = Ok n' ->
  into_members into_version kvs (nc_CNIVersion n) = Ok (nc_CNIVersion n').
Proof.
  induction kvs as [|[k v] kvs IH]; intros n n' H; [by injection H as <-|]. cbn [into_members] in *.
  destruct (into_netconf_member k v n) as [n1|e|] eqn:Hm; cbn in H; [|done..].
  rewrite (into_member_version k v n n1 Hm). cbn. by apply IH.
Qed.

(** A configuration that the plugin can load is decoded by the dispatcher, to
    the same version. *)
Lemma Decode_loadNetConf bytes n v :
  loadNetConf bytes = Ok (n, v) -> Decode bytes = Ok (if bool_decide (v = "") then "0.1.0" else v).
Proof.
  unfold loadNetConf, Decode, unmarshal_netconf. destruct (json_parse bytes) as [j|]; [|done].
  intros H. destruct (into_object into_netconf_member netconf_default j) as [n1|e|] eqn:Hi; cbn in H; [|done..].
  injection H as <- <-. assert (Hv : into_object into_version "" j = Ok (nc_CNIVersion n1)).
  { destruct j; cbn in Hi |- *; try done; [by injection Hi as <-|by apply into_members_version in Hi]. }
  by rewrite Hv.
Qed.

Section plugin_main.
Context `{HEnv : Env}.
Variable FormatChainName : string -> string -> string.
(** What [ioutil.ReadAll(os.Stdin)] gives, whether the version can be written
    to standard output, and which errors are already a [types.Error]: those the
    IPAM plugin returned. *)
Variables (stdin : result string) (write_version : result unit) (as_Error : goerr -> option cni_error).

Definition os_Getenv (name : string) : M trace string :=
  r ← try_m (perform (Getenv name)); mret (match r with inl v => v | inr _ => "" end).

Fixpoint read_vars (vs : list (string * list (string * bool))) (cmd : string) (vals : list string) (argsMissing : bool)
  : M trace (list string * bool) :=
  match vs with
  | [] => mret (vals, argsMissing)
  | (name, req) :: vs' =>
      val ← os_Getenv name;
      let cmd := if bool_decide (name = "CNI_COMMAND") then val else cmd in
      let missing := bool_decide (val = "") && (reqForCmd req cmd || bool_decide (name = "CNI_COMMAND")) in
      read_vars vs' cmd (vals ++ [val]) (argsMissing || missing)
  end.

Definition getCmdArgsFromEnv : M trace (string * CmdArgs) :=
  '(vals, argsMissing) ← read_vars env_vars "" [] false;
  if argsMissing : bool then throw (ErrNew "required env variables missing") else
  stdinData ← lift (wrap_err "error reading from stdin: " stdin);
  match vals with
  | [cmd; contID; netns; ifName; args; path] =>
      mret (cmd, {| ContainerID := contID; Netns := netns; IfName := ifName; StdinData := stdinData |})
  | _ => panic
  end.

(** An error that is a [types.Error], or another one. *)
Definition checkVersionAndCall (cmdArgs : CmdArgs) (supported : list string) (toCall : CmdArgs -> M trace unit)
  : M trace (option (cni_error + goerr)) :=
  match Decode (StdinData cmdArgs) with
  | Err e => mret (Some (inr e))
  | Panic => panic
  | Ok configVersion =>
      if CheckRaw configVersion supported then
        r ← try_m (toCall cmdArgs);
        mret (match r with inl _ => None | inr e => Some (match as_Error e with Some c => inl c | None => inr e end) end)
      else mret (Some (inl {| ce_Code := ErrIncompatibleCNIVersion; ce_cause := ErrNew "incompatible CNI versions" |}))
  end.

Definition pluginMain (cmdAdd cmdDel : CmdArgs -> M trace unit) (supported : list string) : M trace (option cni_error) :=
  r ← try_m getCmdArgsFromEnv;
  match r with
  | inr e => mret (Some (createTypedError e))
  | inl (cmd, cmdArgs) =>
      let report (err : option (cni_error + goerr)) :=
        match err with
        | Some (inl e) => Some e
        | Some (inr e) => Some (createTypedError e)
        | None => None
        end in
      if bool_decide (cmd = "ADD") then err ← checkVersionAndCall cmdArgs supported cmdAdd; mret (report err)
      else if bool_decide (cmd = "DEL") then err ← checkVersionAndCall cmdArgs supported cmdDel; mret (report err)
      else if bool_decide (cmd = "VERSION") then
        match write_version with
        | Ok _ => mret None
        | Err e => mret (report (Some (inr e)))
        | Panic => panic
        end
      else mret (Some (createTypedError (ErrNew ("unknown CNI_COMMAND: " +:+ cmd))))
  end.

(** The exit status, and the error printed to standard output. *)
Record outcome := { exit_status : Z; printed : option cni_error }.

Definition PluginMain (cmdAdd cmdDel : CmdArgs -> M trace unit) (supported : list string) : M trace outcome :=
  e ← pluginMain cmdAdd cmdDel supported;
  mret {| exit_status := match e with Some _ => 1 | None => 0 end; printed := e |}.

(** [cmd/k-vswitch-cni/main.go] *)
Definition main : M trace outcome := PluginMain (cmdAdd FormatChainName) (cmdDel FormatChainName) All.
End plugin_main.

(** ** What a run does *)

(** A question about the environment. *)
Definition asks_env (e : event) : Prop :=
  match e with Event c _ => match c with Getenv _ => True | _ => False end end.

(** An event after which no address is held if none was before. *)
Definition takes_none (e : event) : Prop := ipam_step false e = false.

Lemma asks_quiet e : asks_env e -> quiet e.
Proof. destruct e as [A [] r]; try done. Qed.

Lemma takes_none_held t u : Forall takes_none u -> held t = false -> held (t ++ u) = false.
Proof.
  unfold held. rewrite foldl_app. intros Hu ->. induction Hu as [|e u He _ IH]; [done|]. cbn. by rewrite He.
Qed.

#[local] Hint Extern 1 (takes_none _) => reflexivity : emits.
#[local] Hint Extern 1 (asks_env _) => exact I : emits.

Section runs.
Context `{HEnv : Env} (FormatChainName : string -> string -> string).
Variables (stdin : result string) (write_version : result unit) (as_Error : goerr -> option cni_error).

Lemma read_vars_asks vs : forall cmd vals missing, emits asks_env (read_vars vs cmd vals missing).
Proof.
  induction vs as [|[name req] vs IH]; intros cmd vals missing; cbn [read_vars]; [auto with emits|].
  apply emits_bind; [unfold os_Getenv; auto with emits|]. intros v. apply IH.
Qed.

Lemma getCmdArgsFromEnv_asks : emits asks_env (getCmdArgsFromEnv stdin).
Proof.
  unfold getCmdArgsFromEnv. apply emits_bind; [apply read_vars_asks|]. intros [vals []]; [auto with emits|].
  apply emits_bind; [auto with emits|]. intros b. do 6 (destruct vals as [|? vals]; [by apply emits_none|]).
  destruct vals; [auto with emits|by apply emits_none].
Qed.

(** The values read so far stay in front. *)
Lemma read_vars_vals vs : forall cmd vals missing t vals' m t',
  read_vars vs cmd vals missing t = (Ok (vals', m), t') -> exists more, vals' = vals ++ more.
Proof.
  induction vs as [|[name req] vs IH]; intros cmd vals missing t vals' m t' H; cbn [read_vars] in H.
  - injection H as <- _ _. exists []. by rewrite app_nil_r.
  - apply bind_Ok_inv in H as (v & t1 & _ & H). apply IH in H as [more ->]. exists ([v] ++ more). by rewrite (assoc_L app).
Qed.

(** The command and the configuration are those of the environment. *)
Lemma getCmdArgsFromEnv_run t cmd args t' c :
  answer t string (Getenv "CNI_COMMAND") = Ok c ->
  getCmdArgsFromEnv stdin t = (Ok (cmd, args), t') -> cmd = c /\ stdin = Ok (StdinData args).
Proof.
  intros Hc H. unfold getCmdArgsFromEnv in H. apply bind_Ok_inv in H as ([vals missing] & t1 & Hv & H).
  destruct missing; [done|]. apply bind_Ok_inv in H as (b & t2 & Hb & H). apply lift_Ok_inv in Hb as [Hb ->].
  cbn [read_vars env_vars] in Hv. apply bind_Ok_inv in Hv as (v & t2 & Hget & Hv).
  assert (v = c) as ->.
  { unfold os_Getenv, mbind, M_bind, try_m, perform in Hget. rewrite Hc in Hget. by injection Hget as <- _. }
  change (read_vars (tail env_vars) c ([] ++ [c]) (false || (bool_decide (c = "") && (reqForCmd [("ADD", true); ("DEL", true)] c || true))) t2
    = (Ok (vals, false), t1)) in Hv.
  apply read_vars_vals in Hv as [more ->]. cbn [app] in H.
  do 5 (destruct more as [|? more]; [done|]). destruct more; [|done]. injection H as <- <- _. cbn.
  split; [done|]. destruct stdin; [by injection Hb as ->|done..].
Qed.

Lemma cmdDel_takes_none args : emits takes_none (cmdDel FormatChainName args).
Proof.
  unfold cmdDel, getPodInfo, findPort, delPort, WithNetNSPath, ns_Do, deleteLink, teardownMasq, exec_Output, exec_CombinedOutput, env_exec.
  auto 40 with emits.
Qed.

(** ** Properties *)

(** What the process did for a command [cmd] that [pluginMain] ran. *)
Lemma called_run t args e t' toCall :
  checkVersionAndCall as_Error args All toCall t = (Ok e, t') ->
  (t' = t /\ e <> None) \/
  exists version r, Decode (StdinData args) = Ok version /\ CheckRaw version All = true /\
    toCall args t = (r, t') /\ (is_ok r = true <-> e = None).
Proof.
  unfold checkVersionAndCall. destruct (Decode (StdinData args)) as [version|er|]; [|by intros [= <- <-]; left|done].
  destruct (CheckRaw version All) eqn:Hc; [|by intros [= <- <-]; left].
  unfold mbind, M_bind, try_m. destruct (toCall args t) as [[u|er|] t1] eqn:Hcall; [..|done]; intros [= <- <-]; right.
  - by exists version, (Ok u).
  - exists version, (Err er). split; [done|]. split; [done|]. split; [done|]. by destruct (as_Error er).
Qed.

(** What an ADD that succeeds has done, and when a run that leaves an address
    may have failed. *)
Definition add_done (t' : trace) : Prop := exists bytes n v,
  stdin = Ok bytes /\ loadNetConf bytes = Ok (n, v) /\ (if bool_decide (v = "") then "0.1.0" else v) ∈ All /\
  held t' = negb (bool_decide (IPAM_Type n = "")).
Definition only_print_failed (t' : trace) : Prop := exists t1 res v err n c,
  t' = t1 ++ [Event (PrintResult res v) (Err err); Event (CloseNS n) c].

Lemma pluginMain_run `{!CallsReturn} t cmd e t' :
  answer t string (Getenv "CNI_COMMAND") = Ok cmd -> held t = false ->
  pluginMain stdin write_version as_Error (cmdAdd FormatChainName) (cmdDel FormatChainName) All t = (Ok e, t') ->
  (cmd = "ADD" -> e = None -> add_done t') /\
  (cmd <> "ADD" \/ e <> None -> held t' = true -> cmd = "ADD" /\ only_print_failed t') /\
  (cmd <> "ADD" -> cmd <> "DEL" -> exists u, t' = t ++ u /\ Forall asks_env u).
Proof.
  intros Hcmd Ht Hrun. unfold pluginMain, mbind, M_bind, try_m in Hrun.
  destruct (getCmdArgsFromEnv stdin t) as [r t2] eqn:Hargs.
  destruct (emits_run asks_env _ _ _ _ getCmdArgsFromEnv_asks Hargs) as (u & -> & Hu).
  assert (Hheld : held (t ++ u) = false) by (rewrite held_quiet; [done|eapply Forall_impl; [exact Hu|apply asks_quiet]]).
  assert (Hstill : e <> None -> t' = t ++ u -> (cmd = "ADD" -> e = None -> add_done t') /\
    (cmd <> "ADD" \/ e <> None -> held t' = true -> cmd = "ADD" /\ only_print_failed t') /\
    (cmd <> "ADD" -> cmd <> "DEL" -> exists u, t' = t ++ u /\ Forall asks_env u)).
  { intros He ->. split; [done|]. split; [by rewrite Hheld|]. intros _ _. by exists u. }
  destruct r as [[c args]|er|]; [|by injection Hrun as <- <-; apply Hstill|done].
  destruct (getCmdArgsFromEnv_run t c args (t ++ u) cmd Hcmd Hargs) as [-> Hstdin]. clear Hargs.
  case_bool_decide as Hadd; [|case_bool_decide as Hdel; [|case_bool_decide as Hver]].
  - destruct (checkVersionAndCall _ _ _ _ _) as [[e1|er|] t3] eqn:Hcall; [|done..].
    injection Hrun as <- <-. apply called_run in Hcall as [[-> He]|(version & r & Hdec & Hc & Hcall & Hr)].
    { apply Hstill; [|done]. by destruct e1 as [[]|]. }
    destruct (cmdAdd_releases FormatChainName args (t ++ u) r t3 Hheld Hcall) as [Hok Hfail].
    split; [|split; [|done]].
    + intros _ He. assert (e1 = None) as -> by by destruct e1 as [[]|]. rewrite (proj2 Hr eq_refl) in Hok.
      destruct (Hok eq_refl) as (n & v & Hload & Hh). exists (StdinData args), n, v.
      split; [done|]. split; [done|]. split; [|done]. rewrite (Decode_loadNetConf _ n v Hload) in Hdec. injection Hdec as ->.
      unfold CheckRaw in Hc. apply existsb_exists in Hc as (x & Hx & Hxv). apply bool_decide_eq_true in Hxv as ->.
      by apply list_elem_of_In.
    + intros [?|He] Hh; [done|]. split; [done|]. apply Hfail; [|done]. destruct (is_ok r) eqn:Hrok; [|done].
      by rewrite (proj1 Hr eq_refl) in He.
  - destruct (checkVersionAndCall _ _ _ _ _) as [[e1|er|] t3] eqn:Hcall; [|done..].
    injection Hrun as <- <-. split; [done|]. split; [|done]. intros _ Hh. exfalso.
    apply called_run in Hcall as [[-> He]|(version & r & Hdec & Hc & Hcall & Hr)]; [by rewrite Hheld in Hh|].
    destruct (emits_run takes_none _ _ _ _ (cmdDel_takes_none args) Hcall) as (w & -> & Hw).
    by rewrite (takes_none_held _ _ Hw Hheld) in Hh.
  - assert (t' = t ++ u) as ->. { destruct write_version; [by injection Hrun as _ <-..|done]. }
    split; [done|]. split; [by rewrite Hheld|]. intros _ _. by exists u.
  - injection Hrun as <- <-. by apply Hstill.
Qed.

End runs.

(** ** Witnesses *)

(** The environment of an ADD on the host of the plugin's witnesses. *)
Definition add_env (key : string) : string :=
  if bool_decide (key = "CNI_COMMAND") then "ADD"
  else if bool_decide (key = "CNI_CONTAINERID") then "c1"
  else if bool_decide (key = "CNI_NETNS") then "/var/run/netns/c1"
  else if bool_decide (key = "CNI_IFNAME") then "eth0"
  else if bool_decide (key = "CNI_PATH") then "/opt/cni/bin"
  else "K8S_POD_NAMESPACE=default;K8S_POD_NAME=web".

Definition add_host (print : bool) : sim :=
  {| sim_getenv := fun k => if bool_decide (sim_getenv good_host k = "") then add_env k else sim_getenv good_host k;
     sim_ipam := true; sim_print := print; sim_addresses := sim_addresses good_host; sim_ready := 0;
     sim_node := sim_node good_host; sim_vswitch := sim_vswitch good_host |}.

Definition add_stdin : result string := Ok (cni_conf "10.244.1.0/24").
Definition process (print : bool) : result outcome * trace :=
  @main (sim_answer (add_host print)) demo_chain add_stdin (Ok tt) (fun _ => None) [].

(** An ADD that works, and one whose result cannot be printed. *)
Lemma process_works : fst (process true) = Ok {| exit_status := 0; printed := None |}.
Proof. vm_compute. reflexivity. Qed.
Lemma process_unprinted : exit_status <$> fst (process false) = Ok 1%Z /\ held (snd (process false)) = true.
Proof. vm_compute. done. Qed.

