(* ===== verification/Forwarding.v ===== *)
(** * The node's iptables rules

    [setupBridgeForwarding] of [cmd/k-vswitchd/main.go], and the part of the
    vendored go-iptables it runs through ([NewWithProtocol] is a call, [Exists],
    [Append] and [AppendUnique] are modelled; the answer of [IptRun] is the exit
    status of the command).

    The class [Iptables] states what the program relies on in the command; the
    rules after a run, and that a further run adds nothing, are proved against
    it.  [rule_target] reads a rule the way iptables does, for the rules the
    program writes. *)
From S2P Require Import Prelude GoStrings GoNet Exec Objects Json OvsSim Host PortCache HostSim.

Definition bridgeName : string := "k-vswitch0".

(** ** The vendored package *)

Definition check_args (table chain : string) (rulespec : list string) : list string :=
  ["-t"; table; "-C"; chain] ++ rulespec.
Definition append_args (table chain : string) (rulespec : list string) : list string :=
  ["-t"; table; "-A"; chain] ++ rulespec.

Definition exit_error : goerr := ErrExt "exit status".

Section program.
Context `{HEnv : Env}.

Definition Exists (ipt : IPTables) (table chain : string) (rulespec : list string) : M trace bool :=
  if negb (hasCheck ipt) then perform (IptExistsOld table chain rulespec) else
  status ← perform (IptRun (check_args table chain rulespec));
  if bool_decide (status = 0)%Z then mret true
  else if bool_decide (status = 1)%Z then mret false
  else throw exit_error.

Definition Append (ipt : IPTables) (table chain : string) (rulespec : list string) : M trace unit :=
  status ← perform (IptRun (append_args table chain rulespec));
  if bool_decide (status = 0)%Z then mret tt else throw exit_error.

Definition AppendUnique (ipt : IPTables) (table chain : string) (rulespec : list string) : M trace unit :=
  exists_ ← Exists ipt table chain rulespec;
  if (exists_ : bool) then mret tt else Append ipt table chain rulespec.

(** ** The daemon *)

Definition setupBridgeForwarding (podCIDR clusterCIDR serviceCIDR : string) : M trace unit :=
  ipt ← perform IptNew;
  let rules := ["-o"; bridgeName; "-j"; "ACCEPT"] in
  _ ← AppendUnique ipt "filter" "FORWARD" rules;
  let rules := ["-i"; bridgeName; "-j"; "ACCEPT"] in
  _ ← AppendUnique ipt "filter" "FORWARD" rules;
  let rules := ["-s"; podCIDR; "!"; "-o"; bridgeName; "-j"; "MASQUERADE"] in
  _ ← AppendUnique ipt "nat" "POSTROUTING" rules;
  let rules := ["!"; "-d"; clusterCIDR; "-m"; "comment"; "--comment";
                "k-vswitch: SNAT for outbound traffic from cluster CIDR";
                "-m"; "addrtype"; "!"; "--dst-type"; "LOCAL"; "-j"; "MASQUERADE"] in
  _ ← AppendUnique ipt "nat" "POSTROUTING" rules;
  let rules := ["!"; "-d"; serviceCIDR; "-m"; "comment"; "--comment";
                "k-vswitch: SNAT for outbound traffic from service CIDR";
                "-m"; "addrtype"; "!"; "--dst-type"; "LOCAL"; "-j"; "MASQUERADE"] in
  AppendUnique ipt "nat" "POSTROUTING" rules.
End program.

(** ** What iptables does *)

Definition is_append (args : list string) : bool :=
  match args with "-t" :: _ :: "-A" :: _ => true | _ => false end.

(** An event that leaves the rules as they are. *)
Definition ipt_quiet (e : event) : Prop :=
  match e with
  | Event c r =>
      (match c in call A return result A -> Prop with
       | IptRun args => fun r => is_append args = false \/ r <> Ok 0%Z
       | SetupIPMasq _ _ _ | TeardownIPMasq _ _ _ => fun _ => False
       | Output name _ | CombinedOutput name _ _ => fun _ => name = "ovs-vsctl"
       | _ => fun _ => True
       end) r
  end.

(** A rule is its table, its chain and its specification.  The command is
    1.4.11 or later, so it knows [--check]; a check that runs says whether the
    rule is there, an append that succeeds adds it at the end. *)
Class Iptables `{Env} := {
  ipt_rules : trace -> list (list string);
  ipt_other t e : ipt_quiet e -> ipt_rules (t ++ [e]) = ipt_rules t;
  ipt_new t ipt : answer t _ IptNew = Ok ipt -> hasCheck ipt = true;
  ipt_check t table chain rule status :
    answer t _ (IptRun (check_args table chain rule)) = Ok status ->
    status = 0%Z <-> table :: chain :: rule ∈ ipt_rules t;
  ipt_append t table chain rule :
    let c := IptRun (append_args table chain rule) in
    answer t _ c = Ok 0%Z -> ipt_rules (t ++ [Event c (Ok 0%Z)]) = ipt_rules t ++ [table :: chain :: rule]
}.

(** The rules of the node, in the order they are written. *)
Definition forwarding_rules (podCIDR clusterCIDR serviceCIDR : string) : list (list string) :=
  [ ["filter"; "FORWARD"; "-o"; bridgeName; "-j"; "ACCEPT"];
    ["filter"; "FORWARD"; "-i"; bridgeName; "-j"; "ACCEPT"];
    ["nat"; "POSTROUTING"; "-s"; podCIDR; "!"; "-o"; bridgeName; "-j"; "MASQUERADE"];
    ["nat"; "POSTROUTING"; "!"; "-d"; clusterCIDR; "-m"; "comment"; "--comment";
     "k-vswitch: SNAT for outbound traffic from cluster CIDR";
     "-m"; "addrtype"; "!"; "--dst-type"; "LOCAL"; "-j"; "MASQUERADE"];
    ["nat"; "POSTROUTING"; "!"; "-d"; serviceCIDR; "-m"; "comment"; "--comment";
     "k-vswitch: SNAT for outbound traffic from service CIDR";
     "-m"; "addrtype"; "!"; "--dst-type"; "LOCAL"; "-j"; "MASQUERADE"] ].

Definition add_unique (rules : list (list string)) (r : list string) : list (list string) :=
  if bool_decide (r ∈ rules) then rules else rules ++ [r].

Lemma add_unique_in rules r : r ∈ add_unique rules r.
Proof. unfold add_unique. case_bool_decide; set_solver. Qed.

Lemma add_unique_prefix rules r : rules `prefix_of` add_unique rules r.
Proof. unfold add_unique. case_bool_decide; [done|by apply prefix_app_r]. Qed.

Lemma add_unique_NoDup rules r : NoDup rules -> NoDup (add_unique rules r).
Proof.
  unfold add_unique. case_bool_decide as Hr; [done|]. intros Hd. apply NoDup_app.
  split; [done|]. split; [|apply NoDup_singleton]. intros x Hx ->%list_elem_of_singleton. done.
Qed.

Lemma foldl_add_unique new : forall rules,
  rules `prefix_of` foldl add_unique rules new /\
  (forall r, r ∈ new -> r ∈ foldl add_unique rules new) /\
  (NoDup rules -> NoDup (foldl add_unique rules new)).
Proof.
  induction new as [|r new IH]; intros rules; cbn [foldl]; [split; [done|split; [set_solver|done]]|].
  destruct (IH (add_unique rules r)) as (Hp & Hin & Hd). split; [|split].
  - etrans; [apply add_unique_prefix|exact Hp].
  - intros x [->|Hx]%elem_of_cons; [|by apply Hin].
    destruct Hp as [k ->]. apply elem_of_app. left. apply add_unique_in.
  - intros Hr. by apply Hd, add_unique_NoDup.
Qed.

Lemma foldl_add_unique_present new : forall rules,
  (forall r, r ∈ new -> r ∈ rules) -> foldl add_unique rules new = rules.
Proof.
  induction new as [|r new IH]; intros rules Hin; [done|]. cbn [foldl]. unfold add_unique at 2.
  rewrite bool_decide_true by (apply Hin; set_solver). apply IH. set_solver.
Qed.

Section forwarding.
Context `{HEnv : Env} `{!Iptables}.

(** A computation that ensures the rules [new], in that order: however it ends,
    some first part of them has been ensured, and all when it succeeds. *)
Definition ensures {B} (m : M trace B) (new : list (list string)) : Prop :=
  forall t r t', m t = (r, t') ->
  exists n, ipt_rules t' = foldl add_unique (ipt_rules t) (take n new) /\ (is_ok r = true -> take n new = new).

Lemma AppendUnique_ensures ipt table chain rule :
  hasCheck ipt = true -> ensures (AppendUnique ipt table chain rule) [table :: chain :: rule].
Proof.
  intros Hc t r t'. unfold AppendUnique, Exists. rewrite Hc. cbn [negb].
  unfold mbind, M_bind at 1. unfold perform at 1. set (c := IptRun (check_args table chain rule)).
  assert (Hq : forall r, ipt_rules (t ++ [Event c r]) = ipt_rules t) by (intros; apply ipt_other; by left).
  unfold M_bind at 1. destruct (answer t Z c) as [status|e|] eqn:Ha;
    [|intros [= <- <-]; exists 0; rewrite Hq; done..].
  pose proof (ipt_check t table chain rule status Ha) as Hst.
  case_bool_decide as Hs.
  { cbn. intros [= <- <-]. exists 1. cbn. unfold add_unique. rewrite Hq, bool_decide_true by tauto. done. }
  case_bool_decide; cbn [mret M_ret]; [|intros [= <- <-]; exists 0; rewrite Hq; done].
  unfold Append, mbind, M_bind, perform. set (a := IptRun (append_args table chain rule)).
  destruct (answer (t ++ [Event c (Ok status)]) Z a) as [st|e|] eqn:Hadd;
    [|intros [= <- <-]; exists 0; rewrite ipt_other, Hq by (by right); done..].
  case_bool_decide as Hst0; intros [= <- <-].
  - subst st. exists 1. cbn. unfold add_unique. rewrite (ipt_append _ table chain rule) by done.
    rewrite Hq, bool_decide_false by tauto. done.
  - exists 0. rewrite ipt_other, Hq by (right; congruence). done.
Qed.

Lemma ensures_bind {A B} (m : M trace A) (k : M trace B) rule new :
  ensures m [rule] -> ensures k new -> ensures (m ≫= fun _ => k) (rule :: new).
Proof.
  intros Hm Hk t r t'. unfold mbind, M_bind. destruct (m t) as [rm t1] eqn:Hmt.
  destruct (Hm _ _ _ Hmt) as (n & Hr & Hok).
  destruct rm as [a|e|].
  - intros Hkt. destruct (Hk _ _ _ Hkt) as (n' & Hr' & Hok'). specialize (Hok eq_refl). destruct n; [done|].
    exists (S n'). cbn. rewrite Hr', Hr. cbn. rewrite take_nil. cbn. split; [done|]. intros Hr0. by rewrite Hok'.
  - intros [= <- <-]. exists (n `min` 1). split; [|done]. rewrite Hr. by destruct n as [|[|n]].
  - intros [= <- <-]. exists (n `min` 1). split; [|done]. rewrite Hr. by destruct n as [|[|n]].
Qed.

Lemma setupBridgeForwarding_ensures p c s : ensures (setupBridgeForwarding p c s) (forwarding_rules p c s).
Proof.
  intros t r t'. unfold setupBridgeForwarding, mbind at 1, M_bind at 1, perform.
  assert (Hq : forall r, ipt_rules (t ++ [Event IptNew r]) = ipt_rules t) by (intros; by apply ipt_other).
  destruct (answer t _ IptNew) as [ipt|e|] eqn:Hnew; [|intros [= <- <-]; exists 0; by rewrite Hq..].
  apply ipt_new in Hnew as Hc. rewrite <- (Hq (Ok ipt)). revert r t'. generalize (t ++ [Event IptNew (Ok ipt)]).
  change (ensures (AppendUnique ipt "filter" "FORWARD" ["-o"; bridgeName; "-j"; "ACCEPT"] ≫= fun _ =>
    AppendUnique ipt "filter" "FORWARD" ["-i"; bridgeName; "-j"; "ACCEPT"] ≫= fun _ =>
    AppendUnique ipt "nat" "POSTROUTING" ["-s"; p; "!"; "-o"; bridgeName; "-j"; "MASQUERADE"] ≫= fun _ =>
    AppendUnique ipt "nat" "POSTROUTING" (drop 2 (nth 3 (forwarding_rules p c s) [])) ≫= fun _ =>
    AppendUnique ipt "nat" "POSTROUTING" (drop 2 (nth 4 (forwarding_rules p c s) []))) (forwarding_rules p c s)).
  repeat (apply ensures_bind; [by apply AppendUnique_ensures|]). by apply AppendUnique_ensures.
Qed.

(** C26.  The node's iptables rules converge.  However a run of
    setupBridgeForwarding ends, the rules that were there stay, in order, and
    no rule is duplicated; when it succeeds all five rules are there; and
    once they are, further runs change nothing, whatever they meet. *)
Theorem setupBridgeForwarding_converges p c s t r t' :
  setupBridgeForwarding p c s t = (r, t') ->
  ipt_rules t `prefix_of` ipt_rules t' /\
  (NoDup (ipt_rules t) -> NoDup (ipt_rules t')) /\
  (is_ok r = true -> forall x, x ∈ forwarding_rules p c s -> x ∈ ipt_rules t') /\
  ((forall x, x ∈ forwarding_rules p c s -> x ∈ ipt_rules t) -> ipt_rules t' = ipt_rules t).
Proof.
  intros (n & -> & Hok)%setupBridgeForwarding_ensures.
  destruct (foldl_add_unique (take n (forwarding_rules p c s)) (ipt_rules t)) as (Hp & Hin & Hd).
  split; [done|]. split; [done|]. split.
  - intros Hr. by rewrite (Hok Hr) in Hin |- *.
  - intros Hall. apply foldl_add_unique_present. intros x Hx%elem_of_take. apply Hall.
    destruct Hx as (i & Hx & _). by eapply list_elem_of_lookup_2.
Qed.
End forwarding.

(** ** Which packets the rules masquerade *)

(** What iptables looks at in a packet that leaves the node. *)
Record ipt_packet := {
  ip_in : string; ip_out : string; ip_src : IP; ip_dst : IP; ip_dst_local : bool
}.

Definition in_block (cidr : string) (ip : IP) : bool :=
  match ParseCIDR cidr with Ok n => net_Contains n ip | _ => false end.

(** The target of a rule for the packets it matches: every match must hold, [!]
    inverts the next one, a comment always holds. *)
Fixpoint rule_target (spec : list string) (p : ipt_packet) : option string :=
  match spec with
  | "-j" :: target :: [] => Some target
  | "!" :: "-o" :: i :: rest => if bool_decide (ip_out p = i) then None else rule_target rest p
  | "!" :: "-d" :: cidr :: rest => if in_block cidr (ip_dst p) then None else rule_target rest p
  | "!" :: "--dst-type" :: "LOCAL" :: rest => if ip_dst_local p then None else rule_target rest p
  | "-i" :: i :: rest => if bool_decide (ip_in p = i) then rule_target rest p else None
  | "-o" :: i :: rest => if bool_decide (ip_out p = i) then rule_target rest p else None
  | "-s" :: cidr :: rest => if in_block cidr (ip_src p) then rule_target rest p else None
  | "-d" :: cidr :: rest => if in_block cidr (ip_dst p) then rule_target rest p else None
  | "-m" :: _ :: rest => rule_target rest p
  | "--comment" :: _ :: rest => rule_target rest p
  | _ => None
  end.

(** Some rule of the chain for outgoing packets masquerades the packet. *)
Definition masquerades (rules : list (list string)) (p : ipt_packet) : bool :=
  existsb (fun r => match r with
                    | "nat" :: "POSTROUTING" :: spec => bool_decide (rule_target spec p = Some "MASQUERADE")
                    | _ => false
                    end) rules.

(** What the five rules masquerade. *)
Lemma forwarding_masquerades pod cluster service p :
  masquerades (forwarding_rules pod cluster service) p =
    (in_block pod (ip_src p) && negb (bool_decide (ip_out p = bridgeName)))
    || (negb (in_block cluster (ip_dst p)) && negb (ip_dst_local p))
    || (negb (in_block service (ip_dst p)) && negb (ip_dst_local p)).
Proof.
  unfold masquerades, forwarding_rules. cbn [existsb rule_target].
  destruct (in_block pod _), (in_block cluster _), (in_block service _), (ip_dst_local p),
    (bool_decide (ip_out p = bridgeName)); reflexivity.
Qed.

(** The cluster and service rules masquerade everything.  The two rules
    that are meant to leave traffic inside the cluster and to services alone
    are separate: a packet that is not for the node itself and whose destination
    is not in both blocks (which are disjoint) is outside one of them, so it is
    masqueraded, traffic for pods of the cluster included. *)
Theorem everything_masqueraded pod cluster service p :
  in_block cluster (ip_dst p) && in_block service (ip_dst p) = false ->
  ip_dst_local p = false ->
  masquerades (forwarding_rules pod cluster service) p = true.
Proof.
  intros Hdisj Hlocal. rewrite forwarding_masquerades, Hlocal.
  destruct (in_block cluster (ip_dst p)), (in_block service (ip_dst p)); [done|..]; cbn; by rewrite ?orb_true_r.
Qed.

(** ** Witnesses *)

Lemma sim_rules_step t e : sim_rules (t ++ [e]) = sim_rule (sim_rules t) e.
Proof. unfold sim_rules. by rewrite foldl_app. Qed.

Lemma sim_ipt_other t e : ipt_quiet e -> sim_rules (t ++ [e]) = sim_rules t.
Proof.
  intros He. rewrite sim_rules_step. destruct e as [A c r]. destruct c; try done. cbn in He |- *.
  repeat case_match; try done. subst. by destruct He.
Qed.

Lemma sim_ipt_check s t table chain rule status :
  @answer (sim_answer s) t _ (IptRun (check_args table chain rule)) = Ok status ->
  status = 0%Z <-> table :: chain :: rule ∈ sim_rules t.
Proof. cbn. intros [= <-]. case_bool_decide; split; done. Qed.

#[local] Instance sim_iptables s : @Iptables (sim_answer s) := {|
  ipt_rules := sim_rules;
  ipt_other := sim_ipt_other;
  ipt_new t ipt (Ha : Ok {| hasCheck := true |} = Ok ipt) :=
    match Ha in _ = r return match r with Ok i => hasCheck i = true | _ => True end with eq_refl => eq_refl end;
  ipt_check := sim_ipt_check s;
  ipt_append t table chain rule _ := sim_rules_step t _
|}.

Definition demo_forwarding (t : trace) : result unit * trace :=
  @setupBridgeForwarding (sim_answer good_host) "10.244.1.0/24" "10.244.0.0/16" "10.96.0.0/12" t.

Lemma demo_forwarding_ok : (demo_forwarding []).1 = Ok tt.
Proof. vm_compute. reflexivity. Qed.

(** The second run on the host changes nothing. *)
Lemma setupBridgeForwarding_converges_witness :
  sim_rules (demo_forwarding (demo_forwarding []).2).2 = sim_rules (demo_forwarding []).2.
Proof.
  destruct (@setupBridgeForwarding_converges _ (sim_iptables good_host) "10.244.1.0/24" "10.244.0.0/16"
    "10.96.0.0/12" [] (demo_forwarding []).1 (demo_forwarding []).2) as (_ & _ & Hall & _).
  { apply surjective_pairing. }
  rewrite demo_forwarding_ok in Hall. specialize (Hall eq_refl).
  destruct (@setupBridgeForwarding_converges _ (sim_iptables good_host) "10.244.1.0/24" "10.244.0.0/16"
    "10.96.0.0/12" (demo_forwarding []).2 (demo_forwarding (demo_forwarding []).2).1
    (demo_forwarding (demo_forwarding []).2).2) as (_ & _ & _ & Hsame).
  { apply surjective_pairing. }
  exact (Hsame Hall).
Defined.

(** A packet from a pod of one node to a pod of another. *)
Definition demo_pod_packet : ipt_packet :=
  {| ip_in := "k-vswitch0"; ip_out := "cluster-wide"; ip_src := v4InV6Prefix ++ [10; 244; 1; 5]%Z;
     ip_dst := v4InV6Prefix ++ [10; 244; 2; 7]%Z; ip_dst_local := false |}.

Lemma everything_masqueraded_witness :
  masquerades (forwarding_rules "10.244.1.0/24" "10.244.0.0/16" "10.96.0.0/12") demo_pod_packet = true.
Proof. apply everything_masqueraded; vm_compute; reflexivity. Defined.
