(* ===== verification/Informers.v ===== *)
(** * Shared informer factories

    [apis/generated/informers/externalversions]: the factory with its options
    ([factory.go]), the informer of VSwitchConfigs ([vswitchconfig.go], reached
    through [kvswitch/interface.go] and [v1alpha1/interface.go]) and
    [ForResource] ([generic.go]).  The core factory of client-go, which the
    program uses too, has the same code.

    An informer and the cache behind it belong to client-go: their type, their
    constructor and the outcome of waiting for one are parameters.  A type of
    objects is named by a string (the code's reflect.Type).  The mutex makes
    each method atomic. *)
From S2P Require Import Prelude GoStrings.

(** [schema.GroupVersionResource] *)
Record GroupVersionResource := { Group : string; GVersion : string; Resource : string }.

#[export] Instance gvr_eq_dec : EqDecision GroupVersionResource.
Proof. solve_decision. Defined.

(** [v1.NamespaceAll] *)
Definition NamespaceAll : string := "".

Section factory.
Context {Informer ListOptions : Type}.

Abbreviation TweakListOptionsFunc := (option (ListOptions -> ListOptions)).

Record sharedInformerFactory := {
  f_namespace : string;
  f_tweakListOptions : TweakListOptionsFunc;
  f_defaultResync : Z;
  f_customResync : gmap string Z;
  f_informers : gmap string Informer;
  f_startedInformers : gmap string bool
}.

Abbreviation SharedInformerOption := (sharedInformerFactory -> sharedInformerFactory).

Definition WithCustomResyncConfig (resyncConfig : gmap string Z) : SharedInformerOption := fun f =>
  {| f_namespace := f_namespace f; f_tweakListOptions := f_tweakListOptions f;
     f_defaultResync := f_defaultResync f; f_customResync := resyncConfig ∪ f_customResync f;
     f_informers := f_informers f; f_startedInformers := f_startedInformers f |}.

Definition WithTweakListOptions (tweak : TweakListOptionsFunc) : SharedInformerOption := fun f =>
  {| f_namespace := f_namespace f; f_tweakListOptions := tweak;
     f_defaultResync := f_defaultResync f; f_customResync := f_customResync f;
     f_informers := f_informers f; f_startedInformers := f_startedInformers f |}.

Definition WithNamespace (namespace : string) : SharedInformerOption := fun f =>
  {| f_namespace := namespace; f_tweakListOptions := f_tweakListOptions f;
     f_defaultResync := f_defaultResync f; f_customResync := f_customResync f;
     f_informers := f_informers f; f_startedInformers := f_startedInformers f |}.

Definition NewSharedInformerFactoryWithOptions (defaultResync : Z) (options : list SharedInformerOption)
  : sharedInformerFactory :=
  foldl (fun f opt => opt f)
    {| f_namespace := NamespaceAll; f_tweakListOptions := None; f_defaultResync := defaultResync;
       f_customResync := ∅; f_informers := ∅; f_startedInformers := ∅ |} options.

Definition NewSharedInformerFactory (defaultResync : Z) : sharedInformerFactory :=
  NewSharedInformerFactoryWithOptions defaultResync [].

Definition NewFilteredSharedInformerFactory (defaultResync : Z) (namespace : string)
    (tweak : TweakListOptionsFunc) : sharedInformerFactory :=
  NewSharedInformerFactoryWithOptions defaultResync [WithNamespace namespace; WithTweakListOptions tweak].

Definition is_started (f : sharedInformerFactory) (informerType : string) : bool :=
  default false (f_startedInformers f !! informerType).

(** [Start]: the informers whose goroutine it starts. *)
Definition Start : M sharedInformerFactory (gmap string Informer) := fun f =>
  let fresh := filter (fun kv => is_started f kv.1 = false) (f_informers f) in
  (Ok fresh,
   {| f_namespace := f_namespace f; f_tweakListOptions := f_tweakListOptions f;
      f_defaultResync := f_defaultResync f; f_customResync := f_customResync f;
      f_informers := f_informers f;
      f_startedInformers := ((fun _ => true) <$> fresh) ∪ f_startedInformers f |}).

(** [WaitForCacheSync]: [synced] is the outcome of waiting for one informer. *)
Definition WaitForCacheSync (synced : Informer -> bool) (f : sharedInformerFactory) : gmap string bool :=
  synced <$> filter (fun kv => is_started f kv.1 = true) (f_informers f).

Definition InformerFor (informerType : string) (newFunc : Z -> Informer)
  : M sharedInformerFactory Informer := fun f =>
  match f_informers f !! informerType with
  | Some informer => (Ok informer, f)
  | None =>
      let resyncPeriod := match f_customResync f !! informerType with
                          | Some r => r
                          | None => f_defaultResync f
                          end in
      let informer := newFunc resyncPeriod in
      (Ok informer,
       {| f_namespace := f_namespace f; f_tweakListOptions := f_tweakListOptions f;
          f_defaultResync := f_defaultResync f; f_customResync := f_customResync f;
          f_informers := <[informerType := informer]> (f_informers f);
          f_startedInformers := f_startedInformers f |})
  end.

(** ** The informer of VSwitchConfigs *)

Section vswitchconfigs.
Context {Listed Watched Indexer : Type}.
(** The client's list and watch, the constructor of package cache, and the
    informer's indexer. *)
Variables (client_List : ListOptions -> result Listed) (client_Watch : ListOptions -> result Watched).
Variable NewSharedIndexInformer :
  (ListOptions -> result Listed) -> (ListOptions -> result Watched) -> string -> Z -> list string -> Informer.
Variable GetIndexer : Informer -> Indexer.

Definition tweaked (tweak : TweakListOptionsFunc) (o : ListOptions) : ListOptions :=
  match tweak with Some f => f o | None => o end.

Definition vswitchconfig_type : string := "*v1alpha1.VSwitchConfig".

(** [cache.NamespaceIndex] *)
Definition NamespaceIndex : string := "namespace".

Definition NewFilteredVSwitchConfigInformer (resyncPeriod : Z) (indexers : list string)
    (tweak : TweakListOptionsFunc) : Informer :=
  NewSharedIndexInformer (fun options => client_List (tweaked tweak options))
    (fun options => client_Watch (tweaked tweak options)) vswitchconfig_type resyncPeriod indexers.

Definition NewVSwitchConfigInformer (resyncPeriod : Z) (indexers : list string) : Informer :=
  NewFilteredVSwitchConfigInformer resyncPeriod indexers None.

(** [vSwitchConfigInformer]'s [defaultInformer], [Informer] and [Lister].  The
    factory pointer that this struct, [group] and [version] hold is the state. *)
Record vSwitchConfigInformer := { vi_tweakListOptions : TweakListOptionsFunc }.

Definition defaultInformer (i : vSwitchConfigInformer) (resyncPeriod : Z) : Informer :=
  NewFilteredVSwitchConfigInformer resyncPeriod [NamespaceIndex] (vi_tweakListOptions i).

Definition vsc_Informer (i : vSwitchConfigInformer) : M sharedInformerFactory Informer :=
  InformerFor vswitchconfig_type (defaultInformer i).

Definition vsc_Lister (i : vSwitchConfigInformer) : M sharedInformerFactory Indexer :=
  informer ← vsc_Informer i; mret (GetIndexer informer).

(** *** From the factory to the informer *)

(** [kvswitch/v1alpha1/interface.go] *)
Record version := { vn_namespace : string; vn_tweakListOptions : TweakListOptionsFunc }.
Definition version_New (namespace : string) (tweak : TweakListOptionsFunc) : version :=
  {| vn_namespace := namespace; vn_tweakListOptions := tweak |}.
Definition VSwitchConfigs (v : version) : vSwitchConfigInformer :=
  {| vi_tweakListOptions := vn_tweakListOptions v |}.

(** [kvswitch/interface.go] *)
Record group := { g_namespace : string; g_tweakListOptions : TweakListOptionsFunc }.
Definition group_New (namespace : string) (tweak : TweakListOptionsFunc) : group :=
  {| g_namespace := namespace; g_tweakListOptions := tweak |}.
Definition V1alpha1 (g : group) : version := version_New (g_namespace g) (g_tweakListOptions g).

Definition Kvswitch : M sharedInformerFactory group :=
  gets (fun f => group_New (f_namespace f) (f_tweakListOptions f)).

(** [genericInformer]; [cache.NewGenericLister] keeps the indexer and the
    resource. *)
Record genericInformer := { gi_informer : Informer; gi_resource : string * string }.
Definition gi_Informer (g : genericInformer) : Informer := gi_informer g.
Definition gi_Lister (g : genericInformer) : Indexer * (string * string) :=
  (GetIndexer (gi_Informer g), gi_resource g).

Definition vswitchconfigs_resource : GroupVersionResource :=
  {| Group := "kvswitch.io"; GVersion := "v1alpha1"; Resource := "vswitchconfigs" |}.

Definition ForResource (resource : GroupVersionResource) : M sharedInformerFactory genericInformer :=
  if bool_decide (resource = vswitchconfigs_resource) then
    g ← Kvswitch;
    informer ← vsc_Informer (VSwitchConfigs (V1alpha1 g));
    mret {| gi_informer := informer; gi_resource := (Group resource, Resource resource) |}
  else throw (ErrNew ("no informer found for " +:+ Group resource +:+ "/" +:+ GVersion resource +:+
                      ", Resource=" +:+ Resource resource)).

(** The generic access, the typed access and the lister of a factory reach the
    same shared informer, which lists with the factory's own tweak. *)
Lemma ForResource_shares f : 
  exists i f1, ForResource vswitchconfigs_resource f = (Ok i, f1) /\
    vsc_Informer (VSwitchConfigs (V1alpha1 (group_New (f_namespace f) (f_tweakListOptions f)))) f = (Ok (gi_Informer i), f1) /\
    forall v, vsc_Informer v f1 = (Ok (gi_Informer i), f1) /\ vsc_Lister v f1 = (Ok (fst (gi_Lister i)), f1).
Proof.
  unfold ForResource. rewrite bool_decide_eq_true_2 by done. unfold Kvswitch, gets, mbind, M_bind.
  set (vi := VSwitchConfigs _). unfold vsc_Lister, vsc_Informer, InformerFor, mbind, M_bind.
  destruct (f_informers f !! vswitchconfig_type) as [i|] eqn:Hi.
  - eexists {| gi_informer := i |}, f. split; [reflexivity|]. split; [done|]. intros v. by rewrite Hi.
  - eexists {| gi_informer := _ |}, _. split; [reflexivity|]. split; [reflexivity|]. intros v.
    cbn [f_informers]. by rewrite lookup_insert_eq.
Qed.

(** ** Sharing *)

Lemma InformerFor_found t newFunc f i : f_informers f !! t = Some i -> InformerFor t newFunc f = (Ok i, f).
Proof. intros Ht. unfold InformerFor. by rewrite Ht. Qed.

(** The informer of a type, and the factory that has it. *)
Definition informer_of (t : string) (newFunc : Z -> Informer) (f : sharedInformerFactory) : Informer :=
  match f_informers f !! t with
  | Some informer => informer
  | None => newFunc (default (f_defaultResync f) (f_customResync f !! t))
  end.

Lemma InformerFor_run t newFunc f :
  exists f', InformerFor t newFunc f = (Ok (informer_of t newFunc f), f') /\
    f_informers f' = <[t := informer_of t newFunc f]> (f_informers f) /\
    f_startedInformers f' = f_startedInformers f.
Proof.
  unfold InformerFor, informer_of. destruct (f_informers f !! t) as [i|] eqn:Ht.
  - exists f. split; [done|]. split; [|done]. by rewrite insert_id.
  - destruct (f_customResync f !! t); by eexists.
Qed.

(** An informer stays once it is there. *)
Lemma InformerFor_keeps t i t' newFunc f :
  f_informers f !! t = Some i -> f_informers (InformerFor t' newFunc f).2 !! t = Some i.
Proof.
  intros Ht. destruct (InformerFor_run t' newFunc f) as (f' & -> & Hf' & _). cbn. rewrite Hf'.
  destruct (decide (t' = t)) as [->|Hne]; [|by rewrite lookup_insert_ne].
  rewrite lookup_insert_eq. unfold informer_of. by rewrite Ht.
Qed.

(** One informer per type.  Asking a factory twice for the informer of a
    type, whatever constructor each caller brings and whatever other informers
    are asked for in between, gives the same informer; it was made with the
    resync period configured for the type, or the default one. *)
Theorem InformerFor_shared t newFunc newFunc' others f :
  let '(r, f1) := InformerFor t newFunc f in
  let f2 := (for_range others (fun o => _ ← InformerFor o.1 o.2; mret tt) f1).2 in
  InformerFor t newFunc' f2 = (r, f2) /\
  (f_informers f !! t = None -> r = Ok (newFunc (default (f_defaultResync f) (f_customResync f !! t)))).
Proof.
  destruct (InformerFor_run t newFunc f) as (f1 & -> & Hi & _). split.
  - apply InformerFor_found. assert (Hf1 : f_informers f1 !! t = Some (informer_of t newFunc f))
      by by rewrite Hi, lookup_insert_eq.
    clear Hi. revert f1 Hf1. induction others as [|[t' nf] others IH]; intros f1 Hf1; [done|].
    cbn [for_range fst snd]. unfold mbind, M_bind.
    pose proof (InformerFor_keeps t _ t' nf f1 Hf1) as Hkeep.
    destruct (InformerFor_run t' nf f1) as (f' & Hrun & _). rewrite Hrun in Hkeep |- *. by apply IH.
  - intros Ht. unfold informer_of. by rewrite Ht.
Qed.

End vswitchconfigs.

(** ** Starting *)

(** What a program does to a factory. *)
Inductive factory_op :=
| OpInformerFor (t : string) (newFunc : Z -> Informer)
| OpStart
| OpWait (synced : Informer -> bool).

(** The factory and the types whose informer has been run, in order. *)
Definition factory_step (s : sharedInformerFactory * list string) (op : factory_op)
  : sharedInformerFactory * list string :=
  match op with
  | OpInformerFor t newFunc => ((InformerFor t newFunc s.1).2, s.2)
  | OpStart =>
      match Start s.1 with
      | (Ok fresh, f) => (f, s.2 ++ (fst <$> map_to_list fresh))
      | (_, f) => (f, s.2)
      end
  | OpWait synced => s
  end.

(** The started flags and the runs agree: a type is marked as started exactly
    when its informer runs, it runs once, and it is an informer of the
    factory. *)
Definition factory_wf (s : sharedInformerFactory * list string) : Prop :=
  NoDup s.2 /\
  (forall t, is_started s.1 t = true <-> t ∈ s.2) /\
  (forall t, t ∈ s.2 -> is_Some (f_informers s.1 !! t)).

Lemma is_started_after f t :
  is_started (Start f).2 t = is_started f t || bool_decide (is_Some (f_informers f !! t)).
Proof.
  unfold is_started at 1, Start. cbn [snd f_startedInformers]. rewrite lookup_union, lookup_fmap, map_lookup_filter.
  destruct (f_informers f !! t) as [i|] eqn:Ht; cbn.
  - rewrite orb_comm. cbn. case_guard as Hs; cbn; [by destruct (f_startedInformers f !! t)|].
    unfold is_started in Hs. by destruct (f_startedInformers f !! t) as [[]|].
  - rewrite orb_false_r. unfold is_started. by destruct (f_startedInformers f !! t).
Qed.

Lemma elem_of_fresh f t :
  t ∈ (fst <$> map_to_list (filter (fun kv => is_started f kv.1 = false) (f_informers f))) <->
  is_started f t = false /\ is_Some (f_informers f !! t).
Proof.
  rewrite list_elem_of_fmap. split.
  - intros ([t' i] & -> & Hin%elem_of_map_to_list). apply map_lookup_filter_Some in Hin as [Hi Hs]. by eauto.
  - intros [Hs [i Hi]]. exists (t, i). split; [done|]. apply elem_of_map_to_list, map_lookup_filter_Some. done.
Qed.

Lemma factory_step_wf s op : factory_wf s -> factory_wf (factory_step s op).
Proof.
  destruct s as [f runs]. intros (Hd & Hs & Hi). cbn [fst snd] in *. destruct op as [t newFunc| |synced]; [| |done].
  - cbn [factory_step fst snd]. destruct (InformerFor_run t newFunc f) as (f' & -> & Hf' & Hst). cbn [snd].
    split; [done|]. split; [intros t'; unfold is_started; cbn [fst]; rewrite Hst; apply Hs|].
    intros t' Ht'. cbn [fst]. rewrite Hf'. destruct (decide (t' = t)) as [->|]; [by rewrite lookup_insert_eq|].
    rewrite lookup_insert_ne by done. by apply Hi.
  - pose proof (is_started_after f) as Hafter. unfold Start in Hafter. cbn [snd] in Hafter.
    unfold factory_step, Start. cbn [fst snd]. split; [|split]; cbn [fst snd].
    + apply NoDup_app. split; [done|]. split; [|apply NoDup_fst_map_to_list].
      intros t Ht [Hs' _]%elem_of_fresh. apply Hs in Ht. congruence.
    + intros t. rewrite Hafter, elem_of_app, elem_of_fresh, <- Hs.
      destruct (is_started f t); cbn; [tauto|]. rewrite bool_decide_eq_true. split; [by right|by intros [|[_ ?]]].
    + intros t [Ht|[_ Ht]%elem_of_fresh]%elem_of_app; [by apply Hi|done].
Qed.

(** Every requested informer runs exactly once.  From a new factory,
    after any sequence of requests, starts and waits that ends with a start,
    the informers that run are those of the requested types, each started
    once. *)
Theorem Start_runs_once resync ops :
  let s := foldl factory_step (NewSharedInformerFactory resync, []) (ops ++ [OpStart]) in
  NoDup s.2 /\ forall t, t ∈ s.2 <-> is_Some (f_informers s.1 !! t).
Proof.
  rewrite foldl_app. cbn [foldl]. set (s0 := foldl _ _ ops).
  assert (Hwf : factory_wf s0).
  { subst s0. assert (H0 : factory_wf (NewSharedInformerFactory resync, [])).
    { split; [constructor|]. split; [|by intros t ?%elem_of_nil].
      intros t. unfold is_started. cbn [fst snd]. change (f_startedInformers _) with (∅ : gmap string bool).
      rewrite lookup_empty. split; [done|by intros ?%elem_of_nil]. }
    revert H0. generalize (NewSharedInformerFactory resync, [] : list string).
    induction ops as [|op ops IH]; intros s Hs; [done|]. cbn [foldl]. by apply IH, factory_step_wf. }
  pose proof (factory_step_wf s0 OpStart Hwf) as (Hd & Hs & Hi). split; [done|].
  intros t. split; [apply Hi|]. intros Ht. apply Hs.
  replace (factory_step s0 OpStart).1 with (Start s0.1).2 in * by done.
  rewrite is_started_after. replace (f_informers (Start s0.1).2) with (f_informers s0.1) in Ht by done.
  by rewrite (bool_decide_true _ Ht), orb_true_r.
Qed.

(** No started informer, nothing to wait for. *)
Lemma not_started_not_waited synced f : f_startedInformers f = ∅ -> WaitForCacheSync synced f = ∅.
Proof.
  intros Hnone.
  unfold WaitForCacheSync. apply map_eq. intros t. rewrite lookup_fmap, map_lookup_filter, lookup_empty.
  destruct (f_informers _ !! t); [|done]. cbn [mbind option_bind].
  rewrite option_guard_False; [done|]. unfold is_started. by rewrite Hnone, lookup_empty.
Qed.

(** A factory that was never started is not waited for.  Whatever
    informers were requested, WaitForCacheSync before the first Start looks at
    none of them and returns at once. *)
Theorem wait_before_start resync ops synced :
  Forall (fun op => match op with OpStart => False | _ => True end) ops ->
  WaitForCacheSync synced (foldl factory_step (NewSharedInformerFactory resync, []) ops).1 = ∅.
Proof.
  intros Hops. assert (Hnone : f_startedInformers (foldl factory_step (NewSharedInformerFactory resync, []) ops).1 = ∅).
  { assert (H0 : f_startedInformers (NewSharedInformerFactory resync) = ∅) by done.
    revert H0. change (NewSharedInformerFactory resync) with (NewSharedInformerFactory resync, [] : list string).1 at 1.
    generalize (NewSharedInformerFactory resync, [] : list string).
    induction Hops as [|op ops Hop Hops IH]; intros s Hs; [done|]. cbn [foldl]. apply IH.
    destruct op as [t nf| |]; [|done|done]. cbn [factory_step fst].
    destruct (InformerFor_run t nf s.1) as (f' & Hrun & _ & Hst). by rewrite Hrun, <- Hs. }
  by apply not_started_not_waited.
Qed.
End factory.

(** ** Witness *)

Lemma wait_before_start_witness :
  WaitForCacheSync (fun _ : nat => true)
    (foldl factory_step (NewSharedInformerFactory (ListOptions := unit) 0, [])
       [OpInformerFor "*v1.Pod" (fun _ => 1); OpWait (fun _ => true)]).1 = ∅.
Proof. apply wait_before_start. repeat constructor. Defined.

Lemma InformerFor_shared_witness :
  let f := NewSharedInformerFactory (Informer := Z) (ListOptions := unit) 30 in
  InformerFor "*v1.Pod" (fun _ => 7%Z) (InformerFor "*v1.Pod" id f).2 = (Ok 30%Z, (InformerFor "*v1.Pod" id f).2).
Proof. exact (proj1 (InformerFor_shared "*v1.Pod" id (fun _ => 7%Z) [] (NewSharedInformerFactory 30))). Defined.
