(* ===== verification/Controller.v ===== *)
(** * The OpenFlow controller: its state, and the flows of nodes and pods

    [controllers/openflow/controller.go] (the [controller] struct,
    [NewController]) and the part of [controllers/openflow/flows.go] that
    writes the default flows, the flows of a node's [VSwitchConfig] and the
    flows of a pod.

    The methods are state transformers over the receiver and the outside
    world, and append text to the flow buffer as the code does.  [appends]
    says what a method adds to the buffer as a list of entries; its lemmas
    compose along the code, and are the hint database [appends].  The lists
    themselves ([default_spec], [vswitch_spec], [pod_spec]) are the
    specification used by the packet-level theorems of later files. *)
From S2P Require Import Prelude GoStrings GoNet Exec Json Objects Labels Flows PortCache OvsSim.

Definition tableEntry : Z := 0.
Definition tableNetworkPolicies : Z := 10.
Definition tableClassification : Z := 20.
Definition tableL3Forwarding : Z := 30.
Definition tableL2Forwarding : Z := 40.
Definition tableL3Rewrites : Z := 50.
Definition tableL2Rewrites : Z := 60.
Definition tableProxy : Z := 70.
Definition tableNAT : Z := 80.
Definition tableAudit : Z := 90.
Definition tableLocalARP : Z := 100.
Definition podMacAddr : string := "aa:bb:cc:dd:ee:ff".

Definition clusterWidePort : string := "cluster-wide".
Definition overlayPort : string := "overlay0".

(** The informers' stores hold network policies and vswitch configs too; the
    program lists them with [labels.Everything()] only, which never looks at
    the labels. *)
#[export] Instance NetworkPolicy_meta : HasMeta NetworkPolicy :=
  {| meta_Namespace := np_Namespace; meta_Labels := fun _ => ∅ |}.
#[export] Instance VSwitchConfig_meta : HasMeta VSwitchConfig :=
  {| meta_Namespace := fun _ => ""; meta_Labels := fun _ => ∅ |}.

(** [type controller struct].  [connManager] is the argument of [Run]; the
    listers are the informer stores they read.  [flowsLock] makes [syncFlows]
    atomic. *)
Record controller := MkController {
  datapathID : Z;
  nodeName : string;
  bridgeName : string;
  gatewayIP : string;
  bridgeMAC : string;
  clusterWideMAC : string;
  podCIDR : string;
  clusterCIDR : string;
  clusterWideOFPort : Z;
  overlayOFPort : Z;
  c_flows : FlowsBuffer;
  c_portCache : portCache;
  podLister : Indexer Pod;
  nsLister : Indexer Namespace;
  netPolLister : Indexer NetworkPolicy;
  vswitchLister : Indexer VSwitchConfig
}.

Definition set_flows (b : FlowsBuffer) (c : controller) : controller :=
  let '(MkController d n br g bm cm p cc co o _ pc pl nl npl vl) := c in
  MkController d n br g bm cm p cc co o b pc pl nl npl vl.
Definition set_portCache (pc : portCache) (c : controller) : controller :=
  let '(MkController d n br g bm cm p cc co o b _ pl nl npl vl) := c in
  MkController d n br g bm cm p cc co o b pc pl nl npl vl.
Definition set_datapathID (d : Z) (c : controller) : controller :=
  let '(MkController _ n br g bm cm p cc co o b pc pl nl npl vl) := c in
  MkController d n br g bm cm p cc co o b pc pl nl npl vl.

(** ** Raw ARP responders *)

(** The first [Sprintf] of [defaultFlows], also used by [flowsForPod]: answer
    for one address. *)
Definition arp_responder (ip mac : string) : string :=
  "table=" +:+ Itoa tableLocalARP +:+ " priority=500 dl_type=0x0806 arp_tpa=" +:+ ip +:+
  " actions=move:NXM_OF_ETH_SRC[]->NXM_OF_ETH_DST[],mod_dl_src:" +:+ mac +:+
  ",load:0x2->NXM_OF_ARP_OP[],move:NXM_NX_ARP_SHA[]->NXM_NX_ARP_THA[],move:NXM_OF_ARP_SPA[]->NXM_OF_ARP_TPA[],set_field:"
  +:+ mac +:+ "->arp_sha,set_field:" +:+ ip +:+ "->arp_spa,in_port".

(** The second one: answer for every address of a block. *)
Definition arp_responder_block (cidr mac : string) : string :=
  "table=" +:+ Itoa tableLocalARP +:+ " priority=400 dl_type=0x0806 arp_tpa=" +:+ cidr +:+
  " actions=move:NXM_OF_ETH_SRC[]->NXM_OF_ETH_DST[],mod_dl_src:" +:+ mac +:+
  ",load:0x2->NXM_OF_ARP_OP[],set_field:" +:+ mac +:+
  "->arp_sha,move:NXM_OF_ARP_TPA[]->NXM_OF_ARP_SPA[],move:NXM_NX_ARP_SHA[]->NXM_NX_ARP_THA[],move:NXM_OF_ARP_SPA[]->NXM_OF_ARP_TPA[],in_port".

(** ** Methods *)

Section methods.
Context {W : Type} `{HExec : Exec W}.

Abbreviation st := (controller * W)%type.

(** [c.flows.AddFlow(flow)] *)
Definition add_flow (f : Flow) : M st unit :=
  modify (fun s => (set_flows (AddFlow f (c_flows s.1)) s.1, s.2)).

(** [NewController]: the informers' stores, the names and the blocks; the two
    OpenFlow ports are asked of ovs-vsctl. *)
Definition NewController (pods : Indexer Pod) (namespaces : Indexer Namespace)
    (netPols : Indexer NetworkPolicy) (vswitches : Indexer VSwitchConfig)
    (bridge bridge_mac cluster_wide_mac node pod_cidr cluster_cidr : string)
  : M W controller :=
  podIPNet ← lift (ParseCIDR pod_cidr);
  let gateway := IP_String (NextIP (or_nil (Mask (net_IP podIPNet) (net_Mask podIPNet)))) in
  cluster_wide_port ← ofPortFromName clusterWidePort;
  overlay_port ← ofPortFromName overlayPort;
  mret (MkController 0 node bridge gateway bridge_mac cluster_wide_mac pod_cidr cluster_cidr
          cluster_wide_port overlay_port NewFlowsBuffer NewPortCache
          pods namespaces netPols vswitches).

Definition defaultFlows : M st unit :=
  c ← gets fst;
  _ ← add_flow (NewFlow ∙ WithTable tableEntry ∙
        WithPriority 1000 ∙ WithActionResubmit tableNetworkPolicies);
  _ ← add_flow (NewFlow ∙ WithTable tableNetworkPolicies ∙
        WithPriority 0 ∙ WithActionResubmit tableClassification);
  _ ← add_flow (NewFlow ∙ WithTable tableClassification ∙
        WithPriority 0 ∙ WithActionLocal);
  _ ← add_flow (NewFlow ∙ WithTable tableClassification ∙
        WithPriority 500 ∙ WithProtocol "ip" ∙ WithIPDest (gatewayIP c) ∙ WithActionLocal);
  _ ← add_flow (NewFlow ∙ WithTable tableClassification ∙
        WithPriority 300 ∙ WithProtocol "ip" ∙ WithIPDest (podCIDR c) ∙
        WithActionResubmit tableL2Rewrites);
  _ ← add_flow (NewFlow ∙ WithTable tableClassification ∙
        WithPriority 100 ∙ WithProtocol "ip" ∙ WithIPDest (clusterCIDR c) ∙
        WithActionResubmit tableL3Forwarding);
  _ ← add_flow (NewFlow ∙ WithTable tableClassification ∙
        WithPriority 100 ∙ WithProtocol "arp" ∙ WithActionResubmit tableLocalARP);
  _ ← add_flow (NewFlow ∙ WithRaw (arp_responder (gatewayIP c) (bridgeMAC c)));
  _ ← add_flow (NewFlow ∙ WithRaw (arp_responder_block (clusterCIDR c) podMacAddr));
  mret tt.

Definition flowsForVSwitch (vswitch : VSwitchConfig) : M st unit :=
  c ← gets fst;
  let isCurrentNode := bool_decide (vsc_Name vswitch = nodeName c) in
  let podCIDR := PodCIDR (vsc_Spec vswitch) in
  _ ← (if negb isCurrentNode then
         add_flow (NewFlow ∙ WithTable tableL3Forwarding ∙
           WithPriority 150 ∙ WithProtocol "ip" ∙ WithIPDest podCIDR ∙
           WithActionTunnelDest (OverlayIP (vsc_Spec vswitch)) ∙
           WithActionOutputPort (overlayOFPort c))
       else
         add_flow (NewFlow ∙ WithTable tableL3Forwarding ∙
           WithPriority 100 ∙ WithProtocol "ip" ∙ WithIPDest podCIDR ∙
           WithActionResubmit tableL2Rewrites));
  let nodeIP := OverlayIP (vsc_Spec vswitch) in
  if isCurrentNode then
    _ ← add_flow (NewFlow ∙ WithTable tableClassification ∙
          WithPriority 100 ∙ WithProtocol "ip" ∙ WithIPDest nodeIP ∙ WithIPSrc podCIDR ∙
          WithActionModDlDest (bridgeMAC c) ∙ WithActionLocal);
    _ ← add_flow (NewFlow ∙ WithTable tableClassification ∙
          WithPriority 50 ∙ WithProtocol "ip" ∙ WithIPDest nodeIP ∙
          WithActionModDlDest (clusterWideMAC c) ∙ WithActionOutputPort (clusterWideOFPort c));
    mret tt
  else
    _ ← add_flow (NewFlow ∙ WithTable tableClassification ∙
          WithPriority 50 ∙ WithProtocol "ip" ∙ WithIPDest nodeIP ∙
          WithActionResubmit tableL3Forwarding);
    _ ← add_flow (NewFlow ∙ WithTable tableL3Forwarding ∙
          WithPriority 100 ∙ WithProtocol "ip" ∙ WithIPDest nodeIP ∙
          WithActionTunnelDest nodeIP ∙ WithActionOutputPort (overlayOFPort c));
    mret tt.

(** A [net.ParseIP] that fails is a nil address, which no block contains. *)
Definition isLocalIP (c : controller) (ip : string) : result bool :=
  ipnet ← ParseCIDR (podCIDR c);
  Ok (net_Contains ipnet (or_nil (ParseIP ip))).

Definition not_local_msg (podIP : string) : string :=
  "error checking if IP " +:+ quote podIP +:+ " is local".

(** [c.portCache.GetPortInfo(pod)] *)
Definition c_GetPortInfo (pod : Pod) : M st portInfo :=
  zoom (fun s => (c_portCache s.1, s.2)) (fun t s => (set_portCache t.1 s.1, t.2))
    (GetPortInfo pod).

Definition flowsForPod (pod : Pod) : M st unit :=
  c ← gets fst;
  let podIP := pod_PodIP pod in
  if bool_decide (podIP = "") then mret tt else
  local ← lift (wrap_err (not_local_msg podIP) (isLocalIP c podIP));
  if negb local then mret tt else
  podPortInfo ← wrapped ("error checking port info for pod " +:+ pod_Namespace pod +:+ "/" +:+
                         pod_Name pod) (c_GetPortInfo pod);
  let ofport := pi_ofport podPortInfo in
  _ ← add_flow (NewFlow ∙ WithTable tableL2Rewrites ∙ WithPriority 100 ∙
        WithProtocol "ip" ∙ WithIPDest podIP ∙ WithActionModDlDest podMacAddr ∙
        WithActionOutputPort ofport);
  _ ← add_flow (NewFlow ∙ WithRaw (arp_responder podIP podMacAddr));
  mret tt.

Definition podNeedsUpdate (c : controller) (pod : Pod) : result bool :=
  let podIP := pod_PodIP pod in
  if bool_decide (podIP = "") then Ok false else
  wrap_err (not_local_msg podIP) (isLocalIP c podIP).
End methods.

(** ** What the methods append *)

Definition grow (fs : list Flow) (c : controller) : controller :=
  set_flows (add_flows fs (c_flows c)) c.

Lemma grow_nil c : grow [] c = c.
Proof. destruct c. unfold grow. cbn. by rewrite add_flows_nil. Qed.
Lemma grow_app fs gs c : grow (fs ++ gs) c = grow gs (grow fs c).
Proof. destruct c. unfold grow. cbn. by rewrite add_flows_app. Qed.

(** Every field but the buffer is untouched. *)
Record same_config (c c' : controller) : Prop := {
  sc_node : nodeName c = nodeName c';
  sc_bridge : bridgeName c = bridgeName c';
  sc_gateway : gatewayIP c = gatewayIP c';
  sc_bridgeMAC : bridgeMAC c = bridgeMAC c';
  sc_cwMAC : clusterWideMAC c = clusterWideMAC c';
  sc_podCIDR : podCIDR c = podCIDR c';
  sc_clusterCIDR : clusterCIDR c = clusterCIDR c';
  sc_cwPort : clusterWideOFPort c = clusterWideOFPort c';
  sc_overlay : overlayOFPort c = overlayOFPort c'
}.

Section appends.
Context {W : Type} `{HExec : Exec W}.

(** From a state satisfying [P], [m] succeeds and its only effect is to append
    the text of the entries [fs]. *)
Definition appends (m : M (controller * W) unit) (fs : controller -> list Flow) : Prop :=
  forall c w, m (c, w) = (Ok tt, (grow (fs c) c, w)).

(** The entries do not depend on the buffer they are appended to. *)
Definition stable (fs : controller -> list Flow) : Prop :=
  forall gs c, fs (grow gs c) = fs c.

Lemma appends_ret : appends (mret tt) (fun _ => []).
Proof. intros c w. by rewrite grow_nil. Qed.

Lemma appends_add f : appends (add_flow f) (fun _ => [f]).
Proof.
  intros c w. unfold add_flow, modify, grow. cbn [fst snd]. by rewrite AddFlow_add.
Qed.

Lemma appends_seq m (k : unit -> M (controller * W) unit) fs gs :
  appends m fs -> appends (k tt) gs -> stable gs ->
  appends (m ≫= k) (fun c => fs c ++ gs c).
Proof.
  intros Hm Hk Hs c w. unfold mbind, M_bind. by rewrite Hm, Hk, Hs, grow_app.
Qed.

Lemma appends_gets (k : controller -> M (controller * W) unit) (fs : controller -> controller -> list Flow) :
  (forall c, appends (k c) (fs c)) ->
  appends (gets fst ≫= k) (fun c => fs c c).
Proof. intros Hk c w. unfold gets, mbind, M_bind. cbn [fst]. apply Hk. Qed.

Lemma appends_if (b : bool) m m' fs fs' :
  appends m fs -> appends m' fs' ->
  appends (if b then m else m') (fun c => if b then fs c else fs' c).
Proof. by destruct b. Qed.

Lemma appends_for_range {A} (l : list A) (f : A -> M (controller * W) unit) fs :
  (forall x, In x l -> appends (f x) (fs x)) -> (forall x, stable (fs x)) ->
  appends (for_range l f) (fun c => flat_map (fun x => fs x c) l).
Proof.
  intros Hf Hs. induction l as [|x l IH]; cbn [for_range flat_map]; [apply appends_ret|].
  apply appends_seq; [apply Hf; by left|apply IH; intros; apply Hf; by right|].
  intros gs c. clear Hf IH. induction l as [|y l IH]; [done|]. cbn. by rewrite Hs, IH.
Qed.

Lemma appends_ext m fs gs : appends m fs -> (forall c, fs c = gs c) -> appends m gs.
Proof. intros Hm He c w. by rewrite Hm, He. Qed.

Lemma stable_const fs : stable (fun _ => fs).
Proof. done. Qed.
Lemma stable_app fs gs : stable fs -> stable gs -> stable (fun c => fs c ++ gs c).
Proof. intros Hf Hg l c. by rewrite Hf, Hg. Qed.
End appends.

Create HintDb appends.
#[export] Hint Resolve appends_ret appends_add appends_if stable_const stable_app : appends.

(** ** Specification of the default, node and pod flows *)

Definition ip_flow (t p : Z) (dst : string) : Flow :=
  NewFlow ∙ WithTable t ∙ WithPriority p ∙ WithProtocol "ip" ∙ WithIPDest dst.

Definition default_spec (c : controller) : list Flow :=
  [ NewFlow ∙ WithTable 0 ∙ WithPriority 1000 ∙ WithActionResubmit 10;
    NewFlow ∙ WithTable 10 ∙ WithPriority 0 ∙ WithActionResubmit 20;
    NewFlow ∙ WithTable 20 ∙ WithPriority 0 ∙ WithActionLocal;
    ip_flow 20 500 (gatewayIP c) ∙ WithActionLocal;
    ip_flow 20 300 (podCIDR c) ∙ WithActionResubmit 60;
    ip_flow 20 100 (clusterCIDR c) ∙ WithActionResubmit 30;
    NewFlow ∙ WithTable 20 ∙ WithPriority 100 ∙ WithProtocol "arp" ∙ WithActionResubmit 100;
    NewFlow ∙ WithRaw (arp_responder (gatewayIP c) (bridgeMAC c));
    NewFlow ∙ WithRaw (arp_responder_block (clusterCIDR c) podMacAddr) ].

Definition local_node_spec (c : controller) (v : VSwitchConfigSpec) : list Flow :=
  [ ip_flow 30 100 (PodCIDR v) ∙ WithActionResubmit 60;
    ip_flow 20 100 (OverlayIP v) ∙ WithIPSrc (PodCIDR v) ∙
      WithActionModDlDest (bridgeMAC c) ∙ WithActionLocal;
    ip_flow 20 50 (OverlayIP v) ∙
      WithActionModDlDest (clusterWideMAC c) ∙ WithActionOutputPort (clusterWideOFPort c) ].

Definition remote_node_spec (c : controller) (v : VSwitchConfigSpec) : list Flow :=
  [ ip_flow 30 150 (PodCIDR v) ∙ WithActionTunnelDest (OverlayIP v) ∙
      WithActionOutputPort (overlayOFPort c);
    ip_flow 20 50 (OverlayIP v) ∙ WithActionResubmit 30;
    ip_flow 30 100 (OverlayIP v) ∙ WithActionTunnelDest (OverlayIP v) ∙
      WithActionOutputPort (overlayOFPort c) ].

Definition vswitch_spec (v : VSwitchConfig) (c : controller) : list Flow :=
  if bool_decide (vsc_Name v = nodeName c) then local_node_spec c (vsc_Spec v)
  else remote_node_spec c (vsc_Spec v).

(** The two entries of a local pod that has a port. *)
Definition pod_flows (podIP : string) (ofport : Z) : list Flow :=
  [ ip_flow 60 100 podIP ∙ WithActionModDlDest podMacAddr ∙ WithActionOutputPort ofport;
    NewFlow ∙ WithRaw (arp_responder podIP podMacAddr) ].

(** A pod of this node: it has an address, inside the node's block. *)
Definition pod_is_local (c : controller) (pod : Pod) : bool :=
  negb (bool_decide (pod_PodIP pod = "")) &&
  match isLocalIP c (pod_PodIP pod) with Ok b => b | _ => false end.

Section specs.
Context {W : Type} `{HExec : Exec W}.

Lemma default_spec_stable : stable default_spec.
Proof. by intros gs []. Qed.
Lemma vswitch_spec_stable v : stable (vswitch_spec v).
Proof. by intros gs []. Qed.

Lemma add_flow_bind f (k : unit -> M (controller * W) unit) c w :
  (add_flow f ≫= k) (c, w) = k tt (grow [f] c, w).
Proof.
  unfold add_flow, modify, mbind, M_bind, grow. cbn [fst snd]. by rewrite AddFlow_add.
Qed.

Lemma gets_bind {A} (k : controller -> M (controller * W) A) c w :
  (gets fst ≫= k) (c, w) = k c (c, w).
Proof. done. Qed.

Lemma defaultFlows_appends : appends (W := W) defaultFlows default_spec.
Proof.
  intros c w. unfold defaultFlows. rewrite gets_bind, !add_flow_bind, <- !grow_app. done.
Qed.

Lemma flowsForVSwitch_appends v : appends (W := W) (flowsForVSwitch v) (vswitch_spec v).
Proof.
  intros c w. unfold flowsForVSwitch, vswitch_spec. rewrite gets_bind. cbv zeta.
  destruct (bool_decide _); cbn [negb]; rewrite !add_flow_bind, <- !grow_app; done.
Qed.

(** A pod: nothing, or its two entries, or the error of the lookup; the cache
    is the one [GetPortInfo] leaves. *)
Lemma flowsForPod_run pod c (w : W) :
  flowsForPod pod (c, w) =
  if bool_decide (pod_PodIP pod = "") then (Ok tt, (c, w)) else
  match isLocalIP c (pod_PodIP pod) with
  | Err e => (Err (ErrWrap (not_local_msg (pod_PodIP pod)) e), (c, w))
  | Panic => (Panic, (c, w))
  | Ok false => (Ok tt, (c, w))
  | Ok true =>
      match GetPortInfo pod (c_portCache c, w) with
      | (Ok port, (pc, w')) =>
          (Ok tt, (grow (pod_flows (pod_PodIP pod) (pi_ofport port)) (set_portCache pc c), w'))
      | (r, (pc, w')) =>
          (wrap_err ("error checking port info for pod " +:+ pod_Namespace pod +:+ "/" +:+
                     pod_Name pod) (_ ← r; Ok tt), (set_portCache pc c, w'))
      end
  end.
Proof.
  unfold flowsForPod. rewrite gets_bind. cbv zeta. destruct (bool_decide _); [done|].
  unfold lift. destruct (isLocalIP c _) as [[]|e|] eqn:Hl; [|done..].
  change (lift _ ≫= ?k) with (fun s => k true s). cbv beta.
  unfold mbind at 1, M_bind at 1. cbn [wrap_err negb].
  unfold wrapped, c_GetPortInfo, zoom, mbind at 1, M_bind at 1. cbn [fst snd].
  destruct (GetPortInfo pod _) as [[port|e|] [pc w']]; cbn [fst snd wrap_err]; [|done..].
  rewrite !add_flow_bind, <- grow_app. done.
Qed.
End specs.

(** ** Properties *)

(** A division by a power of two ignores a low bit that fits. *)
Lemma div_pow_low a k : (1 <= k)%Z -> ((2 ^ k * a + 1) / 2 ^ k = a)%Z.
Proof.
  intros Hk. assert (2 <= 2 ^ k)%Z by (apply (Z.pow_le_mono_r 2 1 k); lia).
  symmetry. apply Z.div_unique_pos with 1%Z; lia.
Qed.

(** isLocalIP decides membership in the node's IPv4 block: an address is
    local exactly when its leading bits are those of the block; text that is
    not an address is never local; a block that does not parse is an error,
    whatever the address. *)
Theorem isLocalIP_spec c l n :
  length l = 4 -> bytes l -> (0 <= n <= 32)%Z -> podCIDR c = cidr_text l n ->
  (forall a, length a = 4 -> bytes a ->
     exists b, isLocalIP c (dotted a) = Ok b /\
       (b = true <-> (be_val l / 2 ^ (32 - n) = be_val a / 2 ^ (32 - n))%Z)) /\
  (forall s, ParseIP s = None -> isLocalIP c s = Ok false) /\
  (forall c' s, is_ok (ParseCIDR (podCIDR c')) = false -> is_ok (isLocalIP c' s) = false).
Proof.
  intros Hl Hb Hn Hc. unfold isLocalIP. rewrite Hc. split; [|split].
  - intros a Ha Hba. rewrite ParseCIDR_ipv4, ParseIP_dotted by done. cbn [mbind result_bind or_nil default].
    eexists. split; [done|]. by apply net_Contains_ipv4.
  - intros s Hs. rewrite ParseCIDR_ipv4, Hs by done. cbn. by rewrite net_Contains_nil.
  - intros c' s. by destruct (ParseCIDR (podCIDR c')).
Qed.

Section new.
Context {W : Type} `{HExec : Exec W}.

(** C33.  NewController: the gateway of an IPv4 pod block (outside 0.0.0.0/8
    and shorter than /32) is the address after the network address, it lies
    in the block, and the controller starts with an empty buffer and cache;
    a pod block that does not parse is reported before any command runs. *)
Theorem NewController_gateway pods nss nps vs br bm cm nd l n cluster (w : W) :
  length l = 4 -> bytes l -> (0 <= n <= 31)%Z -> (2 ^ 24 <= be_val (net_IP (ipv4_net l n)))%Z ->
  (forall c w', NewController pods nss nps vs br bm cm nd (cidr_text l n) cluster w = (Ok c, w') ->
    exists g, gatewayIP c = dotted g /\ length g = 4 /\ bytes g /\
      be_val g = (be_val (net_IP (ipv4_net l n)) + 1)%Z /\
      isLocalIP c (gatewayIP c) = Ok true /\
      c_flows c = NewFlowsBuffer /\ c_portCache c = NewPortCache) /\
  (forall cidr e, ParseCIDR cidr = Err e ->
    NewController pods nss nps vs br bm cm nd cidr cluster w = (Err e, w)).
Proof.
  intros Hl Hb Hn Hv. split.
  2:{ intros cidr e He. unfold NewController, lift, mbind, M_bind. by rewrite He. }
  intros c w'. set (net := ipv4_net l n) in *.
  assert (Hi : length (net_IP net) = 4) by by apply zip_land_length.
  assert (Hm : bytes (net_IP net)).
  { subst net. unfold ipv4_net. cbn [net_IP]. unfold IPv4len. rewrite <- Hl. by apply masked_bytes. }
  assert (Hval : be_val (net_IP net) = (2 ^ (32 - n) * (be_val l / 2 ^ (32 - n)))%Z)
    by (apply ipv4_net_val; (done || lia)).
  assert (Hmask : Mask (net_IP net) (net_Mask net) = Some (net_IP net)).
  { by apply Mask_ipv4_net. }
  assert (Hhi : (be_val (net_IP net) < 2 ^ 32 - 1)%Z) by (by apply ipv4_net_bounds).
  destruct (NextIP_v4 (net_IP net) Hi Hm ltac:(lia)) as (Hg4 & Hgb & Hgv).
  unfold NewController, lift, mbind, M_bind. rewrite ParseCIDR_ipv4 by (done || lia).
  fold net. rewrite Hmask. cbn [or_nil default].
  destruct (ofPortFromName clusterWidePort w) as [[p1| |] w1]; try done.
  destruct (ofPortFromName overlayPort w1) as [[p2| |] w2]; try done.
  intros [= <- <-]. exists (NextIP (net_IP net)).
  cbn [gatewayIP c_flows c_portCache]. rewrite IP_String_v4 by done.
  split; [done|]. do 3 (split; [done|]). split; [|done].
  unfold isLocalIP. cbn [podCIDR].
  rewrite ParseCIDR_ipv4, ParseIP_dotted by (done || lia).
  cbn [mbind result_bind]. f_equal.
  apply (net_Contains_ipv4 l n (NextIP (net_IP net))); try done; try lia. rewrite Hgv, Hval.
  by rewrite div_pow_low by lia.
Qed.
End new.

(** ** Witnesses *)

#[local] Existing Instance ovs_exec.

Lemma byte_list (l : list Z) : forallb (fun x => (0 <=? x)%Z && (x <? 256)%Z) l = true -> bytes l.
Proof.
  rewrite forallb_forall. intros Hl. apply Forall_forall. intros x Hx.
  apply list_elem_of_In, Hl in Hx. unfold is_byte. lia.
Qed.

Definition ovs_node : ovs := {|
  ovs_ports := [{| op_name := clusterWidePort; op_namespace := ""; op_pod := ""; op_mac := ""; op_ofport := "2" |};
                {| op_name := overlayPort; op_namespace := ""; op_pod := ""; op_mac := ""; op_ofport := "1" |}];
  ovs_flows := ∅; ovs_down := false |}.

Definition no_objects {T} : Indexer T := {| idx_List := []; idx_has_namespace := true |}.

Definition new_demo : result controller * ovs :=
  NewController no_objects no_objects no_objects no_objects "k-vswitch0" "0a:00:00:00:00:01"
    "0a:00:00:00:00:02" "node-a" (cidr_text [10; 1; 0; 0]%Z 24) "10.0.0.0/8" ovs_node.

Lemma isLocalIP_spec_witness :
  exists c, new_demo.1 = Ok c /\ isLocalIP c (dotted [10; 1; 0; 7]%Z) = Ok true.
Proof.
  eexists. split; [vm_compute; reflexivity|].
  match goal with |- isLocalIP ?c _ = _ =>
    destruct (isLocalIP_spec c [10; 1; 0; 0]%Z 24) as [H _] end;
    [reflexivity|by apply byte_list|lia|vm_compute; reflexivity|].
  destruct (H [10; 1; 0; 7]%Z) as (b & Hb & Hiff); [reflexivity|by apply byte_list|].
  rewrite Hb. by rewrite (proj2 Hiff).
Defined.

Lemma NewController_gateway_witness :
  exists c g, new_demo.1 = Ok c /\ gatewayIP c = dotted g /\ be_val g = (be_val [10; 1; 0; 0] + 1)%Z.
Proof.
  destruct (NewController_gateway no_objects no_objects no_objects no_objects "k-vswitch0"
    "0a:00:00:00:00:01" "0a:00:00:00:00:02" "node-a" [10; 1; 0; 0]%Z 24 "10.0.0.0/8" ovs_node)
    as [H _]; [reflexivity|by apply byte_list|lia|vm_compute; discriminate|].
  destruct new_demo as [[c|e|] w'] eqn:E; [|vm_compute in E; discriminate E..].
  destruct (H c w' E) as (g & Hg & _ & _ & Hv & _). exists c, g.
  split; [reflexivity|]. split; [exact Hg|]. rewrite Hv. reflexivity.
Defined.
