(* ===== verification/NetPol.v ===== *)
(** * The flows of network policies

    [flowsForNetworkPolicy], [flowsForIngressNetworkPolicy],
    [flowsForEgressNetworkPolicy] and [getPodIPs] of
    [controllers/openflow/flows.go], and the list of entries each of them
    appends ([ingress_spec], [egress_spec], [netpol_spec]).

    A port of a rule whose [Port] or [Protocol] pointer is nil makes the code
    dereference nil: [ports_set] is the condition under which it does not, and
    [flowsForNetworkPolicy_nil_port] shows what happens otherwise. *)
From S2P Require Import Prelude GoStrings GoNet Exec Objects Labels Flows PortCache Controller OvsSim.

(** ** The code *)

Fixpoint getPodIPs (pods : list Pod) : list string :=
  match pods with
  | [] => []
  | pod :: pods' =>
      let podIP := pod_PodIP pod in
      if bool_decide (podIP = "") then getPodIPs pods' else podIP :: getPodIPs pods'
  end.

(** The loop of [flowsForNetworkPolicy] over the selected pods: the addresses
    of this node's pods; an address that cannot be checked is skipped. *)
Fixpoint localPodIPs (c : controller) (pods : list Pod) : result (list string) :=
  match pods with
  | [] => Ok []
  | pod :: pods' =>
      let podIP := pod_PodIP pod in
      if bool_decide (podIP = "") then localPodIPs c pods' else
      match isLocalIP c podIP with
      | Ok true => ips ← localPodIPs c pods'; Ok (podIP :: ips)
      | Ok false | Err _ => localPodIPs c pods'
      | Panic => Panic
      end
  end.

(** [port.Port.IntValue()] and [string( *port.Protocol)] through pointers. *)
Definition port_IntValue (port : NetworkPolicyPort) : result Z :=
  match npp_Port port with Some i => Ok (IntValue i) | None => Panic end.
Definition port_Protocol (port : NetworkPolicyPort) : result string :=
  match npp_Protocol port with Some p => Ok p | None => Panic end.

(** The namespaces a peer refers to: the policy's own, or the ones the
    namespace selector finds, if it finds any. *)
Definition peer_namespaces (c : controller) (own : string) (nsel : option LabelSelector)
  : list string :=
  match nsel with
  | None => [own]
  | Some sel =>
      let nsList := ListAll (nsLister c) (AsSelector (MatchLabels sel)) in
      if (0 <? length nsList)%nat then ns_Name <$> nsList else [own]
  end.

Definition peer_selector (psel : LabelSelector) : Selector :=
  if bool_decide (MatchLabels psel = ∅) then Everything else AsSelector (MatchLabels psel).

Section code.
Context {W : Type} `{HExec : Exec W}.
Abbreviation st := (controller * W)%type.

(** The body repeated in the innermost loop over the ports of a rule: allow
    one port of the traffic that [addr] selects. *)
Definition allow_port (addr : Flow -> Flow) (port : NetworkPolicyPort) : M st unit :=
  portNum ← lift (port_IntValue port);
  protocol ← lift (ToLower <$> port_Protocol port);
  _ ← (if bool_decide (protocol = "tcp") then
         add_flow (addr (NewFlow ∙ WithTable tableNetworkPolicies ∙
           WithPriority 1000 ∙ WithProtocol "tcp" ∙ WithTCPDestPort portNum) ∙
           WithActionResubmit tableClassification)
       else mret tt);
  (if bool_decide (protocol = "udp") then
     add_flow (addr (NewFlow ∙ WithTable tableNetworkPolicies ∙
       WithPriority 1000 ∙ WithProtocol "udp" ∙ WithUDPDestPort portNum) ∙
       WithActionResubmit tableClassification)
   else mret tt).

(** The test around that loop: without ports, allow all IP traffic. *)
Definition allow_ports (ports : list NetworkPolicyPort) (addr : Flow -> Flow) : M st unit :=
  if (length ports =? 0)%nat then
    add_flow (addr (NewFlow ∙ WithTable tableNetworkPolicies ∙
      WithPriority 1000 ∙ WithProtocol "ip") ∙ WithActionResubmit tableClassification)
  else for_range ports (allow_port addr).

Definition flowsForIngressNetworkPolicy (netPol : NetworkPolicy) (localPodIPs : list string)
  : M st unit :=
  _ ← for_range localPodIPs (fun podIP =>
        add_flow (NewFlow ∙ WithTable tableNetworkPolicies ∙
          WithPriority 100 ∙ WithProtocol "ip" ∙ WithIPDest podIP ∙ WithActionDrop));
  for_range (np_Ingress (np_Spec netPol)) (fun ing =>
    if (length (ing_From ing) =? 0)%nat then
      for_range localPodIPs (fun destIP => allow_ports (ing_Ports ing) (WithIPDest destIP))
    else
      for_range (ing_From ing) (fun from =>
        match peer_IPBlock from with
        | Some ipBlock =>
            let srcIP := CIDR ipBlock in
            _ ← for_range localPodIPs (fun destIP =>
                  add_flow (NewFlow ∙ WithTable tableNetworkPolicies ∙ WithPriority 1000 ∙
                    WithProtocol "ip" ∙ WithIPSrc srcIP ∙ WithIPDest destIP ∙
                    WithActionResubmit tableClassification));
            for_range (Except ipBlock) (fun srcIP =>
              for_range localPodIPs (fun destIP =>
                add_flow (NewFlow ∙ WithTable tableNetworkPolicies ∙ WithPriority 1100 ∙
                  WithProtocol "ip" ∙ WithIPSrc srcIP ∙ WithIPDest destIP ∙
                  WithActionDrop)))
        | None =>
            match peer_PodSelector from with
            | None => mret tt
            | Some podSelector =>
                c ← gets fst;
                for_range (peer_namespaces c (np_Namespace netPol) (peer_NamespaceSelector from))
                  (fun namespace =>
                  let pods := ListAllByNamespace (podLister c) namespace (peer_selector podSelector) in
                  let srcIPs := getPodIPs pods in
                  for_range localPodIPs (fun destIP =>
                    for_range srcIPs (fun srcIP =>
                      allow_ports (ing_Ports ing)
                        (fun f => f ∙ WithIPSrc srcIP ∙ WithIPDest destIP))))
            end
        end)).

Definition flowsForEgressNetworkPolicy (netPol : NetworkPolicy) (localPodIPs : list string)
  : M st unit :=
  _ ← for_range localPodIPs (fun podIP =>
        add_flow (NewFlow ∙ WithTable tableNetworkPolicies ∙
          WithPriority 100 ∙ WithProtocol "ip" ∙ WithIPSrc podIP ∙ WithActionDrop));
  for_range (np_Egress (np_Spec netPol)) (fun eg =>
    if (length (eg_To eg) =? 0)%nat then
      for_range localPodIPs (fun srcIP => allow_ports (eg_Ports eg) (WithIPSrc srcIP))
    else
      for_range (eg_To eg) (fun to =>
        match peer_IPBlock to with
        | Some ipBlock =>
            let destIP := CIDR ipBlock in
            _ ← for_range localPodIPs (fun srcIP =>
                  add_flow (NewFlow ∙ WithTable tableNetworkPolicies ∙ WithPriority 1000 ∙
                    WithProtocol "ip" ∙ WithIPSrc srcIP ∙ WithIPDest destIP ∙
                    WithActionResubmit tableClassification));
            for_range (Except ipBlock) (fun destIP =>
              for_range localPodIPs (fun srcIP =>
                add_flow (NewFlow ∙ WithTable tableNetworkPolicies ∙ WithPriority 1100 ∙
                  WithProtocol "ip" ∙ WithIPSrc srcIP ∙ WithIPDest destIP ∙
                  WithActionDrop)))
        | None =>
            match peer_PodSelector to with
            | None => mret tt
            | Some podSelector =>
                c ← gets fst;
                for_range (peer_namespaces c (np_Namespace netPol) (peer_NamespaceSelector to))
                  (fun namespace =>
                  let pods := ListAllByNamespace (podLister c) namespace (peer_selector podSelector) in
                  let destIPs := getPodIPs pods in
                  for_range localPodIPs (fun srcIP =>
                    for_range destIPs (fun destIP =>
                      allow_ports (eg_Ports eg)
                        (fun f => f ∙ WithIPSrc srcIP ∙ WithIPDest destIP))))
            end
        end)).

Definition flowsForNetworkPolicy (netPol : NetworkPolicy) : M st unit :=
  c ← gets fst;
  let matchLabels := MatchLabels (np_PodSelector (np_Spec netPol)) in
  let pods := ListAllByNamespace (podLister c) (np_Namespace netPol) (AsSelector matchLabels) in
  ips ← lift (localPodIPs c pods);
  _ ← logged (flowsForIngressNetworkPolicy netPol ips);
  _ ← logged (flowsForEgressNetworkPolicy netPol ips);
  mret tt.
End code.

(** ** The entries *)

Definition np_flow (p : Z) (proto : string) : Flow :=
  NewFlow ∙ WithTable 10 ∙ WithPriority p ∙ WithProtocol proto.

Definition between (src dst : string) (f : Flow) : Flow := f ∙ WithIPSrc src ∙ WithIPDest dst.

Definition allow_flow (addr : Flow -> Flow) (proto : string) (ports : Flow -> Flow) : Flow :=
  addr (ports (np_flow 1000 proto)) ∙ WithActionResubmit 20.

(** TCP and UDP ports give an entry each; any other protocol gives none. *)
Definition port_entry (addr : Flow -> Flow) (port : NetworkPolicyPort) : list Flow :=
  match npp_Port port, npp_Protocol port with
  | Some i, Some p =>
      if bool_decide (ToLower p = "tcp") then [allow_flow addr "tcp" (WithTCPDestPort (IntValue i))]
      else if bool_decide (ToLower p = "udp") then [allow_flow addr "udp" (WithUDPDestPort (IntValue i))]
      else []
  | _, _ => []
  end.

Definition port_entries (ports : list NetworkPolicyPort) (addr : Flow -> Flow) : list Flow :=
  match ports with
  | [] => [allow_flow addr "ip" id]
  | _ => flat_map (port_entry addr) ports
  end.

(** The addresses of the pods a peer selects. *)
Definition peer_ips (c : controller) (own : string) (peer : NetworkPolicyPeer) : list string :=
  match peer_PodSelector peer with
  | None => []
  | Some sel =>
      flat_map (fun ns => getPodIPs (ListAllByNamespace (podLister c) ns (peer_selector sel)))
        (peer_namespaces c own (peer_NamespaceSelector peer))
  end.

(** The addresses a policy applies to. *)
Definition policy_pods (c : controller) (np : NetworkPolicy) : list Pod :=
  ListAllByNamespace (podLister c) (np_Namespace np)
    (AsSelector (MatchLabels (np_PodSelector (np_Spec np)))).
Definition policy_ips (c : controller) (np : NetworkPolicy) : list string :=
  pod_PodIP <$> List.filter (pod_is_local c) (policy_pods c np).

Section rules.
Variable c : controller.
Variable own : string.
Variable ips : list string.
(** [dir local remote]: match between a local pod and a remote address. *)
Variable dir : string -> string -> Flow -> Flow.

Definition block_entries (b : IPBlock) : list Flow :=
  flat_map (fun ip => [allow_flow (dir ip (CIDR b)) "ip" id]) ips ++
  flat_map (fun ex => flat_map (fun ip => [dir ip ex (np_flow 1100 "ip") ∙ WithActionDrop]) ips)
    (Except b).

Definition peer_entries (ports : list NetworkPolicyPort) (peer : NetworkPolicyPeer) : list Flow :=
  match peer_IPBlock peer with
  | Some b => block_entries b
  | None =>
      match peer_PodSelector peer with
      | None => []
      | Some sel =>
          flat_map (fun ns =>
            flat_map (fun ip => flat_map (fun r => port_entries ports (dir ip r))
              (getPodIPs (ListAllByNamespace (podLister c) ns (peer_selector sel)))) ips)
            (peer_namespaces c own (peer_NamespaceSelector peer))
      end
  end.

Definition rule_entries (only : string -> Flow -> Flow) (ports : list NetworkPolicyPort)
    (peers : list NetworkPolicyPeer) : list Flow :=
  match peers with
  | [] => flat_map (fun ip => port_entries ports (only ip)) ips
  | _ => flat_map (peer_entries ports) peers
  end.
End rules.

Definition ingress_spec (np : NetworkPolicy) (ips : list string) (c : controller) : list Flow :=
  flat_map (fun ip => [np_flow 100 "ip" ∙ WithIPDest ip ∙ WithActionDrop]) ips ++
  flat_map (fun r => rule_entries c (np_Namespace np) ips (fun l r => between r l) WithIPDest
                       (ing_Ports r) (ing_From r)) (np_Ingress (np_Spec np)).

Definition egress_spec (np : NetworkPolicy) (ips : list string) (c : controller) : list Flow :=
  flat_map (fun ip => [np_flow 100 "ip" ∙ WithIPSrc ip ∙ WithActionDrop]) ips ++
  flat_map (fun r => rule_entries c (np_Namespace np) ips (fun l r => between l r) WithIPSrc
                       (eg_Ports r) (eg_To r)) (np_Egress (np_Spec np)).

Definition netpol_spec (np : NetworkPolicy) (c : controller) : list Flow :=
  ingress_spec np (policy_ips c np) c ++ egress_spec np (policy_ips c np) c.

(** Every pointer the loops dereference is set. *)
Definition port_set (p : NetworkPolicyPort) : bool :=
  match npp_Port p, npp_Protocol p with Some _, Some _ => true | _, _ => false end.
Definition ports_set (np : NetworkPolicy) : bool :=
  forallb (fun r => forallb port_set (ing_Ports r)) (np_Ingress (np_Spec np)) &&
  forallb (fun r => forallb port_set (eg_Ports r)) (np_Egress (np_Spec np)).

(** ** The code appends the entries *)

Section appends_netpol.
Context {W : Type} `{HExec : Exec W}.
Abbreviation st := (controller * W)%type.

Ltac solve_stable := intros ? []; reflexivity.

Lemma appends_flat_const {A} (l : list A) (f : A -> M st unit) (fs : A -> list Flow) :
  (forall x, In x l -> appends (f x) (fun _ => fs x)) ->
  appends (for_range l f) (fun _ => flat_map fs l).
Proof. intros Hf. by apply (appends_for_range l f (fun x _ => fs x)). Qed.

Lemma appends_lift_Ok {A} (a : A) (k : A -> M st unit) fs :
  appends (k a) fs -> appends (lift (Ok a) ≫= k) fs.
Proof. done. Qed.

Lemma appends_opt (b : bool) f :
  appends (W := W) (if b then add_flow f else mret tt) (fun _ => if b then [f] else []).
Proof. destruct b; [apply appends_add|apply appends_ret]. Qed.

Lemma allow_port_appends addr p :
  port_set p = true -> appends (W := W) (allow_port addr p) (fun _ => port_entry addr p).
Proof.
  unfold port_set, allow_port, port_IntValue, port_Protocol, port_entry.
  destruct (npp_Port p) as [i|], (npp_Protocol p) as [pr|]; try done. intros _.
  apply appends_lift_Ok, (appends_lift_Ok (ToLower pr)). eapply appends_ext.
  - apply appends_seq; [apply appends_opt|apply appends_opt|done].
  - intros c. cbn beta. case_bool_decide as H1; [|by case_bool_decide].
    rewrite bool_decide_eq_false_2 by congruence. done.
Qed.

Lemma allow_ports_appends ports addr :
  forallb port_set ports = true ->
  appends (W := W) (allow_ports ports addr) (fun _ => port_entries ports addr).
Proof.
  intros Hp. unfold allow_ports, port_entries. destruct ports as [|p0 ports0];
    [apply appends_add|].
  cbn [length Nat.eqb]. apply appends_flat_const.
  intros p Hin. apply allow_port_appends. by apply (proj1 (forallb_forall _ _) Hp).
Qed.

(** The common shape of an ingress and an egress rule. *)
Definition rule_code (own : string) (ips : list string) (dir : string -> string -> Flow -> Flow)
    (only : string -> Flow -> Flow) (ports : list NetworkPolicyPort)
    (peers : list NetworkPolicyPeer) : M st unit :=
  if (length peers =? 0)%nat then for_range ips (fun ip => allow_ports ports (only ip))
  else for_range peers (fun peer =>
    match peer_IPBlock peer with
    | Some b =>
        _ ← for_range ips (fun ip => add_flow (allow_flow (dir ip (CIDR b)) "ip" id));
        for_range (Except b) (fun ex =>
          for_range ips (fun ip => add_flow (dir ip ex (np_flow 1100 "ip") ∙ WithActionDrop)))
    | None =>
        match peer_PodSelector peer with
        | None => mret tt
        | Some sel =>
            c ← gets fst;
            for_range (peer_namespaces c own (peer_NamespaceSelector peer)) (fun ns =>
              for_range ips (fun ip =>
                for_range (getPodIPs (ListAllByNamespace (podLister c) ns (peer_selector sel)))
                  (fun r => allow_ports ports (dir ip r))))
        end
    end).

Lemma rule_code_appends own ips dir only ports peers :
  forallb port_set ports = true ->
  appends (rule_code own ips dir only ports peers)
    (fun c => rule_entries c own ips dir only ports peers).
Proof.
  intros Hp. unfold rule_code, rule_entries. destruct peers as [|p0 peers0].
  { apply appends_flat_const. intros ip _. by apply allow_ports_appends. }
  cbn [length Nat.eqb].
  apply (appends_for_range _ _ (fun peer c => peer_entries c own ips dir ports peer)).
  2:{ intros peer. solve_stable. }
  intros peer _. unfold peer_entries. destruct (peer_IPBlock peer) as [b|].
  - apply appends_seq; [| |done].
    + apply appends_flat_const. intros ip _. apply appends_add.
    + apply appends_flat_const. intros ex _. apply appends_flat_const. intros ip _. apply appends_add.
  - destruct (peer_PodSelector peer) as [sel|]; [|apply appends_ret].
    apply (appends_gets _ (fun c _ => flat_map (fun ns => flat_map (fun ip =>
      flat_map (fun r => port_entries ports (dir ip r)) (getPodIPs
        (ListAllByNamespace (podLister c) ns (peer_selector sel)))) ips)
      (peer_namespaces c own (peer_NamespaceSelector peer)))). intros c.
    apply appends_flat_const. intros ns _. apply appends_flat_const. intros ip _.
    apply appends_flat_const. intros r _. by apply allow_ports_appends.
Qed.

Lemma flowsForIngress_appends np ips :
  forallb (fun r => forallb port_set (ing_Ports r)) (np_Ingress (np_Spec np)) = true ->
  appends (W := W) (flowsForIngressNetworkPolicy np ips) (ingress_spec np ips).
Proof.
  intros Hp. apply appends_seq.
  - apply appends_flat_const. intros ip _. apply appends_add.
  - apply (appends_for_range _ _ (fun r c => rule_entries c (np_Namespace np) ips
      (fun l r => between r l) WithIPDest (ing_Ports r) (ing_From r))); [|intros r; solve_stable].
    intros r Hin. rewrite forallb_forall in Hp.
    apply (rule_code_appends (np_Namespace np) ips (fun l r => between r l) WithIPDest).
    by apply Hp.
  - solve_stable.
Qed.

Lemma flowsForEgress_appends np ips :
  forallb (fun r => forallb port_set (eg_Ports r)) (np_Egress (np_Spec np)) = true ->
  appends (W := W) (flowsForEgressNetworkPolicy np ips) (egress_spec np ips).
Proof.
  intros Hp. apply appends_seq.
  - apply appends_flat_const. intros ip _. apply appends_add.
  - apply (appends_for_range _ _ (fun r c => rule_entries c (np_Namespace np) ips
      (fun l r => between l r) WithIPSrc (eg_Ports r) (eg_To r))); [|intros r; solve_stable].
    intros r Hin. rewrite forallb_forall in Hp.
    apply (rule_code_appends (np_Namespace np) ips (fun l r => between l r) WithIPSrc).
    by apply Hp.
  - solve_stable.
Qed.

Lemma isLocalIP_no_panic c ip : isLocalIP c ip <> Panic.
Proof. unfold isLocalIP. pose proof (ParseCIDR_no_panic (podCIDR c)). by destruct (ParseCIDR _). Qed.

Lemma localPodIPs_ok c pods :
  localPodIPs c pods = Ok (pod_PodIP <$> List.filter (pod_is_local c) pods).
Proof.
  induction pods as [|pod pods IH]; [done|]. cbn [localPodIPs List.filter].
  unfold pod_is_local at 1. case_bool_decide as He; [done|]. cbn [negb andb].
  pose proof (isLocalIP_no_panic c (pod_PodIP pod)).
  destruct (isLocalIP c (pod_PodIP pod)) as [[]| |]; try done. by rewrite IH.
Qed.

Lemma appends_logged (m : M st unit) fs : appends m fs -> appends (logged m) fs.
Proof. intros Hm c w. unfold logged. by rewrite Hm. Qed.

Lemma netpol_spec_stable np : stable (netpol_spec np).
Proof. solve_stable. Qed.

Lemma flowsForNetworkPolicy_appends np :
  ports_set np = true -> appends (W := W) (flowsForNetworkPolicy np) (netpol_spec np).
Proof.
  unfold ports_set. rewrite andb_true_iff. intros [Hi He].
  apply (appends_gets _ (fun c0 c => ingress_spec np (policy_ips c0 np) c ++
                                     egress_spec np (policy_ips c0 np) c)).
  intros c0. cbv zeta. rewrite localPodIPs_ok. apply appends_lift_Ok.
  apply appends_seq; [apply appends_logged; by apply flowsForIngress_appends| |solve_stable].
  eapply appends_ext.
  - apply appends_seq; [apply appends_logged; by apply flowsForEgress_appends|apply appends_ret|done].
  - intros c. cbn beta. by rewrite app_nil_r.
Qed.
End appends_netpol.

(** ** Properties of the code *)

Section panics.
Context {W : Type} `{HExec : Exec W}.
Abbreviation st := (controller * W)%type.

Definition panics {A} (m : M st A) : Prop := forall s, (m s).1 = Panic.
Definition never_errs {A} (m : M st A) : Prop := forall s e, (m s).1 <> Err e.

Lemma appends_never_errs m fs : appends m fs -> never_errs m.
Proof. intros Hm [c w] e. by rewrite Hm. Qed.

Lemma never_errs_bind {A B} (m : M st A) (k : A -> M st B) :
  never_errs m -> (forall a, never_errs (k a)) -> never_errs (m ≫= k).
Proof.
  intros Hm Hk s e. unfold mbind, M_bind. specialize (Hm s).
  destruct (m s) as [[a|e'|] s']; cbn in *; [apply Hk|by destruct (Hm e')|done].
Qed.

Lemma never_errs_for_range {A} (l : list A) (f : A -> M st unit) :
  (forall x, never_errs (f x)) -> never_errs (for_range l f).
Proof.
  intros Hf. induction l as [|x l IH]; cbn [for_range]; [by intros s e|].
  by apply never_errs_bind.
Qed.

Lemma panics_bind {A B} (m : M st A) (k : A -> M st B) :
  never_errs m -> (panics m \/ forall a, panics (k a)) -> panics (m ≫= k).
Proof.
  intros Hm Hk s. unfold mbind, M_bind. specialize (Hm s).
  destruct (m s) as [[a|e|] s'] eqn:E; cbn in *; [|by destruct (Hm e)|done].
  destruct Hk as [Hk|Hk]; [|apply Hk]. specialize (Hk s). by rewrite E in Hk.
Qed.

Lemma panics_for_range {A} (l : list A) (f : A -> M st unit) x :
  (forall y, never_errs (f y)) -> In x l -> panics (f x) -> panics (for_range l f).
Proof.
  intros Hf Hin Hx. induction l as [|y l IH]; [done|]. cbn [for_range].
  apply panics_bind; [done|]. destruct Hin as [->|Hin]; [by left|right; intros []; auto].
Qed.

Lemma add_flow_never_errs f : never_errs (add_flow (W := W) f).
Proof. eapply appends_never_errs, appends_add. Qed.

Lemma ret_never_errs {A} (a : A) : never_errs (mret a).
Proof. by intros s e. Qed.

Lemma allow_port_never_errs addr p : never_errs (allow_port (W := W) addr p).
Proof.
  apply never_errs_bind.
  { intros s e. unfold lift, port_IntValue. by destruct (npp_Port p). }
  intros n. apply never_errs_bind.
  { intros s e. unfold lift, port_Protocol. by destruct (npp_Protocol p). }
  intros pr. apply never_errs_bind; [|intros _];
    case_bool_decide; auto using add_flow_never_errs, ret_never_errs.
Qed.

Lemma allow_ports_never_errs ports addr : never_errs (allow_ports (W := W) ports addr).
Proof.
  unfold allow_ports. destruct (_ =? 0)%nat; [apply add_flow_never_errs|].
  apply never_errs_for_range, allow_port_never_errs.
Qed.

(** One port without [Port] or [Protocol] is enough. *)
Lemma allow_ports_panics ports addr p :
  In p ports -> port_set p = false -> panics (allow_ports (W := W) ports addr).
Proof.
  intros Hin Hp. unfold allow_ports. destruct ports as [|p0 l]; [done|]. cbn [length Nat.eqb].
  eapply panics_for_range; [apply allow_port_never_errs|exact Hin|].
  unfold port_set in Hp. intros s. unfold allow_port, lift, port_IntValue, port_Protocol.
  destruct (npp_Port p); [|done]. by destruct (npp_Protocol p).
Qed.

Lemma rule_code_never_errs own ips dir only ports peers :
  never_errs (rule_code (W := W) own ips dir only ports peers).
Proof.
  unfold rule_code. destruct (_ =? 0)%nat.
  { apply never_errs_for_range. intros. apply allow_ports_never_errs. }
  apply never_errs_for_range. intros peer. destruct (peer_IPBlock peer).
  - apply never_errs_bind; [|intros _]; repeat (apply never_errs_for_range; intros ?);
      apply add_flow_never_errs.
  - destruct (peer_PodSelector peer); [|apply ret_never_errs].
    apply never_errs_bind; [by intros s e|]. intros c.
    repeat (apply never_errs_for_range; intros ?). apply allow_ports_never_errs.
Qed.
Lemma flowsForIngress_panics np ips r p :
  In r (np_Ingress (np_Spec np)) -> ing_From r = [] -> In p (ing_Ports r) ->
  port_set p = false -> ips <> [] ->
  panics (flowsForIngressNetworkPolicy (W := W) np ips).
Proof.
  intros Hr Hfrom Hp Hset Hips. apply panics_bind.
  { apply never_errs_for_range. intros ip. apply add_flow_never_errs. }
  right. intros _. apply (panics_for_range _ _ r); [|done|].
  - intros r'. apply (rule_code_never_errs (np_Namespace np) ips (fun l r => between r l) WithIPDest).
  - rewrite Hfrom. cbn [length Nat.eqb]. destruct ips as [|ip ips]; [done|].
    eapply (panics_for_range _ _ ip); [intros; apply allow_ports_never_errs|by left|].
    by eapply allow_ports_panics.
Qed.

End panics.

(** ** Witness *)

#[local] Existing Instance ovs_exec.

(** A policy for all pods of a namespace that allows TCP, any port. *)
Definition any_tcp_policy : NetworkPolicy :=
  {| np_Namespace := "default"; np_Name := "any-tcp";
     np_Spec := {| np_PodSelector := {| MatchLabels := ∅; MatchExpressions := [] |};
       np_Ingress := [{| ing_Ports := [{| npp_Protocol := Some "TCP"; npp_Port := None |}];
                         ing_From := [] |}];
       np_Egress := []; np_PolicyTypes := [] |} |}.

Definition one_pod : controller :=
  MkController 0 "node-a" "k-vswitch0" "10.1.0.1" "" "" "10.1.0.0/24" "10.0.0.0/8" 2 1
    NewFlowsBuffer NewPortCache {| idx_List := [web_pod]; idx_has_namespace := true |}
    no_objects no_objects no_objects.

