(* ===== verification/Sync.v ===== *)
(** * The full sync and the event handlers

    [syncFlows] and the [On...] handlers of [controllers/openflow/flows.go].
    A sync empties the buffer, writes the default flows, the flows of every
    vswitch config, pod and network policy in the informers' stores, and pipes
    the text into ovs-ofctl.

    [sync_spec] is the specification: the entries as a list computed from the
    configuration, the stores and what Open vSwitch answers about pods.
    [syncFlows_run] shows that the code hands exactly that list to the switch.
    The lock makes a sync one step; a store is read once per list call, and
    the model reads one state of the stores during a sync. *)
From S2P Require Import Prelude GoStrings GoNet Exec Objects Labels Flows PortCache Controller NetPol OvsSim.

(** ** The code *)

Section code.
Context {W : Type} `{HExec : Exec W}.
Abbreviation st := (controller * W)%type.

Definition c_SyncFlows (c : controller) : M st unit :=
  zoom snd (fun w s => (s.1, w)) (SyncFlows (bridgeName c) (c_flows c)).

Definition syncFlows : M st unit :=
  _ ← modify (fun s => (set_flows (Reset (c_flows s.1)) s.1, s.2));
  _ ← wrapped "error adding default flows" defaultFlows;
  c ← gets fst;
  let vswitchCfgs := ListAll (vswitchLister c) Everything in
  _ ← for_range vswitchCfgs (fun vswitchCfg => logged (flowsForVSwitch vswitchCfg));
  c ← gets fst;
  let pods := ListAll (podLister c) Everything in
  _ ← for_range pods (fun pod => logged (flowsForPod pod));
  c ← gets fst;
  let netPols := ListAll (netPolLister c) Everything in
  _ ← for_range netPols (fun netPol => logged (flowsForNetworkPolicy netPol));
  c ← gets fst;
  _ ← wrapped "error syncing flows" (c_SyncFlows c);
  mret tt.

Definition OnAddVSwitch (obj : EventObj VSwitchConfig) : M st unit := logged syncFlows.
Definition OnUpdateVSwitch (oldObj newObj : EventObj VSwitchConfig) : M st unit := logged syncFlows.
Definition OnDeleteVSwitch (obj : EventObj VSwitchConfig) : M st unit := mret tt.

Definition OnAddPod (obj : EventObj Pod) : M st unit :=
  match type_assert obj with
  | None => mret tt
  | Some pod =>
      c ← gets fst;
      match podNeedsUpdate c pod with
      | Err _ => mret tt
      | Panic => panic
      | Ok needsUpdate => if negb needsUpdate then mret tt else logged syncFlows
      end
  end.

Definition OnUpdatePod (oldObj newObj : EventObj Pod) : M st unit :=
  match type_assert newObj with
  | None => mret tt
  | Some pod =>
      c ← gets fst;
      match podNeedsUpdate c pod with
      | Err _ => mret tt
      | Panic => panic
      | Ok needsUpdate => if negb needsUpdate then mret tt else logged syncFlows
      end
  end.

Definition OnDeletePod (obj : EventObj Pod) : M st unit :=
  match type_assert obj with
  | None => mret tt
  | Some pod =>
      zoom (fun s => (c_portCache s.1, s.2)) (fun t s => (set_portCache t.1 s.1, t.2))
        (DelPortInfo pod)
  end.

Definition OnAddNetworkPolicy (obj : EventObj NetworkPolicy) : M st unit := logged syncFlows.
Definition OnUpdateNetworkPolicy (oldObj newObj : EventObj NetworkPolicy) : M st unit :=
  logged syncFlows.
Definition OnDeleteNetworkPolicy (obj : EventObj NetworkPolicy) : M st unit := logged syncFlows.

(** The function [Run] repeats every minute. *)
Definition fullResync : M st unit := logged syncFlows.

(** ** Specification *)

(** The entries of a pod: those of the port the daemon takes for its, if it is
    local and has one. *)
Definition pod_spec (c : controller) (w : W) (pod : Pod) : list Flow :=
  if pod_is_local c pod then
    match believed (c_portCache c, w) (pod_Namespace pod) (pod_Name pod) with
    | Ok port => pod_flows (pod_PodIP pod) (pi_ofport port)
    | _ => []
    end
  else [].

Definition sync_spec (c : controller) (w : W) : list Flow :=
  default_spec c ++
  flat_map (fun v => vswitch_spec v c) (idx_List (vswitchLister c)) ++
  flat_map (pod_spec c w) (idx_List (podLister c)) ++
  flat_map (fun np => netpol_spec np c) (idx_List (netPolLister c)).

(** What a sync relies on: Open vSwitch answers queries without changing and
    in rows of one column, namespaces have no slash and policies have their
    pointers set.  The cache may hold anything. *)
Record sync_ready (c : controller) (w : W) : Prop := {
  sr_read_only : queries_read_only w;
  sr_rows : forall ns name, (query_port ns name w).1 <> Panic;
  sr_pods : Forall (fun pod => slashless (pod_Namespace pod)) (idx_List (podLister c));
  sr_policies : Forall (fun np => ports_set np = true) (idx_List (netPolLister c))
}.

(** The state after the buffer was filled. *)
Definition filled (fs : list Flow) (pc : portCache) (c : controller) : controller :=
  set_portCache pc (set_flows {| buffer := render fs |} c).

Definition replace_args (bridge : string) : list string :=
  ["-O"; "OpenFlow13"; "replace-flows"; bridge; "-"].

Lemma pod_spec_grow gs c w : pod_spec (grow gs c) w = pod_spec c w.
Proof. by destruct c. Qed.
Lemma pod_spec_learned pc c w pod :
  slashless (pod_Namespace pod) -> learned w (c_portCache c) pc ->
  pod_spec (set_portCache pc c) w pod = pod_spec c w pod.
Proof.
  intros Hs [Hb _ _]. unfold pod_spec. replace (pod_is_local (set_portCache pc c) pod) with (pod_is_local c pod) by by destruct c.
  by rewrite <- (Hb _ (pod_Name pod) Hs); destruct c.
Qed.
Lemma pods_spec_learned pc c w pods :
  Forall (fun pod => slashless (pod_Namespace pod)) pods -> learned w (c_portCache c) pc ->
  flat_map (pod_spec (set_portCache pc c) w) pods = flat_map (pod_spec c w) pods.
Proof. intros Hs Hpc. induction Hs as [|pod pods Hp _ IH]; [done|]. cbn. by rewrite pod_spec_learned, IH. Qed.
Lemma set_portCache_twice pc pc' c : set_portCache pc (set_portCache pc' c) = set_portCache pc c.
Proof. by destruct c. Qed.
Lemma grow_set_portCache fs pc c : grow fs (set_portCache pc c) = set_portCache pc (grow fs c).
Proof. by destruct c. Qed.
Lemma c_portCache_set pc c : c_portCache (set_portCache pc c) = pc.
Proof. by destruct c. Qed.
Lemma c_portCache_grow fs c : c_portCache (grow fs c) = c_portCache c.
Proof. by destruct c. Qed.
Lemma set_portCache_id c : set_portCache (c_portCache c) c = c.
Proof. by destruct c. Qed.

(** One pod under [logged]: its entries are appended, a failed lookup adds
    nothing and is forgotten, and the cache learns. *)
Lemma logged_pod pod c (w : W) :
  queries_read_only w -> (forall ns name, (query_port ns name w).1 <> Panic) ->
  slashless (pod_Namespace pod) ->
  exists pc, logged (flowsForPod pod) (c, w) =
             (Ok tt, (grow (pod_spec c w pod) (set_portCache pc c), w)) /\ learned w (c_portCache c) pc.
Proof.
  intros Hro Hrows Hs. unfold logged, pod_spec, pod_is_local. rewrite flowsForPod_run.
  assert (Hnone : exists pc, (Ok tt, (c, w)) = (Ok tt, (grow [] (set_portCache pc c), w)) /\ learned w (c_portCache c) pc).
  { exists (c_portCache c). rewrite grow_nil, set_portCache_id. split; [done|apply learned_refl]. }
  case_bool_decide; cbn [negb andb]; [exact Hnone|].
  pose proof (isLocalIP_no_panic c (pod_PodIP pod)) as Hnp.
  destruct (isLocalIP c (pod_PodIP pod)) as [[]|e|]; [|exact Hnone..|done].
  destruct (GetPortInfo_believed pod (c_portCache c) w Hs Hro) as (pc & Hget & Hpc). rewrite Hget. cbn [fst snd].
  assert (Hb : believed (c_portCache c, w) (pod_Namespace pod) (pod_Name pod) <> Panic).
  { unfold believed. destruct (store _ !! _); [done|apply Hrows]. }
  destruct (believed _ _ _) as [port|e|]; [..|done]; exists pc; (split; [|done]); [done|by rewrite grow_nil].
Qed.

Lemma pods_loop pods c (w : W) :
  queries_read_only w -> (forall ns name, (query_port ns name w).1 <> Panic) ->
  Forall (fun pod => slashless (pod_Namespace pod)) pods ->
  exists pc, for_range pods (fun pod => logged (flowsForPod pod)) (c, w) =
             (Ok tt, (grow (flat_map (pod_spec c w) pods) (set_portCache pc c), w)) /\
             learned w (c_portCache c) pc.
Proof.
  intros Hro Hrows Hs. revert c. induction Hs as [|pod pods Hp Hs IH]; intros c.
  - exists (c_portCache c). split; [|apply learned_refl]. cbn. by rewrite grow_nil, set_portCache_id.
  - cbn [for_range flat_map]. unfold mbind, M_bind.
    destruct (logged_pod pod c w Hro Hrows Hp) as (pc & -> & Hpc).
    destruct (IH (grow (pod_spec c w pod) (set_portCache pc c))) as (pc' & -> & Hpc').
    rewrite c_portCache_grow, c_portCache_set in Hpc'.
    exists pc'. split; [|by eapply learned_trans].
    rewrite pod_spec_grow, pods_spec_learned, grow_app by done.
    by rewrite !grow_set_portCache, set_portCache_twice.
Qed.

(** *** Stages *)

Lemma appends_wrapped msg (m : M st unit) fs : appends m fs -> appends (wrapped msg m) fs.
Proof. intros Hm c w. unfold wrapped. by rewrite Hm. Qed.

Definition nodes_spec (c : controller) : list Flow :=
  flat_map (fun v => vswitch_spec v c) (idx_List (vswitchLister c)).
Definition policies_spec (c : controller) : list Flow :=
  flat_map (fun np => netpol_spec np c) (idx_List (netPolLister c)).

Lemma nodes_stage :
  appends (c ← gets fst; for_range (ListAll (vswitchLister c) Everything)
             (fun v => logged (flowsForVSwitch v)) : M st unit) nodes_spec.
Proof.
  apply (appends_gets _ (fun c0 c => flat_map (fun v => vswitch_spec v c) (idx_List (vswitchLister c0)))).
  intros c0. rewrite ListAll_Everything.
  apply (appends_for_range _ _ (fun v c => vswitch_spec v c)); [|apply vswitch_spec_stable].
  intros v _. apply appends_logged, flowsForVSwitch_appends.
Qed.

Lemma policies_stage c (w : W) :
  Forall (fun np => ports_set np = true) (idx_List (netPolLister c)) ->
  (c ← gets fst; for_range (ListAll (netPolLister c) Everything)
     (fun np => logged (flowsForNetworkPolicy np)) : M st unit) (c, w) =
  (Ok tt, (grow (policies_spec c) c, w)).
Proof.
  intros Hp. rewrite gets_bind, ListAll_Everything. unfold policies_spec.
  apply (appends_for_range _ _ (fun np c => netpol_spec np c)); [|apply netpol_spec_stable].
  intros np Hin. apply appends_logged, flowsForNetworkPolicy_appends.
  rewrite Forall_forall in Hp. apply Hp. by apply list_elem_of_In.
Qed.

Lemma M_bind_assoc {S A B C} (m : M S A) (k : A -> M S B) (h : B -> M S C) s :
  ((m ≫= k) ≫= h) s = (m ≫= fun a => k a ≫= h) s.
Proof. unfold mbind, M_bind. by destruct (m s) as [[| |] ?]. Qed.

Lemma M_bind_Ok {S A B} (m : M S A) (k : A -> M S B) s a s' :
  m s = (Ok a, s') -> (m ≫= k) s = k a s'.
Proof. intros Hm. unfold mbind, M_bind. by rewrite Hm. Qed.

Lemma syncFlows_run c (w : W) :
  sync_ready c w ->
  exists pc, learned w (c_portCache c) pc /\
    syncFlows (c, w) =
    match SyncFlows (bridgeName c) {| buffer := render (sync_spec c w) |} w with
    | (r, w') => (wrap_err "error syncing flows" r, (filled (sync_spec c w) pc c, w'))
    end.
Proof.
  intros [Hro Hrows Hpods Hpol]. unfold syncFlows.
  set (c0 := set_flows (Reset (c_flows c)) c).
  rewrite (M_bind_Ok _ _ _ tt (c0, w)) by done.
  rewrite (M_bind_Ok _ _ _ tt _ (appends_wrapped _ _ _ defaultFlows_appends c0 w)).
  rewrite <- M_bind_assoc. set (c1 := grow (default_spec c0) c0).
  rewrite (M_bind_Ok _ _ _ tt _ (nodes_stage c1 w)). set (c2 := grow (nodes_spec c1) c1).
  rewrite gets_bind, ListAll_Everything.
  destruct (pods_loop (idx_List (podLister c2)) c2 w Hro Hrows) as (pc & Hrun & Hpc);
    [by destruct c|].
  assert (Hcache : c_portCache c2 = c_portCache c) by by destruct c. rewrite Hcache in Hpc.
  rewrite (M_bind_Ok _ _ _ _ _ Hrun). rewrite <- M_bind_assoc.
  set (c3 := grow _ (set_portCache pc c2)).
  rewrite (M_bind_Ok _ _ _ tt _ (policies_stage c3 w ltac:(by destruct c))).
  exists pc. split; [done|]. rewrite gets_bind.
  assert (Hfin : grow (policies_spec c3) c3 = filled (sync_spec c w) pc c).
  { replace (policies_spec c3) with (policies_spec c) by by destruct c.
    subst c3 c2 c1. rewrite !grow_set_portCache, <- !grow_app.
    replace (default_spec c0) with (default_spec c) by by destruct c.
    set (pods := flat_map _ _). replace pods with (flat_map (pod_spec c w) (idx_List (podLister c)))
      by by subst pods c0; destruct c.
    clear. replace (nodes_spec _) with (nodes_spec c) by by subst c0; destruct c.
    unfold filled, sync_spec. f_equal. subst c0. by destruct c. }
  rewrite Hfin. unfold wrapped, c_SyncFlows, zoom, mbind at 1, M_bind at 1.
  replace (bridgeName (filled _ _ _)) with (bridgeName c) by by destruct c.
  replace (c_flows (filled (sync_spec c w) pc c)) with {| buffer := render (sync_spec c w) |}
    by by destruct c.
  cbn [snd fst]. by destruct (SyncFlows _ _ w) as [[[]| |] w'].
Qed.
End code.

(** ** Event handlers *)

Section handlers.
Context {W : Type} `{HExec : Exec W}.

Lemma podNeedsUpdate_local c pod :
  podNeedsUpdate c pod = Ok true <-> pod_is_local c pod = true.
Proof.
  unfold podNeedsUpdate, pod_is_local. case_bool_decide; [done|]. cbn [negb andb].
  by destruct (isLocalIP c (pod_PodIP pod)) as [[]| |].
Qed.

Lemma OnAddPod_run obj c (w : W) :
  OnAddPod obj (c, w) =
  match type_assert obj with
  | Some pod => if pod_is_local c pod then logged syncFlows (c, w) else (Ok tt, (c, w))
  | None => (Ok tt, (c, w))
  end.
Proof.
  unfold OnAddPod. destruct (type_assert obj) as [pod|]; [|done].
  rewrite gets_bind. pose proof (podNeedsUpdate_local c pod) as Hl.
  assert (Hnp : podNeedsUpdate c pod <> Panic).
  { unfold podNeedsUpdate. case_bool_decide; [done|].
    pose proof (isLocalIP_no_panic c (pod_PodIP pod)). by destruct (isLocalIP c _). }
  destruct (podNeedsUpdate c pod) as [[]|e|], (pod_is_local c pod); try done.
  all: destruct Hl as [H1 H2]; first [discriminate (H1 eq_refl) | discriminate (H2 eq_refl)].
Qed.

(** A pod event resyncs the switch exactly when the pod is local.  For a
    pod with an address in the node's block the handler is a full sync whose
    error is logged; a pod without address, of another node, an unparsable
    pod block or an object that is not a pod changes nothing and runs no
    command. *)
Theorem OnAddPod_gate obj c (w : W) :
  OnAddPod obj (c, w) =
  match type_assert obj with
  | Some pod => if pod_is_local c pod then logged syncFlows (c, w) else (Ok tt, (c, w))
  | None => (Ok tt, (c, w))
  end /\
  (forall old, OnUpdatePod old obj (c, w) = OnAddPod obj (c, w)).
Proof. split; [apply OnAddPod_run|done]. Qed.

(** The stores do not list a pod of that name, or the cache agrees with Open
    vSwitch: forgetting the port changes no belief about a listed pod. *)
Definition forgettable (pod : Pod) (c : controller) (w : W) : Prop :=
  (forall other, In other (idx_List (podLister c)) -> portCacheKeyForPod other <> portCacheKeyForPod pod) \/
  (Forall (fun other => slashless (pod_Namespace other)) (idx_List (podLister c)) /\ coherent (c_portCache c, w)).

Lemma forget_spec pod c (w : W) :
  forgettable pod c w ->
  sync_spec (set_portCache {| store := delete (portCacheKeyForPod pod) (store (c_portCache c)) |} c) w = sync_spec c w.
Proof.
  intros Hf. set (pc := {| store := _ |}). unfold sync_spec.
  replace (idx_List (podLister (set_portCache pc c))) with (idx_List (podLister c)) by by destruct c.
  assert (flat_map (pod_spec (set_portCache pc c) w) (idx_List (podLister c)) =
    flat_map (pod_spec c w) (idx_List (podLister c))) as ->; [|by destruct c].
  rewrite !List.flat_map_concat_map. f_equal. apply List.map_ext_in. intros other Hin. unfold pod_spec.
  replace (pod_is_local (set_portCache pc c) other) with (pod_is_local c other) by by destruct c.
  replace (c_portCache (set_portCache pc c)) with pc by by destruct c.
  assert (believed (pc, w) (pod_Namespace other) (pod_Name other) =
    believed (c_portCache c, w) (pod_Namespace other) (pod_Name other)) as ->; [|done].
  unfold believed at 1. cbn [fst snd pc store]. fold (portCacheKeyForPod other).
  destruct (decide (portCacheKeyForPod other = portCacheKeyForPod pod)) as [He|Hne].
  - destruct Hf as [Hf|[Hs Hc]]; [by destruct (Hf other Hin)|]. rewrite He, lookup_delete_eq.
    rewrite believed_coherent; [done| |done]. rewrite Forall_forall in Hs. apply Hs. by apply list_elem_of_In.
  - rewrite lookup_delete_ne by done. reflexivity.
Qed.

(** Deleting a pod forgets its port and nothing else, and leaves the
    switch alone: the cached ports of other pods are kept, no command runs,
    and unless the stores still list a pod of that name whose cached port was
    wrong, a sync would write what it would have written before, so the entries
    of the pod stay until another event resyncs. *)
Theorem OnDeletePod_forgets pod c (w : W) :
  let (r, s') := OnDeletePod (ObjOf pod) (c, w) in
  r = Ok tt /\ s'.2 = w /\ c_flows s'.1 = c_flows c /\ (forgettable pod c w -> sync_spec s'.1 w = sync_spec c w) /\
  store (c_portCache s'.1) !! portCacheKeyForPod pod = None /\
  (forall other, slashless (pod_Namespace pod) -> slashless (pod_Namespace other) ->
     (pod_Namespace other, pod_Name other) <> (pod_Namespace pod, pod_Name pod) ->
     store (c_portCache s'.1) !! portCacheKeyForPod other = store (c_portCache c) !! portCacheKeyForPod other).
Proof.
  cbn. rewrite c_portCache_set. cbn [store].
  do 2 (split; [done|]). split; [by destruct c|]. split; [apply forget_spec|]. split; [apply lookup_delete_eq|].
  intros other Hs Ho Hne. apply lookup_delete_ne. intros Hk. apply Hne.
  by apply key_inj in Hk as [-> ->].
Qed.

(** A deletion that the watch missed arrives as a tombstone, which the
    handler drops: the cached port survives, and a pod created later under
    the same namespace and name gets its flow on the old port, without a
    query. *)
Theorem OnDeletePod_tombstone_stale pod key last new port c (w : W) :
  store (c_portCache c) !! portCacheKeyForPod pod = Some port ->
  pod_Namespace new = pod_Namespace pod -> pod_Name new = pod_Name pod ->
  pod_is_local c new = true ->
  OnDeletePod (ObjTombstone key last) (c, w) = (Ok tt, (c, w)) /\
  flowsForPod new (c, w) = (Ok tt, (grow (pod_flows (pod_PodIP new) (pi_ofport port)) c, w)).
Proof.
  intros Hl Hns Hname Hloc. split; [done|]. rewrite flowsForPod_run, GetPortInfo_run.
  unfold pod_is_local in Hloc. destruct (bool_decide (pod_PodIP new = "")); [done|].
  destruct (isLocalIP c _) as [[]| |]; try done. cbn [fst snd].
  replace (portCacheKeyForPod new) with (portCacheKeyForPod pod)
    by (unfold portCacheKeyForPod; by rewrite Hns, Hname).
  by rewrite Hl, set_portCache_id.
Qed.
End handlers.

(** ** A two node cluster, for the witnesses *)

#[local] Existing Instance ovs_exec.

Definition demo_labels (app : string) : labels_map := {["app" := app]}.
Definition demo_selector (app : string) : LabelSelector :=
  {| MatchLabels := demo_labels app; MatchExpressions := [] |}.

Definition client_pod : Pod :=
  {| pod_Namespace := "default"; pod_Name := "client"; pod_Labels := demo_labels "client";
     pod_PodIP := "10.2.0.5" |}.
Definition server_pod : Pod :=
  {| pod_Namespace := "default"; pod_Name := "web"; pod_Labels := demo_labels "web";
     pod_PodIP := "10.1.0.7" |}.
Definition pending_pod : Pod :=
  {| pod_Namespace := "default"; pod_Name := "pending"; pod_Labels := demo_labels "web";
     pod_PodIP := "" |}.

Definition tcp_port (n : Z) : NetworkPolicyPort :=
  {| npp_Protocol := Some "TCP";
     npp_Port := Some {| ios_Type := IntType; ios_IntVal := n; ios_StrVal := "" |} |}.
Definition pod_peer (app : string) : NetworkPolicyPeer :=
  {| peer_PodSelector := Some (demo_selector app); peer_NamespaceSelector := None;
     peer_IPBlock := None |}.

(** Pods labelled web accept port 80 from pods labelled client. *)
Definition web_policy : NetworkPolicy :=
  {| np_Namespace := "default"; np_Name := "web";
     np_Spec := {| np_PodSelector := demo_selector "web";
       np_Ingress := [{| ing_Ports := [tcp_port 80]; ing_From := [pod_peer "client"] |}];
       np_Egress := []; np_PolicyTypes := ["Ingress"] |} |}.

Definition demo_node (name cidr overlay : string) : VSwitchConfig :=
  {| vsc_Name := name; vsc_Spec := {| PodCIDR := cidr; ClusterCIDR := "10.0.0.0/8";
       ServiceCIDR := "172.16.0.0/16"; OverlayIP := overlay; OverlayType := "vxlan" |} |}.

Definition stored {T} (l : list T) : Indexer T := {| idx_List := l; idx_has_namespace := true |}.

Definition demo : controller :=
  MkController 0 "node-a" "k-vswitch0" "10.1.0.1" "0a:00:00:00:00:01" "0a:00:00:00:00:02"
    "10.1.0.0/24" "10.0.0.0/8" 2 1 NewFlowsBuffer NewPortCache
    (stored [server_pod; client_pod; pending_pod])
    (stored [{| ns_Name := "default"; ns_Labels := ∅ |}])
    (stored [web_policy])
    (stored [demo_node "node-a" "10.1.0.0/24" "172.20.0.1"; demo_node "node-b" "10.2.0.0/24" "172.20.0.2"]).

Lemma ovs_one_rows ns name : (query_port ns name ovs_one).1 <> Panic.
Proof.
  unfold query_port, findPort, wrapped, lift, mbind, M_bind. cbn [exec_Output ovs_exec].
  unfold ovs_run, find_args. cbn [ovs_down ovs_one]. rewrite bool_decide_eq_true_2 by done.
  unfold ovs_vsctl. rewrite !TrimPrefix_app. unfold ovs_find, ovs_ports, ovs_one.
  cbn [List.filter op_namespace op_pod].
  destruct (bool_decide ("default" = ns) && bool_decide ("web" = name)); vm_compute; done.
Qed.

Lemma demo_ready : sync_ready demo ovs_one.
Proof.
  split.
  - apply ovs_queries_read_only.
  - apply ovs_one_rows.
  - repeat constructor.
  - repeat constructor.
Qed.

Definition stale_cache : portCache :=
  {| store := {["default/web" := {| pi_name := "veth9"; pi_ofport := 9; pi_mac := "" |}]} |}.

Lemma OnDeletePod_tombstone_stale_witness :
  (flowsForPod server_pod (set_portCache stale_cache demo, ovs_one)).2.1 =
  grow (pod_flows "10.1.0.7" 9) (set_portCache stale_cache demo).
Proof.
  destruct (OnDeletePod_tombstone_stale server_pod "default/web" (ObjOf server_pod) server_pod
    {| pi_name := "veth9"; pi_ofport := 9; pi_mac := "" |}
    (set_portCache stale_cache demo) ovs_one eq_refl eq_refl eq_refl eq_refl) as [_ H].
  by rewrite H.
Defined.

Lemma OnDeletePod_forgets_witness :
  store (c_portCache (OnDeletePod (ObjOf server_pod) (set_portCache stale_cache demo, ovs_one)).2.1)
    !! "default/web" = None.
Proof.
  pose proof (OnDeletePod_forgets server_pod (set_portCache stale_cache demo) ovs_one) as H.
  destruct (OnDeletePod (ObjOf server_pod) (set_portCache stale_cache demo, ovs_one)) as [r s'].
  destruct H as (_ & _ & _ & _ & H & _). exact H.
Defined.
