(* ===== verification/Readback.v ===== *)
(** * What the switch is told

    The text a sync pipes into ovs-ofctl, read back.  For inputs without the
    separators of the flow syntax ([inputs_ok]) every line of the text reads
    as the entry it was printed from, so [sync_spec] is what reaches the
    switch; and the result does not depend on the order in which the stores
    happen to be listed, nor on what the buffer or the cache held before. *)
From S2P Require Import Prelude GoStrings GoNet Exec Json Objects Labels Flows PortCache Controller NetPol Sync OvsSim.

(** ** Reading lines *)

(** A line outside the syntax [parse_flow] knows is kept as a raw entry. *)
Definition read_line (line : string) : Flow :=
  match parse_flow line with Some f => f | None => NewFlow ∙ WithRaw line end.

Definition read_text (text : string) : list Flow :=
  read_line <$> filter (fun l => l <> "") (Split text nl).

(** An entry the text determines: one of the syntax, or a raw line. *)
Definition entry_ok (f : Flow) : Prop :=
  flow_ok f \/
  (exists line, f = NewFlow ∙ WithRaw line /\ line <> "" /\ has_char nl line = false /\
                parse_flow line = None).

Lemma entry_ok_one_line f : entry_ok f -> has_char nl (Flow_String f) = false.
Proof.
  intros [Hf|(line & -> & Hne & Hnl & _)]; [by apply Flow_String_one_line|].
  unfold Flow_String. cbn. by rewrite bool_decide_eq_false_2.
Qed.

Lemma entry_ok_ne f : entry_ok f -> Flow_String f <> "".
Proof.
  intros [Hf|(line & -> & Hne & _)]; [apply Flow_String_ne, Hf|].
  unfold Flow_String. cbn. by rewrite bool_decide_eq_false_2.
Qed.

Lemma entry_ok_read f : entry_ok f -> read_line (Flow_String f) = f.
Proof.
  unfold read_line. intros [Hf|(line & -> & Hne & _ & Hp)]; [by rewrite parse_flow_String|].
  unfold Flow_String. cbn [WithRaw NewFlow f_raw]. rewrite bool_decide_eq_false_2 by done.
  cbn [negb]. by rewrite Hp.
Qed.

Lemma read_text_render fs : Forall entry_ok fs -> read_text (render fs) = fs.
Proof.
  intros Hfs. unfold read_text. rewrite Split_render.
  2:{ eapply Forall_impl; [exact Hfs|]. apply entry_ok_one_line. }
  rewrite filter_app. change (filter (fun l => l <> "") [""]) with (@nil string).
  rewrite app_nil_r. induction Hfs as [|f fs Hf Hfs IH]; [done|].
  cbn [fmap list_fmap]. rewrite filter_cons_True by by apply entry_ok_ne.
  cbn [fmap list_fmap]. by rewrite entry_ok_read, IH.
Qed.

(** ** Which entries are read back *)

Lemma lacks_clean s : clean s -> has_char nl s = false.
Proof. intros Hs. by apply clean_lacks. Qed.

Create HintDb entries.
#[local] Hint Resolve lacks_clean : entries.

(** An ARP responder is a raw line: [dl_type] is not a keyword of ours. *)
Lemma arp_text_raw rest prio :
  has_char nl rest = false -> has_char " "%char prio = false -> has_char nl prio = false ->
  cut_byte "="%char prio = Some ("priority", TrimPrefix prio "priority=") ->
  entry_ok (NewFlow ∙ WithRaw ("table=100 " +:+ prio +:+ " dl_type=0x0806 " +:+ rest)).
Proof.
  intros Hr Hsp Hnl Hcut. right. eexists. split; [done|]. split; [done|]. split.
  { by rewrite !has_char_app, Hr, Hnl. }
  unfold parse_flow.
  change ("table=100 " +:+ prio +:+ " dl_type=0x0806 " +:+ rest) with
    ("table=100" +:+ String " " (prio +:+ String " " ("dl_type=0x0806" +:+ String " " rest))).
  rewrite Split_app by done. rewrite Split_app by done. rewrite Split_app by done.
  cbn [fold_opt]. unfold parse_token at 1. cbn. unfold parse_token. by rewrite Hcut.
Qed.

Lemma arp_responder_ok ip mac : clean ip -> clean mac -> entry_ok (NewFlow ∙ WithRaw (arp_responder ip mac)).
Proof.
  intros Hi Hm.
  apply (arp_text_raw ("arp_tpa=" +:+ ip +:+ _) "priority=500"); [|done..].
  rewrite !has_char_app, (lacks_clean ip Hi), (lacks_clean mac Hm). reflexivity.
Qed.

Lemma arp_responder_block_ok ip mac :
  clean ip -> clean mac -> entry_ok (NewFlow ∙ WithRaw (arp_responder_block ip mac)).
Proof.
  intros Hi Hm.
  apply (arp_text_raw ("arp_tpa=" +:+ ip +:+ _) "priority=400"); [|done..].
  rewrite !has_char_app, (lacks_clean ip Hi), (lacks_clean mac Hm). reflexivity.
Qed.

(** The text the program is configured with, and the objects it is given. *)
Record config_ok (c : controller) : Prop := {
  cf_gateway : clean (gatewayIP c); cf_pod : clean (podCIDR c); cf_cluster : clean (clusterCIDR c);
  cf_mac : clean (bridgeMAC c); cf_cwmac : clean (clusterWideMAC c);
  cf_cwport : is_int64 (clusterWideOFPort c); cf_overlay : is_int64 (overlayOFPort c)
}.
Definition vswitch_ok (v : VSwitchConfig) : Prop :=
  clean (PodCIDR (vsc_Spec v)) /\ clean (OverlayIP (vsc_Spec v)).
Definition port_ok (p : NetworkPolicyPort) : Prop :=
  match npp_Port p with Some i => is_int64 (ios_IntVal i) | None => True end.
Definition peer_ok (p : NetworkPolicyPeer) : Prop :=
  match peer_IPBlock p with Some b => clean (CIDR b) /\ Forall clean (Except b) | None => True end.
Definition policy_ok (np : NetworkPolicy) : Prop :=
  Forall (fun r => Forall port_ok (ing_Ports r) /\ Forall peer_ok (ing_From r)) (np_Ingress (np_Spec np)) /\
  Forall (fun r => Forall port_ok (eg_Ports r) /\ Forall peer_ok (eg_To r)) (np_Egress (np_Spec np)).

(** Every port number fits a Go int. *)
Definition ports_int (pc : portCache) : Prop := map_Forall (fun _ port => is_int64 (pi_ofport port)) (store pc).

Record inputs_ok (c : controller) : Prop := {
  io_config : config_ok c;
  io_ports : ports_int (c_portCache c);
  io_vswitches : Forall vswitch_ok (idx_List (vswitchLister c));
  io_pods : Forall (fun pod => clean (pod_PodIP pod)) (idx_List (podLister c));
  io_policies : Forall policy_ok (idx_List (netPolLister c))
}.

(** An entry built from clean strings and 64-bit numbers. *)
Ltac solve_flow_ok :=
  left; constructor; cbn; repeat split; first [done | assumption | unfold is_int64, min_int64, max_int64 in *; lia].

Lemma default_entries_ok c : config_ok c -> Forall entry_ok (default_spec c).
Proof.
  intros []. unfold default_spec, ip_flow.
  repeat (apply Forall_cons_2; [first [solve_flow_ok | by apply arp_responder_ok
    | by apply arp_responder_block_ok]|]). constructor.
Qed.

Lemma vswitch_entries_ok c v : config_ok c -> vswitch_ok v -> Forall entry_ok (vswitch_spec v c).
Proof.
  intros [] [Hp Ho]. unfold vswitch_spec, local_node_spec, remote_node_spec, ip_flow.
  case_bool_decide; repeat (apply Forall_cons_2; [solve_flow_ok|]); constructor.
Qed.

Lemma pod_flows_ok ip ofport : clean ip -> is_int64 ofport -> Forall entry_ok (pod_flows ip ofport).
Proof.
  intros Hi Ho. unfold pod_flows, ip_flow.
  repeat (apply Forall_cons_2; [first [solve_flow_ok | by apply arp_responder_ok]|]). constructor.
Qed.

(** [entry_ok] of the two directions of a rule. *)
Definition dir_ok (addr : Flow -> Flow) : Prop :=
  (forall p proto ports, is_int64 p -> clean proto -> is_int64 ports ->
     entry_ok (addr (WithTCPDestPort ports (np_flow p proto)) ∙ WithActionResubmit 20) /\
     entry_ok (addr (WithUDPDestPort ports (np_flow p proto)) ∙ WithActionResubmit 20) /\
     entry_ok (addr (np_flow p proto) ∙ WithActionResubmit 20) /\
     entry_ok (addr (np_flow p proto) ∙ WithActionDrop)).

Lemma between_ok s d : clean s -> clean d -> dir_ok (between s d).
Proof. intros Hs Hd p proto ports Hp Hc Hi. repeat split; solve_flow_ok. Qed.
Lemma src_ok s : clean s -> dir_ok (WithIPSrc s).
Proof. intros Hs p proto ports Hp Hc Hi. repeat split; solve_flow_ok. Qed.
Lemma dst_ok s : clean s -> dir_ok (WithIPDest s).
Proof. intros Hs p proto ports Hp Hc Hi. repeat split; solve_flow_ok. Qed.

Lemma small_int64 z : (0 <= z < 10000)%Z -> is_int64 z.
Proof. unfold is_int64, min_int64, max_int64. lia. Qed.

Ltac use_dir H := apply H; first [done | apply small_int64; lia].

Lemma port_entries_ok ports addr :
  Forall port_ok ports -> dir_ok addr -> Forall entry_ok (port_entries ports addr).
Proof.
  intros Hp Ha. assert (H1 : Forall entry_ok [allow_flow addr "ip" id]).
  { constructor; [|done]. use_dir (Ha 1000%Z "ip" 0%Z). }
  unfold port_entries. destruct ports as [|p0 l]; [done|].
  apply Forall_flat_map. eapply Forall_impl; [exact Hp|]. intros p Hpo. unfold port_entry, port_ok in *.
  destruct (npp_Port p) as [i|], (npp_Protocol p) as [pr|]; try done.
  pose proof (IntValue_bounds i Hpo).
  repeat case_bool_decide; try apply Forall_cons_2; try apply Forall_nil_2;
    first [use_dir (Ha 1000%Z "tcp" (IntValue i)) | use_dir (Ha 1000%Z "udp" (IntValue i))].
Qed.

Lemma Forall_flat_map_const {A} (f : A -> list Flow) l :
  (forall x, In x l -> Forall entry_ok (f x)) -> Forall entry_ok (flat_map f l).
Proof. intros Hf. apply Forall_flat_map, Forall_forall. intros x Hx. apply Hf. by apply list_elem_of_In. Qed.

Lemma getPodIPs_In ip pods :
  In ip (getPodIPs pods) <-> exists pod, In pod pods /\ pod_PodIP pod = ip /\ ip <> "".
Proof.
  induction pods as [|pod pods IH]; cbn [getPodIPs In]; [split; [done|by intros (? & [] & _)]|].
  case_bool_decide as He; cbn [In]; rewrite IH; split.
  - intros (p & Hp & Hip & Hne). eauto.
  - intros (p & [->|Hp] & Hip & Hne); [congruence|eauto].
  - intros [<-|(p & Hp & Hip & Hne)]; eauto.
  - intros (p & [->|Hp] & Hip & Hne); eauto.
Qed.

Lemma policy_ips_In c np ip :
  In ip (policy_ips c np) <->
  exists pod, In pod (policy_pods c np) /\ pod_is_local c pod = true /\ pod_PodIP pod = ip.
Proof.
  unfold policy_ips. rewrite <- list_elem_of_In, list_elem_of_fmap. split.
  - intros (pod & -> & Hin). apply list_elem_of_In, filter_In in Hin as [? ?]. eauto.
  - intros (pod & Hin & Hl & <-). exists pod. split; [done|].
    apply list_elem_of_In, filter_In. done.
Qed.

Section rules_ok.
Variable c : controller.
Hypothesis Hpods : Forall (fun pod => clean (pod_PodIP pod)) (idx_List (podLister c)).

Lemma listed_clean ns sel pod : In pod (ListAllByNamespace (podLister c) ns sel) -> clean (pod_PodIP pod).
Proof.
  intros Hin. apply ListAllByNamespace_In in Hin as [Hin _].
  rewrite Forall_forall in Hpods. apply Hpods. by apply list_elem_of_In.
Qed.

Lemma policy_ips_clean np ip : In ip (policy_ips c np) -> clean ip.
Proof.
  rewrite policy_ips_In. intros (pod & Hin & _ & <-). by eapply listed_clean.
Qed.

Lemma rule_entries_ok own ips dir only ports peers :
  (forall l r, clean l -> clean r -> dir_ok (dir l r)) -> (forall l, clean l -> dir_ok (only l)) ->
  (forall ip, In ip ips -> clean ip) -> Forall port_ok ports -> Forall peer_ok peers ->
  Forall entry_ok (rule_entries c own ips dir only ports peers).
Proof.
  intros Hdir Honly Hips Hports Hpeers. unfold rule_entries. destruct peers as [|p0 l].
  { apply Forall_flat_map_const. intros ip Hin. apply port_entries_ok; [done|]. by apply Honly, Hips. }
  apply Forall_flat_map. eapply Forall_impl; [exact Hpeers|]. intros peer Hp.
  unfold peer_entries, peer_ok in *. destruct (peer_IPBlock peer) as [b|].
  - destruct Hp as [Hc Hex]. apply Forall_app_2; apply Forall_flat_map_const.
    + intros ip Hin. constructor; [|done].
      use_dir (Hdir ip (CIDR b) (Hips ip Hin) Hc 1000%Z "ip" 0%Z).
    + intros ex Hin. apply Forall_flat_map_const. intros ip Hin'. constructor; [|done].
      assert (clean ex) by (rewrite Forall_forall in Hex; apply Hex; by apply list_elem_of_In).
      use_dir (Hdir ip ex (Hips ip Hin') ltac:(done) 1100%Z "ip" 0%Z).
  - destruct (peer_PodSelector peer) as [sel|]; [|constructor].
    repeat (apply Forall_flat_map_const; intros ? ?). apply port_entries_ok; [done|].
    apply Hdir; [by apply Hips|].
    match goal with H : In _ (getPodIPs _) |- _ => apply getPodIPs_In in H as (pod & Hin & <- & _) end.
    by eapply listed_clean.
Qed.

Lemma netpol_entries_ok np : policy_ok np -> Forall entry_ok (netpol_spec np c).
Proof.
  intros [Hi He]. unfold netpol_spec, ingress_spec, egress_spec.
  pose proof (policy_ips_clean np) as Hips.
  repeat apply Forall_app_2.
  - apply Forall_flat_map_const. intros ip Hin. constructor; [|done].
    use_dir (dst_ok ip (Hips ip Hin) 100%Z "ip" 0%Z).
  - apply Forall_flat_map. eapply Forall_impl; [exact Hi|]. intros r [Hp Hf].
    apply rule_entries_ok; auto using dst_ok, between_ok.
  - apply Forall_flat_map_const. intros ip Hin. constructor; [|done].
    use_dir (src_ok ip (Hips ip Hin) 100%Z "ip" 0%Z).
  - apply Forall_flat_map. eapply Forall_impl; [exact He|]. intros r [Hp Hf].
    apply rule_entries_ok; auto using src_ok, between_ok.
Qed.
End rules_ok.

(** ** The order of the stores *)

(** The same controller with its stores listed in another order. *)
Record same_stores (c c' : controller) : Prop := {
  ss_config : same_config c c';
  ss_cache : c_portCache c = c_portCache c';
  ss_pods : store_equiv (podLister c) (podLister c');
  ss_nss : store_equiv (nsLister c) (nsLister c');
  ss_netpols : store_equiv (netPolLister c) (netPolLister c');
  ss_vswitches : store_equiv (vswitchLister c) (vswitchLister c')
}.

Lemma flat_map_perm {A} (f g : A -> list Flow) l k :
  l ≡ₚ k -> (forall x, In x l -> f x ≡ₚ g x) -> flat_map f l ≡ₚ flat_map g k.
Proof.
  intros Hl. revert g. induction Hl as [|x l k Hlk IH|x y l|l k j H1 IH1 H2 IH2]; intros g Hf; cbn.
  - done.
  - rewrite (Hf x) by by left. rewrite (IH g); [done|]. intros y Hy. apply Hf. by right.
  - rewrite !app_assoc, (Permutation_app_comm (f y)).
    rewrite (Hf x), (Hf y) by (cbn; tauto). f_equiv.
    induction l as [|z l IH]; cbn; [done|]. rewrite (Hf z) by (cbn; tauto). f_equiv.
    apply IH. intros u Hu. apply Hf. cbn in *. tauto.
  - rewrite (IH1 f) by done. apply IH2. intros x Hx. apply Hf.
    by apply (Permutation_in x (Permutation_sym H1)).
Qed.

Lemma filter_perm_ext {A} (p q : A -> bool) l k :
  l ≡ₚ k -> (forall x, p x = q x) -> List.filter p l ≡ₚ List.filter q k.
Proof.
  intros Hl Hpq. rewrite (filter_perm p l k Hl).
  by rewrite (List.filter_ext p q Hpq).
Qed.

Lemma getPodIPs_perm l k : l ≡ₚ k -> getPodIPs l ≡ₚ getPodIPs k.
Proof.
  induction 1 as [|x l k _ IH|x y l|l k j _ IH1 _ IH2]; cbn [getPodIPs]; [done| | |by etrans].
  - case_bool_decide; by rewrite IH.
  - repeat case_bool_decide; try done. constructor.
Qed.

Section order.
Variables c c' : controller.
Hypothesis Hsame : same_stores c c'.

Lemma isLocal_same ip : isLocalIP c ip = isLocalIP c' ip.
Proof. unfold isLocalIP. by rewrite (sc_podCIDR c c' (ss_config _ _ Hsame)). Qed.

Lemma pod_is_local_same pod : pod_is_local c pod = pod_is_local c' pod.
Proof. unfold pod_is_local. by rewrite isLocal_same. Qed.

Lemma policy_ips_perm np : policy_ips c np ≡ₚ policy_ips c' np.
Proof.
  unfold policy_ips, policy_pods. apply fmap_Permutation, filter_perm_ext.
  - by rewrite (ss_pods _ _ Hsame).
  - apply pod_is_local_same.
Qed.

Lemma peer_namespaces_perm own nsel : peer_namespaces c own nsel ≡ₚ peer_namespaces c' own nsel.
Proof.
  unfold peer_namespaces. destruct nsel as [sel|]; [|done].
  pose proof (ListAll_proper _ _ (ss_nss _ _ Hsame) _ (AsSelector (MatchLabels sel)) eq_refl) as Hl.
  rewrite (Permutation_length Hl). destruct (0 <? _)%nat; [|done]. by rewrite Hl.
Qed.

Lemma rule_entries_perm own ips ips' dir only ports peers :
  ips ≡ₚ ips' ->
  rule_entries c own ips dir only ports peers ≡ₚ rule_entries c' own ips' dir only ports peers.
Proof.
  intros Hips. unfold rule_entries. destruct peers as [|p0 l]; [by apply flat_map_perm|].
  apply flat_map_perm; [done|]. intros peer _. unfold peer_entries.
  destruct (peer_IPBlock peer) as [b|].
  - unfold block_entries. f_equiv; [by apply flat_map_perm|].
    apply flat_map_perm; [done|]. intros ex _. by apply flat_map_perm.
  - destruct (peer_PodSelector peer) as [sel|]; [|done].
    apply flat_map_perm; [apply peer_namespaces_perm|]. intros ns _.
    apply flat_map_perm; [done|]. intros ip _. apply flat_map_perm; [|done].
    apply getPodIPs_perm. by rewrite (ss_pods _ _ Hsame).
Qed.

Lemma netpol_spec_perm np : netpol_spec np c ≡ₚ netpol_spec np c'.
Proof.
  unfold netpol_spec, ingress_spec, egress_spec. pose proof (policy_ips_perm np) as Hips.
  repeat apply Permutation_app; apply flat_map_perm; try done; intros r _;
    by apply rule_entries_perm.
Qed.
End order.

(** ** Properties *)

Section properties.
Context {W : Type} `{HExec : Exec W}.

Lemma query_port_int64 ns name (w : W) port :
  (query_port ns name w).1 = Ok port -> is_int64 (pi_ofport port).
Proof.
  unfold query_port, mbind, M_bind. destruct (findPort ns name w) as [[p| |] w1]; try done.
  destruct (macAddrFromPort p w1) as [[m| |] w2]; try done.
  unfold ofPortFromName, mbind, M_bind. destruct (wrapped _ _ w2) as [[out| |] w3]; try done.
  pose proof (Atoi_int64 (TrimSpace out)) as Ha. destruct (Atoi _) as [n [|]]; try done.
  by intros [= <-].
Qed.

Lemma believed_int64 s ns name port :
  ports_int s.1 -> believed s ns name = Ok port -> is_int64 (pi_ofport port).
Proof.
  intros Hp. unfold believed. destruct (store s.1 !! _) as [p|] eqn:Hl; [intros [= <-]; by apply (Hp _ _ Hl)|].
  apply query_port_int64.
Qed.

Lemma learned_ports_int (w : W) pc0 pc : learned w pc0 pc -> ports_int pc0 -> ports_int pc.
Proof.
  intros [_ _ Hp] H0 key port Hk. destruct (Hp key port Hk) as [Hk0|(ns & name & Hq)]; [by apply (H0 key)|].
  by apply query_port_int64 in Hq.
Qed.

Lemma sync_entries_ok c (w : W) : inputs_ok c -> Forall entry_ok (sync_spec c w).
Proof.
  intros [Hcf Hports Hvs Hpods Hpol]. unfold sync_spec. repeat apply Forall_app_2.
  - by apply default_entries_ok.
  - apply Forall_flat_map. eapply Forall_impl; [exact Hvs|]. intros v Hv. by apply vswitch_entries_ok.
  - apply Forall_flat_map. eapply Forall_impl; [exact Hpods|]. intros pod Hp. cbn beta in Hp.
    unfold pod_spec. destruct (pod_is_local c pod); [|done].
    pose proof (fun port => believed_int64 (c_portCache c, w) (pod_Namespace pod) (pod_Name pod) port Hports) as Hq.
    destruct (believed _ _ _) as [port| |]; [|done..]. apply pod_flows_ok; auto.
  - apply Forall_flat_map. eapply Forall_impl; [exact Hpol|]. intros np Hnp.
    by apply netpol_entries_ok.
Qed.

(** C1.  A full sync replaces the flows of the bridge by [sync_spec].  One
    command is run on the switch, [ovs-ofctl replace-flows] on the bridge; its
    input reads back line by line as the entries of [sync_spec], computed
    from the configuration, the four stores, the port cache and the answers of
    ovs-vsctl; its failure is the error of the sync; and the cache learns ports
    but changes no belief, so it agrees with Open vSwitch if it did. *)
Theorem syncFlows_replaces c (w : W) :
  sync_ready c w -> inputs_ok c ->
  exists text pc, read_text text = sync_spec c w /\ learned w (c_portCache c) pc /\
    (coherent (c_portCache c, w) -> coherent (pc, w)) /\
    syncFlows (c, w) =
    match exec_CombinedOutput "ovs-ofctl" (replace_args (bridgeName c)) text w with
    | (Ok _, w') => (Ok tt, (filled (sync_spec c w) pc c, w'))
    | (Err e, w') => (Err (ErrWrap "error syncing flows" (ErrWrap "failed to sync flows" e)),
                      (filled (sync_spec c w) pc c, w'))
    | (Panic, w') => (Panic, (filled (sync_spec c w) pc c, w'))
    end.
Proof.
  intros Hr Hi. destruct (syncFlows_run c w Hr) as (pc & Hpc & Hrun).
  exists (render (sync_spec c w)), pc.
  split; [by apply read_text_render, sync_entries_ok|]. split; [done|]. split; [by apply learned_coherent|]. rewrite Hrun.
  unfold SyncFlows, wrapped, mbind, M_bind. cbn [buffer]. unfold replace_args.
  by destruct (exec_CombinedOutput _ _ _ w) as [[| |] w'].
Qed.

(** What a sync returns, what it leaves outside, and the text it built. *)
Definition sync_outcome (c : controller) (w : W) : result unit * W * FlowsBuffer :=
  let r := syncFlows (c, w) in (r.1, r.2.2, c_flows r.2.1).

(** Two coherent caches make no difference. *)
Lemma sync_spec_coherent c (w : W) pc :
  Forall (fun pod => slashless (pod_Namespace pod)) (idx_List (podLister c)) ->
  coherent (c_portCache c, w) -> coherent (pc, w) -> sync_spec (set_portCache pc c) w = sync_spec c w.
Proof.
  intros Hs Hc Hpc. unfold sync_spec.
  replace (idx_List (podLister (set_portCache pc c))) with (idx_List (podLister c)) by by destruct c.
  assert (flat_map (pod_spec (set_portCache pc c) w) (idx_List (podLister c)) =
    flat_map (pod_spec c w) (idx_List (podLister c))) as ->; [|by destruct c].
  rewrite !List.flat_map_concat_map. f_equal. apply List.map_ext_in. intros pod Hin%list_elem_of_In. unfold pod_spec.
  replace (pod_is_local (set_portCache pc c) pod) with (pod_is_local c pod) by by destruct c.
  replace (c_portCache (set_portCache pc c)) with pc by by destruct c.
  rewrite Forall_forall in Hs. by rewrite !believed_coherent by auto.
Qed.

(** Nothing is carried over from one sync to the next: whatever the
    buffer and the (coherent) cache held, the same command with the same input
    is run and the same result returned, so entries of deleted objects vanish
    from the switch at the next sync. *)
Theorem syncFlows_forgets c (w : W) b pc :
  sync_ready c w -> coherent (c_portCache c, w) -> coherent (pc, w) ->
  sync_outcome (set_flows b (set_portCache pc c)) w = sync_outcome c w.
Proof.
  intros Hr Hc0 Hpc. set (c' := set_flows b (set_portCache pc c)). unfold sync_outcome.
  assert (Hr' : sync_ready c' w).
  { destruct Hr as [Hro Hrows Hp Hn]. subst c'. split; by destruct c. }
  destruct (syncFlows_run c w Hr) as (pc1 & _ & ->).
  destruct (syncFlows_run c' w Hr') as (pc2 & _ & ->).
  replace (sync_spec c' w) with (sync_spec c w)
    by (rewrite <- (sync_spec_coherent c w pc (sr_pods _ _ Hr) Hc0 Hpc); subst c'; by destruct c).
  replace (bridgeName c') with (bridgeName c) by by subst c'; destruct c.
  destruct (SyncFlows _ _ w) as [r w']. cbn [fst snd]. subst c'. by destruct c.
Qed.

Lemma sync_spec_perm c c' (w : W) : same_stores c c' -> sync_spec c w ≡ₚ sync_spec c' w.
Proof.
  intros Hs. pose proof Hs as [Hcf Hpc Hp Hn Hpol Hv]. unfold sync_spec.
  repeat apply Permutation_app.
  - unfold default_spec. destruct Hcf as [? ? -> -> ? -> -> ? ?]. done.
  - apply flat_map_perm; [apply Hv|]. intros v _.
    unfold vswitch_spec, local_node_spec, remote_node_spec.
    by destruct Hcf as [-> ? ? -> -> ? ? -> ->].
  - apply flat_map_perm; [apply Hp|]. intros pod _.
    unfold pod_spec. by rewrite (pod_is_local_same c c' Hs), Hpc.
  - apply flat_map_perm; [apply Hpol|]. intros np _. by apply netpol_spec_perm.
Qed.

End properties.

(** ** Witnesses *)

#[local] Existing Instance ovs_exec.

Lemma demo_inputs : inputs_ok demo.
Proof.
  repeat first [ apply Forall_cons_2 | apply Forall_nil_2 | split ]; try reflexivity; try done;
    cbn; unfold is_int64, min_int64, max_int64; lia.
Qed.

Lemma syncFlows_replaces_witness :
  (syncFlows (demo, ovs_one)).1 = Ok tt /\
  (read_text <$> (ovs_flows (syncFlows (demo, ovs_one)).2.2 !! "k-vswitch0")) =
    Some (sync_spec demo ovs_one).
Proof.
  destruct (syncFlows_replaces demo ovs_one demo_ready demo_inputs)
    as (text & pc & Hread & _ & _ & Hrun).
  rewrite Hrun. split; [done|]. rewrite <- Hread. reflexivity.
Defined.

Lemma syncFlows_forgets_witness :
  sync_outcome (set_flows {| buffer := "stale" |} (set_portCache NewPortCache demo)) ovs_one =
  sync_outcome demo ovs_one.
Proof.
  apply (syncFlows_forgets demo ovs_one {| buffer := "stale" |} NewPortCache demo_ready
           (empty_coherent ovs_one) (empty_coherent ovs_one)).
Defined.

(** The demo cluster with its pods listed in another order. *)
Definition demo_reordered : controller :=
  MkController 0 "node-a" "k-vswitch0" "10.1.0.1" "0a:00:00:00:00:01" "0a:00:00:00:00:02"
    "10.1.0.0/24" "10.0.0.0/8" 2 1 NewFlowsBuffer NewPortCache
    (stored [client_pod; server_pod; pending_pod])
    (nsLister demo) (netPolLister demo) (vswitchLister demo).

