(* ===== verification/Pipeline.v ===== *)
(** * The flow pipeline of the switch

    What a list of entries does to an IPv4 packet, after the OpenFlow 1.3
    table semantics the entries are written for: in a table the matching entry
    of the highest priority is taken (any of them, when several share it), its
    actions run in order, [resubmit] continues in another table, a table
    without a match drops.  This is the specification side of the controller's
    theorems; the entries themselves come from the code ([sync_spec]).

    [runs_total] shows that entries which only resubmit to later tables send
    every packet through in finitely many steps. *)
From S2P Require Import Prelude GoStrings GoNet Flows.

(** ** Packets *)

(** The transport header of an IPv4 packet, as far as the entries look. *)
Inductive transport := TCP (dport : Z) | UDP (dport : Z) | OtherProto.

Record packet := {
  pk_src : list Z;    (* four bytes *)
  pk_dst : list Z;
  pk_l4 : transport
}.

Definition packet_ok (p : packet) : Prop :=
  length (pk_src p) = 4 /\ bytes (pk_src p) /\ length (pk_dst p) = 4 /\ bytes (pk_dst p).

(** ** Matching *)

(** [nw_src=] and [nw_dst=]: a block or an address; absent when empty. *)
Definition addr_match (txt : string) (a : list Z) : bool :=
  if bool_decide (txt = "") then true else
  match ParseCIDR txt with
  | Ok n => net_Contains n a
  | _ => match ParseIP txt with
         | Some ip => bool_decide (To4 ip = Some a)
         | None => false
         end
  end.

Definition proto_match (proto : string) (p : packet) : bool :=
  if bool_decide (proto = "") then true
  else if bool_decide (proto = "ip") then true
  else if bool_decide (proto = "tcp") then match pk_l4 p with TCP _ => true | _ => false end
  else if bool_decide (proto = "udp") then match pk_l4 p with UDP _ => true | _ => false end
  else false.

(** A port of 0 is not printed, so it does not constrain. *)
Definition tcp_dst_match (n : Z) (p : packet) : bool :=
  (n =? 0)%Z || match pk_l4 p with TCP d => (d =? n)%Z | _ => false end.
Definition udp_dst_match (n : Z) (p : packet) : bool :=
  (n =? 0)%Z || match pk_l4 p with UDP d => (d =? n)%Z | _ => false end.

(** A raw line of ethertype 0x0806 never matches an IPv4 packet. *)
Definition raw_match (line : string) : bool := negb (Contains line " dl_type=0x0806 ").

Definition flow_matches (f : Flow) (p : packet) : bool :=
  if bool_decide (f_raw f = "") then
    proto_match (f_protocol f) p && addr_match (f_ipDest f) (pk_dst p) &&
    addr_match (f_ipSrc f) (pk_src p) &&
    tcp_dst_match (f_tcpDestPort f) p && udp_dst_match (f_udpDestPort f) p
  else raw_match (f_raw f).

(** ** Tables *)

(** The table of an entry: the field, or what a raw line begins with. *)
Definition raw_table (line : string) : Z :=
  match Split line " "%char with
  | first :: _ => fst (Atoi (TrimPrefix first "table="))
  | [] => 0
  end.
Definition entry_table (f : Flow) : Z :=
  if bool_decide (f_raw f = "") then f_table f else raw_table (f_raw f).

Lemma entry_table_raw line rest :
  line = "table=100 " +:+ rest -> entry_table (NewFlow ∙ WithRaw line) = 100%Z.
Proof.
  intros ->. unfold entry_table. cbn [WithRaw NewFlow f_raw].
  rewrite bool_decide_eq_false_2 by done. unfold raw_table.
  change ("table=100 " +:+ rest) with ("table=100" +:+ String " " rest).
  by rewrite Split_app.
Qed.

Lemma entry_table_field f : f_raw f = "" -> entry_table f = f_table f.
Proof. intros Hr. unfold entry_table. by rewrite Hr, bool_decide_eq_true_2. Qed.

(** The taken entry: matches, and no matching entry of the table beats it. *)
Definition selected (fs : list Flow) (t : Z) (p : packet) (f : Flow) : Prop :=
  In f fs /\ entry_table f = t /\ flow_matches f p = true /\
  forall g, In g fs -> entry_table g = t -> flow_matches g p = true -> (f_priority g <= f_priority f)%Z.

Definition missed (fs : list Flow) (t : Z) (p : packet) : Prop :=
  forall g, In g fs -> entry_table g = t -> flow_matches g p = false.

Lemma selected_or_missed fs t p : missed fs t p \/ exists f, selected fs t p f.
Proof.
  induction fs as [|g fs [Hm|(f & Hin & Ht & Hf & Hmax)]].
  - left. by intros g [].
  - destruct (decide (entry_table g = t)) as [Hg|Hg], (flow_matches g p) eqn:Em.
    + right. exists g. repeat split; [by left|done..|]. intros h [<-|Hh] Hth Hmh; [lia|].
      rewrite Hm in Hmh; done.
    + left. intros h [<-|Hh] Hth; [done|by apply Hm].
    + left. intros h [<-|Hh] Hth; [done|by apply Hm].
    + left. intros h [<-|Hh] Hth; [done|by apply Hm].
  - right. destruct (decide (entry_table g = t /\ flow_matches g p = true /\
                             (f_priority f < f_priority g)%Z)) as [(Hg & Hmg & Hlt)|Hn].
    + exists g. repeat split; [by left|done..|]. intros h [<-|Hh] Hth Hmh; [lia|].
      specialize (Hmax h Hh Hth Hmh). lia.
    + exists f. repeat split; [by right|done..|]. intros h [<-|Hh] Hth Hmh; [|by apply Hmax].
      apply Z.nlt_ge. intros Hlt. by apply Hn.
Qed.

(** ** Runs *)

(** What the actions so far did to the packet. *)
Record rewrites := { rw_dl_dst : string; rw_tun_dst : string }.
Definition no_rewrites : rewrites := {| rw_dl_dst := ""; rw_tun_dst := "" |}.

Inductive emission :=
| ToPort (port : Z) (r : rewrites)
| ToLocal (r : rewrites).

Definition rewrite_by (f : Flow) (r : rewrites) : rewrites :=
  {| rw_dl_dst := if bool_decide (f_modDlDest f = "") then rw_dl_dst r else f_modDlDest f;
     rw_tun_dst := if bool_decide (f_tunDest f = "") then rw_tun_dst r else f_tunDest f |}.

Definition outputs (f : Flow) (r : rewrites) : list emission :=
  if (f_output f =? 0)%Z then [] else [ToPort (f_output f) r].
Definition locals (f : Flow) (r : rewrites) : list emission :=
  if f_local f then [ToLocal r] else [].

(** [runs fs p t r out]: entering table [t] with rewrites [r], the packet is
    emitted as [out]. *)
Inductive runs (fs : list Flow) (p : packet) : Z -> rewrites -> list emission -> Prop :=
| runs_miss t r : missed fs t p -> runs fs p t r []
| runs_end t r f :
    selected fs t p f -> f_resubmit f = 0%Z ->
    runs fs p t r (outputs f (rewrite_by f r) ++ locals f (rewrite_by f r))
| runs_resubmit t r f sub :
    selected fs t p f -> f_resubmit f <> 0%Z ->
    runs fs p (f_resubmit f) (rewrite_by f r) sub ->
    runs fs p t r (outputs f (rewrite_by f r) ++ sub ++ locals f (rewrite_by f r)).

(** A table is a set of entries: their order does not matter. *)
Lemma selected_perm fs fs' t p f : fs ≡ₚ fs' -> selected fs t p f -> selected fs' t p f.
Proof.
  intros Hp (Hin & Ht & Hm & Hmax). assert (Hiff : forall g, In g fs' -> In g fs).
  { intros g. rewrite <- !list_elem_of_In. by rewrite Hp. }
  split; [|split; [done|split; [done|]]]; [revert Hin; rewrite <- !list_elem_of_In; by rewrite Hp|].
  intros g Hg. by apply Hmax, Hiff.
Qed.

Lemma runs_perm fs fs' p t r out : fs ≡ₚ fs' -> runs fs p t r out -> runs fs' p t r out.
Proof.
  intros Hp. induction 1 as [t r Hm|t r f Hs He|t r f sub Hs He _ IH].
  - apply runs_miss. intros g Hg. apply Hm. revert Hg. rewrite <- !list_elem_of_In. by rewrite Hp.
  - by eapply runs_end; [eapply selected_perm|].
  - by eapply runs_resubmit; [eapply selected_perm| |].
Qed.

(** An entry that only sends the packet on to table [u], and one that only
    drops it. *)
Definition passes_to (u : Z) (f : Flow) : Prop :=
  f_resubmit f = u /\ f_output f = 0%Z /\ f_drop f = false /\ f_local f = false /\
  f_modDlDest f = "" /\ f_tunDest f = "".
Definition drops (f : Flow) : Prop :=
  f_resubmit f = 0%Z /\ f_output f = 0%Z /\ f_drop f = true /\ f_local f = false.

Lemma outputs_none f r : f_output f = 0%Z -> outputs f r = [].
Proof. intros Hf. unfold outputs. by rewrite Hf. Qed.
Lemma locals_none f r : f_local f = false -> locals f r = [].
Proof. intros Hf. unfold locals. by rewrite Hf. Qed.
Lemma rewrite_none f r : f_modDlDest f = "" -> f_tunDest f = "" -> rewrite_by f r = r.
Proof. intros Hm Ht. unfold rewrite_by. rewrite Hm, Ht, !bool_decide_eq_true_2 by done. by destruct r. Qed.

(** From an untouched packet the rewrites are the entry's own. *)
Lemma rewrite_first f :
  rewrite_by f no_rewrites = {| rw_dl_dst := f_modDlDest f; rw_tun_dst := f_tunDest f |}.
Proof.
  unfold rewrite_by. cbn.
  by f_equal; case_bool_decide.
Qed.

Lemma runs_inv fs p t r out :
  runs fs p t r out ->
  (missed fs t p /\ out = []) \/
  exists f, selected fs t p f /\
    ((f_resubmit f = 0%Z /\ out = outputs f (rewrite_by f r) ++ locals f (rewrite_by f r)) \/
     (f_resubmit f <> 0%Z /\ exists sub, runs fs p (f_resubmit f) (rewrite_by f r) sub /\
        out = outputs f (rewrite_by f r) ++ sub ++ locals f (rewrite_by f r))).
Proof.
  intros [t' r' Hm|t' r' f Hs Hr|t' r' f sub Hs Hr Hsub]; [by left|right; exists f..]; split; try done.
  - by left.
  - right. split; [done|]. by exists sub.
Qed.

Lemma not_missed fs t p f : selected fs t p f -> ~ missed fs t p.
Proof. intros (Hin & Ht & Hf & _) Hm. by rewrite (Hm f Hin Ht) in Hf. Qed.

(** One step of a run, when all the candidates agree. *)
Lemma runs_pass fs p t u r out :
  runs fs p t r out -> (u <> 0)%Z -> (exists f, selected fs t p f) ->
  (forall f, selected fs t p f -> passes_to u f) -> runs fs p u r out.
Proof.
  intros Hrun Hu [f0 Hf0] Hall.
  destruct (runs_inv _ _ _ _ _ Hrun) as [[Hm _]|(f & Hf & Hcase)]; [by destruct (not_missed _ _ _ _ Hf0)|].
  destruct (Hall f Hf) as (Hr & Ho & _ & Hl & Hm & Ht). rewrite Hr in Hcase.
  destruct Hcase as [[Hz _]|(_ & sub & Hsub & ->)]; [done|].
  rewrite rewrite_none in * by done. by rewrite outputs_none, locals_none, app_nil_r.
Qed.

Lemma runs_drop fs p t r out :
  runs fs p t r out -> (forall f, selected fs t p f -> drops f) -> out = [].
Proof.
  intros Hrun Hall. destruct (runs_inv _ _ _ _ _ Hrun) as [[_ ->]|(f & Hf & Hcase)]; [done|].
  destruct (Hall f Hf) as (Hr & Ho & _ & Hl). rewrite Hr in Hcase.
  destruct Hcase as [[_ ->]|[Hz _]]; [|done]. by rewrite outputs_none, locals_none.
Qed.

(** The last step: emit as the candidates say. *)
Lemma runs_last fs p t r out g :
  runs fs p t r out -> (exists f, selected fs t p f) ->
  (forall f, selected fs t p f -> f_resubmit f = 0%Z /\
     outputs f (rewrite_by f r) ++ locals f (rewrite_by f r) = g) -> out = g.
Proof.
  intros Hrun [f0 Hf0] Hall.
  destruct (runs_inv _ _ _ _ _ Hrun) as [[Hm _]|(f & Hf & Hcase)]; [by destruct (not_missed _ _ _ _ Hf0)|].
  destruct (Hall f Hf) as [Hr Hg]. rewrite Hr in Hcase. by destruct Hcase as [[_ ->]|[Hz _]].
Qed.

(** Only forwards. *)
Definition forward (fs : list Flow) : Prop :=
  forall f, In f fs -> f_resubmit f <> 0%Z -> (entry_table f < f_resubmit f <= 255)%Z.

Lemma runs_total fs p :
  forward fs -> forall t r, exists out, runs fs p t r out.
Proof.
  intros Hfw t. remember (Z.to_nat (256 - t)) as n eqn:Hn. revert t Hn.
  induction n as [n IH] using lt_wf_ind. intros t -> r.
  destruct (selected_or_missed fs t p) as [Hm|[f Hf]]; [eexists; by apply runs_miss|].
  destruct (decide (f_resubmit f = 0%Z)) as [H0|H0]; [eexists; by eapply runs_end|].
  pose proof Hf as (Hin & Ht & _). destruct (Hfw f Hin H0) as [H1 H2].
  destruct (IH (Z.to_nat (256 - f_resubmit f)) ltac:(lia) (f_resubmit f) eq_refl (rewrite_by f r))
    as [out Hout].
  eexists. by eapply runs_resubmit.
Qed.

(** ** Counting hits by priority *)

(** Does an entry of table [t] and priority [n] match? *)
Definition hits (t n : Z) (p : packet) (fs : list Flow) : bool :=
  existsb (fun f => (entry_table f =? t)%Z && (f_priority f =? n)%Z && flow_matches f p) fs.

Lemma hits_app t n p fs gs : hits t n p (fs ++ gs) = hits t n p fs || hits t n p gs.
Proof. apply existsb_app. Qed.

Lemma hits_flat_map {A} t n p (g : A -> list Flow) l :
  hits t n p (flat_map g l) = existsb (fun x => hits t n p (g x)) l.
Proof. induction l as [|x l IH]; [done|]. cbn [flat_map existsb]. by rewrite hits_app, IH. Qed.

Lemma hits_nil t n p : hits t n p [] = false.
Proof. done. Qed.

Lemma hits_true t n p fs :
  hits t n p fs = true <->
  exists f, In f fs /\ entry_table f = t /\ f_priority f = n /\ flow_matches f p = true.
Proof.
  unfold hits. rewrite existsb_exists. split.
  - intros (f & Hin & Hf). rewrite !andb_true_iff, !Z.eqb_eq in Hf.
    destruct Hf as [[? ?] ?]. eauto.
  - intros (f & Hin & Ht & Hn & Hm). exists f. rewrite Ht, Hn, Hm, !Z.eqb_refl. done.
Qed.

(** The taken entry beats every priority that is hit, and hits its own. *)
Lemma selected_ge fs t p f n : selected fs t p f -> hits t n p fs = true -> (n <= f_priority f)%Z.
Proof. intros (_ & _ & _ & Hmax) (g & Hin & Ht & <- & Hm)%hits_true. by apply Hmax. Qed.

Lemma selected_hits fs t p f : selected fs t p f -> hits t (f_priority f) p fs = true.
Proof. intros (Hin & Ht & Hm & _). apply hits_true. eauto. Qed.

Lemma selected_exists fs t p n : hits t n p fs = true -> exists f, selected fs t p f.
Proof.
  intros (g & Hin & Ht & _ & Hm)%hits_true.
  destruct (selected_or_missed fs t p) as [Hmiss|]; [|done].
  by rewrite (Hmiss g Hin Ht) in Hm.
Qed.

Lemma existsb_ext_in {A} (p q : A -> bool) l :
  (forall x, In x l -> p x = q x) -> existsb p l = existsb q l.
Proof.
  intros Hpq. induction l as [|x l IH]; [done|]. cbn.
  rewrite Hpq by by left. rewrite IH; [done|]. intros y Hy. apply Hpq. by right.
Qed.

Lemma existsb_false {A} (l : list A) : existsb (fun _ => false) l = false.
Proof. by induction l. Qed.

Lemma existsb_andb_l {A} (b : bool) (q : A -> bool) l :
  existsb (fun x => b && q x) l = b && existsb q l.
Proof. induction l as [|x l IH]; cbn; [by destruct b|]. rewrite IH. by destruct b. Qed.

Lemma existsb_andb_r {A} (b : bool) (q : A -> bool) l :
  existsb (fun x => q x && b) l = existsb q l && b.
Proof. induction l as [|x l IH]; cbn; [done|]. rewrite IH. by destruct b, (q x), (existsb q l). Qed.

(** ** Addresses *)

Lemma dotted_ne l : length l = 4 -> dotted l <> "".
Proof.
  intros Hl He. do 2 (destruct l as [|? l]; try done). rewrite dotted_cons in He.
  pose proof (f_equal String.length He) as Hlen. rewrite !str_length_app in Hlen. cbn in Hlen. lia.
Qed.

Lemma addr_match_dotted l a :
  length l = 4 -> bytes l -> addr_match (dotted l) a = bool_decide (l = a).
Proof.
  intros Hl Hb. unfold addr_match. case_bool_decide as He.
  { by apply dotted_ne in He. }
  unfold ParseCIDR. rewrite (proj2 (cut_byte_None _ _)) by (by apply dotted_lacks).
  rewrite ParseIP_dotted by done. rewrite To4_16 by done.
  apply bool_decide_ext. split; congruence.
Qed.

Lemma net_Contains_ipv4_bytes l n w :
  length l = 4 -> bytes l -> (0 <= n <= 32)%Z -> length w = 4 -> bytes w ->
  net_Contains (ipv4_net l n) w = net_Contains (ipv4_net l n) (v4InV6Prefix ++ w).
Proof. intros. unfold net_Contains. by rewrite To4_16, To4_4. Qed.

(** Leading bits. *)
Definition in_block (l : list Z) (n : Z) (a : list Z) : bool :=
  (be_val l / 2 ^ (32 - n) =? be_val a / 2 ^ (32 - n))%Z.

Lemma addr_match_cidr l n a :
  length l = 4 -> bytes l -> (0 <= n <= 32)%Z -> length a = 4 -> bytes a ->
  addr_match (cidr_text l n) a = in_block l n a.
Proof.
  intros Hl Hb Hn Ha Hba. unfold addr_match. case_bool_decide as He.
  { unfold cidr_text in He.
    pose proof (f_equal String.length He) as Hlen. rewrite !str_length_app in Hlen. cbn in Hlen. lia. }
  rewrite ParseCIDR_ipv4, net_Contains_ipv4_bytes by done.
  pose proof (net_Contains_ipv4 l n a Hl Hb Hn Ha Hba) as Hiff. unfold in_block.
  destruct (net_Contains _ _), (_ =? _)%Z eqn:E; try done; rewrite ?Z.eqb_eq, ?Z.eqb_neq in E.
  - by destruct (E (proj1 Hiff eq_refl)).
  - discriminate (proj2 Hiff E).
Qed.
