(* ===== verification/Verdict.v ===== *)
(** * What network policies do to packets

    The verdict of table 10 on a packet, from the entries a sync installs.
    [allowed] states it in terms of the policies: a packet is dropped when an
    [Except] block of a policy of one of its ends covers the other end;
    otherwise it passes when some rule admits it or when no policy selects
    either end, and is dropped in the remaining case.  [policy_verdict] shows
    the entry the switch takes, whichever it is among equals, does exactly
    that.  The other theorems read off where this differs from the
    NetworkPolicy API. *)
From Stdlib Require Import Btauto.
From S2P Require Import Prelude GoStrings GoNet Exec Objects Labels Flows PortCache Controller NetPol Sync Readback Pipeline OvsSim.

(** ** The verdict, in terms of the policies *)

Definition port_admits (p : packet) (port : NetworkPolicyPort) : bool :=
  match npp_Port port, npp_Protocol port with
  | Some i, Some pr =>
      if bool_decide (ToLower pr = "tcp") then proto_match "tcp" p && tcp_dst_match (IntValue i) p
      else if bool_decide (ToLower pr = "udp") then proto_match "udp" p && udp_dst_match (IntValue i) p
      else false
  | _, _ => false
  end.

Definition ports_admit (ports : list NetworkPolicyPort) (p : packet) : bool :=
  match ports with [] => true | _ => existsb (port_admits p) ports end.

(** [remote]: the end of the packet that the rule's peers describe. *)
Definition peer_admits (c : controller) (own : string) (ports : list NetworkPolicyPort)
    (remote : list Z) (p : packet) (peer : NetworkPolicyPeer) : bool :=
  match peer_IPBlock peer with
  | Some b => addr_match (CIDR b) remote
  | None => existsb (fun ip => addr_match ip remote) (peer_ips c own peer) && ports_admit ports p
  end.

Definition rule_admits (c : controller) (own : string) (ports : list NetworkPolicyPort)
    (peers : list NetworkPolicyPeer) (remote : list Z) (p : packet) : bool :=
  match peers with
  | [] => ports_admit ports p
  | _ => existsb (peer_admits c own ports remote p) peers
  end.

Definition peer_excepts (remote : list Z) (peer : NetworkPolicyPeer) : bool :=
  match peer_IPBlock peer with
  | Some b => existsb (fun ex => addr_match ex remote) (Except b)
  | None => false
  end.

(** Is this end of the packet a pod of this node that the policy selects? *)
Definition selects (c : controller) (np : NetworkPolicy) (a : list Z) : bool :=
  existsb (fun ip => addr_match ip a) (policy_ips c np).

Definition ingress_admits (c : controller) (p : packet) (np : NetworkPolicy) : bool :=
  selects c np (pk_dst p) &&
  existsb (fun r => rule_admits c (np_Namespace np) (ing_Ports r) (ing_From r) (pk_src p) p)
    (np_Ingress (np_Spec np)).
Definition egress_admits (c : controller) (p : packet) (np : NetworkPolicy) : bool :=
  selects c np (pk_src p) &&
  existsb (fun r => rule_admits c (np_Namespace np) (eg_Ports r) (eg_To r) (pk_dst p) p)
    (np_Egress (np_Spec np)).
Definition ingress_excepts (c : controller) (p : packet) (np : NetworkPolicy) : bool :=
  selects c np (pk_dst p) &&
  existsb (fun r => existsb (peer_excepts (pk_src p)) (ing_From r)) (np_Ingress (np_Spec np)).
Definition egress_excepts (c : controller) (p : packet) (np : NetworkPolicy) : bool :=
  selects c np (pk_src p) &&
  existsb (fun r => existsb (peer_excepts (pk_dst p)) (eg_To r)) (np_Egress (np_Spec np)).

Definition some_policy (c : controller) (q : NetworkPolicy -> bool) : bool :=
  existsb q (idx_List (netPolLister c)).

Definition allowed (c : controller) (p : packet) : bool :=
  negb (some_policy c (fun np => ingress_excepts c p np || egress_excepts c p np)) &&
  (some_policy c (fun np => ingress_admits c p np || egress_admits c p np) ||
   negb (some_policy c (fun np => selects c np (pk_dst p) || selects c np (pk_src p)))).

(** ** Hits of the entries of a rule *)

Lemma hits_one t n p f :
  hits t n p [f] = (entry_table f =? t)%Z && (f_priority f =? n)%Z && flow_matches f p.
Proof. unfold hits. cbn. apply orb_false_r. Qed.

(** [addr] restricts an entry to the packets of [m], and nothing else. *)
Record addr_spec (addr : Flow -> Flow) (m : packet -> bool) : Prop := {
  as_tcp pr n q p : hits 10 q p [addr (WithTCPDestPort n (np_flow pr "tcp")) ∙ WithActionResubmit 20] =
    (pr =? q)%Z && m p && (proto_match "tcp" p && tcp_dst_match n p);
  as_udp pr n q p : hits 10 q p [addr (WithUDPDestPort n (np_flow pr "udp")) ∙ WithActionResubmit 20] =
    (pr =? q)%Z && m p && (proto_match "udp" p && udp_dst_match n p);
  as_ip pr q p : hits 10 q p [addr (np_flow pr "ip") ∙ WithActionResubmit 20] = (pr =? q)%Z && m p;
  as_drop pr q p : hits 10 q p [addr (np_flow pr "ip") ∙ WithActionDrop] = (pr =? q)%Z && m p
}.

Ltac solve_addr_spec :=
  split; intros; rewrite hits_one; unfold flow_matches, entry_table; cbn [f_raw f_table f_priority f_protocol
    f_ipDest f_ipSrc f_tcpDestPort f_udpDestPort between np_flow NewFlow WithTable WithPriority
    WithProtocol WithIPSrc WithIPDest WithTCPDestPort WithUDPDestPort WithActionResubmit
    WithActionDrop]; rewrite bool_decide_eq_true_2 by done;
  change (addr_match "" _) with true; change (tcp_dst_match 0 _) with true;
  change (udp_dst_match 0 _) with true; change (proto_match "ip" _) with true;
  change (10 =? 10)%Z with true; btauto.

Lemma between_spec s d :
  addr_spec (between s d) (fun p => addr_match s (pk_src p) && addr_match d (pk_dst p)).
Proof. solve_addr_spec. Qed.
Lemma between_spec' s d :
  addr_spec (between s d) (fun p => addr_match d (pk_dst p) && addr_match s (pk_src p)).
Proof. solve_addr_spec. Qed.
Lemma src_spec s : addr_spec (WithIPSrc s) (fun p => addr_match s (pk_src p)).
Proof. solve_addr_spec. Qed.
Lemma dst_spec d : addr_spec (WithIPDest d) (fun p => addr_match d (pk_dst p)).
Proof. solve_addr_spec. Qed.

Lemma existsb_flat_map {A B} (q : B -> bool) (g : A -> list B) l :
  existsb q (flat_map g l) = existsb (fun x => existsb q (g x)) l.
Proof. induction l as [|x l IH]; [done|]. cbn [flat_map existsb]. by rewrite existsb_app, IH. Qed.

Lemma existsb_orb {A} (q r : A -> bool) l :
  existsb (fun x => q x || r x) l = existsb q l || existsb r l.
Proof. induction l as [|x l IH]; [done|]. cbn. rewrite IH. btauto. Qed.

Lemma port_entries_hits addr m ports q p :
  addr_spec addr m ->
  hits 10 q p (port_entries ports addr) = (1000 =? q)%Z && m p && ports_admit ports p.
Proof.
  intros Ha. unfold port_entries, ports_admit, allow_flow, id. destruct ports as [|p0 l].
  { rewrite (as_ip _ _ Ha). btauto. }
  rewrite hits_flat_map, <- existsb_andb_l. apply existsb_ext_in. intros port _.
  unfold port_entry, port_admits, allow_flow.
  destruct (npp_Port port), (npp_Protocol port); rewrite ?hits_nil; try btauto.
  repeat case_bool_decide; rewrite ?(as_tcp _ _ Ha), ?(as_udp _ _ Ha), ?hits_nil; btauto.
Qed.

Section rule_hits.
Variable c : controller.
Variable own : string.
Variable ips : list string.
Variables dir : string -> string -> Flow -> Flow.
Variable only : string -> Flow -> Flow.
Variables local remote : packet -> list Z.
Hypothesis dir_spec : forall l r,
  addr_spec (dir l r) (fun p => addr_match l (local p) && addr_match r (remote p)).
Hypothesis only_spec : forall l, addr_spec (only l) (fun p => addr_match l (local p)).

Definition at_local (p : packet) : bool := existsb (fun ip => addr_match ip (local p)) ips.

Lemma block_entries_hits q p b :
  hits 10 q p (block_entries ips dir b) =
  at_local p && (((1000 =? q)%Z && addr_match (CIDR b) (remote p)) ||
                 ((1100 =? q)%Z && existsb (fun ex => addr_match ex (remote p)) (Except b))).
Proof.
  unfold block_entries, at_local, allow_flow, id. rewrite hits_app, !hits_flat_map.
  rewrite andb_orb_distrib_r. f_equal.
  - rewrite <- existsb_andb_r. apply existsb_ext_in. intros ip _.
    rewrite (as_ip _ _ (dir_spec ip (CIDR b)) 1000). btauto.
  - rewrite <- !existsb_andb_l. apply existsb_ext_in. intros ex _.
    rewrite hits_flat_map, <- existsb_andb_r. apply existsb_ext_in. intros ip _.
    rewrite (as_drop _ _ (dir_spec ip ex) 1100). btauto.
Qed.

Lemma peer_entries_hits q p ports peer :
  hits 10 q p (peer_entries c own ips dir ports peer) =
  at_local p && (((1000 =? q)%Z && peer_admits c own ports (remote p) p peer) ||
                 ((1100 =? q)%Z && peer_excepts (remote p) peer)).
Proof.
  unfold peer_entries, peer_admits, peer_excepts. destruct (peer_IPBlock peer) as [b|];
    [apply block_entries_hits|].
  unfold peer_ips. destruct (peer_PodSelector peer) as [sel|]; [|rewrite hits_nil; cbn; btauto].
  rewrite existsb_flat_map. rewrite hits_flat_map.
  set (rip := fun ns : string => getPodIPs (ListAllByNamespace (podLister c) ns (peer_selector sel))).
  transitivity (existsb (fun ns => existsb (fun ip => addr_match ip (remote p)) (rip ns) &&
    ((1000 =? q)%Z && at_local p && ports_admit ports p))
    (peer_namespaces c own (peer_NamespaceSelector peer))).
  - apply existsb_ext_in. intros ns _. rewrite hits_flat_map.
    transitivity (existsb (fun ip => addr_match ip (local p) &&
      (existsb (fun ip => addr_match ip (remote p)) (rip ns) && ((1000 =? q)%Z && ports_admit ports p))) ips).
    + apply existsb_ext_in. intros ip _. rewrite hits_flat_map.
      rewrite <- existsb_andb_r, <- existsb_andb_l. apply existsb_ext_in. intros r _.
      rewrite (port_entries_hits _ _ _ _ _ (dir_spec ip r)). btauto.
    + rewrite existsb_andb_r. fold (at_local p). btauto.
  - rewrite existsb_andb_r. subst rip. cbn beta. btauto.
Qed.

Lemma rule_entries_hits q p ports peers :
  hits 10 q p (rule_entries c own ips dir only ports peers) =
  at_local p && (((1000 =? q)%Z && rule_admits c own ports peers (remote p) p) ||
                 ((1100 =? q)%Z && existsb (peer_excepts (remote p)) peers)).
Proof.
  unfold rule_entries, rule_admits. destruct peers as [|p0 l].
  - rewrite hits_flat_map. cbn [existsb]. rewrite andb_false_r, orb_false_r.
    unfold at_local. rewrite <- existsb_andb_r. apply existsb_ext_in. intros ip _.
    rewrite (port_entries_hits _ _ _ _ _ (only_spec ip)). btauto.
  - rewrite hits_flat_map, <- !existsb_andb_l, <- existsb_orb, <- existsb_andb_l.
    apply existsb_ext_in. intros peer _. apply peer_entries_hits.
Qed.
End rule_hits.

(** ** Hits of a policy and of a sync *)

Lemma ingress_spec_hits c np q p :
  hits 10 q p (ingress_spec np (policy_ips c np) c) =
  ((100 =? q)%Z && selects c np (pk_dst p)) ||
  ((1000 =? q)%Z && ingress_admits c p np) || ((1100 =? q)%Z && ingress_excepts c p np).
Proof.
  unfold ingress_spec, ingress_admits, ingress_excepts, selects.
  rewrite hits_app, !hits_flat_map, <- orb_assoc. f_equal.
  - rewrite <- existsb_andb_l. apply existsb_ext_in. intros ip _.
    by rewrite (as_drop _ _ (dst_spec ip) 100).
  - rewrite <- !existsb_andb_l, <- existsb_orb. apply existsb_ext_in. intros r _.
    rewrite (rule_entries_hits c _ _ (fun l r => between r l) WithIPDest pk_dst pk_src);
      [|intros; apply between_spec'|apply dst_spec].
    unfold at_local. btauto.
Qed.

Lemma egress_spec_hits c np q p :
  hits 10 q p (egress_spec np (policy_ips c np) c) =
  ((100 =? q)%Z && selects c np (pk_src p)) ||
  ((1000 =? q)%Z && egress_admits c p np) || ((1100 =? q)%Z && egress_excepts c p np).
Proof.
  unfold egress_spec, egress_admits, egress_excepts, selects.
  rewrite hits_app, !hits_flat_map, <- orb_assoc. f_equal.
  - rewrite <- existsb_andb_l. apply existsb_ext_in. intros ip _.
    by rewrite (as_drop _ _ (src_spec ip) 100).
  - rewrite <- !existsb_andb_l, <- existsb_orb. apply existsb_ext_in. intros r _.
    rewrite (rule_entries_hits c _ _ (fun l r => between l r) WithIPSrc pk_src pk_dst);
      [|intros; apply between_spec|apply src_spec].
    unfold at_local. btauto.
Qed.

Lemma hits_none t n p fs : Forall (fun f => entry_table f <> t) fs -> hits t n p fs = false.
Proof.
  intros Hf. unfold hits. induction Hf as [|f fs Hf _ IH]; [done|]. cbn [existsb].
  by rewrite (proj2 (Z.eqb_neq _ _) Hf), IH.
Qed.

(** ARP responders sit in table 100. *)
Lemma arp_table ip mac : entry_table (NewFlow ∙ WithRaw (arp_responder ip mac)) = 100%Z.
Proof. eapply (entry_table_raw _ ("priority=500 dl_type=0x0806 arp_tpa=" +:+ ip +:+ _)). reflexivity. Qed.
Lemma arp_block_table ip mac : entry_table (NewFlow ∙ WithRaw (arp_responder_block ip mac)) = 100%Z.
Proof. eapply (entry_table_raw _ ("priority=400 dl_type=0x0806 arp_tpa=" +:+ ip +:+ _)). reflexivity. Qed.

Section sync_hits.
Context {W : Type} `{HExec : Exec W}.
Variables (c : controller) (w : W) (p : packet).

Lemma default_hits q : hits 10 q p (default_spec c) = (0 =? q)%Z.
Proof.
  change (default_spec c) with
    ([NewFlow ∙ WithTable 0 ∙ WithPriority 1000 ∙ WithActionResubmit 10] ++
     [NewFlow ∙ WithTable 10 ∙ WithPriority 0 ∙ WithActionResubmit 20] ++
     drop 2 (default_spec c)).
  rewrite !hits_app, hits_none by by repeat constructor.
  rewrite (hits_none _ _ _ (drop 2 _)).
  - rewrite hits_one. change (entry_table _ =? 10)%Z with true.
    change (flow_matches _ p) with true. change (f_priority _) with 0%Z. btauto.
  - cbn [drop default_spec].
    repeat (apply Forall_cons_2; [first [done | by rewrite arp_table | by rewrite arp_block_table]|]).
    constructor.
Qed.

Lemma vswitch_off_10 v : Forall (fun f => entry_table f <> 10%Z) (vswitch_spec v c).
Proof.
  unfold vswitch_spec. case_bool_decide; repeat (apply Forall_cons_2; [done|]); constructor.
Qed.

Lemma pod_off_10 pod : Forall (fun f => entry_table f <> 10%Z) (pod_spec c w pod).
Proof.
  unfold pod_spec. destruct (pod_is_local c pod); [|done].
  destruct (believed _ _ _) as [port| |]; repeat constructor; done.
Qed.

Lemma sync_hits q :
  hits 10 q p (sync_spec c w) =
  (0 =? q)%Z ||
  ((100 =? q)%Z && some_policy c (fun np => selects c np (pk_dst p) || selects c np (pk_src p))) ||
  ((1000 =? q)%Z && some_policy c (fun np => ingress_admits c p np || egress_admits c p np)) ||
  ((1100 =? q)%Z && some_policy c (fun np => ingress_excepts c p np || egress_excepts c p np)).
Proof.
  unfold sync_spec, some_policy. rewrite !hits_app, !hits_flat_map, default_hits.
  rewrite (existsb_ext_in _ (fun _ => false) (idx_List (vswitchLister c)))
    by (intros v _; apply hits_none, vswitch_off_10).
  rewrite (existsb_ext_in _ (fun _ => false) (idx_List (podLister c)))
    by (intros pod _; apply hits_none, pod_off_10).
  rewrite !existsb_false. rewrite <- !existsb_andb_l, <- !orb_assoc, <- !existsb_orb. cbn [orb].
  f_equal. apply existsb_ext_in. intros np _. unfold netpol_spec.
  rewrite hits_app, ingress_spec_hits, egress_spec_hits. btauto.
Qed.
End sync_hits.

(** ** The two shapes of an entry of table 10 *)

Abbreviation passes := (passes_to 20).

Definition np_shape (f : Flow) : Prop :=
  f_raw f = "" /\ f_table f = 10%Z /\
  ((f_priority f = 1000%Z /\ passes f) \/
   ((f_priority f = 1100 \/ f_priority f = 100)%Z /\ drops f)).

(** [addr] only writes match fields. *)
Definition keeps (addr : Flow -> Flow) : Prop :=
  forall f, f_table (addr f) = f_table f /\ f_priority (addr f) = f_priority f /\
    f_resubmit (addr f) = f_resubmit f /\ f_output (addr f) = f_output f /\
    f_drop (addr f) = f_drop f /\ f_local (addr f) = f_local f /\
    f_modDlDest (addr f) = f_modDlDest f /\ f_tunDest (addr f) = f_tunDest f /\
    f_raw (addr f) = f_raw f.

Lemma resubmit_fields t f :
  f_resubmit (f ∙ WithActionResubmit t) = t /\ f_table (f ∙ WithActionResubmit t) = f_table f /\
  f_priority (f ∙ WithActionResubmit t) = f_priority f /\ f_output (f ∙ WithActionResubmit t) = f_output f /\
  f_drop (f ∙ WithActionResubmit t) = f_drop f /\ f_local (f ∙ WithActionResubmit t) = f_local f /\
  f_modDlDest (f ∙ WithActionResubmit t) = f_modDlDest f /\ f_tunDest (f ∙ WithActionResubmit t) = f_tunDest f /\
  f_raw (f ∙ WithActionResubmit t) = f_raw f.
Proof. by destruct f. Qed.

Lemma drop_fields f :
  f_drop (f ∙ WithActionDrop) = true /\ f_table (f ∙ WithActionDrop) = f_table f /\
  f_priority (f ∙ WithActionDrop) = f_priority f /\ f_output (f ∙ WithActionDrop) = f_output f /\
  f_resubmit (f ∙ WithActionDrop) = f_resubmit f /\ f_local (f ∙ WithActionDrop) = f_local f /\
  f_raw (f ∙ WithActionDrop) = f_raw f.
Proof. by destruct f. Qed.

Lemma between_keeps s d : keeps (between s d).
Proof. by intros []. Qed.
Lemma src_keeps s : keeps (WithIPSrc s).
Proof. by intros []. Qed.
Lemma dst_keeps d : keeps (WithIPDest d).
Proof. by intros []. Qed.

Lemma allow_shape addr proto ports : keeps addr -> keeps ports -> np_shape (allow_flow addr proto ports).
Proof.
  intros Ha Hp. unfold np_shape, passes_to, allow_flow.
  destruct (resubmit_fields 20 (addr (ports (np_flow 1000 proto)))) as (-> & -> & -> & -> & -> & -> & -> & -> & ->).
  destruct (Ha (ports (np_flow 1000 proto))) as (-> & -> & _ & -> & -> & -> & -> & -> & ->).
  destruct (Hp (np_flow 1000 proto)) as (-> & -> & _ & -> & -> & -> & -> & -> & ->).
  cbn. do 2 (split; [done|]). left. done.
Qed.

Lemma drop_shape addr q :
  keeps addr -> (q = 1100 \/ q = 100)%Z -> np_shape (addr (np_flow q "ip") ∙ WithActionDrop).
Proof.
  intros Ha Hq. unfold np_shape, drops.
  destruct (drop_fields (addr (np_flow q "ip"))) as (-> & -> & -> & -> & -> & -> & ->).
  destruct (Ha (np_flow q "ip")) as (-> & -> & -> & -> & _ & -> & _ & _ & ->).
  cbn. do 2 (split; [done|]). right. done.
Qed.

Lemma Forall_flat_map_In {A} (P : Flow -> Prop) (f : A -> list Flow) l :
  (forall x, In x l -> Forall P (f x)) -> Forall P (flat_map f l).
Proof. intros Hf. apply Forall_flat_map, Forall_forall. intros x Hx. apply Hf. by apply list_elem_of_In. Qed.

Lemma port_entries_shape ports addr : keeps addr -> Forall np_shape (port_entries ports addr).
Proof.
  intros Ha. assert (H1 : Forall np_shape [allow_flow addr "ip" id]).
  { constructor; [|done]. by apply allow_shape. }
  unfold port_entries. destruct ports as [|p0 l]; [done|].
  apply Forall_flat_map_In. intros port _. unfold port_entry.
  destruct (npp_Port port), (npp_Protocol port); try done.
  repeat case_bool_decide; try apply Forall_cons_2; try apply Forall_nil_2;
    apply allow_shape; try done; by intros [].
Qed.

Lemma rule_entries_shape c own ips dir only ports peers :
  (forall l r, keeps (dir l r)) -> (forall l, keeps (only l)) ->
  Forall np_shape (rule_entries c own ips dir only ports peers).
Proof.
  intros Hd Ho. unfold rule_entries. destruct peers as [|p0 l].
  { apply Forall_flat_map_In. intros ip _. by apply port_entries_shape. }
  apply Forall_flat_map_In. intros peer _. unfold peer_entries, block_entries.
  destruct (peer_IPBlock peer) as [b|].
  - apply Forall_app_2; repeat (apply Forall_flat_map_In; intros ? _); (constructor; [|done]).
    + by apply allow_shape.
    + apply drop_shape; auto.
  - destruct (peer_PodSelector peer); [|done].
    repeat (apply Forall_flat_map_In; intros ? _). by apply port_entries_shape.
Qed.

Lemma netpol_shape c np : Forall np_shape (netpol_spec np c).
Proof.
  unfold netpol_spec, ingress_spec, egress_spec.
  repeat apply Forall_app_2; apply Forall_flat_map_In; intros x _.
  - constructor; [|done]. apply drop_shape; [apply dst_keeps|by right].
  - apply rule_entries_shape; auto using between_keeps, dst_keeps.
  - constructor; [|done]. apply drop_shape; [apply src_keeps|by right].
  - apply rule_entries_shape; auto using between_keeps, src_keeps.
Qed.

(** ** The verdict *)

Section verdict.
Context {W : Type} `{HExec : Exec W}.
Variables (c : controller) (w : W).

Lemma sync_shape f :
  In f (sync_spec c w) -> entry_table f = 10%Z -> (f_priority f = 0%Z /\ passes f) \/ np_shape f.
Proof.
  unfold sync_spec. rewrite !in_app_iff, !in_flat_map. intros [Hd|[(v & _ & Hv)|[(pod & _ & Hp)|(np & _ & Hn)]]] Ht.
  - cbn in Hd. repeat destruct Hd as [<-|Hd]; try done. by left.
  - pose proof (vswitch_off_10 c v) as Hoff. rewrite List.Forall_forall in Hoff. by destruct (Hoff f Hv).
  - pose proof (pod_off_10 c w pod) as Hoff. rewrite List.Forall_forall in Hoff. by destruct (Hoff f Hp).
  - right. pose proof (netpol_shape c np) as Hs. rewrite List.Forall_forall in Hs. by apply Hs.
Qed.

Lemma verdict p f :
  selected (sync_spec c w) 10 p f -> if allowed c p then passes f else drops f.
Proof.
  intros Hsel. pose proof (selected_ge _ _ _ _ 1100 Hsel) as H1100.
  pose proof (selected_ge _ _ _ _ 1000 Hsel) as H1000.
  pose proof (selected_ge _ _ _ _ 100 Hsel) as H100.
  pose proof (selected_hits _ _ _ _ Hsel) as Hown.
  rewrite !sync_hits in *. unfold allowed.
  set (ex := some_policy c (fun np => ingress_excepts c p np || egress_excepts c p np)) in *.
  set (ad := some_policy c (fun np => ingress_admits c p np || egress_admits c p np)) in *.
  set (iso := some_policy c (fun np => selects c np (pk_dst p) || selects c np (pk_src p))) in *.
  pose proof Hsel as (Hin & Ht & _). clearbody ex ad iso.
  destruct (sync_shape f Hin Ht) as [[Hp Hpass]|(_ & _ & [[Hp Hpass]|[[Hp|Hp] Hdrop]])];
    rewrite Hp in *; destruct ex, ad, iso; cbn in *; first [done | lia].
Qed.

Lemma table_10_taken p : exists f, selected (sync_spec c w) 10 p f.
Proof. apply (selected_exists _ _ _ 0). rewrite sync_hits. done. Qed.

(** Table 0 only sends on to table 10. *)
Lemma entry_flow p f : selected (sync_spec c w) 0 p f ->
  f = NewFlow ∙ WithTable 0 ∙ WithPriority 1000 ∙ WithActionResubmit 10.
Proof.
  intros (Hin & Ht & _). revert Hin. unfold sync_spec. rewrite !in_app_iff, !in_flat_map.
  intros [Hd|[(v & _ & Hv)|[(pod & _ & Hp)|(np & _ & Hn)]]].
  - cbn in Hd. repeat destruct Hd as [<-|Hd]; try done;
      by rewrite ?arp_table, ?arp_block_table in Ht.
  - unfold vswitch_spec in Hv. case_bool_decide; cbn in Hv; repeat destruct Hv as [<-|Hv]; done.
  - unfold pod_spec in Hp. destruct (pod_is_local c pod); [|done].
    destruct (believed _ _ _) as [port| |]; try done. cbn in Hp.
    by repeat destruct Hp as [<-|Hp].
  - pose proof (netpol_shape c np) as Hs. rewrite List.Forall_forall in Hs.
    destruct (Hs f Hn) as (Hraw & Ht' & _).
    rewrite entry_table_field in Ht by done. congruence.
Qed.
End verdict.

(** ** Properties *)

Section properties.
Context {W : Type} `{HExec : Exec W}.
Variables (c : controller) (w : W).

(** What a packet entering the switch meets before table 20. *)
Lemma runs_entry p out :
  runs (sync_spec c w) p 0 no_rewrites out ->
  if allowed c p then runs (sync_spec c w) p 20 no_rewrites out else out = [].
Proof.
  intros Hrun. assert (H10 : runs (sync_spec c w) p 10 no_rewrites out).
  { apply (runs_pass _ _ 0); [done|done| |].
    - apply (selected_exists _ _ _ 1000), hits_true.
      exists (NewFlow ∙ WithTable 0 ∙ WithPriority 1000 ∙ WithActionResubmit 10). by split; [left|].
    - intros f Hf. by rewrite (entry_flow c w p f Hf). }
  pose proof (verdict c w p) as Hv. destruct (allowed c p).
  - by apply (runs_pass _ _ 10); [|done|apply table_10_taken|].
  - by eapply runs_drop.
Qed.


(** One admitting side is enough.  When a rule of any policy admits the
    packet at its destination and no exception covers it, it passes even if
    the policies that isolate its source admit nothing. *)
Theorem egress_isolation_bypassed p np :
  In np (idx_List (netPolLister c)) -> ingress_admits c p np = true ->
  some_policy c (fun np => ingress_excepts c p np || egress_excepts c p np) = false ->
  allowed c p = true.
Proof.
  intros Hin Ha He. unfold allowed. rewrite He. cbn. apply orb_true_iff. left.
  apply existsb_exists. exists np. by rewrite Ha.
Qed.
End properties.

(** A port that the code reads as 0 opens every port.  Named ports have
    the value 0 ([IntValue] converts the name), and the clause is then left
    out of the entry: a rule on a named TCP port admits all TCP packets. *)
Theorem named_port_opens_all name p port :
  npp_Port port = Some {| ios_Type := StringType; ios_IntVal := 0; ios_StrVal := name |} ->
  npp_Protocol port = Some "TCP" -> snd (Atoi name) = Some ErrSyntax ->
  port_admits p port = match pk_l4 p with TCP _ => true | _ => false end.
Proof.
  intros Hp Hpr He. unfold port_admits. rewrite Hp, Hpr. cbn [ToLower].
  rewrite bool_decide_eq_true_2 by done.
  assert (H0 : IntValue {| ios_Type := StringType; ios_IntVal := 0; ios_StrVal := name |} = 0%Z).
  { unfold IntValue. cbn. by apply Atoi_syntax_zero. }
  rewrite H0. unfold tcp_dst_match. cbn. by rewrite andb_true_r.
Qed.

(** A rule of an address block admits every protocol and port. *)
Section blocks.
Variables (c : controller) (p : packet).

(** The ports of a rule are not applied to its address blocks: a peer
    given as a block admits the traffic of the whole block, even when the rule
    lists ports and the packet uses none of them. *)
Theorem block_ignores_ports np r peer b :
  In r (np_Ingress (np_Spec np)) -> In peer (ing_From r) -> peer_IPBlock peer = Some b ->
  selects c np (pk_dst p) = true -> addr_match (CIDR b) (pk_src p) = true ->
  hits 10 1000 p (netpol_spec np c) = true.
Proof.
  intros Hr Hp Hb Hs Hm. unfold netpol_spec. rewrite hits_app, ingress_spec_hits.
  apply orb_true_iff. left. cbn [Z.eqb Pos.eqb andb orb]. rewrite orb_false_r.
  unfold ingress_admits. rewrite Hs. cbn [andb]. apply existsb_exists. exists r. split; [done|].
  unfold rule_admits. destruct (ing_From r) as [|p0 l] eqn:Hf; [done|].
  apply existsb_exists. exists peer. split; [done|]. unfold peer_admits. by rewrite Hb.
Qed.
End blocks.

(** ** Witnesses *)

#[local] Existing Instance ovs_exec.

(** From the client to the web pod, and back out of the web pod. *)
Definition client_to_web (dport : Z) : packet :=
  {| pk_src := [10; 2; 0; 5]%Z; pk_dst := [10; 1; 0; 7]%Z; pk_l4 := TCP dport |}.
Definition web_to_client : packet :=
  {| pk_src := [10; 1; 0; 7]%Z; pk_dst := [10; 2; 0; 5]%Z; pk_l4 := TCP 5432 |}.

Example demo_allows_80 : allowed demo (client_to_web 80) = true.
Proof. vm_compute. reflexivity. Qed.
Example demo_denies_81 : allowed demo (client_to_web 81) = false.
Proof. vm_compute. reflexivity. Qed.

Lemma egress_isolation_bypassed_witness : allowed demo (client_to_web 80) = true.
Proof.
  apply (egress_isolation_bypassed demo (client_to_web 80) web_policy).
  - left. reflexivity.
  - vm_compute. reflexivity.
  - vm_compute. reflexivity.
Defined.

Lemma named_port_opens_all_witness :
  port_admits (client_to_web 5432)
    {| npp_Protocol := Some "TCP";
       npp_Port := Some {| ios_Type := StringType; ios_IntVal := 0; ios_StrVal := "http" |} |} = true.
Proof.
  rewrite (named_port_opens_all "http" (client_to_web 5432)); reflexivity.
Defined.

Definition block_policy : NetworkPolicy :=
  {| np_Namespace := "default"; np_Name := "block";
     np_Spec := {| np_PodSelector := demo_selector "web";
       np_Ingress := [{| ing_Ports := [tcp_port 80];
         ing_From := [{| peer_PodSelector := None; peer_NamespaceSelector := None;
                         peer_IPBlock := Some {| CIDR := "10.2.0.0/16"; Except := [] |} |}] |}];
       np_Egress := []; np_PolicyTypes := ["Ingress"] |} |}.

Lemma block_ignores_ports_witness :
  hits 10 1000 (client_to_web 81) (netpol_spec block_policy demo) = true.
Proof.
  eapply (block_ignores_ports demo (client_to_web 81) block_policy).
  - left. reflexivity.
  - left. reflexivity.
  - reflexivity.
  - vm_compute. reflexivity.
  - vm_compute. reflexivity.
Defined.
