(* ===== verification/Routing.v ===== *)
(** * Where allowed packets go

    The classification, forwarding and rewrite tables (20, 30 and 60) of the
    entries a sync installs: the gateway and unknown addresses are handed to
    the local bridge, pods of this node get their own port, pods and
    addresses of other nodes go through the tunnel to the node that owns
    them.  Every packet leaves the pipeline after finitely many tables
    ([pipeline_total]). *)
From S2P Require Import Prelude GoStrings GoNet Exec Objects Labels Flows PortCache Controller NetPol Sync Readback Pipeline Verdict OvsSim.

(** An entry that looks at the destination address only. *)
Lemma ip_match f p :
  f_raw f = "" -> f_protocol f = "ip" -> f_ipSrc f = "" -> f_tcpDestPort f = 0%Z ->
  f_udpDestPort f = 0%Z -> flow_matches f p = addr_match (f_ipDest f) (pk_dst p).
Proof.
  intros Hr Hp Hs Ht Hu. unfold flow_matches. rewrite Hr, Hp, Hs, Ht, Hu.
  rewrite bool_decide_eq_true_2 by done. change (proto_match "ip" p) with true.
  change (addr_match "" _) with true. cbn. by rewrite !andb_true_r.
Qed.

Definition gateway_flow (c : controller) : Flow := ip_flow 20 500 (gatewayIP c) ∙ WithActionLocal.
Definition pod_block_flow (c : controller) : Flow := ip_flow 20 300 (podCIDR c) ∙ WithActionResubmit 60.
Definition cluster_flow (c : controller) : Flow := ip_flow 20 100 (clusterCIDR c) ∙ WithActionResubmit 30.
Definition fallback_flow : Flow := NewFlow ∙ WithTable 20 ∙ WithPriority 0 ∙ WithActionLocal.
Definition arp_flow : Flow :=
  NewFlow ∙ WithTable 20 ∙ WithPriority 100 ∙ WithProtocol "arp" ∙ WithActionResubmit 100.
Definition own_node_flow (c : controller) (v : VSwitchConfigSpec) : Flow :=
  ip_flow 20 100 (OverlayIP v) ∙ WithIPSrc (PodCIDR v) ∙ WithActionModDlDest (bridgeMAC c) ∙ WithActionLocal.
Definition own_node_in_flow (c : controller) (v : VSwitchConfigSpec) : Flow :=
  ip_flow 20 50 (OverlayIP v) ∙ WithActionModDlDest (clusterWideMAC c) ∙
    WithActionOutputPort (clusterWideOFPort c).
Definition other_node_flow (v : VSwitchConfigSpec) : Flow :=
  ip_flow 20 50 (OverlayIP v) ∙ WithActionResubmit 30.

Definition own_block_flow (v : VSwitchConfigSpec) : Flow :=
  ip_flow 30 100 (PodCIDR v) ∙ WithActionResubmit 60.
Definition tunnel_flow (c : controller) (v : VSwitchConfigSpec) : Flow :=
  ip_flow 30 150 (PodCIDR v) ∙ WithActionTunnelDest (OverlayIP v) ∙ WithActionOutputPort (overlayOFPort c).
Definition node_tunnel_flow (c : controller) (v : VSwitchConfigSpec) : Flow :=
  ip_flow 30 100 (OverlayIP v) ∙ WithActionTunnelDest (OverlayIP v) ∙ WithActionOutputPort (overlayOFPort c).

Definition deliver_flow (ip : string) (ofport : Z) : Flow :=
  ip_flow 60 100 ip ∙ WithActionModDlDest podMacAddr ∙ WithActionOutputPort ofport.

Section tables.
Context {W : Type} `{HExec : Exec W}.
Variables (c : controller) (w : W).
Abbreviation fs := (sync_spec c w).

Definition other_node (v : VSwitchConfig) : Prop :=
  In v (idx_List (vswitchLister c)) /\ vsc_Name v <> nodeName c.
Definition this_node (v : VSwitchConfig) : Prop :=
  In v (idx_List (vswitchLister c)) /\ vsc_Name v = nodeName c.
(** A local pod and the port the daemon takes for its: the one Open vSwitch
    names, unless the cache holds another ([believed_coherent]). *)
Definition local_port (pod : Pod) (port : portInfo) : Prop :=
  In pod (idx_List (podLister c)) /\ pod_is_local c pod = true /\
  believed (c_portCache c, w) (pod_Namespace pod) (pod_Name pod) = Ok port.

Lemma in_fs f :
  In f fs <->
  In f (default_spec c) \/
  (exists v, this_node v /\ In f (local_node_spec c (vsc_Spec v))) \/
  (exists v, other_node v /\ In f (remote_node_spec c (vsc_Spec v))) \/
  (exists pod port, local_port pod port /\ In f (pod_flows (pod_PodIP pod) (pi_ofport port))) \/
  (exists np, In np (idx_List (netPolLister c)) /\ In f (netpol_spec np c)).
Proof.
  unfold sync_spec. rewrite !in_app_iff, !in_flat_map. split.
  - intros [Hd|[(v & Hv & Hf)|[(pod & Hp & Hf)|Hn]]]; [by left| | |by do 4 right].
    + unfold vswitch_spec in Hf. case_bool_decide; [right; left|right; right; left]; by exists v.
    + do 3 right. left. unfold pod_spec in Hf. destruct (pod_is_local c pod) eqn:Hl; [|done].
      destruct (believed _ _ _) as [port| |] eqn:Hq; [|done..].
      by exists pod, port.
  - intros [Hd|[(v & [Hv Hn] & Hf)|[(v & [Hv Hn] & Hf)|[(pod & port & (Hp & Hl & Hq) & Hf)|Hn]]]];
      [by left| | | |by do 3 right].
    + right; left. exists v. split; [done|]. unfold vswitch_spec. by rewrite bool_decide_eq_true_2.
    + right; left. exists v. split; [done|]. unfold vswitch_spec. by rewrite bool_decide_eq_false_2.
    + right; right; left. exists pod. split; [done|]. unfold pod_spec. by rewrite Hl, Hq.
Qed.

Lemma netpol_table np f : In f (netpol_spec np c) -> entry_table f = 10%Z.
Proof.
  intros Hf. pose proof (netpol_shape c np) as Hs. rewrite List.Forall_forall in Hs.
  destruct (Hs f Hf) as (Hr & Ht & _). by rewrite entry_table_field.
Qed.

Ltac off_table :=
  match goal with
  | H : entry_table (NewFlow ∙ WithRaw (arp_responder _ _)) = _ |- _ => by rewrite arp_table in H
  | H : entry_table (NewFlow ∙ WithRaw (arp_responder_block _ _)) = _ |- _ =>
      by rewrite arp_block_table in H
  | H : entry_table _ = _ |- _ => by rewrite entry_table_field in H by done
  end.

Ltac table_cases Ht :=
  rewrite in_fs;
  intros [Hf|[(v & Hv & Hf)|[(v & Hv & Hf)|[(pod & port & Hp & Hf)|(np & _ & Hf)]]]] Ht;
  [ | | | |apply netpol_table in Hf; congruence];
  unfold default_spec, local_node_spec, remote_node_spec, pod_flows in Hf; cbn [In] in Hf;
  repeat destruct Hf as [<-|Hf]; try done; try off_table.

Lemma table_20 f : In f fs -> entry_table f = 20%Z ->
  f = fallback_flow \/ f = gateway_flow c \/ f = pod_block_flow c \/ f = cluster_flow c \/ f = arp_flow \/
  (exists v, this_node v /\ (f = own_node_flow c (vsc_Spec v) \/ f = own_node_in_flow c (vsc_Spec v))) \/
  (exists v, other_node v /\ f = other_node_flow (vsc_Spec v)).
Proof. table_cases Ht; eauto 15. Qed.

Lemma table_30 f : In f fs -> entry_table f = 30%Z ->
  (exists v, this_node v /\ f = own_block_flow (vsc_Spec v)) \/
  (exists v, other_node v /\ (f = tunnel_flow c (vsc_Spec v) \/ f = node_tunnel_flow c (vsc_Spec v))).
Proof. table_cases Ht; eauto 15. Qed.

Lemma table_60 f : In f fs -> entry_table f = 60%Z ->
  exists pod port, local_port pod port /\ f = deliver_flow (pod_PodIP pod) (pi_ofport port).
Proof. table_cases Ht; eauto 15. Qed.

(** ** Taking entries *)

(** An entry present and matching bounds the taken one from below. *)
Lemma taken_ge t p f g :
  selected fs t p f -> In g fs -> entry_table g = t -> flow_matches g p = true ->
  (f_priority g <= f_priority f)%Z.
Proof. intros (_ & _ & _ & Hmax) Hg Ht Hm. by apply Hmax. Qed.

Lemma taken_exists t p g :
  In g fs -> entry_table g = t -> flow_matches g p = true -> exists f, selected fs t p f.
Proof.
  intros Hg Ht Hm. destruct (selected_or_missed fs t p) as [Hmiss|]; [|done].
  by rewrite (Hmiss g Hg Ht) in Hm.
Qed.

Lemma arp_no_match p : flow_matches arp_flow p = false.
Proof. done. Qed.

Lemma in_fallback : In fallback_flow fs.
Proof. apply in_fs. left. cbn. tauto. Qed.
Lemma in_gateway : In (gateway_flow c) fs.
Proof. apply in_fs. left. cbn. tauto. Qed.
Lemma in_pod_block : In (pod_block_flow c) fs.
Proof. apply in_fs. left. cbn. tauto. Qed.
Lemma in_cluster : In (cluster_flow c) fs.
Proof. apply in_fs. left. cbn. tauto. Qed.
Lemma in_tunnel v : other_node v -> In (tunnel_flow c (vsc_Spec v)) fs.
Proof. intros Hv. apply in_fs. do 2 right. left. exists v. split; [done|]. by left. Qed.
Lemma in_other_node v : other_node v -> In (other_node_flow (vsc_Spec v)) fs.
Proof. intros Hv. apply in_fs. do 2 right. left. exists v. split; [done|]. right. by left. Qed.
Lemma in_node_tunnel v : other_node v -> In (node_tunnel_flow c (vsc_Spec v)) fs.
Proof. intros Hv. apply in_fs. do 2 right. left. exists v. split; [done|]. right. right. by left. Qed.
Lemma in_deliver pod port :
  local_port pod port -> In (deliver_flow (pod_PodIP pod) (pi_ofport port)) fs.
Proof. intros Hp. apply in_fs. do 3 right. left. exists pod, port. split; [done|]. by left. Qed.

Lemma fallback_match p : flow_matches fallback_flow p = true.
Proof. done. Qed.
Lemma own_node_dst v p :
  flow_matches (own_node_flow c v) p = true -> addr_match (OverlayIP v) (pk_dst p) = true.
Proof.
  unfold flow_matches, own_node_flow, ip_flow.
  cbn [f_raw f_protocol f_ipDest f_ipSrc f_tcpDestPort f_udpDestPort NewFlow WithTable WithPriority
    WithProtocol WithIPDest WithIPSrc WithActionModDlDest WithActionLocal].
  rewrite bool_decide_eq_true_2 by done. rewrite !andb_true_iff. tauto.
Qed.

#[local] Hint Resolve in_fallback in_gateway in_pod_block in_cluster in_tunnel in_other_node
  in_node_tunnel in_deliver : core.

(** Eliminates a candidate that does not match the packet, or whose priority
    is below one that is known to match. *)
Ltac drop_candidate Hm :=
  first [ rewrite ip_match in Hm by done; cbn in Hm; congruence
        | rewrite arp_no_match in Hm; discriminate Hm
        | cbn in *; lia ].

(** The gateway first. *)
Lemma to_gateway p f :
  addr_match (gatewayIP c) (pk_dst p) = true -> selected fs 20 p f -> f = gateway_flow c.
Proof.
  intros Hg Hf. pose proof (taken_ge _ _ _ _ Hf in_gateway eq_refl
    ltac:(by rewrite ip_match)) as Hge.
  destruct Hf as (Hin & Ht & Hm & _).
  destruct (table_20 f Hin Ht) as [->|[->|[->|[->|[->|[(v & _ & [->| ->])|(v & _ & ->)]]]]]];
    first [done | by cbn in Hge; lia].
Qed.

(** Then the node's own pods. *)
Lemma to_pod_block p f :
  addr_match (gatewayIP c) (pk_dst p) = false -> addr_match (podCIDR c) (pk_dst p) = true ->
  selected fs 20 p f -> f = pod_block_flow c.
Proof.
  intros Hg Hb Hf. pose proof (taken_ge _ _ _ _ Hf in_pod_block eq_refl
    ltac:(by rewrite ip_match)) as Hge.
  destruct Hf as (Hin & Ht & Hm & _).
  destruct (table_20 f Hin Ht) as [->|[->|[->|[->|[->|[(v & _ & [->| ->])|(v & _ & ->)]]]]]];
    first [done | by drop_candidate Hm].
Qed.

(** Then the rest of the cluster, except the node's own overlay address. *)
Lemma to_cluster p f :
  addr_match (gatewayIP c) (pk_dst p) = false -> addr_match (podCIDR c) (pk_dst p) = false ->
  (forall v, this_node v -> addr_match (OverlayIP (vsc_Spec v)) (pk_dst p) = false) ->
  addr_match (clusterCIDR c) (pk_dst p) = true ->
  selected fs 20 p f -> f = cluster_flow c.
Proof.
  intros Hg Hb Hown Hc Hf. pose proof (taken_ge _ _ _ _ Hf in_cluster eq_refl
    ltac:(by rewrite ip_match)) as Hge.
  destruct Hf as (Hin & Ht & Hm & _).
  destruct (table_20 f Hin Ht) as [->|[->|[->|[->|[->|[(v & Hv & [->| ->])|(v & _ & ->)]]]]]];
    first [done | by drop_candidate Hm | apply own_node_dst in Hm; by rewrite Hown in Hm].
Qed.

(** Inside the cluster, the node that owns the block. *)
Lemma to_tunnel p f v :
  other_node v -> addr_match (PodCIDR (vsc_Spec v)) (pk_dst p) = true ->
  selected fs 30 p f ->
  exists v', other_node v' /\ addr_match (PodCIDR (vsc_Spec v')) (pk_dst p) = true /\
             f = tunnel_flow c (vsc_Spec v').
Proof.
  intros Hv Hb Hf. pose proof (taken_ge _ _ _ _ Hf (in_tunnel v Hv) eq_refl
    ltac:(by rewrite ip_match)) as Hge.
  destruct Hf as (Hin & Ht & Hm & _).
  destruct (table_30 f Hin Ht) as [(v' & _ & ->)|(v' & Hv' & [->| ->])]; [by cbn in Hge; lia| |by cbn in Hge; lia].
  exists v'. rewrite ip_match in Hm by done. done.
Qed.

Lemma to_port p f :
  selected fs 60 p f ->
  exists pod port, local_port pod port /\ addr_match (pod_PodIP pod) (pk_dst p) = true /\
                   f = deliver_flow (pod_PodIP pod) (pi_ofport port).
Proof.
  intros (Hin & Ht & Hm & _). destruct (table_60 f Hin Ht) as (pod & port & Hp & ->).
  exists pod, port. rewrite ip_match in Hm by done. done.
Qed.

(** ** Termination *)

Lemma sync_forward : forward fs.
Proof.
  intros f Hin Hr. revert Hin. rewrite in_fs.
  intros [Hf|[(v & Hv & Hf)|[(v & Hv & Hf)|[(pod & port & Hp & Hf)|(np & _ & Hf)]]]].
  5:{ pose proof (netpol_shape c np) as Hs. rewrite List.Forall_forall in Hs.
      destruct (Hs f Hf) as (Hraw & Ht & Hshape). rewrite entry_table_field, Ht by done.
      destruct Hshape as [[_ Hp]|[_ Hd]].
      - rewrite (proj1 Hp). lia.
      - by destruct Hd. }
  all: unfold default_spec, local_node_spec, remote_node_spec, pod_flows in Hf; cbn [In] in Hf;
    repeat destruct Hf as [<-|Hf]; try done;
    try (by rewrite entry_table_field by done; cbn).
Qed.
End tables.

(** ** Properties *)

Section properties.
Context {W : Type} `{HExec : Exec W}.
Variables (c : controller) (w : W).
Abbreviation fs := (sync_spec c w).

(** A packet that enters the switch can be emitted as [out]. *)
Definition emitted (p : packet) (out : list emission) : Prop :=
  runs (sync_spec c w) p 0 no_rewrites out.

(** [out] is what happens to the packet: it can happen and nothing else can. *)
Definition exactly (p : packet) (out : list emission) : Prop :=
  emitted p out /\ forall out', emitted p out' -> out' = out.

Lemma exactly_intro p out :
  (forall out', runs fs p 0 no_rewrites out' -> out' = out) -> exactly p out.
Proof.
  intros Hall. split; [|done].
  destruct (runs_total fs p (sync_forward c w) 0 no_rewrites) as [out' Hrun].
  by rewrite (Hall out' Hrun) in Hrun.
Qed.

Lemma denied_nowhere p : allowed c p = false -> exactly p [].
Proof.
  intros Ha. apply exactly_intro. intros out Hrun. apply runs_entry in Hrun. by rewrite Ha in Hrun.
Qed.


(** Isolation is both ways whatever the policy's types.  A policy that
    selects the source or the destination, whatever its [policyTypes], denies
    every packet that no rule of any policy admits; in particular an
    ingress-only policy cuts the traffic its pods send. *)
Theorem policy_types_ignored p np :
  In np (idx_List (netPolLister c)) ->
  selects c np (pk_src p) = true \/ selects c np (pk_dst p) = true ->
  some_policy c (fun np => ingress_admits c p np || egress_admits c p np) = false ->
  exactly p [].
Proof.
  intros Hin Hsel Hno. apply denied_nowhere. unfold allowed. rewrite Hno.
  assert (Hiso : some_policy c (fun np => selects c np (pk_dst p) || selects c np (pk_src p)) = true).
  { apply existsb_exists. exists np. split; [done|]. apply orb_true_iff. tauto. }
  rewrite Hiso. apply andb_false_r.
Qed.

(** Allowed packets are decided by table 20. *)
Lemma exactly_20 p out :
  allowed c p = true ->
  (forall out', runs fs p 20 no_rewrites out' -> out' = out) -> exactly p out.
Proof.
  intros Ha Hall. apply exactly_intro. intros out' Hrun. apply Hall.
  apply runs_entry in Hrun. by rewrite Ha in Hrun.
Qed.

Lemma runs_at_20 p u out f0 :
  runs fs p 20 no_rewrites out -> (u <> 0)%Z ->
  In f0 fs -> entry_table f0 = 20%Z -> flow_matches f0 p = true ->
  (forall f, selected fs 20 p f -> f = f0) -> passes_to u f0 -> runs fs p u no_rewrites out.
Proof.
  intros Hrun Hu Hin Ht Hm Hall Hp. apply (runs_pass fs p 20); [done|done| |].
  - by apply (taken_exists c w 20 p f0).
  - intros f Hf. by rewrite (Hall f Hf).
Qed.


(** Traffic for the gateway address goes to the local bridge port,
    unchanged, whatever the pods, nodes and other blocks are. *)
Theorem gateway_is_local p :
  allowed c p = true -> addr_match (gatewayIP c) (pk_dst p) = true ->
  exactly p [ToLocal no_rewrites].
Proof.
  intros Ha Hg. apply exactly_20; [done|]. intros out Hrun.
  apply (runs_last _ _ _ _ _ _ Hrun).
  - apply (taken_exists c w 20 p (gateway_flow c)); [apply in_gateway|done|by rewrite ip_match].
  - intros f Hf. by rewrite (to_gateway c w p f Hg Hf).
Qed.

(** The two ways of a packet for a pod, for the theorems below and for the
    cluster as a whole ([Cluster]). *)
Lemma to_own_port p pod port :
  allowed c p = true ->
  addr_match (gatewayIP c) (pk_dst p) = false -> addr_match (podCIDR c) (pk_dst p) = true ->
  local_port c w pod port -> addr_match (pod_PodIP pod) (pk_dst p) = true ->
  (pi_ofport port <> 0)%Z ->
  (forall pod' port', local_port c w pod' port' -> addr_match (pod_PodIP pod') (pk_dst p) = true ->
     pi_ofport port' = pi_ofport port) ->
  exactly p [ToPort (pi_ofport port) {| rw_dl_dst := podMacAddr; rw_tun_dst := "" |}].
Proof.
  intros Ha Hg Hb Hp Hip Hne Huniq. apply exactly_20; [done|]. intros out Hrun.
  assert (H60 : runs fs p 60 no_rewrites out).
  { apply (runs_at_20 p 60 out (pod_block_flow c)); try done.
    - apply in_pod_block.
    - by rewrite ip_match.
    - intros f. by apply to_pod_block. }
  apply (runs_last _ _ _ _ _ _ H60).
  - apply (taken_exists c w 60 p (deliver_flow (pod_PodIP pod) (pi_ofport port)));
      [by apply in_deliver|done|by rewrite ip_match].
  - intros f Hf. destruct (to_port c w p f Hf) as (pod' & port' & Hp' & Hm' & ->).
    split; [done|]. unfold outputs. cbn. rewrite (Huniq pod' port' Hp' Hm').
    by rewrite (proj2 (Z.eqb_neq _ _) Hne).
Qed.

Lemma to_overlay p v :
  allowed c p = true ->
  addr_match (gatewayIP c) (pk_dst p) = false -> addr_match (podCIDR c) (pk_dst p) = false ->
  addr_match (clusterCIDR c) (pk_dst p) = true ->
  (forall v', this_node c v' -> addr_match (OverlayIP (vsc_Spec v')) (pk_dst p) = false) ->
  other_node c v -> addr_match (PodCIDR (vsc_Spec v)) (pk_dst p) = true ->
  (forall v', other_node c v' -> addr_match (PodCIDR (vsc_Spec v')) (pk_dst p) = true ->
     OverlayIP (vsc_Spec v') = OverlayIP (vsc_Spec v)) ->
  (overlayOFPort c <> 0)%Z ->
  exactly p [ToPort (overlayOFPort c) {| rw_dl_dst := ""; rw_tun_dst := OverlayIP (vsc_Spec v) |}].
Proof.
  intros Ha Hg Hb Hcl Hown Hv Hm Huniq Hne. apply exactly_20; [done|]. intros out Hrun.
  assert (H30 : runs fs p 30 no_rewrites out).
  { apply (runs_at_20 p 30 out (cluster_flow c)); try done.
    - apply in_cluster.
    - by rewrite ip_match.
    - intros f. by apply to_cluster. }
  apply (runs_last _ _ _ _ _ _ H30).
  - apply (taken_exists c w 30 p (tunnel_flow c (vsc_Spec v)));
      [by apply in_tunnel|done|by rewrite ip_match].
  - intros f Hf. destruct (to_tunnel c w p f v Hv Hm Hf) as (v' & Hv' & Hm' & ->).
    split; [done|]. rewrite rewrite_first. unfold outputs. cbn.
    by rewrite (proj2 (Z.eqb_neq _ _) Hne), (Huniq v' Hv' Hm').
Qed.


(** A packet for a pod of another node is emitted once, on the overlay
    port, in a tunnel to the overlay address of the node that owns the block
    (blocks that overlap must name the same node). *)
Theorem remote_pod_tunnel p v :
  allowed c p = true ->
  addr_match (gatewayIP c) (pk_dst p) = false -> addr_match (podCIDR c) (pk_dst p) = false ->
  addr_match (clusterCIDR c) (pk_dst p) = true ->
  (forall v', this_node c v' -> addr_match (OverlayIP (vsc_Spec v')) (pk_dst p) = false) ->
  other_node c v -> addr_match (PodCIDR (vsc_Spec v)) (pk_dst p) = true ->
  (forall v', other_node c v' -> addr_match (PodCIDR (vsc_Spec v')) (pk_dst p) = true ->
     OverlayIP (vsc_Spec v') = OverlayIP (vsc_Spec v)) ->
  (overlayOFPort c <> 0)%Z ->
  exactly p [ToPort (overlayOFPort c) {| rw_dl_dst := ""; rw_tun_dst := OverlayIP (vsc_Spec v) |}].
Proof. apply to_overlay. Qed.

(** A packet for the overlay address of another node that lies outside
    the cluster block is tunnelled to that node. *)
Theorem remote_node_tunnel p v :
  allowed c p = true ->
  addr_match (gatewayIP c) (pk_dst p) = false -> addr_match (podCIDR c) (pk_dst p) = false ->
  addr_match (clusterCIDR c) (pk_dst p) = false ->
  (forall v', this_node c v' -> addr_match (OverlayIP (vsc_Spec v')) (pk_dst p) = false /\
                                addr_match (PodCIDR (vsc_Spec v')) (pk_dst p) = false) ->
  other_node c v -> addr_match (OverlayIP (vsc_Spec v)) (pk_dst p) = true ->
  (forall v', other_node c v' -> addr_match (PodCIDR (vsc_Spec v')) (pk_dst p) = false /\
     (addr_match (OverlayIP (vsc_Spec v')) (pk_dst p) = true ->
      OverlayIP (vsc_Spec v') = OverlayIP (vsc_Spec v))) ->
  (overlayOFPort c <> 0)%Z ->
  exactly p [ToPort (overlayOFPort c) {| rw_dl_dst := ""; rw_tun_dst := OverlayIP (vsc_Spec v) |}].
Proof.
  intros Ha Hg Hb Hcl Hown Hv Hm Huniq Hne. apply exactly_20; [done|]. intros out Hrun.
  assert (H30 : runs fs p 30 no_rewrites out).
  { apply (runs_pass fs p 20); [done|done| |].
    - apply (taken_exists c w 20 p (other_node_flow (vsc_Spec v)));
        [by apply in_other_node|done|by rewrite ip_match].
    - intros f Hf. pose proof (taken_ge c w _ _ _ _ Hf (in_other_node c w v Hv) eq_refl
        ltac:(by rewrite ip_match)) as Hge. destruct Hf as (Hin & Ht & Hmf & _).
      destruct (table_20 c w f Hin Ht) as [->|[->|[->|[->|[->|[(v' & Hv' & [->| ->])|(v' & _ & ->)]]]]]];
        try done; try (by cbn in Hge; lia); try (rewrite ip_match in Hmf by done; cbn in Hmf; congruence).
      + apply own_node_dst in Hmf. by rewrite (proj1 (Hown v' Hv')) in Hmf.
      + rewrite ip_match in Hmf by done. cbn in Hmf. by rewrite (proj1 (Hown v' Hv')) in Hmf. }
  apply (runs_last _ _ _ _ _ _ H30).
  - apply (taken_exists c w 30 p (node_tunnel_flow c (vsc_Spec v)));
      [by apply in_node_tunnel|done|by rewrite ip_match].
  - intros f (Hin & Ht & Hmf & _).
    destruct (table_30 c w f Hin Ht) as [(v' & Hv' & ->)|(v' & Hv' & [->| ->])];
      rewrite ip_match in Hmf by done; cbn in Hmf.
    + by rewrite (proj2 (Hown v' Hv')) in Hmf.
    + by rewrite (proj1 (Huniq v' Hv')) in Hmf.
    + split; [done|]. rewrite rewrite_first. unfold outputs. cbn.
      by rewrite (proj2 (Z.eqb_neq _ _) Hne), (proj2 (Huniq v' Hv') Hmf).
Qed.

(** A packet for an address that no block or node claims goes to the
    local bridge port, unchanged. *)
Theorem unknown_is_local p :
  allowed c p = true ->
  addr_match (gatewayIP c) (pk_dst p) = false -> addr_match (podCIDR c) (pk_dst p) = false ->
  addr_match (clusterCIDR c) (pk_dst p) = false ->
  (forall v, In v (idx_List (vswitchLister c)) -> addr_match (OverlayIP (vsc_Spec v)) (pk_dst p) = false) ->
  exactly p [ToLocal no_rewrites].
Proof.
  intros Ha Hg Hb Hcl Hv. apply exactly_20; [done|]. intros out Hrun.
  apply (runs_last _ _ _ _ _ _ Hrun).
  - apply (taken_exists c w 20 p fallback_flow); [apply in_fallback|done|done].
  - intros f (Hin & Ht & Hm & _).
    destruct (table_20 c w f Hin Ht) as [->|[->|[->|[->|[->|[(v & [Hvi _] & [->| ->])|(v & [Hvi _] & ->)]]]]]];
      try done; try (apply own_node_dst in Hm; by rewrite (Hv v Hvi) in Hm);
      rewrite ip_match in Hm by done; cbn in Hm; rewrite ?(Hv v Hvi) in Hm; congruence.
Qed.
End properties.

(** ** Witnesses *)

#[local] Existing Instance ovs_exec.

Definition to_addr (dst : list Z) : packet :=
  {| pk_src := [172; 20; 0; 9]%Z; pk_dst := dst; pk_l4 := TCP 443 |}.

Lemma gateway_is_local_witness :
  exactly demo ovs_one (to_addr [10; 1; 0; 1]%Z) [ToLocal no_rewrites].
Proof. apply gateway_is_local; vm_compute; reflexivity. Defined.

Lemma demo_ports pod port : local_port demo ovs_one pod port -> port = web_port.
Proof.
  intros (Hin & Hl & Hq). destruct Hin as [<-|[<-|[<-|[]]]]; vm_compute in Hl; try discriminate Hl.
  vm_compute in Hq. by injection Hq as <-.
Qed.


Lemma demo_this_node v : this_node demo v -> vsc_Spec v = vsc_Spec (demo_node "" "10.1.0.0/24" "172.20.0.1").
Proof. intros [[<-|[<-|[]]] Hn]; [done|discriminate Hn]. Qed.
Lemma demo_other_node v : other_node demo v -> vsc_Spec v = vsc_Spec (demo_node "" "10.2.0.0/24" "172.20.0.2").
Proof. intros [[<-|[<-|[]]] Hn]; [by destruct Hn|done]. Qed.

Definition node_b : VSwitchConfig := demo_node "node-b" "10.2.0.0/24" "172.20.0.2".

Lemma node_b_other : other_node demo node_b.
Proof. split; [right; left; reflexivity|discriminate]. Qed.

Lemma remote_pod_tunnel_witness :
  exactly demo ovs_one (to_addr [10; 2; 0; 9]%Z)
    [ToPort 1 {| rw_dl_dst := ""; rw_tun_dst := "172.20.0.2" |}].
Proof.
  apply (remote_pod_tunnel demo ovs_one (to_addr [10; 2; 0; 9]%Z) node_b).
  - vm_compute. reflexivity.
  - vm_compute. reflexivity.
  - vm_compute. reflexivity.
  - vm_compute. reflexivity.
  - intros v Hv. rewrite (demo_this_node v Hv). vm_compute. reflexivity.
  - apply node_b_other.
  - vm_compute. reflexivity.
  - intros v Hv _. rewrite (demo_other_node v Hv). reflexivity.
  - discriminate.
Defined.

Lemma remote_node_tunnel_witness :
  exactly demo ovs_one (to_addr [172; 20; 0; 2]%Z)
    [ToPort 1 {| rw_dl_dst := ""; rw_tun_dst := "172.20.0.2" |}].
Proof.
  apply (remote_node_tunnel demo ovs_one (to_addr [172; 20; 0; 2]%Z) node_b).
  - vm_compute. reflexivity.
  - vm_compute. reflexivity.
  - vm_compute. reflexivity.
  - vm_compute. reflexivity.
  - intros v Hv. rewrite (demo_this_node v Hv). vm_compute. split; reflexivity.
  - apply node_b_other.
  - vm_compute. reflexivity.
  - intros v Hv. rewrite (demo_other_node v Hv). split; [vm_compute; reflexivity|reflexivity].
  - discriminate.
Defined.

Lemma unknown_is_local_witness :
  exactly demo ovs_one (to_addr [8; 8; 8; 8]%Z) [ToLocal no_rewrites].
Proof.
  apply unknown_is_local; [vm_compute; reflexivity..|].
  intros v [<-|[<-|[]]]; vm_compute; reflexivity.
Defined.


Lemma policy_types_ignored_witness :
  np_PolicyTypes (np_Spec web_policy) = ["Ingress"] /\ exactly demo ovs_one web_to_client [].
Proof.
  split; [reflexivity|].
  apply (policy_types_ignored demo ovs_one web_to_client web_policy).
  - left. reflexivity.
  - left. vm_compute. reflexivity.
  - vm_compute. reflexivity.
Defined.
