(* ===== verification/Life.v ===== *)
(** * The life of a node's switch

    The controller over time.  The informers change the stores it reads, pods
    get and lose their ports, and the handlers that the daemon registers, with
    the timer of [Run], run one after the other ([flowsLock] and the one
    goroutine per listener make each of them a step).  The switch is known by
    its table: what [replace-flows] last put there ([FlowTable]).

    [told] is the specification: the table is what the last event that resyncs
    computed from the stores of that moment ([switch_told]).  After such an
    event, as long as the stores and the ports stay as they are, the table is
    that of the stores ([resync_catches_up]); the timer makes it so every
    minute.  Events that do not resync leave the verdicts of the old stores in
    force ([skipped_event_keeps_verdict]). *)
From S2P Require Import Prelude GoStrings GoNet Exec Objects Labels Flows PortCache Controller NetPol Sync Readback Pipeline Verdict Routing OvsSim.

(** ** The switch *)

(** Open vSwitch keeps a table of entries per bridge, and a successful
    [replace-flows] makes it the entries of the text; what a failed one leaves
    there is not known.  The answers about ports do not depend on it. *)
Class FlowTable (W : Type) `{Exec W} := {
  table : W -> string -> list Flow;
  table_replaced bridge text w out w' :
    exec_CombinedOutput "ovs-ofctl" (replace_args bridge) text w = (Ok out, w') ->
    table w' bridge = read_text text;
  replaced_queries bridge text w r w' ns name :
    exec_CombinedOutput "ovs-ofctl" (replace_args bridge) text w = (r, w') ->
    (query_port ns name w').1 = (query_port ns name w).1;
  replaced_read_only bridge text w r w' :
    exec_CombinedOutput "ovs-ofctl" (replace_args bridge) text w = (r, w') ->
    queries_read_only w -> queries_read_only w'
}.

(** ** The steps *)

(** An event, and the method the daemon registers for it. *)
Inductive cause :=
| VSwitchAdded (obj : EventObj VSwitchConfig)
| VSwitchUpdated (old new : EventObj VSwitchConfig)
| VSwitchDeleted (obj : EventObj VSwitchConfig)
| PodAdded (obj : EventObj Pod)
| PodUpdated (old new : EventObj Pod)
| PodDeleted (obj : EventObj Pod)
| PolicyAdded (obj : EventObj NetworkPolicy)
| PolicyUpdated (old new : EventObj NetworkPolicy)
| PolicyDeleted (obj : EventObj NetworkPolicy)
| Timer.

(** What the informers put into their stores. *)
Record stores := {
  s_pods : Indexer Pod; s_namespaces : Indexer Namespace;
  s_policies : Indexer NetworkPolicy; s_vswitches : Indexer VSwitchConfig
}.

Definition set_stores (t : stores) (c : controller) : controller :=
  let '(MkController d n br g bm cm p cc co o b pc _ _ _ _) := c in
  MkController d n br g bm cm p cc co o b pc (s_pods t) (s_namespaces t) (s_policies t) (s_vswitches t).

Section life.
Context {W : Type} `{HTable : FlowTable W}.
Abbreviation st := (controller * W)%type.

Definition handle (k : cause) : M st unit :=
  match k with
  | VSwitchAdded obj => OnAddVSwitch obj
  | VSwitchUpdated old new => OnUpdateVSwitch old new
  | VSwitchDeleted obj => OnDeleteVSwitch obj
  | PodAdded obj => OnAddPod obj
  | PodUpdated old new => OnUpdatePod old new
  | PodDeleted obj => OnDeletePod obj
  | PolicyAdded obj => OnAddNetworkPolicy obj
  | PolicyUpdated old new => OnUpdateNetworkPolicy old new
  | PolicyDeleted obj => OnDeleteNetworkPolicy obj
  | Timer => fullResync
  end.

(** Which events resync: all but deletions of configs and pods, and pods
    without an address in the node's block. *)
Definition resyncs (c : controller) (k : cause) : bool :=
  match k with
  | VSwitchDeleted _ | PodDeleted _ => false
  | PodAdded obj | PodUpdated _ obj =>
      match type_assert obj with Some pod => pod_is_local c pod | None => false end
  | _ => true
  end.

Inductive act :=
| Informed (t : stores)
| Outside (w' : W)
| Event (k : cause).

Definition perform_act (a : act) (s : st) : st :=
  match a with
  | Informed t => (set_stores t s.1, s.2)
  | Outside w' => (s.1, w')
  | Event k => (handle k s).2
  end.
Definition live (acts : list act) (s : st) : st := fold_left (fun s a => perform_act a s) acts s.

(** The state is one the controller can work in. *)
Definition alive (s : st) : Prop := sync_ready s.1 s.2 /\ inputs_ok s.1.

Definition the_table (s : st) : list Flow := table s.2 (bridgeName s.1).

(** The informers' objects are well formed. *)
Record stores_ok (t : stores) : Prop := {
  so_slashless : Forall (fun pod => slashless (pod_Namespace pod)) (idx_List (s_pods t));
  so_ports : Forall (fun np => ports_set np = true) (idx_List (s_policies t));
  so_vswitches : Forall vswitch_ok (idx_List (s_vswitches t));
  so_pods : Forall (fun pod => clean (pod_PodIP pod)) (idx_List (s_pods t));
  so_policies : Forall policy_ok (idx_List (s_policies t))
}.

(** What the surroundings may do: the informers' objects are well formed, and
    nobody else writes the table.  Ports come and go; the port cache may hold
    ports that are gone. *)
Definition act_ok (a : act) (s : st) : Prop :=
  match a with
  | Informed t => stores_ok t
  | Outside w' => alive (s.1, w') /\ table w' (bridgeName s.1) = the_table s
  | Event _ => True
  end.

Fixpoint acts_ok (acts : list act) (s : st) : Prop :=
  match acts with
  | [] => True
  | a :: acts' => act_ok a s /\ acts_ok acts' (perform_act a s)
  end.

(** ** Specification *)

Definition act_resyncs (a : act) (s : st) : bool :=
  match a with Event k => resyncs s.1 k | _ => false end.

(** The entries of the last resync, [fs] if there was none; not known when it
    did not get through to the switch. *)
Fixpoint told (acts : list act) (s : st) (fs : option (list Flow)) : option (list Flow) :=
  match acts with
  | [] => fs
  | a :: acts' =>
      told acts' (perform_act a s)
        (if act_resyncs a s
         then if is_ok (syncFlows s).1 then Some (sync_spec s.1 s.2) else None
         else fs)
  end.

(** The deletion of a pod changes no belief about a listed one. *)
Definition keeps_ports (a : act) (s : st) : Prop :=
  match a with
  | Event (PodDeleted obj) => match type_assert obj with Some pod => forgettable pod s.1 s.2 | None => True end
  | _ => True
  end.

(** Every resync gets through, and no pod is deleted that the store lists with
    a wrong cached port. *)
Fixpoint through (acts : list act) (s : st) : Prop :=
  match acts with
  | [] => True
  | a :: acts' => (act_resyncs a s = true -> is_ok (syncFlows s).1 = true) /\ keeps_ports a s /\
                  through acts' (perform_act a s)
  end.

(** The switch agrees with the stores. *)
Definition caught_up (s : st) : Prop := the_table s = sync_spec s.1 s.2.

(** Where the table, whatever it is, can send a packet. *)
Definition table_emits (s : st) (p : packet) (out : list emission) : Prop :=
  runs (the_table s) p 0 no_rewrites out.

(** ** One event *)

Lemma sync_spec_filled fs pc c (w w' : W) :
  Forall (fun pod => slashless (pod_Namespace pod)) (idx_List (podLister c)) -> learned w (c_portCache c) pc ->
  (forall ns name, (query_port ns name w').1 = (query_port ns name w).1) ->
  sync_spec (filled fs pc c) w' = sync_spec c w.
Proof.
  intros Hs [Hb _ _] Hq. unfold sync_spec.
  replace (idx_List (podLister (filled fs pc c))) with (idx_List (podLister c)) by by destruct c.
  assert (flat_map (pod_spec (filled fs pc c) w') (idx_List (podLister c)) =
    flat_map (pod_spec c w) (idx_List (podLister c))) as ->; [|by destruct c].
  rewrite !List.flat_map_concat_map. f_equal. apply List.map_ext_in. intros pod Hin%list_elem_of_In. unfold pod_spec.
  replace (pod_is_local (filled fs pc c) pod) with (pod_is_local c pod) by by destruct c.
  replace (c_portCache (filled fs pc c)) with pc by by destruct c.
  rewrite Forall_forall in Hs. rewrite <- (Hb _ (pod_Name pod) (Hs pod Hin)). unfold believed. cbn [fst snd]. by rewrite Hq.
Qed.

Lemma filled_ready fs pc c (w w' : W) :
  sync_ready c w -> queries_read_only w' ->
  (forall ns name, (query_port ns name w').1 = (query_port ns name w).1) ->
  sync_ready (filled fs pc c) w'.
Proof. intros [Hro Hrows Hp Hn] Hro' Hq. split; [done| |by destruct c..]. intros ns name. by rewrite Hq. Qed.

Lemma filled_inputs fs pc c : inputs_ok c -> ports_int pc -> inputs_ok (filled fs pc c).
Proof. destruct c. intros [[] _ ? ? ?] ?. split; [by split|done..]. Qed.

(** A sync: the state stays workable, and the table is the wanted one if the
    command succeeded. *)
Lemma sync_done s :
  alive s ->
  let r := logged syncFlows s in
  alive r.2 /\ bridgeName r.2.1 = bridgeName s.1 /\ sync_spec r.2.1 r.2.2 = sync_spec s.1 s.2 /\
  (is_ok (syncFlows s).1 = true -> the_table r.2 = sync_spec s.1 s.2).
Proof.
  destruct s as [c w]. intros [Hr Hi]. cbn [fst snd].
  destruct (syncFlows_run c w Hr) as (pc & Hpc & Hrun). unfold logged. rewrite Hrun. clear Hrun.
  unfold SyncFlows, wrapped, mbind, M_bind. cbn [buffer].
  destruct (exec_CombinedOutput "ovs-ofctl" _ _ w) as [r w'] eqn:Hx.
  pose proof (fun ns name => replaced_queries (bridgeName c) _ w r w' ns name Hx) as Hq.
  pose proof (replaced_read_only (bridgeName c) _ w r w' Hx (sr_read_only _ _ Hr)) as Hro.
  assert (Hb : forall fs pc, bridgeName (filled fs pc c) = bridgeName c) by (by destruct c).
  assert (Halive : alive (filled (sync_spec c w) pc c, w')).
  { split; [by apply (filled_ready _ _ _ w)|]. apply filled_inputs; [done|].
    apply (learned_ports_int w (c_portCache c)); [done|apply Hi]. }
  pose proof (sync_spec_filled (sync_spec c w) pc c w w' (sr_pods _ _ Hr) Hpc Hq) as Hspec.
  destruct r as [out|e|]; (split; [done|split; [apply Hb|split; [done|]]]); try done.
  intros _. change (table w' (bridgeName (filled (sync_spec c w) pc c)) = sync_spec c w). rewrite Hb, (table_replaced (bridgeName c) _ w out w' Hx).
  by apply read_text_render, sync_entries_ok.
Qed.

Lemma handle_resync k s :
  resyncs s.1 k = true -> handle k s = logged syncFlows s.
Proof.
  destruct s as [c w]. cbn [fst]. intros Hk.
  assert (Hpod : forall obj, match type_assert obj with Some pod => pod_is_local c pod | None => false end = true ->
            OnAddPod obj (c, w) = logged syncFlows (c, w)).
  { intros obj Ho. rewrite (OnAddPod_run obj c w). by destruct (type_assert obj) as [pod|]; [rewrite Ho|]. }
  destruct k; try done; cbn [handle resyncs] in *; by apply Hpod.
Qed.

Lemma handle_skip k s :
  alive s -> resyncs s.1 k = false ->
  let s' := (handle k s).2 in
  alive s' /\ s'.2 = s.2 /\ bridgeName s'.1 = bridgeName s.1 /\
  (keeps_ports (Event k) s -> sync_spec s'.1 s'.2 = sync_spec s.1 s.2).
Proof.
  destruct s as [c w]. cbn [fst]. intros Ha Hk.
  assert (Hpod : forall obj, match type_assert obj with Some pod => pod_is_local c pod | None => false end = false ->
            (OnAddPod obj (c, w)).2 = (c, w)).
  { intros obj Ho. rewrite (OnAddPod_run obj c w). by destruct (type_assert obj) as [pod|]; [rewrite Ho|]. }
  destruct k as [| | |obj|old obj|obj| | | |]; try done; cbn [handle resyncs] in *.
  - by rewrite (Hpod obj Hk).
  - change (OnUpdatePod old obj (c, w)) with (OnAddPod obj (c, w)). by rewrite (Hpod obj Hk).
  - unfold OnDeletePod. cbn [keeps_ports]. destruct (type_assert obj) as [pod|]; [|done].
    destruct Ha as [[Hro Hrows Hp Hn] [Hcf Hports Hv Hps Hns]]. cbn.
    split; [|split; [done|split; [by destruct c|apply forget_spec]]]. split; [split; by destruct c|].
    assert (Hports' : ports_int {| store := delete (portCacheKeyForPod pod) (store (c_portCache c)) |})
      by by apply map_Forall_delete.
    destruct c. split; [by destruct Hcf|done..].
Qed.

Lemma stores_alive t s : alive s -> stores_ok t -> alive (set_stores t s.1, s.2).
Proof.
  destruct s as [c w]. intros [[Hro Hrows _ _] [Hcfg Hports _ _ _]] [Hsl Hps Hv Hp Hn]. destruct c.
  split; [by split|]. split; [by destruct Hcfg|done..].
Qed.

(** An act keeps the state workable, a resync that gets through writes the
    table, and an act that is no resync keeps it. *)
Lemma act_done a s :
  alive s -> act_ok a s ->
  alive (perform_act a s) /\
  (act_resyncs a s = true -> is_ok (syncFlows s).1 = true -> the_table (perform_act a s) = sync_spec s.1 s.2) /\
  (act_resyncs a s = false -> the_table (perform_act a s) = the_table s).
Proof.
  intros Ha Hok. destruct a as [t|w'|k]; cbn [act_ok perform_act act_resyncs] in *.
  - split; [by apply stores_alive|]. split; [done|]. destruct s as [c w]. by destruct c.
  - by destruct Hok.
  - destruct (resyncs s.1 k) eqn:Hk.
    + rewrite (handle_resync k s Hk). by destruct (sync_done s Ha) as (Ha' & _ & _ & Ht).
    + destruct (handle_skip k s Ha Hk) as (Ha' & Hw & Hb & _). split; [done|]. split; [done|].
      unfold the_table. by rewrite Hw, Hb.
Qed.

(** An event leaves the entries the stores ask for as they are. *)
Lemma event_spec k s :
  alive s -> keeps_ports (Event k) s -> sync_spec (perform_act (Event k) s).1 (perform_act (Event k) s).2 = sync_spec s.1 s.2.
Proof.
  intros Ha Hkeep. cbn [perform_act]. destruct (resyncs s.1 k) eqn:Hk.
  - rewrite (handle_resync k s Hk). apply (sync_done s Ha).
  - by apply (handle_skip k s Ha Hk).
Qed.

Lemma resync_done k s :
  alive s -> resyncs s.1 k = true -> is_ok (syncFlows s).1 = true ->
  alive (perform_act (Event k) s) /\ caught_up (perform_act (Event k) s).
Proof.
  intros Ha Hk Hok. destruct (act_done (Event k) s Ha I) as (Ha' & Ht & _). split; [done|].
  unfold caught_up. rewrite (event_spec k s Ha); [by apply Ht|]. by destruct k.
Qed.

Lemma live_app acts acts' s : live (acts ++ acts') s = live acts' (live acts s).
Proof. apply fold_left_app. Qed.

Lemma live_alive acts : forall s, alive s -> acts_ok acts s -> alive (live acts s).
Proof.
  induction acts as [|a acts IH]; intros s Ha Hok; [done|]. destruct Hok as [Hok Hoks].
  apply IH; [|done]. by apply act_done.
Qed.

Lemma live_told acts : forall s o fs,
  alive s -> acts_ok acts s -> (forall fs', o = Some fs' -> the_table s = fs') ->
  told acts s o = Some fs -> the_table (live acts s) = fs.
Proof.
  induction acts as [|a acts IH]; intros s o fs Ha Hok Ho Ht; [by apply Ho|]. destruct Hok as [Hok Hoks].
  destruct (act_done a s Ha Hok) as (Ha' & Hsync & Hskip). eapply IH; [done|done| |exact Ht].
  intros fs'. destruct (act_resyncs a s).
  - destruct (is_ok (syncFlows s).1); [|done]. intros [= <-]. by apply Hsync.
  - intros ->. rewrite Hskip by done. by apply Ho.
Qed.

(** As long as there are only events, a switch that has caught up stays so. *)
Lemma events_caught_up ks : forall s,
  alive s -> caught_up s -> through (Event <$> ks) s -> caught_up (live (Event <$> ks) s).
Proof.
  induction ks as [|k ks IH]; intros s Ha Hc Hth; [done|]. destruct Hth as (Hth & Hkeep & Hths).
  destruct (act_done (Event k) s Ha I) as (Ha' & Hsync & Hskip). apply IH; [done| |done].
  unfold caught_up. rewrite (event_spec k s Ha Hkeep).
  destruct (act_resyncs _ s); [by apply Hsync, Hth|by rewrite Hskip].
Qed.

(** ** Properties *)

(** C7.  The switch is what the last resync made it.  Along every run of
    informer updates, ports that come and go, and events, the table of the
    bridge consists of the entries that the last event that resyncs computed
    from the stores and ports of its moment, if that resync got through; of
    nothing of earlier moments, and of nothing by any other event. *)
Theorem switch_told acts s fs :
  alive s -> acts_ok acts s -> told acts s (Some (the_table s)) = Some fs -> the_table (live acts s) = fs.
Proof. intros Ha Hok. apply live_told; [done|done|congruence]. Qed.

(** C8.  The switch catches up.  Whatever happened before, failed resyncs
    included, once an event that resyncs has been handled and the command
    succeeded (the timer's is such an event every minute), the table is that of
    the stores, and every later event leaves it so until a store or a port
    changes, or a pod is deleted that the store lists with a wrong cached port;
    packets then go where the entries of the stores send them. *)
Theorem resync_catches_up acts k ks s :
  alive s -> acts_ok acts s ->
  resyncs (live acts s).1 k = true -> through (Event <$> (k :: ks)) (live acts s) ->
  let s' := live (acts ++ (Event <$> (k :: ks))) s in
  the_table s' = sync_spec s'.1 s'.2 /\ forall p out, table_emits s' p out <-> emitted s'.1 s'.2 p out.
Proof.
  intros Ha Hok Hk (Hth & _ & Hths). cbv zeta. pose proof (live_alive acts s Ha Hok) as Ha1.
  rewrite live_app. set (s1 := live acts s) in *.
  destruct (resync_done k s1 Ha1 Hk (Hth Hk)) as [Ha2 Hc2].
  pose proof (events_caught_up ks _ Ha2 Hc2 Hths) as Hc.
  split; [done|]. intros p out. unfold table_emits, emitted. by rewrite Hc.
Qed.

(** C13.  Events that do not resync leave the old verdicts in force.  When the
    stores change and the event for it is one that the handlers skip, the
    deletion of a pod or of a config or anything about a pod of another node,
    packets are still treated by the stores from before: what these denied goes
    nowhere although the stores now allow it, and what they allowed still passes
    the policies although the stores now deny it; the next timer event puts
    the new verdict in force. *)
Theorem skipped_event_keeps_verdict s t k p :
  alive s -> the_table s = sync_spec s.1 s.2 -> stores_ok t ->
  resyncs (set_stores t s.1) k = false ->
  let s' := live [Informed t; Event k] s in
  let s'' := live [Informed t; Event k; Event Timer] s in
  (forall out, table_emits s' p out <-> emitted s.1 s.2 p out) /\
  (allowed s.1 p = false -> forall out, table_emits s' p out <-> out = []) /\
  (allowed s.1 p = true -> forall out, table_emits s' p out -> runs (sync_spec s.1 s.2) p 20 no_rewrites out) /\
  (keeps_ports (Event k) (set_stores t s.1, s.2) -> is_ok (syncFlows s').1 = true ->
     forall out, table_emits s'' p out <-> emitted (set_stores t s.1) s.2 p out).
Proof.
  intros Ha Hc Hok Hk s' s''. destruct (act_done (Informed t) s Ha Hok) as (Ha1 & _ & Ht1).
  set (s1 := perform_act (Informed t) s) in *.
  destruct (act_done (Event k) s1 Ha1 I) as (Ha2 & _ & Ht2).
  destruct (act_done (Event Timer) s' Ha2 I) as (_ & Ht3 & _).
  assert (Hem : forall out, table_emits s' p out <-> emitted s.1 s.2 p out).
  { intros out. unfold table_emits, emitted. change (the_table s') with (the_table (perform_act (Event k) s1)).
    by rewrite (Ht2 Hk), (Ht1 eq_refl), Hc. }
  split; [done|]. split; [|split].
  - intros Hal out. rewrite Hem. destruct (denied_nowhere s.1 s.2 p Hal) as [H1 H2].
    split; [apply H2|by intros ->].
  - intros Hal out Hrun. apply Hem, runs_entry in Hrun. by rewrite Hal in Hrun.
  - intros Hkeep Hsync out. unfold table_emits, emitted. change s'' with (perform_act (Event Timer) s').
    rewrite (Ht3 eq_refl Hsync). change s' with (perform_act (Event k) s1). by rewrite (event_spec k s1 Ha1 Hkeep).
Qed.
End life.

(** ** Witnesses *)

#[local] Existing Instance ovs_exec.

(** An action that only asks about ports and answers without writing. *)
Definition only_asks {A} (m : M ovs A) : Prop :=
  forall w fl, m w = ((m {| ovs_ports := ovs_ports w; ovs_flows := fl; ovs_down := ovs_down w |}).1, w).

Lemma asks_ovs args : only_asks (exec_Output "ovs-vsctl" args).
Proof.
  intros w fl. cbn [exec_Output ovs_exec]. unfold ovs_run. cbn [ovs_down]. destruct (ovs_down w); [done|].
  rewrite bool_decide_eq_true_2 by done. by destruct w.
Qed.
Lemma asks_ret {A} (a : A) : only_asks (mret a).
Proof. done. Qed.
Lemma asks_lift {A} (r : result A) : only_asks (lift r).
Proof. done. Qed.
Lemma asks_wrapped {A} msg (m : M ovs A) : only_asks m -> only_asks (wrapped msg m).
Proof.
  intros Hm w fl. unfold wrapped. rewrite (Hm w fl).
  by destruct (m {| ovs_ports := _; ovs_flows := _; ovs_down := _ |}) as [[| |] ?].
Qed.
Lemma asks_bind {A B} (m : M ovs A) (k : A -> M ovs B) :
  only_asks m -> (forall a, only_asks (k a)) -> only_asks (m ≫= k).
Proof.
  intros Hm Hk w fl. unfold mbind, M_bind.
  pose proof (Hm {| ovs_ports := ovs_ports w; ovs_flows := fl; ovs_down := ovs_down w |} fl) as Hm'.
  rewrite (Hm w fl). rewrite Hm'. cbn [ovs_ports ovs_down] in *.
  destruct (m {| ovs_ports := _; ovs_flows := _; ovs_down := _ |}).1 as [a|e|]; [|done..]. apply Hk.
Qed.

Lemma asks_query ns name : only_asks (query_port ns name).
Proof.
  unfold query_port, findPort, macAddrFromPort, ofPortFromName.
  repeat first [ apply asks_bind; [|intros ?] | apply asks_wrapped | apply asks_ovs | apply asks_lift
               | apply asks_ret | case_match ].
Qed.

(** The small Open vSwitch keeps the text. *)
#[local, refine] Instance ovs_table : FlowTable ovs := {
  table w bridge := default [] (read_text <$> ovs_flows w !! bridge)
}.
Proof.
  - intros bridge text w out w'. cbn. unfold ovs_run. destruct (ovs_down w); [done|]. cbn.
    intros [= _ <-]. cbn. by rewrite lookup_insert_eq.
  - intros bridge text w r w' ns name. cbn. unfold ovs_run. destruct (ovs_down w) eqn:Hd; cbn; intros [= _ <-]; [done|].
    rewrite <- Hd. by rewrite (asks_query ns name w (<[bridge := text]> (ovs_flows w))).
  - intros bridge text w r w' _ _. apply ovs_queries_read_only.
Defined.

(** The switch after the first resync of the demo node. *)
Definition started : controller * ovs := perform_act (Event Timer) (demo, ovs_one).

Lemma first_sync : is_ok (syncFlows (demo, ovs_one)).1 = true.
Proof. vm_compute. reflexivity. Qed.

Lemma started_ok : alive started /\ caught_up started.
Proof. exact (resync_done Timer (demo, ovs_one) (conj demo_ready demo_inputs) eq_refl first_sync). Qed.

(** A pod of another node with the label that [web_policy] admits. *)
Definition remote_client : Pod :=
  {| pod_Namespace := "default"; pod_Name := "client-b"; pod_Labels := demo_labels "client"; pod_PodIP := "10.2.0.9" |}.
Definition with_remote : stores :=
  {| s_pods := stored (remote_client :: idx_List (podLister demo)); s_namespaces := nsLister demo;
     s_policies := netPolLister demo; s_vswitches := vswitchLister demo |}.

Lemma with_remote_ok : stores_ok with_remote.
Proof.
  destruct demo_inputs as [_ _ Hv Hp Hn]. split; [repeat constructor|repeat constructor|exact Hv| |exact Hn].
  constructor; [reflexivity|exact Hp].
Qed.

Definition remote_to_web : packet :=
  {| pk_src := [10; 2; 0; 9]%Z; pk_dst := [10; 1; 0; 7]%Z; pk_l4 := TCP 80 |}.

Lemma remote_skipped : resyncs (set_stores with_remote started.1) (PodAdded (ObjOf remote_client)) = false.
Proof. vm_compute. reflexivity. Qed.
Lemma remote_denied : allowed started.1 remote_to_web = false.
Proof. vm_compute. reflexivity. Qed.
Lemma remote_admitted : allowed (set_stores with_remote started.1) remote_to_web = true.
Proof. vm_compute. reflexivity. Qed.

(** The policy admits the new pod, but its packets go nowhere. *)
Lemma skipped_event_keeps_verdict_witness :
  allowed (set_stores with_remote started.1) remote_to_web = true /\
  forall out, table_emits (live [Informed with_remote; Event (PodAdded (ObjOf remote_client))] started)
    remote_to_web out <-> out = [].
Proof.
  split; [exact remote_admitted|].
  destruct (skipped_event_keeps_verdict started with_remote (PodAdded (ObjOf remote_client)) remote_to_web
    (proj1 started_ok) (proj2 started_ok) with_remote_ok remote_skipped) as (_ & H & _).
  exact (H remote_denied).
Defined.

(** Two resyncs, a remote pod in between. *)
Definition pod_event : cause := PodAdded (ObjOf remote_client).

Lemma demo_alive : alive (demo, ovs_one).
Proof. split; [exact demo_ready|exact demo_inputs]. Qed.

Lemma remote_told :
  told [Event Timer; Informed with_remote; Event pod_event] (demo, ovs_one) (Some (the_table (demo, ovs_one))) =
  Some (sync_spec demo ovs_one).
Proof. vm_compute. reflexivity. Qed.

Lemma switch_told_witness :
  the_table (live [Event Timer; Informed with_remote; Event pod_event] (demo, ovs_one)) = sync_spec demo ovs_one.
Proof.
  exact (switch_told [Event Timer; Informed with_remote; Event pod_event] (demo, ovs_one) (sync_spec demo ovs_one)
    demo_alive (conj I (conj with_remote_ok (conj I I))) remote_told).
Defined.

Definition before_resync : controller * ovs := live [Event Timer; Informed with_remote] (demo, ovs_one).

Lemma second_sync : through (Event <$> [Timer; pod_event]) before_resync.
Proof.
  split; [intros _; vm_compute; reflexivity|]. split; [exact I|].
  split; [intros H; vm_compute in H; discriminate H|]. split; exact I.
Qed.

Lemma resync_catches_up_witness :
  let s' := live ([Event Timer; Informed with_remote] ++ (Event <$> [Timer; pod_event])) (demo, ovs_one) in
  the_table s' = sync_spec s'.1 s'.2.
Proof.
  exact (proj1 (resync_catches_up [Event Timer; Informed with_remote] Timer [pod_event]
    (demo, ovs_one) demo_alive (conj I (conj with_remote_ok I)) eq_refl second_sync)).
Defined.
