(* ===== verification/Cluster.v ===== *)
(** * The cluster

    The nodes together: every node runs a controller whose caches hold the
    same configs, and its switch has the entries of a full sync.  A packet that
    a switch emits on its overlay port arrives at the node with the tunnel's
    address, and enters that node's switch ([arrives]).  With the configs that
    the controller process writes ([cluster_ok]), a packet of any pod to a pod
    of another node is delivered there, once, on the pod's port. *)
From S2P Require Import Prelude GoStrings GoNet Exec Objects Labels Flows PortCache Controller NetPol Sync Readback Pipeline Verdict OvsSim Routing.

Section cluster.
Context {W : Type} `{HExec : Exec W}.

(** A node: its controller and its Open vSwitch. *)
Record cnode := { cn_ctl : controller; cn_world : W }.

(** The config of a node, and the config's view of where it is. *)
Definition config_of (n : cnode) (v : VSwitchConfig) : Prop :=
  vsc_Name v = nodeName (cn_ctl n) /\ PodCIDR (vsc_Spec v) = podCIDR (cn_ctl n).

(** Nodes and configs belong together, every controller has all configs in
    its cache, no two nodes have overlapping pod blocks or one overlay address,
    and overlay addresses are not pod addresses. *)
Record cluster_ok (net : list cnode) (cfgs : list VSwitchConfig) : Prop := {
  ok_cache n : In n net -> forall v, In v (idx_List (vswitchLister (cn_ctl n))) <-> In v cfgs;
  ok_config n : In n net -> exists v, In v cfgs /\ config_of n v;
  ok_names n m : In n net -> In m net -> nodeName (cn_ctl n) = nodeName (cn_ctl m) -> n = m;
  ok_blocks v v' a : length a = 4 -> In v cfgs -> In v' cfgs ->
    addr_match (PodCIDR (vsc_Spec v)) a = true -> addr_match (PodCIDR (vsc_Spec v')) a = true -> v = v';
  ok_overlay v v' : In v cfgs -> In v' cfgs -> OverlayIP (vsc_Spec v) = OverlayIP (vsc_Spec v') -> v = v';
  ok_overlay_set v : In v cfgs -> OverlayIP (vsc_Spec v) <> "";
  ok_apart v v' a : length a = 4 -> In v cfgs -> In v' cfgs ->
    addr_match (OverlayIP (vsc_Spec v)) a = true -> addr_match (PodCIDR (vsc_Spec v')) a = false;
  ok_port n : In n net -> (overlayOFPort (cn_ctl n) <> 0)%Z
}.

(** The node an emission is tunnelled to. *)
Definition tunnelled (net : list cnode) (cfgs : list VSwitchConfig) (n : cnode) (e : emission) (m : cnode) : Prop :=
  exists v, In v cfgs /\ In m net /\ config_of m v /\
    e = ToPort (overlayOFPort (cn_ctl n)) {| rw_dl_dst := ""; rw_tun_dst := OverlayIP (vsc_Spec v) |}.

(** Where a packet that enters the switch of [n] can leave the cluster's
    switches: at [n'], as the emission [e]. *)
Inductive arrives (net : list cnode) (cfgs : list VSwitchConfig) (p : packet) (n n' : cnode) (e : emission) : Prop :=
| ArrivesHere out :
    n' = n -> emitted (cn_ctl n) (cn_world n) p out -> In e out ->
    (forall m, ~ tunnelled net cfgs n e m) -> arrives net cfgs p n n' e
| ArrivesThrough out tun m :
    emitted (cn_ctl n) (cn_world n) p out -> In tun out -> tunnelled net cfgs n tun m ->
    arrives net cfgs p m n' e -> arrives net cfgs p n n' e.

(** The emission to a pod's port is not a tunnel. *)
Lemma not_tunnelled net cfgs n m port mac :
  cluster_ok net cfgs -> ~ tunnelled net cfgs n (ToPort port {| rw_dl_dst := mac; rw_tun_dst := "" |}) m.
Proof.
  intros Hok (v & Hv & _ & _ & [= _ _ Htun]). by apply (ok_overlay_set _ _ Hok v Hv).
Qed.

(** The first hop: from a node that does not own the address, exactly a tunnel
    to the node that does. *)
Lemma first_hop net cfgs a b v p :
  cluster_ok net cfgs -> length (pk_dst p) = 4 -> In a net -> In b net -> a <> b -> In v cfgs -> config_of b v ->
  allowed (cn_ctl a) p = true ->
  addr_match (gatewayIP (cn_ctl a)) (pk_dst p) = false ->
  addr_match (clusterCIDR (cn_ctl a)) (pk_dst p) = true ->
  addr_match (podCIDR (cn_ctl b)) (pk_dst p) = true ->
  exactly (cn_ctl a) (cn_world a) p
    [ToPort (overlayOFPort (cn_ctl a)) {| rw_dl_dst := ""; rw_tun_dst := OverlayIP (vsc_Spec v) |}].
Proof.
  intros Hok Hp4 Ha Hb Hne Hv Hvb Hall Hgw Hcl Hblock.
  assert (Hvm : addr_match (PodCIDR (vsc_Spec v)) (pk_dst p) = true) by (by rewrite (proj2 Hvb)).
  apply to_overlay; try done.
  - destruct (ok_config _ _ Hok a Ha) as (va & Hva & Hca & Hpa). rewrite <- Hpa.
    destruct (addr_match (PodCIDR (vsc_Spec va)) (pk_dst p)) eqn:Hm; [|done].
    pose proof (ok_blocks _ _ Hok va v _ Hp4 Hva Hv Hm Hvm) as ->.
    destruct Hne. apply (ok_names _ _ Hok); [done..|]. rewrite <- Hca. apply Hvb.
  - intros v' [Hv' _]. apply (ok_cache _ _ Hok a Ha) in Hv'.
    destruct (addr_match (OverlayIP (vsc_Spec v')) (pk_dst p)) eqn:Hm; [|done].
    by rewrite (ok_apart _ _ Hok v' v _ Hp4 Hv' Hv Hm) in Hvm.
  - split; [by apply (ok_cache _ _ Hok a Ha)|]. intros Hn. destruct Hne. apply (ok_names _ _ Hok); [done..|].
    rewrite <- Hn. apply Hvb.
  - intros v' [Hv' _] Hm. apply (ok_cache _ _ Hok a Ha) in Hv'. by rewrite (ok_blocks _ _ Hok v' v _ Hp4 Hv' Hv Hm Hvm).
  - by apply (ok_port _ _ Hok).
Qed.

Lemma pod_arrives net cfgs a b p pod port :
  cluster_ok net cfgs -> packet_ok p -> In a net -> In b net -> a <> b ->
  allowed (cn_ctl a) p = true -> allowed (cn_ctl b) p = true ->
  addr_match (gatewayIP (cn_ctl a)) (pk_dst p) = false -> addr_match (gatewayIP (cn_ctl b)) (pk_dst p) = false ->
  addr_match (clusterCIDR (cn_ctl a)) (pk_dst p) = true -> addr_match (podCIDR (cn_ctl b)) (pk_dst p) = true ->
  local_port (cn_ctl b) (cn_world b) pod port -> addr_match (pod_PodIP pod) (pk_dst p) = true ->
  (pi_ofport port <> 0)%Z ->
  (forall pod' port', local_port (cn_ctl b) (cn_world b) pod' port' ->
     addr_match (pod_PodIP pod') (pk_dst p) = true -> pi_ofport port' = pi_ofport port) ->
  forall n e, arrives net cfgs p a n e <->
    n = b /\ e = ToPort (pi_ofport port) {| rw_dl_dst := podMacAddr; rw_tun_dst := "" |}.
Proof.
  intros Hok Hp Ha Hb Hne Halla Hallb Hga Hgb Hcl Hblock Hport Hip Hpn Huniq n e.
  destruct (ok_config _ _ Hok b Hb) as (v & Hv & Hvb).
  destruct (first_hop net cfgs a b v p Hok (proj1 (proj2 (proj2 Hp))) Ha Hb Hne Hv Hvb Halla Hga Hcl Hblock) as [He1 Hu1].
  destruct (to_own_port (cn_ctl b) (cn_world b) p pod port Hallb Hgb Hblock Hport Hip Hpn Huniq) as [He2 Hu2].
  set (tun := ToPort (overlayOFPort (cn_ctl a)) _) in *. set (final := ToPort (pi_ofport port) _) in *.
  assert (Htun : tunnelled net cfgs a tun b) by (by exists v).
  split.
  - intros [out -> Hout Hin Hno|out t m Hout Hin (v' & Hv' & Hm & Hcm & ->) Hrest].
    + rewrite (Hu1 out Hout) in Hin. destruct Hin as [<-|[]]. by destruct (Hno b).
    + rewrite (Hu1 out Hout) in Hin. destruct Hin as [Htt|[]]. unfold tun in Htt. injection Htt as Hov.
      pose proof (ok_overlay _ _ Hok v v' Hv Hv' Hov) as <-.
      assert (m = b) as ->.
      { apply (ok_names _ _ Hok); [done..|]. destruct Hcm as [<- _], Hvb as [<- _]. done. }
      destruct Hrest as [out' -> Hout' Hin' Hno'|out' t m Hout' Hin' Ht _].
      * rewrite (Hu2 out' Hout') in Hin'. by destruct Hin' as [<-|[]].
      * rewrite (Hu2 out' Hout') in Hin'. destruct Hin' as [<-|[]]. by apply not_tunnelled in Ht.
  - intros [-> ->]. eapply ArrivesThrough; [exact He1|by left|exact Htun|].
    eapply ArrivesHere; [done|exact He2|by left|]. intros m. by apply not_tunnelled.
Qed.

End cluster.

(** ** Witness *)

#[local] Existing Instance ovs_exec.

Definition demo_b : controller :=
  MkController 0 "node-b" "k-vswitch0" "10.2.0.1" "0a:00:00:00:01:01" "0a:00:00:00:01:02"
    "10.2.0.0/24" "10.0.0.0/8" 2 1 NewFlowsBuffer NewPortCache
    (podLister demo) (nsLister demo) (netPolLister demo) (vswitchLister demo).

Definition node_1 : cnode (W := ovs) := {| cn_ctl := demo; cn_world := ovs_one |}.
Definition node_2 : cnode (W := ovs) := {| cn_ctl := demo_b; cn_world := ovs_one |}.
Definition demo_cfgs : list VSwitchConfig := idx_List (vswitchLister demo).

Lemma block_match l n a : length l = 4 -> bytes l -> (0 <= n <= 32)%Z ->
  addr_match (cidr_text l n) a = net_Contains (ipv4_net l n) a.
Proof.
  intros Hl Hb Hn. unfold addr_match. rewrite ParseCIDR_ipv4 by done.
  case_bool_decide as He; [|done]. unfold cidr_text in He.
  by destruct (dotted l).
Qed.

(** An address is in at most one of the two blocks. *)
Lemma demo_blocks a : length a = 4 ->
  addr_match "10.1.0.0/24" a = true -> addr_match "10.2.0.0/24" a = false.
Proof.
  intros Ha. change "10.1.0.0/24" with (cidr_text [10; 1; 0; 0]%Z 24).
  change "10.2.0.0/24" with (cidr_text [10; 2; 0; 0]%Z 24).
  rewrite !block_match by (done || lia || (apply byte_list; reflexivity)).
  destruct a as [|a0 [|a1 [|a2 [|a3 [|]]]]]; try discriminate Ha.
  assert (networkNumberAndMask (ipv4_net [10; 1; 0; 0]%Z 24) = Some ([10; 1; 0; 0]%Z, [255; 255; 255; 0]%Z)) as E1
    by reflexivity.
  assert (networkNumberAndMask (ipv4_net [10; 2; 0; 0]%Z 24) = Some ([10; 2; 0; 0]%Z, [255; 255; 255; 0]%Z)) as E2
    by reflexivity.
  unfold net_Contains. rewrite E1, E2. cbn -[Z.land].
  intros (_ & [H%Z.eqb_eq _]%andb_true_iff)%andb_true_iff.
  rewrite <- H. by rewrite andb_false_r.
Qed.

(** The overlay addresses are in no block. *)
Lemma demo_apart v v' a : In v demo_cfgs -> In v' demo_cfgs ->
  addr_match (OverlayIP (vsc_Spec v)) a = true -> addr_match (PodCIDR (vsc_Spec v')) a = false.
Proof.
  assert (forall b, (b = 1 \/ b = 2)%Z -> addr_match (dotted [172; 20; 0; b]%Z) a = true ->
            addr_match "10.1.0.0/24" a = false /\ addr_match "10.2.0.0/24" a = false) as H.
  { intros b Hb. rewrite addr_match_dotted; [|done|].
    - intros <-%bool_decide_eq_true. by destruct Hb as [-> | ->].
    - by destruct Hb as [-> | ->]; apply byte_list; reflexivity. }
  pose proof (H 1%Z) as H1. pose proof (H 2%Z) as H2.
  intros [<-|[<-|[]]] [<-|[<-|[]]] Ho; first [by apply H1; [left|]|by apply H2; [right|]].
Qed.

Lemma demo_ok : cluster_ok [node_1; node_2] demo_cfgs.
Proof.
  split.
  - by intros n [<-|[<-|[]]] v.
  - intros n [<-|[<-|[]]].
    + exists (demo_node "node-a" "10.1.0.0/24" "172.20.0.1"). split; [by left|done].
    + exists node_b. split; [by right; left|done].
  - by intros n m [<-|[<-|[]]] [<-|[<-|[]]].
  - intros v v' a Ha [<-|[<-|[]]] [<-|[<-|[]]] H1 H2; try done; cbn in H1, H2;
      [rewrite (demo_blocks a Ha H1) in H2|rewrite (demo_blocks a Ha H2) in H1]; done.
  - by intros v v' [<-|[<-|[]]] [<-|[<-|[]]].
  - by intros v [<-|[<-|[]]].
  - intros v v' a _. apply demo_apart.
  - by intros n [<-|[<-|[]]].
Qed.

