(* ===== verification/Motion.v ===== *)
(** * A cluster in motion

    What the switches of several nodes do with a packet, by the tables they have
    ([reaches]).  When each table has the entries of some state of its node, the
    packets go where [Cluster] says for these states ([tables_deliver]).

    The states need not be of one moment: [cluster_in_motion] is about nodes that
    are each somewhere between two resyncs of their own, their informers, ports
    and events going on ([Life]); packets are delivered by the states the nodes
    had at their last resyncs. *)
From S2P Require Import Prelude GoStrings GoNet Exec Objects Labels Flows PortCache Controller NetPol Sync Readback Pipeline Verdict OvsSim Routing Life Cluster.

(** ** Packets and tables *)

Section tables.
Context {W : Type} `{HExec : Exec W} {N : Type} (tbl : N -> list Flow) (spec : N -> cnode (W := W)).

(** A tunnel between two of the nodes. *)
Definition crosses (ms : list N) (cfgs : list VSwitchConfig) (m : N) (e : emission) (m' : N) : Prop :=
  tunnelled (spec <$> ms) cfgs (spec m) e (spec m') /\ m' ∈ ms.

(** Where a packet that enters the switch of [m] can leave the switches of the
    cluster: by their tables, and through the tunnels between them. *)
Inductive reaches (ms : list N) (cfgs : list VSwitchConfig) (p : packet) (m m' : N) (e : emission) : Prop :=
| ReachesHere out :
    m' = m -> runs (tbl m) p 0 no_rewrites out -> In e out ->
    (forall n, ~ crosses ms cfgs m e n) -> reaches ms cfgs p m m' e
| ReachesThrough out tun n :
    runs (tbl m) p 0 no_rewrites out -> In tun out -> crosses ms cfgs m tun n ->
    reaches ms cfgs p n m' e -> reaches ms cfgs p m m' e.

(** The tables have the entries of the states. *)
Definition tables_of (ms : list N) : Prop := forall m p out, m ∈ ms ->
  runs (tbl m) p 0 no_rewrites out <-> emitted (cn_ctl (spec m)) (cn_world (spec m)) p out.

Lemma reaches_arrives ms cfgs p m m' e :
  tables_of ms -> m ∈ ms -> reaches ms cfgs p m m' e ->
  m' ∈ ms /\ arrives (spec <$> ms) cfgs p (spec m) (spec m') e.
Proof.
  intros Hms Hm Hr. induction Hr as [m m' e out -> Hout Hin Hno|m m' e out tun n Hout Hin [Ht Hn] Hr IH].
  - split; [done|]. apply (ArrivesHere _ _ _ _ _ _ out); [done|by apply Hms|done|]. intros n (cfg & Hc & Hn & Hrest).
    apply list_elem_of_In, list_elem_of_fmap in Hn as (n' & -> & Hn'). apply (Hno n'). split; [|done].
    exists cfg. split; [done|]. split; [by apply list_elem_of_In, list_elem_of_fmap; exists n'|done].
  - destruct (IH Hn) as [Hm' Ha]. split; [done|].
    apply (ArrivesThrough _ _ _ _ _ _ out tun (spec n)); [by apply Hms|done..].
Qed.

Lemma arrives_reaches ms cfgs p m c e :
  tables_of ms -> m ∈ ms -> arrives (spec <$> ms) cfgs p (spec m) c e ->
  exists m', m' ∈ ms /\ c = spec m' /\ reaches ms cfgs p m m' e.
Proof.
  intros Hms Hm Ha. remember (spec m) as cm eqn:Hcm. revert m Hm Hcm.
  induction Ha as [cm c e out -> Hout Hin Hno|cm c e out tun cn Hout Hin Ht Ha IH]; intros m Hm ->.
  - exists m. split; [done|]. split; [done|].
    apply (ReachesHere _ _ _ _ _ _ out); [done|by apply Hms|done|]. intros n [Hc _]. by apply (Hno (spec n)).
  - pose proof Ht as (cfg & _ & Hn & _). apply list_elem_of_In, list_elem_of_fmap in Hn as (n & -> & Hn).
    destruct (IH n Hn eq_refl) as (m' & Hm' & -> & Hr). exists m'. split; [done|]. split; [done|].
    by apply (ReachesThrough _ _ _ _ _ _ out tun n); [apply Hms| |split|].
Qed.

(** A packet for a pod of another node, by the states the tables are of. *)
Definition between_pods (a b : cnode (W := W)) (p : packet) (pod : Pod) (port : portInfo) : Prop :=
  allowed (cn_ctl a) p = true /\ allowed (cn_ctl b) p = true /\
  addr_match (gatewayIP (cn_ctl a)) (pk_dst p) = false /\ addr_match (gatewayIP (cn_ctl b)) (pk_dst p) = false /\
  addr_match (clusterCIDR (cn_ctl a)) (pk_dst p) = true /\ addr_match (podCIDR (cn_ctl b)) (pk_dst p) = true /\
  local_port (cn_ctl b) (cn_world b) pod port /\ addr_match (pod_PodIP pod) (pk_dst p) = true /\
  pi_ofport port <> 0%Z /\
  (forall pod' port', local_port (cn_ctl b) (cn_world b) pod' port' ->
     addr_match (pod_PodIP pod') (pk_dst p) = true -> pi_ofport port' = pi_ofport port).

Lemma tables_deliver ms cfgs a b p pod port :
  tables_of ms -> cluster_ok (spec <$> ms) cfgs ->
  (forall x y, x ∈ ms -> y ∈ ms -> spec x = spec y -> x = y) ->
  packet_ok p -> a ∈ ms -> b ∈ ms -> a <> b -> between_pods (spec a) (spec b) p pod port ->
  forall m e, reaches ms cfgs p a m e <->
    m = b /\ e = ToPort (pi_ofport port) {| rw_dl_dst := podMacAddr; rw_tun_dst := "" |}.
Proof.
  intros Hms Hok Hinj Hp Ha Hb Hne (Hala & Halb & Hga & Hgb & Hcl & Hbl & Hport & Hip & Hpn & Huniq) m e.
  assert (Hspec : forall x, x ∈ ms -> In (spec x) (spec <$> ms)).
  { intros x Hx. apply list_elem_of_In, list_elem_of_fmap. by exists x. }
  pose proof (pod_arrives (spec <$> ms) cfgs (spec a) (spec b) p pod port Hok Hp (Hspec a Ha) (Hspec b Hb)
    (fun He => Hne (Hinj a b Ha Hb He)) Hala Halb Hga Hgb Hcl Hbl Hport Hip Hpn Huniq) as Harr.
  split.
  - intros Hr. destruct (reaches_arrives ms _ p a m e Hms Ha Hr) as [Hm Har].
    apply Harr in Har as [Heq ->]. split; [by apply Hinj|done].
  - intros [-> ->]. destruct (arrives_reaches ms _ p a (spec b) _ Hms Ha (proj2 (Harr _ _) (conj eq_refl eq_refl)))
      as (m' & Hm' & He & Hr). by rewrite (Hinj b m' Hb Hm' He).
Qed.
End tables.

(** ** Nodes between resyncs *)

Section motion.
Context {W : Type} `{HTable : FlowTable W}.

(** The state of which the table is: that of the last resync, [o] if there was
    none; not known when it did not get through. *)
Fixpoint last_synced (acts : list (act (W := W))) (s : controller * W) (o : option (controller * W)) : option (controller * W) :=
  match acts with
  | [] => o
  | a :: acts' =>
      last_synced acts' (perform_act a s)
        (if act_resyncs a s then (if is_ok (syncFlows s).1 then Some s else None) else o)
  end.

Lemma told_last acts : forall s o, told acts s ((fun t => sync_spec t.1 t.2) <$> o) = (fun t => sync_spec t.1 t.2) <$> last_synced acts s o.
Proof.
  induction acts as [|a acts IH]; intros s o; [done|]. cbn [told last_synced]. rewrite <- IH. f_equal.
  destruct (act_resyncs a s); [by destruct (is_ok _)|done].
Qed.

Lemma table_last acts s t :
  alive s -> acts_ok acts s -> last_synced acts s None = Some t -> the_table (live acts s) = sync_spec t.1 t.2.
Proof.
  intros Ha Hok Hl. apply (live_told acts s None); [done|done|done|].
  pose proof (told_last acts s None) as Htl. cbn in Htl. by rewrite Htl, Hl.
Qed.

(** A node that has been running: how it started, what happened since, and its
    state at its last resync, which got through. *)
Record running := { rn_start : controller * W; rn_acts : list (act (W := W)); rn_synced : controller * W }.
Definition running_ok (n : running) : Prop :=
  alive (rn_start n) /\ acts_ok (rn_acts n) (rn_start n) /\ last_synced (rn_acts n) (rn_start n) None = Some (rn_synced n).

Definition rn_table (n : running) : list Flow := the_table (live (rn_acts n) (rn_start n)).
Definition rn_spec (n : running) : cnode (W := W) := {| cn_ctl := (rn_synced n).1; cn_world := (rn_synced n).2 |}.

Lemma running_tables ms : Forall running_ok ms -> tables_of rn_table rn_spec ms.
Proof.
  intros Hms n p out Hn. pose proof (proj1 (Forall_forall _ _) Hms n Hn) as (Ha & Hok & Hl).
  unfold rn_table, emitted. by rewrite (table_last _ _ _ Ha Hok Hl).
Qed.

(** C14.  A cluster in motion.  Whatever has happened to each node, stores that
    changed, ports that came and went, events that did not resync: as long as
    the states that the nodes had at their own last resyncs, at moments that
    may all differ, belong together, a packet of a pod of one node for a pod of
    another, allowed at both by these states, leaves the switches, by the
    tables they have now, exactly once, on the port that the pod had then. *)
Theorem cluster_in_motion (ms : list running) cfgs a b p pod port :
  Forall running_ok ms -> cluster_ok (rn_spec <$> ms) cfgs ->
  (forall x y, x ∈ ms -> y ∈ ms -> rn_spec x = rn_spec y -> x = y) ->
  packet_ok p -> a ∈ ms -> b ∈ ms -> a <> b -> between_pods (rn_spec a) (rn_spec b) p pod port ->
  forall m e, reaches rn_table rn_spec ms cfgs p a m e <->
    m = b /\ e = ToPort (pi_ofport port) {| rw_dl_dst := podMacAddr; rw_tun_dst := "" |}.
Proof. intros Hms. by apply tables_deliver, running_tables. Qed.
End motion.

(** ** Witness *)

#[local] Existing Instance ovs_exec.
#[local] Existing Instance ovs_table.

(** Both nodes of the demo cluster have resynced; on the one the remote pod is
    new since, on the other all pods have gone. *)
Definition no_pods : stores :=
  {| s_pods := Sync.stored []; s_namespaces := nsLister demo; s_policies := netPolLister demo; s_vswitches := vswitchLister demo |}.
Definition running_a : running (W := ovs) :=
  {| rn_start := (demo, ovs_one); rn_acts := [Event Timer; Informed with_remote; Event pod_event]; rn_synced := (demo, ovs_one) |}.
Definition running_b : running (W := ovs) :=
  {| rn_start := (demo_b, ovs_one); rn_acts := [Event Timer; Informed no_pods]; rn_synced := (demo_b, ovs_one) |}.

Lemma demo_b_alive : alive (demo_b, ovs_one).
Proof.
  destruct demo_alive as [[? ? ? ?] [Hcfg Hports ? ? ?]]. split; [by split|]. split; [|exact Hports|done..].
  destruct Hcfg. split; try done; reflexivity.
Qed.

Lemma no_pods_ok : stores_ok no_pods.
Proof. destruct with_remote_ok as [_ Hps Hv _ Hn]. split; [constructor|exact Hps|exact Hv|constructor|exact Hn]. Qed.

Lemma running_a_ok : running_ok running_a.
Proof. split; [exact demo_alive|]. split; [exact (conj I (conj with_remote_ok (conj I I)))|]. vm_compute. reflexivity. Qed.
Lemma running_b_ok : running_ok running_b.
Proof. split; [exact demo_b_alive|]. split; [exact (conj I (conj no_pods_ok I))|]. vm_compute. reflexivity. Qed.

Lemma client_between : between_pods node_2 node_1 (client_to_web 80) server_pod web_port.
Proof.
  do 6 (split; [vm_compute; reflexivity|]). split; [split; [left; reflexivity|split; vm_compute; reflexivity]|].
  split; [vm_compute; reflexivity|]. split; [discriminate|]. intros pod' port' Hp _. by rewrite (demo_ports pod' port' Hp).
Qed.

Lemma client_packet_ok : packet_ok (client_to_web 80).
Proof. split; [reflexivity|split; [apply byte_list; reflexivity|split; [reflexivity|apply byte_list; reflexivity]]]. Qed.

Lemma cluster_in_motion_witness :
  reaches rn_table rn_spec [running_a; running_b] demo_cfgs (client_to_web 80) running_b running_a
    (ToPort 5 {| rw_dl_dst := podMacAddr; rw_tun_dst := "" |}).
Proof.
  assert (Hd : running_b <> running_a).
  { intros H. apply (f_equal (fun m => nodeName (rn_start m).1)) in H. vm_compute in H. discriminate H. }
  apply (cluster_in_motion [running_a; running_b] demo_cfgs running_b running_a (client_to_web 80) server_pod web_port).
  - constructor; [exact running_a_ok|]. constructor; [exact running_b_ok|constructor].
  - exact demo_ok.
  - intros x y [->|[->|[]%elem_of_nil]%elem_of_cons]%elem_of_cons [->|[->|[]%elem_of_nil]%elem_of_cons]%elem_of_cons H;
      first [reflexivity|apply (f_equal (fun m => nodeName (cn_ctl m))) in H; vm_compute in H; discriminate H].
  - exact client_packet_ok.
  - right. left.
  - left.
  - exact Hd.
  - exact client_between.
  - split; reflexivity.
Defined.
