(* ===== verification/OpenFlow13.v ===== *)
(** * OpenFlow messages and the controller's message loop

    The messages of [vendor/github.com/Kmotiko/gofc] that the controller
    sends or looks at (header, hello, switch features, echo), their encoding
    on the wire, [connection/openflow.go], and [Initialize] and the loop of
    [Run] in [controllers/openflow/controller.go].

    A byte is a [Z] in [0..255], a packet a list of them.  Reading past the
    end of a slice panics.  [Parse] knows fourteen types of message; the
    controller looks at bare headers, hellos and switch features, and the
    bodies of the other eight types are read by the parameter [parse_body].

    Messages are numbered by the global counter [xid], which is advanced by
    every constructor of a header, those [Parse] calls included: parsing a
    message, in the goroutine of its connection, uses up a number.  The
    program is therefore a sequence of events in which parsing and handling
    are interleaved ([Run]). *)
From S2P Require Import Prelude GoStrings GoNet Exec Flows Objects Labels PortCache Controller Sync.

(** ** Big-endian numbers *)

Abbreviation packet_bytes := (list Z).

(** [binary.BigEndian.PutUint16], [...32], [...64]: [n] bytes of a number. *)
Fixpoint put_be (n : nat) (z : Z) : packet_bytes :=
  match n with
  | O => []
  | S n' => put_be n' (z / 256) ++ [(z mod 256)%Z]
  end.

(** [binary.BigEndian.UintN(b[i:])] *)
Definition get_be (n : nat) (b : packet_bytes) (i : nat) : result Z :=
  if (i + n <=? length b)%nat then Ok (be_val (take n (drop i b))) else Panic.

(** [b[i]] *)
Definition index (b : packet_bytes) (i : nat) : result Z :=
  match b !! i with Some x => Ok x | None => Panic end.

Definition uint (bits : Z) (z : Z) : Prop := (0 <= z < 2 ^ bits)%Z.

(** ** Messages *)

Record OfpHeader := { Version : Z; Type_ : Z; Length : Z; Xid : Z }.

#[export] Instance OfpHeader_eq_dec : EqDecision OfpHeader.
Proof. solve_decision. Defined.

Record OfpSwitchFeatures := {
  sf_Header : OfpHeader; DatapathId : Z; NBuffers : Z; NTables : Z; AuxiliaryId : Z;
  Pad : Z * Z; Capabilities : Z; Reserved : Z
}.

(** The dynamic type of an [OFMessage]: the three the controller looks at,
    the other structs, and the nil interface of an unknown type.  Echo, barrier
    and get-config messages are bare headers. *)
Inductive OFMessage :=
| MsgHeader (h : OfpHeader)
| MsgHello (h : OfpHeader)       (* decoded elements are dropped *)
| MsgFeatures (f : OfpSwitchFeatures)
| MsgOther (t : Z)
| MsgNil.

Definition OFPT_HELLO : Z := 0.
Definition OFPT_ERROR : Z := 1.
Definition OFPT_ECHO_REQUEST : Z := 2.
Definition OFPT_ECHO_REPLY : Z := 3.
Definition OFPT_FEATURES_REQUEST : Z := 5.
Definition OFPT_FEATURES_REPLY : Z := 6.
(** Types [Parse] reads into a bare header: echo request and reply,
    get-config reply, barrier reply. *)
Definition header_types : list Z := [2; 3; 8; 21]%Z.
(** Types with a struct of their own that the controller ignores: error,
    packet-in, flow removed, port status, multipart, queue, role and async
    replies. *)
Definition other_types : list Z := [1; 10; 11; 12; 19; 23; 25; 27]%Z.
Definition is_type (l : list Z) (t : Z) : bool := existsb (Z.eqb t) l.

(** The global [xid] is state. *)
Definition nextXid : M Z Z := fun xid => (Ok xid, ((xid + 1) mod 2 ^ 32)%Z).

Definition NewOfpHeader (t : Z) : M Z OfpHeader :=
  x ← nextXid; mret {| Version := 4; Type_ := t; Length := 8; Xid := x |}.
Definition NewOfpEchoReply : M Z OFMessage := h ← NewOfpHeader OFPT_ECHO_REPLY; mret (MsgHeader h).
Definition NewOfpHello : M Z OFMessage := h ← NewOfpHeader OFPT_HELLO; mret (MsgHello h).
Definition NewOfpFeaturesRequest : M Z OFMessage :=
  h ← NewOfpHeader OFPT_FEATURES_REQUEST; mret (MsgHeader h).

(** ** Encoding *)

Definition header_Serialize (h : OfpHeader) : packet_bytes :=
  [Version h; Type_ h] ++ put_be 2 (Length h) ++ put_be 4 (Xid h).

Definition header_Parse (b : packet_bytes) : result OfpHeader :=
  v ← index b 0; t ← index b 1; l ← get_be 2 b 2; x ← get_be 4 b 4;
  Ok {| Version := v; Type_ := t; Length := l; Xid := x |}.

(** A hello the program builds has no elements. *)
Definition hello_Serialize (h : OfpHeader) : packet_bytes := header_Serialize h.

(** [OfpHello.Parse]: each element is 8 bytes further on, and its two fields
    are read. *)
Fixpoint hello_elements (fuel : nat) (b : packet_bytes) (i : nat) : result unit :=
  match fuel with
  | O => Ok tt
  | S fuel' =>
      if (i <? length b)%nat then
        _ ← get_be 2 (drop i b) 0; _ ← get_be 2 (drop i b) 2; hello_elements fuel' b (i + 8)
      else Ok tt
  end.

Definition hello_Parse (b : packet_bytes) : result OfpHeader :=
  h ← header_Parse b; _ ← hello_elements (length b) b 8; Ok h.

Definition features_Parse (b : packet_bytes) : result OfpSwitchFeatures :=
  h ← header_Parse b;
  d ← get_be 8 b 8; nb ← get_be 4 b 16; nt ← index b 20; aux ← index b 21;
  p0 ← index b 22; p1 ← index b 23; cap ← get_be 4 b 24; res ← get_be 4 b 28;
  Ok {| sf_Header := h; DatapathId := d; NBuffers := nb; NTables := nt; AuxiliaryId := aux;
        Pad := (p0, p1); Capabilities := cap; Reserved := res |}.

Section parse.
(** Decoders of the messages the controller ignores. *)
Variable parse_body : Z -> packet_bytes -> result unit.

(** The constructor that allocates the message runs first; all of them but
    those of a hello and of an error take a number from [xid]. *)
Definition Parse (b : packet_bytes) : M Z OFMessage :=
  t ← lift (index b 1);
  if (t =? OFPT_HELLO)%Z then lift (MsgHello <$> hello_Parse b)
  else if is_type header_types t then _ ← nextXid; lift (MsgHeader <$> header_Parse b)
  else if (t =? OFPT_FEATURES_REPLY)%Z then _ ← nextXid; lift (MsgFeatures <$> features_Parse b)
  else if is_type other_types t then
    _ ← (if (t =? OFPT_ERROR)%Z then mret 0%Z else nextXid);
    lift (_ ← parse_body t b; Ok (MsgOther t))
  else mret MsgNil.

(** [connection/openflow.go] *)
Definition ParseMessage (b : packet_bytes) : M Z OFMessage := Parse b.
End parse.

(** [int(binary.BigEndian.Uint16(buf[2:]))] *)
Definition MessageLength (b : packet_bytes) : result Z := get_be 2 b 2.

(** ** The message loop *)

(** What [Run] touches: the controller, the global xid, and the connection
    manager's queue of messages to send. *)
Record run_state := { rs_controller : controller; rs_xid : Z; rs_queue : list OFMessage }.

Definition Send (msg : OFMessage) : M run_state unit :=
  modify (fun s => {| rs_controller := rs_controller s; rs_xid := rs_xid s;
                      rs_queue := rs_queue s ++ [msg] |}).

Definition with_xid {A} (m : M Z A) : M run_state A :=
  zoom rs_xid (fun x s => {| rs_controller := rs_controller s; rs_xid := x; rs_queue := rs_queue s |}) m.

Definition Initialize : M run_state unit := hello ← with_xid NewOfpHello; Send hello.

(** The body of the loop of [Run], after [Receive]. *)
Definition handle_message (msg : OFMessage) : M run_state unit :=
  match msg with
  | MsgHeader h =>
      _ ← (if (Type_ h =? OFPT_ECHO_REQUEST)%Z then
             echoReply ← with_xid NewOfpEchoReply; Send echoReply
           else mret tt);
      (if (Type_ h =? OFPT_ECHO_REPLY)%Z then mret tt else mret tt)
  | MsgHello _ => featureReq ← with_xid NewOfpFeaturesRequest; Send featureReq
  | MsgFeatures f =>
      modify (fun s => {| rs_controller := set_datapathID (DatapathId f) (rs_controller s);
                          rs_xid := rs_xid s; rs_queue := rs_queue s |})
  | _ => mret tt
  end.

(** What happens in the program, in the order in which [xid] is accessed: the
    hello is sent, the goroutine of a connection parses a message, or the loop
    of [Run] receives one from the channel. *)
Inductive event :=
| EvInitialize
| EvParse (b : packet_bytes)
| EvReceive (msg : OFMessage).

Definition run_event (pb : Z -> packet_bytes -> result unit) (e : event) : M run_state unit :=
  match e with
  | EvInitialize => Initialize
  | EvParse b => _ ← with_xid (ParseMessage pb b); mret tt
  | EvReceive msg => handle_message msg
  end.

Definition Run (pb : Z -> packet_bytes -> result unit) (evs : list event) : M run_state unit :=
  for_range evs (run_event pb).

(** ** Facts about encoding *)

Lemma put_be_length n z : length (put_be n z) = n.
Proof. revert z. induction n as [|n IH]; intros z; [done|]. cbn. rewrite length_app, IH. cbn. lia. Qed.

Lemma put_be_val n z : (0 <= z < 256 ^ Z.of_nat n)%Z -> be_val (put_be n z) = z.
Proof.
  revert z. induction n as [|n IH]; intros z Hz.
  - cbn in *. lia.
  - cbn [put_be]. rewrite be_val_app. cbn [be_val length].
    rewrite Nat2Z.inj_succ, Z.pow_succ_r in Hz by lia.
    rewrite IH by (split; [apply Z.div_pos; lia|apply Z.div_lt_upper_bound; lia]).
    pose proof (Z.div_mod z 256 ltac:(lia)). change (256 ^ Z.of_nat 1)%Z with 256%Z.
    change (256 ^ Z.of_nat 0)%Z with 1%Z. lia.
Qed.

(** Reading a field back from between its neighbours. *)
Lemma get_be_put n z pre post i :
  length pre = i -> (0 <= z < 256 ^ Z.of_nat n)%Z ->
  get_be n (pre ++ put_be n z ++ post) i = Ok z.
Proof.
  intros <- Hz. unfold get_be. rewrite !length_app, put_be_length.
  rewrite (proj2 (Nat.leb_le _ _)) by lia.
  rewrite drop_app_length, take_app_le by (rewrite put_be_length; lia).
  rewrite <- (put_be_length n z) at 1. by rewrite firstn_all, put_be_val.
Qed.

Lemma get_be_total n b i : (i + n <= length b)%nat -> get_be n b i = Ok (be_val (take n (drop i b))).
Proof. intros Hl. unfold get_be. by rewrite (proj2 (Nat.leb_le _ _)). Qed.

Lemma get_be_short n b i : (length b < i + n)%nat -> get_be n b i = Panic.
Proof. intros Hl. unfold get_be. by rewrite (proj2 (Nat.leb_gt _ _)). Qed.

(** Decoding a slice succeeds or panics; a panic later on is a panic. *)
Definition no_err {A} (m : result A) : Prop := forall e, m <> Err e.

Lemma get_be_no_err n b i : no_err (get_be n b i).
Proof. intros e. unfold get_be. by destruct (_ <=? _)%nat. Qed.
Lemma index_no_err b i : no_err (index b i).
Proof. intros e. unfold index. by destruct (b !! i). Qed.

Lemma bind_panic {A B} (m : result A) (k : A -> result B) :
  no_err m -> (forall a, k a = Panic) -> m ≫= k = Panic.
Proof. intros Hm Hk. destruct m as [a|e|]; cbn; [apply Hk|by destruct (Hm e)|done]. Qed.

Lemma header_no_err b : no_err (header_Parse b).
Proof.
  intros e. unfold header_Parse, mbind, result_bind.
  pose proof (index_no_err b 0 e). pose proof (index_no_err b 1 e).
  pose proof (get_be_no_err 2 b 2 e). pose proof (get_be_no_err 4 b 4 e).
  destruct (index b 0); [|congruence|done]. destruct (index b 1); [|congruence|done].
  destruct (get_be 2 b 2); [|congruence|done]. destruct (get_be 4 b 4); [done|congruence|done].
Qed.

Lemma features_Parse_short b : (length b < 32)%nat -> features_Parse b = Panic.
Proof.
  intros Hl. unfold features_Parse.
  apply bind_panic; [apply header_no_err|intros h].
  do 2 (apply bind_panic; [apply get_be_no_err|intros ?]).
  do 4 (apply bind_panic; [apply index_no_err|intros ?]).
  apply bind_panic; [apply get_be_no_err|intros ?].
  by rewrite get_be_short by lia.
Qed.

Definition header_ok (h : OfpHeader) : Prop :=
  uint 8 (Version h) /\ uint 8 (Type_ h) /\ uint 16 (Length h) /\ uint 32 (Xid h).

Lemma header_Serialize_length h : length (header_Serialize h) = 8.
Proof. unfold header_Serialize. by rewrite !length_app, !put_be_length. Qed.

(** Whatever follows a header, the header is read back. *)
Lemma header_Parse_Serialize h rest :
  header_ok h -> header_Parse (header_Serialize h ++ rest) = Ok h.
Proof.
  intros (Hv & Ht & Hl & Hx). unfold header_Parse, header_Serialize.
  assert (HL : get_be 2 (([Version h; Type_ h] ++ put_be 2 (Length h) ++ put_be 4 (Xid h)) ++ rest) 2 = Ok (Length h)).
  { rewrite <- !app_assoc. by apply get_be_put. }
  assert (HX : get_be 4 (([Version h; Type_ h] ++ put_be 2 (Length h) ++ put_be 4 (Xid h)) ++ rest) 4 = Ok (Xid h)).
  { rewrite <- !app_assoc, (app_assoc [_; _]). apply get_be_put; [|done].
    by rewrite length_app, put_be_length. }
  unfold mbind, result_bind. rewrite HL, HX. cbn. by destruct h.
Qed.

Lemma MessageLength_Serialize h rest :
  header_ok h -> MessageLength (header_Serialize h ++ rest) = Ok (Length h).
Proof.
  intros (_ & _ & Hl & _). unfold MessageLength, header_Serialize. rewrite <- !app_assoc.
  by apply get_be_put.
Qed.

(** ** Parsing, and the numbers it uses up *)

Definition next_xid (x : Z) : Z := ((x + 1) mod 2 ^ 32)%Z.

(** The message of a packet, and whether parsing it takes a number. *)
Definition decoded (pb : Z -> packet_bytes -> result unit) (b : packet_bytes) : result OFMessage :=
  t ← index b 1;
  if (t =? OFPT_HELLO)%Z then MsgHello <$> hello_Parse b
  else if is_type header_types t then MsgHeader <$> header_Parse b
  else if (t =? OFPT_FEATURES_REPLY)%Z then MsgFeatures <$> features_Parse b
  else if is_type other_types t then _ ← pb t b; Ok (MsgOther t)
  else Ok MsgNil.

Definition parse_takes (b : packet_bytes) : bool :=
  match b !! 1 with
  | Some t => is_type ([6; 10; 11; 12; 19; 23; 25; 27]%Z ++ header_types) t
  | None => false
  end.

Lemma is_type_app l k t : is_type (l ++ k) t = is_type l t || is_type k t.
Proof. apply existsb_app. Qed.

Lemma Parse_run pb b x :
  Parse pb b x = (decoded pb b, if parse_takes b then next_xid x else x).
Proof.
  unfold Parse, decoded, parse_takes, index, lift, mbind, M_bind, mret, M_ret.
  destruct (b !! 1) as [t|]; [|done]. cbn [result_bind].
  destruct (Z.eqb_spec t OFPT_HELLO) as [->|H0]; [done|].
  rewrite is_type_app. destruct (is_type header_types t); [by rewrite orb_true_r|rewrite orb_false_r].
  destruct (Z.eqb_spec t OFPT_FEATURES_REPLY) as [->|H6]; [done|].
  cbn [existsb is_type other_types]. unfold OFPT_FEATURES_REPLY, OFPT_ERROR in *.
  rewrite (proj2 (Z.eqb_neq t 6)) by done.
  destruct (Z.eqb_spec t 1) as [->|H1]; [done|]. cbn [orb].
  by destruct (_ || _).
Qed.

(** ** Specification of the loop *)

(** The message sent at an event when the counter is at [x]. *)
Definition answer (e : event) (x : Z) : option OFMessage :=
  match e with
  | EvInitialize => Some (MsgHello {| Version := 4; Type_ := OFPT_HELLO; Length := 8; Xid := x |})
  | EvParse _ => None
  | EvReceive (MsgHeader h) =>
      if (Type_ h =? OFPT_ECHO_REQUEST)%Z
      then Some (MsgHeader {| Version := 4; Type_ := OFPT_ECHO_REPLY; Length := 8; Xid := x |}) else None
  | EvReceive (MsgHello _) =>
      Some (MsgHeader {| Version := 4; Type_ := OFPT_FEATURES_REQUEST; Length := 8; Xid := x |})
  | EvReceive _ => None
  end.

(** The counter after an event. *)
Definition counted (x : Z) (e : event) : Z :=
  match e, answer e x with
  | EvParse b, _ => if parse_takes b then next_xid x else x
  | _, Some _ => next_xid x
  | _, None => x
  end.

(** All messages sent over a sequence of events. *)
Fixpoint sent (x : Z) (evs : list event) : list OFMessage :=
  match evs with
  | [] => []
  | e :: evs' => option_list (answer e x) ++ sent (counted x e) evs'
  end.

Definition learn (c : controller) (e : event) : controller :=
  match e with EvReceive (MsgFeatures f) => set_datapathID (DatapathId f) c | _ => c end.

(** An event whose parse, if it is one, does not panic. *)
Definition event_ok (pb : Z -> packet_bytes -> result unit) (e : event) : Prop :=
  match e with EvParse b => exists msg, decoded pb b = Ok msg | _ => True end.

Lemma run_event_run pb e s : event_ok pb e ->
  run_event pb e s =
  (Ok tt, {| rs_controller := learn (rs_controller s) e; rs_xid := counted (rs_xid s) e;
             rs_queue := rs_queue s ++ option_list (answer e (rs_xid s)) |}).
Proof.
  destruct s as [c x q], e as [|b|[h|h|f|t|]]; cbn [event_ok]; intros Hok; cbn; rewrite ?app_nil_r; try done.
  - destruct Hok as [msg Hd]. unfold with_xid, zoom, mbind, M_bind, ParseMessage. cbn. by rewrite Parse_run, Hd.
  - unfold handle_message, counted, answer, learn.
    destruct (Type_ h =? OFPT_ECHO_REQUEST)%Z; cbn; rewrite ?app_nil_r;
      by destruct (Type_ h =? OFPT_ECHO_REPLY)%Z.
Qed.

Lemma Run_run pb evs s : Forall (event_ok pb) evs ->
  Run pb evs s =
  (Ok tt, {| rs_controller := foldl learn (rs_controller s) evs;
             rs_xid := foldl counted (rs_xid s) evs;
             rs_queue := rs_queue s ++ sent (rs_xid s) evs |}).
Proof.
  intros Hok. unfold Run. revert s. induction Hok as [|e evs He Hevs IH]; intros s; cbn [for_range].
  - cbn. rewrite app_nil_r. by destruct s.
  - unfold mbind, M_bind. rewrite run_event_run, IH by done. cbn [rs_controller rs_xid rs_queue foldl sent].
    by rewrite <- app_assoc.
Qed.

(** The numbers of the messages sent: the counter's values at some of the
    events, in order. *)
Definition message_xid (m : OFMessage) : option Z :=
  match m with
  | MsgHeader h | MsgHello h => Some (Xid h)
  | MsgFeatures f => Some (Xid (sf_Header f))
  | _ => None
  end.

Definition xid_at (x : Z) (k : nat) : option Z := Some ((x + Z.of_nat k) mod 2 ^ 32)%Z.

Lemma answer_xid e x m : answer e x = Some m -> message_xid m = Some x /\ counted x e = next_xid x.
Proof.
  intros Ha. split.
  - destruct e as [|b|[h|h|f|t|]]; cbn in Ha; try done; [by injection Ha as <-| |by injection Ha as <-].
    destruct (_ =? _)%Z; [|done]. by injection Ha as <-.
  - destruct e as [|b|msg]; [done..|]. cbn [counted]. by rewrite Ha.
Qed.

Lemma counted_cases e x : counted x e = x /\ answer e x = None \/ counted x e = next_xid x.
Proof.
  destruct e as [|b|msg]; cbn [counted].
  - by right.
  - destruct (parse_takes b); [by right|by left].
  - destruct (answer (EvReceive msg) x); [by right|by left].
Qed.

Lemma xid_at_next x k : xid_at (next_xid x) k = xid_at x (S k).
Proof.
  unfold xid_at, next_xid. rewrite Zplus_mod_idemp_l. do 2 f_equal. lia.
Qed.

Lemma sent_xids evs : forall x, uint 32 x ->
  exists ks : list nat, message_xid <$> sent x evs = xid_at x <$> ks /\
    NoDup ks /\ Forall (fun k => (k < length evs)%nat) ks.
Proof.
  induction evs as [|e evs IH]; intros x Hx; [exists []; repeat constructor|].
  cbn [sent length]. destruct (counted_cases e x) as [[-> ->]|Hc].
  - destruct (IH x Hx) as (ks & Hks & Hnd & Hb). exists ks. split; [done|]. split; [done|].
    eapply Forall_impl; [exact Hb|]. cbn. lia.
  - rewrite Hc. destruct (IH (next_xid x)) as (ks & Hks & Hnd & Hb).
    { unfold uint, next_xid. apply Z.mod_pos_bound. lia. }
    assert (Hshift : xid_at (next_xid x) <$> ks = xid_at x <$> (S <$> ks)).
    { rewrite <- list_fmap_compose. apply list_fmap_ext. intros ? k _. apply xid_at_next. }
    assert (HS : NoDup (S <$> ks) /\ Forall (fun k => (k < S (length evs))%nat) (S <$> ks)).
    { split; [by apply (NoDup_fmap_2 S)|]. apply Forall_fmap. eapply Forall_impl; [exact Hb|]. cbn. lia. }
    destruct HS as [HSn HSb]. destruct (answer e x) as [m|] eqn:Ha.
    + destruct (answer_xid e x m Ha) as [Hm _]. exists (0%nat :: (S <$> ks)).
      change (option_list (Some m) ++ sent (next_xid x) evs) with (m :: sent (next_xid x) evs).
      rewrite !fmap_cons, Hks, Hm, Hshift. split.
      { unfold xid_at at 2. rewrite Z.add_0_r, Z.mod_small by done. done. }
      split; [|by constructor; [lia|]].
      constructor; [|done]. intros (k & Hk & _)%list_elem_of_fmap. done.
    + exists (S <$> ks). change (option_list None ++ sent (next_xid x) evs) with (sent (next_xid x) evs).
      by rewrite Hks, Hshift.
Qed.

(** ** Properties *)

(** C35.  What the program puts on the wire is read back.  A header takes 8
    bytes, its length field is where MessageLength looks, and whatever bytes
    follow, a serialised echo header decodes to itself, as does a hello.
    Decoding an echo uses up a number, decoding a hello does not. *)
Theorem message_roundtrip pb h x :
  header_ok h ->
  length (header_Serialize h) = 8 /\
  (forall rest, MessageLength (header_Serialize h ++ rest) = Ok (Length h)) /\
  (Type_ h = OFPT_HELLO -> ParseMessage pb (hello_Serialize h) x = (Ok (MsgHello h), x)) /\
  (Type_ h = OFPT_ECHO_REQUEST \/ Type_ h = OFPT_ECHO_REPLY ->
     forall rest, ParseMessage pb (header_Serialize h ++ rest) x = (Ok (MsgHeader h), next_xid x)).
Proof.
  intros Hh. split; [apply header_Serialize_length|].
  split; [intros rest; by apply MessageLength_Serialize|].
  assert (Ht : forall rest, (header_Serialize h ++ rest) !! 1 = Some (Type_ h)) by done. split.
  - intros Hty. unfold ParseMessage, hello_Serialize. rewrite Parse_run.
    pose proof (header_Parse_Serialize h [] Hh) as Hp. pose proof (header_Serialize_length h) as Hl.
    specialize (Ht []). rewrite app_nil_r in Hp, Ht.
    unfold decoded, parse_takes, index. rewrite Ht, Hty. cbn [mbind result_bind].
    unfold hello_Parse. rewrite Hp, Hl. cbn [mbind result_bind hello_elements]. by rewrite Hl.
  - intros Hty rest. unfold ParseMessage. rewrite Parse_run.
    unfold decoded, parse_takes, index. rewrite Ht. cbn [mbind result_bind].
    rewrite header_Parse_Serialize by done. by destruct Hty as [-> | ->].
Qed.

(** Short messages panic.  A message without its type byte panics
    whatever it is; a switch features message decodes exactly when it has its
    32 bytes, and then the datapath id is the number in bytes 8 to 15. *)
Theorem Parse_bounds pb b x :
  ((length b < 2)%nat -> (ParseMessage pb b x).1 = Panic) /\
  (b !! 1 = Some OFPT_FEATURES_REPLY ->
   ((length b < 32)%nat -> (ParseMessage pb b x).1 = Panic) /\
   ((32 <= length b)%nat -> exists f, (ParseMessage pb b x).1 = Ok (MsgFeatures f) /\
      DatapathId f = be_val (take 8 (drop 8 b)))).
Proof.
  unfold ParseMessage. rewrite Parse_run. cbn [fst]. unfold decoded, index. split.
  { intros Hl. by rewrite (lookup_ge_None_2 b 1) by lia. }
  intros H1. rewrite H1. cbn [mbind result_bind]. change (is_type header_types OFPT_FEATURES_REPLY) with false.
  cbn [Z.eqb OFPT_HELLO OFPT_FEATURES_REPLY Pos.eqb]. split.
  - intros Hl. by rewrite features_Parse_short.
  - intros Hl. unfold features_Parse, header_Parse. rewrite !get_be_total by lia. unfold index.
    repeat match goal with |- context [b !! ?i] =>
      let x := fresh "x" in destruct (lookup_lt_is_Some_2 b i ltac:(lia)) as [x ->] end.
    eexists. split; [reflexivity|done].
Qed.

(** The message loop.  Over any interleaving of the hello, of messages
    being parsed and of messages being received, the controller sends the
    hello, answers each echo request with an echo reply and each hello with a
    features request, in order, and sends nothing else; it ends with the
    datapath id of the last features message.  Every message sent carries the
    value of the program's own counter, which parsing advances too, and not
    the number of the request it answers. *)
Theorem Run_answers pb evs s :
  Forall (event_ok pb) evs ->
  Run pb evs s =
  (Ok tt, {| rs_controller := foldl learn (rs_controller s) evs;
             rs_xid := foldl counted (rs_xid s) evs;
             rs_queue := rs_queue s ++ sent (rs_xid s) evs |}).
Proof. apply Run_run. Qed.


(** ** Witnesses *)

Definition no_bodies : Z -> packet_bytes -> result unit := fun _ _ => Ok tt.

Definition echo_header : OfpHeader :=
  {| Version := 4; Type_ := OFPT_ECHO_REQUEST; Length := 12; Xid := 305419896 |}.
Definition echo_packet : packet_bytes := header_Serialize echo_header ++ [1; 2; 3; 4]%Z.
Definition hello_header : OfpHeader := {| Version := 4; Type_ := OFPT_HELLO; Length := 8; Xid := 1 |}.

Lemma message_roundtrip_witness :
  header_Serialize echo_header = [4; 2; 0; 12; 18; 52; 86; 120]%Z /\
  ParseMessage no_bodies echo_packet 7%Z = (Ok (MsgHeader echo_header), 8%Z).
Proof.
  split; [reflexivity|].
  destruct (message_roundtrip no_bodies echo_header 7%Z) as (_ & _ & _ & H).
  - repeat split; vm_compute; first [reflexivity | discriminate].
  - apply H. left. reflexivity.
Defined.

Definition start_state : run_state :=
  {| rs_controller := demo; rs_xid := 4294967295; rs_queue := [] |}.

(** The handshake and an echo, with the counter about to wrap. *)
Definition handshake : list event :=
  [EvInitialize; EvParse (hello_Serialize hello_header); EvReceive (MsgHello hello_header);
   EvParse echo_packet; EvReceive (MsgHeader echo_header)].

Lemma handshake_ok : Forall (event_ok no_bodies) handshake.
Proof. repeat constructor; by eexists. Qed.

Lemma Run_answers_witness :
  rs_queue (Run no_bodies handshake start_state).2 =
  [MsgHello {| Version := 4; Type_ := 0; Length := 8; Xid := 4294967295 |};
   MsgHeader {| Version := 4; Type_ := 5; Length := 8; Xid := 0 |};
   MsgHeader {| Version := 4; Type_ := 3; Length := 8; Xid := 2 |}].
Proof. rewrite (Run_answers no_bodies handshake start_state handshake_ok). reflexivity. Defined.

