(* ===== verification/Connection.v ===== *)
(** * The connection manager

    [connection/connection.go]: messages to the switch are queued by [Send]
    and written by the goroutine [ProcessQueue] to the connection that
    [Serve] accepted last; [handleConn] reads messages from a connection.

    The writing side is a transition system whose steps are the sections the
    code runs under its two mutexes, so any interleaving of the goroutines is
    a sequence of steps.  [ProcessQueue] waits on a condition variable once,
    not in a loop; [Broadcast] wakes it, and it then holds the mutex again.

    The reading side is a function of the chunks the connection delivers. *)
From S2P Require Import Prelude GoStrings GoNet OpenFlow13.

(** ** The writing side *)

Section writer.
(** A TCP connection, and a message. *)
Context {Conn Msg : Type}.

(** Where [ProcessQueue] stands. *)
Inductive pq_state :=
| AtConn          (* about to lock connMu and look at conn *)
| WaitConn        (* in connCond.Wait *)
| WokenConn       (* woken by SetConnection, to re-acquire connMu *)
| AtQueue         (* about to lock queueMu and look at the queue *)
| WaitQueue       (* in queueCond.Wait, queueMu released *)
| WokenQueue      (* woken by Send, to re-acquire queueMu *)
| Holding         (* queueMu held, about to take queue[0] and write it *)
| Crashed.        (* index out of range *)

(** The fields the methods share, the goroutine's position, and two histories:
    what was passed to [Send], and what was written where. *)
Record OFConnect := {
  queue : list Msg;
  conn : option Conn;
  pq : pq_state;
  h_sent : list Msg;
  h_wire : list (Conn * Msg)
}.

Definition NewOFConnect : OFConnect :=
  {| queue := []; conn := None; pq := AtConn; h_sent := []; h_wire := [] |}.

Definition set_pq (p : pq_state) (s : OFConnect) : OFConnect :=
  {| queue := queue s; conn := conn s; pq := p; h_sent := h_sent s; h_wire := h_wire s |}.

(** [Send]: under queueMu, append and broadcast. *)
Definition Send (msg : Msg) (s : OFConnect) : OFConnect :=
  {| queue := queue s ++ [msg]; conn := conn s;
     pq := match pq s with WaitQueue => WokenQueue | p => p end;
     h_sent := h_sent s ++ [msg]; h_wire := h_wire s |}.

(** [SetConnection]: under connMu, replace and broadcast. *)
Definition SetConnection (c : Conn) (s : OFConnect) : OFConnect :=
  {| queue := queue s; conn := Some c;
     pq := match pq s with WaitConn => WokenConn | p => p end;
     h_sent := h_sent s; h_wire := h_wire s |}.

(** [WriteConnection] of one message; [ok] is the outcome of [conn.Write]. *)
Definition WriteConnection (msg : Msg) (ok : bool) (s : OFConnect) : result Conn :=
  match conn s with
  | None => Err (ErrNew "main connection not established yet")
  | Some c => if ok then Ok c else Err (ErrExt "write")
  end.

(** From [msg := of.queue[0]] to the end of the iteration. *)
Definition write_head (ok : bool) (s : OFConnect) : OFConnect :=
  match queue s with
  | [] => set_pq Crashed s
  | msg :: rest =>
      match WriteConnection msg ok s with
      | Ok c => {| queue := rest; conn := conn s; pq := AtConn; h_sent := h_sent s;
                   h_wire := h_wire s ++ [(c, msg)] |}
      | _ => set_pq AtConn s
      end
  end.

(** One section of [ProcessQueue]; [None] while it is asleep. *)
Definition ProcessQueue_step (ok : bool) (s : OFConnect) : option OFConnect :=
  match pq s with
  | AtConn => Some (set_pq (match conn s with None => WaitConn | Some _ => AtQueue end) s)
  | WokenConn => Some (set_pq AtQueue s)
  | AtQueue => Some (set_pq (match queue s with [] => WaitQueue | _ => Holding end) s)
  | WokenQueue => Some (set_pq Holding s)
  | Holding => Some (write_head ok s)
  | WaitConn | WaitQueue | Crashed => None
  end.

(** A step of any goroutine.  [Send] needs queueMu, which [ProcessQueue] keeps
    while it writes; [conn.Write] may fail at any time. *)
Inductive step : OFConnect -> OFConnect -> Prop :=
| step_Send msg s : pq s <> Holding -> step s (Send msg s)
| step_SetConnection c s : step s (SetConnection c s)
| step_ProcessQueue ok s s' : ProcessQueue_step ok s = Some s' -> step s s'.

Inductive reachable : OFConnect -> Prop :=
| reach_init : reachable NewOFConnect
| reach_step s s' : reachable s -> step s s' -> reachable s'.

(** *** Invariant *)

Record conn_inv (s : OFConnect) : Prop := {
  inv_fifo : h_sent s = (snd <$> h_wire s) ++ queue s;
  inv_alive : pq s <> Crashed;
  inv_work : pq s = Holding \/ pq s = WokenQueue -> queue s <> [];
  inv_wait_queue : pq s = WaitQueue -> queue s = [];
  inv_wait_conn : pq s = WaitConn -> conn s = None;
  inv_conn : pq s = WokenConn \/ pq s = AtQueue \/ pq s = WaitQueue \/ pq s = WokenQueue \/ pq s = Holding ->
             conn s <> None
}.

Lemma inv_init : conn_inv NewOFConnect.
Proof. split; cbn; try done; intros; intuition congruence. Qed.

Lemma inv_Send msg s : conn_inv s -> conn_inv (Send msg s).
Proof.
  intros [Hf Ha Hw Hq Hc Hn]. split; cbn.
  - by rewrite Hf, app_assoc.
  - by destruct (pq s).
  - intros _ He. by apply app_eq_nil in He as [_ He].
  - by destruct (pq s).
  - intros Hp. apply Hc. by destruct (pq s).
  - intros Hp. apply Hn. destruct (pq s); intuition congruence.
Qed.

Lemma inv_SetConnection c s : conn_inv s -> conn_inv (SetConnection c s).
Proof.
  intros [Hf Ha Hw Hq Hc Hn]. split; cbn; try done.
  - by destruct (pq s).
  - intros Hp. apply Hw. destruct (pq s); intuition congruence.
  - intros Hp. apply Hq. by destruct (pq s).
  - intros Hp. by destruct (pq s).
Qed.

Lemma inv_ProcessQueue ok s s' : conn_inv s -> ProcessQueue_step ok s = Some s' -> conn_inv s'.
Proof.
  intros [Hf Ha Hw Hq Hc Hn]. unfold ProcessQueue_step.
  destruct (pq s) eqn:Hp; try done; intros [= <-].
  - split; cbn; try done; destruct (conn s) eqn:Hconn; intuition congruence.
  - split; cbn; try done; intuition congruence.
  - split; cbn; try done; destruct (queue s) eqn:Hqueue; intuition congruence.
  - split; cbn; try done; intuition congruence.
  - unfold write_head, WriteConnection. destruct (queue s) as [|m rest] eqn:Hqueue.
    { destruct Hw; [by left|done]. }
    destruct (conn s) as [c|] eqn:Hconn; [destruct ok|]; split; cbn; rewrite ?Hqueue; try done; try intuition congruence.
    rewrite Hf, fmap_app. cbn. by rewrite <- app_assoc.
Qed.

Lemma reachable_inv s : reachable s -> conn_inv s.
Proof.
  induction 1 as [|s s' _ IH Hs]; [apply inv_init|].
  destruct Hs; eauto using inv_Send, inv_SetConnection, inv_ProcessQueue.
Qed.

(** *** Progress *)

(** [ProcessQueue] alone, its writes succeeding. *)
Fixpoint run_queue (n : nat) (s : OFConnect) : OFConnect :=
  match n with
  | O => s
  | S n' => match ProcessQueue_step true s with Some s' => run_queue n' s' | None => s end
  end.

Lemma run_queue_add n m s : run_queue (n + m) s = run_queue m (run_queue n s).
Proof.
  revert s. induction n as [|n IH]; intros s; [done|]. cbn [Nat.add run_queue].
  destruct (ProcessQueue_step true s) as [s'|] eqn:Hs; [apply IH|].
  destruct m; [done|]. cbn [run_queue]. by rewrite Hs.
Qed.

(** The head of the queue is written within three sections. *)
Lemma deliver_one s c m rest :
  conn_inv s -> conn s = Some c -> queue s = m :: rest ->
  exists n, (n <= 3)%nat /\ run_queue n s =
    {| queue := rest; conn := Some c; pq := AtConn; h_sent := h_sent s; h_wire := h_wire s ++ [(c, m)] |}.
Proof.
  intros [Hf Ha Hw Hwq Hwc Hn] Hc Hq. destruct s as [q cn p sent wire]. cbn in *. subst q cn.
  destruct p; try done;
    first [ discriminate (Hwc eq_refl) | discriminate (Hwq eq_refl)
          | exists 1%nat; split; [lia|reflexivity] | exists 2%nat; split; [lia|reflexivity]
          | exists 3%nat; split; [lia|reflexivity] ].
Qed.

Lemma deliver_all q : forall s c,
  conn_inv s -> conn s = Some c -> queue s = q ->
  exists n, (n <= 3 * length q)%nat /\ queue (run_queue n s) = [] /\
    h_wire (run_queue n s) = h_wire s ++ ((fun m => (c, m)) <$> q).
Proof.
  induction q as [|m q IH]; intros s c Hs Hc Hq.
  - exists 0%nat. cbn. by rewrite app_nil_r.
  - destruct (deliver_one s c m q Hs Hc Hq) as (n & Hle & Hn).
    destruct (IH (run_queue n s) c) as (k & Hk & Hempty & Hwire).
    + rewrite Hn. destruct Hs as [Hf _ _ _ _ _]. split; cbn; try done; try intuition congruence.
      rewrite Hf, Hq, fmap_app. cbn. by rewrite <- app_assoc.
    + by rewrite Hn.
    + by rewrite Hn.
    + exists (n + k)%nat. rewrite run_queue_add. split; [cbn; lia|]. split; [done|].
      rewrite Hwire, Hn. cbn. by rewrite <- app_assoc.
Qed.

(** *** Properties *)

(** C16.  Whatever the interleaving of senders, connections, write failures
    and ProcessQueue: queue[0] is never read from an empty queue; every
    message sent is either written or still queued, in the order it was sent,
    none lost and none written twice; and ProcessQueue only sleeps when there
    is nothing to write or nowhere to write it. *)
Theorem ProcessQueue_fifo s :
  reachable s ->
  pq s <> Crashed /\ h_sent s = (snd <$> h_wire s) ++ queue s /\
  (pq s = WaitQueue -> queue s = []) /\ (pq s = WaitConn -> conn s = None).
Proof. intros Hr. by destruct (reachable_inv s Hr). Qed.

(** C31.  Nothing waits for ever on a working connection: from any reachable
    state with a connection, if its writes succeed, ProcessQueue on its own
    writes the whole queue to it, in order, within three sections per
    message. *)
Theorem ProcessQueue_drains s c :
  reachable s -> conn s = Some c ->
  exists n, (n <= 3 * length (queue s))%nat /\ queue (run_queue n s) = [] /\
    h_wire (run_queue n s) = h_wire s ++ ((fun m => (c, m)) <$> queue s).
Proof. intros Hr Hc. by apply deliver_all; [apply reachable_inv| |]. Qed.

End writer.

(** Two messages sent before the switch connects. *)
Definition two_sent : OFConnect (Conn := nat) (Msg := string) :=
  SetConnection 7%nat (set_pq WaitConn (Send "b" (Send "a" NewOFConnect))).

Lemma two_sent_reachable : reachable two_sent.
Proof.
  eapply reach_step; [|apply step_SetConnection].
  eapply reach_step; [|apply (step_ProcessQueue true (Send "b" (Send "a" NewOFConnect))); reflexivity].
  eapply reach_step; [|apply step_Send; discriminate].
  eapply reach_step; [apply reach_init|apply step_Send; discriminate].
Qed.

Lemma ProcessQueue_fifo_witness : h_sent two_sent = (snd <$> h_wire two_sent) ++ queue two_sent.
Proof. apply (ProcessQueue_fifo two_sent two_sent_reachable). Defined.

Lemma ProcessQueue_drains_witness :
  exists n, (n <= 6)%nat /\ queue (run_queue n two_sent) = [] /\
    h_wire (run_queue n two_sent) = [(7%nat, "a"); (7%nat, "b")].
Proof. exact (ProcessQueue_drains two_sent 7%nat two_sent_reachable eq_refl). Defined.

(** ** The reading side *)

Section reader.
Variable parse_body : Z -> packet_bytes -> result unit.

(** Read of a connection that delivers the bytes of [chunks]: part of the
    first chunk, at most [n] bytes; no chunk left is an error (the end of the
    stream).  TCP never delivers an empty chunk. *)
Definition conn_Read (n : nat) (chunks : list packet_bytes) : option (packet_bytes * list packet_bytes) :=
  match chunks with
  | [] => None
  | ch :: rest =>
      if (length ch <=? n)%nat then Some (ch, rest) else Some (take n ch, drop n ch :: rest)
  end.

Definition bufio_size : nat := 4096.

(** [reader.Peek(8)]: fill until 8 bytes are buffered.  Every read brings at
    least one byte, so 8 reads are enough. *)
Fixpoint peek8 (fuel : nat) (buffered : packet_bytes) (chunks : list packet_bytes)
  : option (packet_bytes * list packet_bytes) :=
  if (8 <=? length buffered)%nat then Some (buffered, chunks) else
  match fuel with
  | O => None
  | S fuel' =>
      match conn_Read (bufio_size - length buffered) chunks with
      | None => None
      | Some (b, chunks') => peek8 fuel' (buffered ++ b) chunks'
      end
  end.

(** [reader.Read(buf)] into a fresh buffer of [n] bytes, when something is
    buffered: what is there, and zeros. *)
Definition read_buf (n : nat) (buffered : packet_bytes) : packet_bytes :=
  take n buffered ++ replicate (n - length buffered) 0%Z.

(** What the goroutine changes: the counter of message numbers, which parsing
    advances, and the messages it passed to [receiveCh]. *)
Record reader_state := { rd_xid : Z; rd_out : list OFMessage }.

Definition rd_parse (buf : packet_bytes) : M reader_state OFMessage :=
  zoom rd_xid (fun x s => {| rd_xid := x; rd_out := rd_out s |}) (ParseMessage parse_body buf).

Definition rd_pass (msg : OFMessage) : M reader_state unit :=
  modify (fun s => {| rd_xid := rd_xid s; rd_out := rd_out s ++ [msg] |}).

(** One iteration of [handleConn]: the rest of the stream, or [None] at its
    end.  The reader, with what it buffered, is dropped. *)
Definition handle_iteration (chunks : list packet_bytes) : M reader_state (option (list packet_bytes)) :=
  match peek8 8 [] chunks with
  | None => mret None
  | Some (buffered, rest) =>
      msgLen ← lift (MessageLength (take 8 buffered));
      let buf := read_buf (Z.to_nat msgLen) buffered in
      msg ← rd_parse buf;
      _ ← rd_pass msg;
      mret (Some rest)
  end.

(** [handleConn]: [true] when it returned, [false] when the fuel does not
    suffice.  An iteration consumes at least 8 bytes, so any fuel above the
    number of bytes suffices ([handleConn_total]). *)
Fixpoint handleConn (fuel : nat) (chunks : list packet_bytes) : M reader_state bool :=
  match fuel with
  | O => mret false
  | S fuel' =>
      next ← handle_iteration chunks;
      match next with
      | None => mret true
      | Some rest => handleConn fuel' rest
      end
  end.

Definition stream_len (chunks : list packet_bytes) : nat := length (concat chunks).

Lemma conn_Read_len n chunks b rest :
  conn_Read n chunks = Some (b, rest) -> stream_len chunks = (length b + stream_len rest)%nat.
Proof.
  unfold stream_len. destruct chunks as [|ch cs]; [done|]. cbn [conn_Read concat].
  destruct (length ch <=? n)%nat; intros [= <- <-]; cbn [concat]; rewrite !length_app, ?length_take, ?length_drop; lia.
Qed.

Lemma peek8_len fuel : forall buffered chunks b rest,
  peek8 fuel buffered chunks = Some (b, rest) ->
  (8 <= length b)%nat /\ (length buffered + stream_len chunks = length b + stream_len rest)%nat.
Proof.
  induction fuel as [|fuel IH]; intros buffered chunks b rest; cbn [peek8];
    destruct (Nat.leb_spec 8 (length buffered)); try (by intros [= <- <-]).
  destruct (conn_Read _ chunks) as [[b' chunks']|] eqn:Hr; [|done].
  apply conn_Read_len in Hr. intros Hp. apply IH in Hp as [? Hl].
  rewrite length_app in Hl. split; [done|lia].
Qed.

Lemma handle_iteration_len chunks rest s s' :
  handle_iteration chunks s = (Ok (Some rest), s') -> (stream_len rest + 8 <= stream_len chunks)%nat.
Proof.
  unfold handle_iteration. destruct (peek8 8 [] chunks) as [[b r]|] eqn:Hp; [|done].
  apply peek8_len in Hp as [H8 Hl]. cbn in Hl. unfold mbind, M_bind, lift.
  destruct (MessageLength _); [|done..]. destruct (rd_parse _ _) as [[msg| |] s1]; [|done..].
  cbn. intros [= <- _]. lia.
Qed.

(** handleConn always ends on a finite stream. *)
Lemma handleConn_total fuel : forall chunks s,
  (stream_len chunks < fuel)%nat -> (handleConn fuel chunks s).1 <> Ok false.
Proof.
  induction fuel as [|fuel IH]; intros chunks s Hf; [lia|]. cbn [handleConn]. unfold mbind, M_bind.
  destruct (handle_iteration chunks s) as [[[rest|]| |] s'] eqn:Hi; try done.
  apply handle_iteration_len in Hi. apply IH. lia.
Qed.

(** A whole message: its length field is its length. *)
Definition whole (m : packet_bytes) (msg : OFMessage) : Prop :=
  (8 <= length m <= bufio_size)%nat /\ MessageLength m = Ok (Z.of_nat (length m)) /\
  decoded parse_body m = Ok msg.

Lemma MessageLength_take m rest : (8 <= length m)%nat ->
  MessageLength (take 8 (m ++ rest)) = MessageLength m.
Proof.
  intros Hl. unfold MessageLength, get_be. rewrite length_take, length_app.
  rewrite !(proj2 (Nat.leb_le _ _)) by lia. do 2 f_equal.
  do 8 (destruct m as [|? m]; [cbn in Hl; lia|]). done.
Qed.

Lemma peek8_one ch rest : (8 <= length ch <= bufio_size)%nat -> peek8 8 [] (ch :: rest) = Some (ch, rest).
Proof.
  intros Hl. change (peek8 8 [] (ch :: rest)) with
    (match conn_Read bufio_size (ch :: rest) with
     | None => None | Some (b, chunks') => peek8 7 ([] ++ b) chunks' end).
  cbn [conn_Read]. rewrite (proj2 (Nat.leb_le _ _)) by lia. cbn [app].
  destruct ch as [|? ch]; [cbn in Hl; lia|]. cbn [peek8].
  by rewrite (proj2 (Nat.leb_le 8 _)) by lia.
Qed.

(** The state after passing on a message read from [m]. *)
Definition passed (m : packet_bytes) (msg : OFMessage) (s : reader_state) : reader_state :=
  {| rd_xid := if parse_takes m then next_xid (rd_xid s) else rd_xid s; rd_out := rd_out s ++ [msg] |}.

(** One chunk that begins with a whole message gives that message, whatever
    follows it in the chunk. *)
Lemma iteration_whole m msg extra rest s :
  whole m msg -> (length (m ++ extra) <= bufio_size)%nat ->
  handle_iteration ((m ++ extra) :: rest) s = (Ok (Some rest), passed m msg s).
Proof.
  intros ([H8 Hmax] & Hlen & Hp) Hfit. unfold handle_iteration.
  rewrite peek8_one by (rewrite length_app in *; lia).
  rewrite MessageLength_take, Hlen by done. unfold mbind, M_bind, lift.
  unfold read_buf. rewrite Nat2Z.id, take_app_length, length_app.
  replace (length m - (length m + length extra))%nat with 0%nat by lia.
  cbn [replicate]. rewrite app_nil_r. unfold rd_parse, zoom, ParseMessage. by rewrite Parse_run, Hp.
Qed.

Lemma iteration_one m msg rest s :
  whole m msg -> handle_iteration (m :: rest) s = (Ok (Some rest), passed m msg s).
Proof.
  intros Hm. pose proof (iteration_whole m msg [] rest s Hm) as Hi. rewrite app_nil_r in Hi.
  apply Hi, Hm.
Qed.

(** When every read of the connection delivers exactly one message (of
    at most 4096 bytes), handleConn passes on exactly the messages sent, in
    order, and returns at the end of the stream. *)
Theorem handleConn_one_per_chunk ms msgs s :
  Forall2 whole ms msgs ->
  exists x, handleConn (S (length ms)) ms s = (Ok true, {| rd_xid := x; rd_out := rd_out s ++ msgs |}).
Proof.
  intros Hall. revert s. induction Hall as [|m msg ms msgs Hm Hms IH]; intros s.
  { exists (rd_xid s). rewrite app_nil_r. by destruct s. }
  cbn [length]. revert IH. generalize (S (length ms)) as fuel. intros fuel IH. cbn [handleConn].
  unfold mbind, M_bind. rewrite (iteration_one m msg ms s Hm).
  destruct (IH (passed m msg s)) as [x Hx]. exists x. rewrite Hx. cbn. by rewrite <- app_assoc.
Qed.

(** What one read delivers beyond its first message is lost: a chunk of
    several messages is received like a chunk of the first one alone, because
    each iteration starts a new buffered reader and drops the old one. *)
Theorem coalesced_messages_lost m msg extra rest fuel s :
  whole m msg -> (length (m ++ extra) <= bufio_size)%nat ->
  handleConn fuel ((m ++ extra) :: rest) s = handleConn fuel (m :: rest) s.
Proof.
  intros Hm Hfit. destruct fuel as [|fuel]; [done|]. cbn [handleConn]. unfold mbind, M_bind.
  by rewrite (iteration_whole m msg extra rest s Hm Hfit), (iteration_one m msg rest s Hm).
Qed.
End reader.

Definition hello_bytes : packet_bytes := [4; 0; 0; 8; 0; 0; 0; 1]%Z.
Definition echo_bytes : packet_bytes := [4; 2; 0; 8; 0; 0; 0; 2]%Z.
Definition hello_msg : OFMessage := MsgHello {| Version := 4; Type_ := 0; Length := 8; Xid := 1 |}.
Definition echo_msg : OFMessage := MsgHeader {| Version := 4; Type_ := 2; Length := 8; Xid := 2 |}.

Lemma hello_whole : whole no_bodies hello_bytes hello_msg.
Proof. split; [unfold bufio_size; cbn; lia|done]. Qed.
Lemma echo_whole : whole no_bodies echo_bytes echo_msg.
Proof. split; [unfold bufio_size; cbn; lia|done]. Qed.

Definition quiet : reader_state := {| rd_xid := 0; rd_out := [] |}.

Lemma handleConn_one_per_chunk_witness :
  exists x, handleConn no_bodies 3 [hello_bytes; echo_bytes] quiet =
    (Ok true, {| rd_xid := x; rd_out := [hello_msg; echo_msg] |}).
Proof.
  apply (handleConn_one_per_chunk no_bodies [hello_bytes; echo_bytes] [hello_msg; echo_msg] quiet).
  apply Forall2_cons_2; [exact hello_whole|].
  apply Forall2_cons_2; [exact echo_whole|]. apply Forall2_nil_2.
Defined.

(** The echo request that follows the hello in one segment is never seen. *)
Lemma coalesced_messages_lost_witness :
  handleConn no_bodies 3 [hello_bytes ++ echo_bytes] quiet = (Ok true, {| rd_xid := 0; rd_out := [hello_msg] |}).
Proof.
  rewrite (coalesced_messages_lost no_bodies hello_bytes hello_msg echo_bytes []).
  - reflexivity.
  - exact hello_whole.
  - unfold bufio_size. cbn. lia.
Defined.
