(* ===== verification/Session.v ===== *)
(** * The session with the switch

    The goroutines of the connection manager and the loop of the controller
    together: [Serve] accepts connections and starts a [handleConn] for each,
    the handlers offer what they read on the unbuffered [receiveCh], the loop
    of [Run] takes one message at a time by [Receive] and queues its answers
    with [Send], and [ProcessQueue] writes the queue to the connection accepted
    last.  A run is a sequence of their steps in any order. *)
From S2P Require Import Prelude GoStrings GoNet Controller OpenFlow13 Connection.

Section session.
Variable parse_body : Z -> packet_bytes -> result unit.

(** ** The goroutines *)

(** The [handleConn] of a connection: the chunks the connection delivers in
    all and those still to come, the message it waits to hand over, and whether
    it still runs.  The number of a connection is its place in the order of
    acceptance. *)
Record handler := {
  hd_all : list packet_bytes; hd_rest : list packet_bytes; hd_offer : option OFMessage; hd_open : bool
}.

(** Where the loop of [Run] stands. *)
Inductive run_pos :=
| AtReceive
| Handling (msg : OFMessage)
| Sending (m : OFMessage).

(** The state, and two histories: the accesses to [xid] in order, and what was
    received from which connection. *)
Record session := {
  ss_writer : OFConnect (Conn := nat) (Msg := OFMessage);
  ss_handlers : list handler;
  ss_run : run_state;
  ss_pos : run_pos;
  h_events : list event;
  h_received : list (nat * OFMessage)
}.

(** [main] sends the hello before it starts the goroutines. *)
Definition start (c : controller) (x : Z) : session :=
  let r := snd (Initialize {| rs_controller := c; rs_xid := x; rs_queue := [] |}) in
  {| ss_writer := foldl (fun w m => Connection.Send m w) NewOFConnect (rs_queue r);
     ss_handlers := []; ss_run := r; ss_pos := AtReceive; h_events := [EvInitialize]; h_received := [] |}.

(** [Serve]: an accepted connection becomes the one written to, and gets a
    handler. *)
Definition Serve (chunks : list packet_bytes) (s : session) : session :=
  {| ss_writer := SetConnection (length (ss_handlers s)) (ss_writer s);
     ss_handlers := ss_handlers s ++ [{| hd_all := chunks; hd_rest := chunks; hd_offer := None; hd_open := true |}];
     ss_run := ss_run s; ss_pos := ss_pos s; h_events := h_events s; h_received := h_received s |}.

(** The bytes an iteration of [handleConn] parses. *)
Definition next_buf (chunks : list packet_bytes) : packet_bytes :=
  match peek8 8 [] chunks with
  | Some (buffered, _) =>
      match MessageLength (take 8 buffered) with
      | Ok n => read_buf (Z.to_nat n) buffered
      | _ => []
      end
  | None => []
  end.

Definition set_xid (x : Z) (r : run_state) : run_state :=
  {| rs_controller := rs_controller r; rs_xid := x; rs_queue := rs_queue r |}.

(** An iteration of the [i]-th handler up to its send on [receiveCh].  There is
    no next state after a panic: it ends the program. *)
Definition Read (i : nat) (s : session) : option session :=
  h ← ss_handlers s !! i;
  if hd_open h && bool_decide (hd_offer h = None) then
    match handle_iteration parse_body (hd_rest h) {| rd_xid := rs_xid (ss_run s); rd_out := [] |} with
    | (Ok (Some rest), r) =>
        Some {| ss_writer := ss_writer s;
                ss_handlers := <[i := {| hd_all := hd_all h; hd_rest := rest; hd_offer := head (rd_out r); hd_open := true |}]>
                                 (ss_handlers s);
                ss_run := set_xid (rd_xid r) (ss_run s); ss_pos := ss_pos s;
                h_events := h_events s ++ [EvParse (next_buf (hd_rest h))]; h_received := h_received s |}
    | (Ok None, _) =>
        Some {| ss_writer := ss_writer s;
                ss_handlers := <[i := {| hd_all := hd_all h; hd_rest := hd_rest h; hd_offer := None; hd_open := false |}]>
                                 (ss_handlers s);
                ss_run := ss_run s; ss_pos := ss_pos s; h_events := h_events s; h_received := h_received s |}
    | _ => None
    end
  else None.

(** [Receive]: the loop takes the message that the [i]-th handler offers. *)
Definition Receive (i : nat) (s : session) : option session :=
  h ← ss_handlers s !! i;
  match ss_pos s, hd_offer h with
  | AtReceive, Some msg =>
      Some {| ss_writer := ss_writer s;
              ss_handlers := <[i := {| hd_all := hd_all h; hd_rest := hd_rest h; hd_offer := None; hd_open := hd_open h |}]>
                               (ss_handlers s);
              ss_run := ss_run s; ss_pos := Handling msg; h_events := h_events s;
              h_received := h_received s ++ [(i, msg)] |}
  | _, _ => None
  end.

(** The body of the loop up to its [Send], if it makes one. *)
Definition Handle (s : session) : option session :=
  match ss_pos s with
  | Handling msg =>
      match handle_message msg (ss_run s) with
      | (Ok _, r) =>
          Some {| ss_writer := ss_writer s; ss_handlers := ss_handlers s; ss_run := r;
                  ss_pos := match drop (length (rs_queue (ss_run s))) (rs_queue r) with
                            | m :: _ => Sending m | [] => AtReceive end;
                  h_events := h_events s ++ [EvReceive msg]; h_received := h_received s |}
      | _ => None
      end
  | _ => None
  end.

(** [connManager.Send]: it waits for the mutex of the queue. *)
Definition Queue_answer (s : session) : option session :=
  match ss_pos s, pq (ss_writer s) with
  | Sending _, Holding => None
  | Sending m, _ =>
      Some {| ss_writer := Connection.Send m (ss_writer s); ss_handlers := ss_handlers s; ss_run := ss_run s;
              ss_pos := AtReceive; h_events := h_events s; h_received := h_received s |}
  | _, _ => None
  end.

Definition Write (ok : bool) (s : session) : option session :=
  w ← ProcessQueue_step ok (ss_writer s);
  Some {| ss_writer := w; ss_handlers := ss_handlers s; ss_run := ss_run s; ss_pos := ss_pos s;
          h_events := h_events s; h_received := h_received s |}.

(** ** Runs *)

Inductive act :=
| Accepts (chunks : list packet_bytes) | Reads (i : nat) | Receives (i : nat) | Handles | Queues | Writes (ok : bool).

Definition perform (a : act) (s : session) : option session :=
  match a with
  | Accepts chunks => Some (Serve chunks s)
  | Reads i => Read i s
  | Receives i => Receive i s
  | Handles => Handle s
  | Queues => Queue_answer s
  | Writes ok => Write ok s
  end.

Fixpoint session_run (acts : list act) (s : session) : option session :=
  match acts with
  | [] => Some s
  | a :: acts' => s' ← perform a s; session_run acts' s'
  end.

(** The messages [handleConn] reads from a connection. *)
Definition messages (chunks : list packet_bytes) : list OFMessage :=
  rd_out (handleConn parse_body (S (stream_len chunks)) chunks {| rd_xid := 0; rd_out := [] |}).2.

Definition sending (s : session) : list OFMessage := match ss_pos s with Sending m => [m] | _ => [] end.
Definition handling (s : session) : list OFMessage := match ss_pos s with Handling m => [m] | _ => [] end.
Definition received_in (evs : list event) : list OFMessage :=
  omap (fun e => match e with EvReceive m => Some m | _ => None end) evs.
Definition received_from (i : nat) (s : session) : list OFMessage :=
  (filter (fun x => fst x = i) (h_received s)).*2.

(** ** Reading *)

(** What an iteration does, whatever the counter and the messages before. *)
Inductive outcome (chunks : list packet_bytes) : Prop :=
| o_ended : (forall r, handle_iteration parse_body chunks r = (Ok None, r)) -> outcome chunks
| o_got msg rest :
    (stream_len rest < stream_len chunks)%nat -> decoded parse_body (next_buf chunks) = Ok msg ->
    (forall r, handle_iteration parse_body chunks r = (Ok (Some rest), passed (next_buf chunks) msg r)) -> outcome chunks
| o_died :
    (forall r, exists e r', handle_iteration parse_body chunks r = (e, r') /\ is_ok e = false /\ rd_out r' = rd_out r) ->
    outcome chunks.

Lemma iteration_outcome chunks : outcome chunks.
Proof.
  destruct (peek8 8 [] chunks) as [[b rest]|] eqn:Hp.
  2:{ apply o_ended. intros r. unfold handle_iteration. by rewrite Hp. }
  destruct (MessageLength (take 8 b)) as [n|e|] eqn:Hn.
  2,3: apply o_died; intros r; unfold handle_iteration; rewrite Hp; unfold mbind, M_bind, lift; rewrite Hn; by eexists _, r.
  assert (Hbuf : next_buf chunks = read_buf (Z.to_nat n) b) by (unfold next_buf; by rewrite Hp, Hn).
  destruct (decoded parse_body (next_buf chunks)) as [msg|e|] eqn:Hd.
  - apply (o_got chunks msg rest).
    + apply peek8_len in Hp as [H8 Hl]. cbn in Hl. lia.
    + done.
    + intros r. unfold handle_iteration. rewrite Hp. unfold mbind, M_bind, lift. rewrite Hn, <- Hbuf.
      unfold rd_parse, zoom, ParseMessage. by rewrite Parse_run, Hd.
  - apply o_died. intros r. unfold handle_iteration. rewrite Hp. unfold mbind, M_bind, lift. rewrite Hn, <- Hbuf.
    unfold rd_parse, zoom, ParseMessage. rewrite Parse_run, Hd. by eexists _, _.
  - apply o_died. intros r. unfold handle_iteration. rewrite Hp. unfold mbind, M_bind, lift. rewrite Hn, <- Hbuf.
    unfold rd_parse, zoom, ParseMessage. rewrite Parse_run, Hd. by eexists _, _.
Qed.

(** What a connection's handler reads depends neither on the fuel, if it
    suffices, nor on the state. *)
Lemma handleConn_messages fuel1 : forall fuel2 chunks r1 r2,
  (stream_len chunks < fuel1)%nat -> (stream_len chunks < fuel2)%nat ->
  exists ms, rd_out (handleConn parse_body fuel1 chunks r1).2 = rd_out r1 ++ ms /\
    rd_out (handleConn parse_body fuel2 chunks r2).2 = rd_out r2 ++ ms.
Proof.
  induction fuel1 as [|fuel1 IH]; intros [|fuel2] chunks r1 r2 H1 H2; [lia..|].
  cbn [handleConn]. unfold mbind, M_bind. destruct (iteration_outcome chunks) as [He|msg rest Hl Hd Hg|Hx].
  - exists []. by rewrite !He, !app_nil_r.
  - rewrite !Hg. destruct (IH fuel2 rest (passed (next_buf chunks) msg r1) (passed (next_buf chunks) msg r2)) as (ms & E1 & E2);
      [lia..|]. exists (msg :: ms). rewrite E1, E2. cbn. by rewrite <- !app_assoc.
  - destruct (Hx r1) as (e1 & r1' & E1 & Ho1 & Hr1), (Hx r2) as (e2 & r2' & E2 & Ho2 & Hr2). exists [].
    rewrite E1, E2, !app_nil_r. by destruct e1, e2.
Qed.

(** The messages of a stream: that of the first iteration, and those of the rest. *)
Lemma messages_none chunks :
  (forall msg rest r, handle_iteration parse_body chunks r <> (Ok (Some rest), passed (next_buf chunks) msg r)) ->
  messages chunks = [].
Proof.
  intros Hno. unfold messages. cbn [handleConn]. unfold mbind, M_bind.
  destruct (iteration_outcome chunks) as [He|msg rest _ _ Hg|Hx].
  - by rewrite He.
  - by destruct (Hno msg rest {| rd_xid := 0; rd_out := [] |}).
  - destruct (Hx {| rd_xid := 0; rd_out := [] |}) as (e & r' & E & Ho & Hr). rewrite E. by destruct e.
Qed.

Lemma messages_cons chunks msg rest :
  (stream_len rest < stream_len chunks)%nat ->
  (forall r, handle_iteration parse_body chunks r = (Ok (Some rest), passed (next_buf chunks) msg r)) ->
  messages chunks = msg :: messages rest.
Proof.
  intros Hl Hg. unfold messages at 1. cbn [handleConn]. unfold mbind, M_bind. rewrite Hg.
  destruct (handleConn_messages (stream_len chunks) (S (stream_len rest)) rest
    (passed (next_buf chunks) msg {| rd_xid := 0; rd_out := [] |}) {| rd_xid := 0; rd_out := [] |}) as (ms & E1 & E2); [lia..|].
  rewrite E1. unfold messages. by rewrite E2.
Qed.

(** ** The invariant *)

Record session_inv (c : controller) (x : Z) (s : session) : Prop := {
  si_run : Run parse_body (h_events s) {| rs_controller := c; rs_xid := x; rs_queue := [] |} = (Ok tt, ss_run s);
  si_ok : Forall (event_ok parse_body) (h_events s);
  si_sent : h_sent (ss_writer s) ++ sending s = rs_queue (ss_run s);
  si_writer : reachable (ss_writer s);
  si_conn i : conn (ss_writer s) = Some i -> (S i = length (ss_handlers s))%nat;
  si_wire : Forall (fun i => (i < length (ss_handlers s))%nat) (fst <$> h_wire (ss_writer s));
  si_sorted : StronglySorted le (fst <$> h_wire (ss_writer s));
  si_received : received_in (h_events s) ++ handling s = (h_received s).*2;
  si_known : Forall (fun x => (fst x < length (ss_handlers s))%nat) (h_received s);
  si_handler i h : ss_handlers s !! i = Some h ->
    messages (hd_all h) = received_from i s ++ option_list (hd_offer h) ++ (if hd_open h then messages (hd_rest h) else [])
}.

Lemma Run_app evs evs' r : Forall (event_ok parse_body) evs ->
  Run parse_body (evs ++ evs') r = Run parse_body evs' (Run parse_body evs r).2.
Proof.
  intros Hok. revert r. induction Hok as [|e evs He Hevs IH]; intros r; [done|].
  unfold Run in *. cbn [app for_range]. unfold mbind, M_bind. rewrite run_event_run by done. by rewrite IH.
Qed.

(** One more event. *)
Lemma si_event c x s e r :
  session_inv c x s -> event_ok parse_body e -> run_event parse_body e (ss_run s) = (Ok tt, r) ->
  Run parse_body (h_events s ++ [e]) {| rs_controller := c; rs_xid := x; rs_queue := [] |} = (Ok tt, r) /\
  Forall (event_ok parse_body) (h_events s ++ [e]).
Proof.
  intros Hi He Hr. split; [|apply Forall_app; split; [apply (si_ok c x s Hi)|by constructor]].
  rewrite Run_app by apply (si_ok c x s Hi). rewrite (si_run c x s Hi). unfold Run. cbn [for_range snd].
  unfold mbind, M_bind. by rewrite Hr.
Qed.

Lemma start_inv c x : session_inv c x (start c x).
Proof.
  split; cbn; try done.
  - by constructor.
  - apply (reach_step NewOFConnect); [apply reach_init|]. by apply step_Send.
  - constructor.
Qed.

Lemma Serve_inv c x chunks s : session_inv c x s -> session_inv c x (Serve chunks s).
Proof.
  intros Hi. split; cbn [Serve ss_writer ss_handlers ss_run h_events h_received]; rewrite ?length_app; try apply Hi.
  - eapply reach_step; [apply Hi|]. apply step_SetConnection.
  - intros i. cbn. intros [= <-]. lia.
  - eapply Forall_impl; [apply (si_wire c x s Hi)|]. cbn. lia.
  - eapply Forall_impl; [apply (si_known c x s Hi)|]. cbn. lia.
  - intros i h Hh. apply lookup_app_Some in Hh as [Hh|[Hlen Hh]]; [by apply (si_handler c x s Hi)|].
    apply list_lookup_singleton_Some in Hh as [Hz <-].
    assert (Hnone : received_from i (Serve chunks s) = []).
    { unfold received_from. cbn [Serve h_received]. pose proof (si_known c x s Hi) as Hk.
      induction Hk as [|y l Hy _ IH]; [done|]. rewrite filter_cons_False; [done|]. cbn in Hy. lia. }
    cbn [hd_all hd_rest hd_offer hd_open]. by rewrite Hnone.
Qed.

Lemma insert_handler (hs : list handler) i h j h' :
  <[i := h]> hs !! j = Some h' -> j = i /\ h' = h \/ j <> i /\ hs !! j = Some h'.
Proof.
  intros Hl. destruct (decide (j = i)) as [->|Hne]; [|right; by rewrite list_lookup_insert_ne in Hl].
  left. pose proof (lookup_lt_Some _ _ _ Hl) as Hlt. rewrite length_insert in Hlt.
  rewrite list_lookup_insert_eq in Hl by done. by injection Hl.
Qed.

Lemma Read_inv c x i s s' : session_inv c x s -> Read i s = Some s' -> session_inv c x s'.
Proof.
  intros Hi Hr. unfold Read, mbind, option_bind in Hr. destruct (ss_handlers s !! i) as [h|] eqn:Hh; [|done].
  pose proof (si_handler c x s Hi i h Hh) as Hm.
  destruct (hd_open h) eqn:Hopen; [|done]. case_bool_decide as Hoff; [|done]. cbn [andb] in Hr.
  rewrite Hoff in Hm. cbn [option_list app] in Hm.
  destruct (iteration_outcome (hd_rest h)) as [He|msg rest Hl Hd Hg|Hx].
  - rewrite He in Hr. injection Hr as <-. split; cbn; rewrite ?length_insert; try apply Hi.
    intros j h' Hj. apply insert_handler in Hj as [[-> ->]|[_ Hj]]; [|by apply (si_handler c x s Hi)]. cbn.
    rewrite Hm. f_equal. apply messages_none. intros msg rest r. by rewrite He.
  - rewrite Hg in Hr. injection Hr as <-.
    assert (Hok : event_ok parse_body (EvParse (next_buf (hd_rest h)))) by by exists msg.
    assert (Hev : run_event parse_body (EvParse (next_buf (hd_rest h))) (ss_run s) =
      (Ok tt, set_xid (rd_xid (passed (next_buf (hd_rest h)) msg {| rd_xid := rs_xid (ss_run s); rd_out := [] |})) (ss_run s))).
    { rewrite run_event_run by done. cbn. by rewrite app_nil_r. }
    destruct (si_event c x s _ _ Hi Hok Hev) as [H1 H2].
    split; cbn [ss_writer ss_handlers ss_run ss_pos h_events h_received]; rewrite ?length_insert; try apply Hi; try done.
    + unfold received_in. rewrite omap_app. cbn. rewrite app_nil_r. apply (si_received c x s Hi).
    + intros j h' Hj. apply insert_handler in Hj as [[-> ->]|[_ Hj]]; [|by apply (si_handler c x s Hi)].
      cbn [hd_all hd_rest hd_offer hd_open]. rewrite Hm, (messages_cons _ msg rest Hl Hg). done.
  - destruct (Hx {| rd_xid := rs_xid (ss_run s); rd_out := [] |}) as (e & r' & E & Ho & _). rewrite E in Hr. by destruct e.
Qed.

Lemma Receive_inv c x i s s' : session_inv c x s -> Receive i s = Some s' -> session_inv c x s'.
Proof.
  intros Hi Hr. unfold Receive, mbind, option_bind in Hr. destruct (ss_handlers s !! i) as [h|] eqn:Hh; [|done].
  destruct (ss_pos s) eqn:Hpos; try done. destruct (hd_offer h) as [msg|] eqn:Hoff; [|done]. injection Hr as <-.
  assert (Hrec : forall j, (filter (fun y : nat * OFMessage => fst y = j) (h_received s ++ [(i, msg)])).*2 =
    received_from j s ++ (if bool_decide (i = j) then [msg] else [])).
  { intros j. rewrite filter_app, fmap_app. f_equal. case_bool_decide; [by rewrite filter_cons_True|by rewrite filter_cons_False]. }
  split; cbn [ss_writer ss_handlers ss_run ss_pos h_events h_received]; rewrite ?length_insert; try apply Hi.
  - pose proof (si_sent c x s Hi) as H. unfold sending in *. by rewrite Hpos in H.
  - pose proof (si_received c x s Hi) as H. unfold handling in *. rewrite Hpos, app_nil_r in H.
    rewrite fmap_app, <- H. done.
  - apply Forall_app. split; [apply (si_known c x s Hi)|]. constructor; [|constructor]. by apply (lookup_lt_Some _ _ _ Hh).
  - intros j h' Hj. unfold received_from at 1. cbn [h_received]. rewrite Hrec. apply insert_handler in Hj as [[-> ->]|[Hne Hj]].
    + rewrite bool_decide_eq_true_2 by done. cbn [hd_all hd_rest hd_offer hd_open].
      rewrite (si_handler c x s Hi i h Hh), Hoff, <- app_assoc. done.
    + rewrite bool_decide_eq_false_2, app_nil_r by done. by apply (si_handler c x s Hi).
Qed.

Lemma Handle_inv c x s s' : session_inv c x s -> Handle s = Some s' -> session_inv c x s'.
Proof.
  intros Hi Hr. unfold Handle in Hr. destruct (ss_pos s) as [|msg|] eqn:Hpos; try done.
  assert (Hok : event_ok parse_body (EvReceive msg)) by done.
  pose proof (run_event_run parse_body (EvReceive msg) (ss_run s) Hok) as Hev. cbn [run_event] in Hev.
  rewrite Hev in Hr. destruct (si_event c x s _ _ Hi Hok Hev) as [H1 H2].
  cbn [rs_queue] in Hr. rewrite drop_app_length in Hr. injection Hr as <-.
  split; cbn [ss_writer ss_handlers ss_run ss_pos h_events h_received]; try apply Hi; try done.
  - pose proof (si_sent c x s Hi) as H. unfold sending in *. rewrite Hpos, app_nil_r in H. cbn [rs_queue]. rewrite H.
    f_equal. cbn [ss_pos]. match goal with |- context [option_list ?o] => by destruct o end.
  - pose proof (si_received c x s Hi) as H. unfold handling in *. rewrite Hpos in H. rewrite <- H.
    unfold received_in. rewrite omap_app. cbn. match goal with |- context [option_list ?o] => by destruct o; rewrite app_nil_r end.
Qed.

Lemma Queue_inv c x s s' : session_inv c x s -> Queue_answer s = Some s' -> session_inv c x s'.
Proof.
  intros Hi Hr. unfold Queue_answer in Hr. destruct (ss_pos s) as [|msg|m] eqn:Hpos; [done..|].
  assert (Hpq : pq (ss_writer s) <> Holding) by (intros E; by rewrite E in Hr).
  assert (s' = {| ss_writer := Connection.Send m (ss_writer s); ss_handlers := ss_handlers s; ss_run := ss_run s;
    ss_pos := AtReceive; h_events := h_events s; h_received := h_received s |}) as -> by (destruct (pq (ss_writer s)); congruence).
  split; cbn [ss_writer ss_handlers ss_run ss_pos h_events h_received]; try apply Hi.
  - pose proof (si_sent c x s Hi) as H. unfold sending in *. rewrite Hpos in H. cbn. by rewrite app_nil_r.
  - eapply reach_step; [apply Hi|]. by apply step_Send.
  - pose proof (si_received c x s Hi) as H. unfold handling in *. by rewrite Hpos in H.
Qed.

(** What a section of [ProcessQueue] does to the histories and the connection. *)
Lemma ProcessQueue_wire (w w' : OFConnect (Conn := nat) (Msg := OFMessage)) ok :
  ProcessQueue_step ok w = Some w' -> h_sent w' = h_sent w /\ conn w' = conn w /\
  (h_wire w' = h_wire w \/ exists i m, conn w = Some i /\ h_wire w' = h_wire w ++ [(i, m)]).
Proof.
  intros Hs. unfold ProcessQueue_step in Hs. destruct (pq w); try done; injection Hs as <-; try (split; [done|]; split; [done|]; by left).
  unfold write_head, WriteConnection. destruct (queue w) as [|m rest]; [split; [done|]; split; [done|]; by left|].
  destruct (conn w) as [i|] eqn:Hc; [|split; [done|]; split; [done|]; by left].
  destruct ok; [|split; [done|]; split; [done|]; by left]. split; [done|]. split; [done|]. right. by exists i, m.
Qed.

Lemma Write_inv c x ok s s' : session_inv c x s -> Write ok s = Some s' -> session_inv c x s'.
Proof.
  intros Hi Hr. unfold Write, mbind, option_bind in Hr.
  destruct (ProcessQueue_step ok (ss_writer s)) as [w|] eqn:Hw; [|done]. injection Hr as <-.
  destruct (ProcessQueue_wire _ _ ok Hw) as (Hsent & Hconn & Hwire).
  split; cbn [ss_writer ss_handlers ss_run ss_pos h_events h_received]; try apply Hi.
  - rewrite Hsent. apply (si_sent c x s Hi).
  - eapply reach_step; [apply Hi|]. by apply (step_ProcessQueue ok).
  - rewrite Hconn. apply (si_conn c x s Hi).
  - destruct Hwire as [-> |(i & m & Hc & ->)]; [apply (si_wire c x s Hi)|]. rewrite fmap_app. apply Forall_app.
    split; [apply (si_wire c x s Hi)|]. constructor; [|constructor]. cbn. pose proof (si_conn c x s Hi i Hc). lia.
  - destruct Hwire as [-> |(i & m & Hc & ->)]; [apply (si_sorted c x s Hi)|]. rewrite fmap_app.
    apply StronglySorted_app_2; [|apply (si_sorted c x s Hi)|repeat constructor].
    intros j k Hj Hk. apply list_elem_of_singleton in Hk as ->. cbn. pose proof (si_conn c x s Hi i Hc) as Hlast.
    pose proof (si_wire c x s Hi) as Hall. eapply Forall_forall in Hall; [|exact Hj]. lia.
Qed.

Lemma session_run_inv c x acts : forall s s', session_inv c x s -> session_run acts s = Some s' -> session_inv c x s'.
Proof.
  induction acts as [|a acts IH]; intros s s' Hi Hrun; [by injection Hrun as <-|].
  cbn [session_run] in Hrun. unfold mbind, option_bind in Hrun. destruct (perform a s) as [s1|] eqn:Ha; [|done].
  apply (IH s1); [|done]. destruct a; cbn [perform] in Ha.
  - injection Ha as <-. by apply Serve_inv.
  - by apply (Read_inv c x i s).
  - by apply (Receive_inv c x i s).
  - by apply (Handle_inv c x s).
  - by apply (Queue_inv c x s).
  - by apply (Write_inv c x ok s).
Qed.

(** ** Properties *)

(** C17.  The session answers what it receives, in order.  At every moment of
    every interleaving of the goroutines, what was written, what is queued and
    what is about to be queued are together the hello and the answers that the
    loop owes for the messages it handled, numbered by the accesses to the
    counter, in that order; the loop has taken from each connection a prefix of
    the messages its bytes contain for handleConn, in order, and no other; and
    the writes go to connections in the order in which these were accepted. *)
Theorem session_answers c x acts s :
  session_run acts (start c x) = Some s ->
  ((h_wire (ss_writer s)).*2 ++ queue (ss_writer s)) ++ sending s = sent x (h_events s) /\
  received_in (h_events s) ++ handling s = (h_received s).*2 /\
  (forall i h, ss_handlers s !! i = Some h -> exists rest, messages (hd_all h) = received_from i s ++ rest) /\
  (forall y, y ∈ h_received s -> is_Some (ss_handlers s !! fst y)) /\
  StronglySorted le (h_wire (ss_writer s)).*1.
Proof.
  intros Hrun. pose proof (session_run_inv c x acts _ s (start_inv c x) Hrun) as Hi.
  split; [|split; [apply (si_received c x s Hi)|split; [|split; [|apply (si_sorted c x s Hi)]]]].
  - pose proof (inv_fifo _ (reachable_inv _ (si_writer c x s Hi))) as Hf.
    pose proof (si_run c x s Hi) as Hr. rewrite Run_run in Hr by apply (si_ok c x s Hi). injection Hr as Hr.
    rewrite <- Hf, (si_sent c x s Hi), <- Hr. done.
  - intros i h Hh. eexists. apply (si_handler c x s Hi i h Hh).
  - intros y Hy. apply lookup_lt_is_Some. pose proof (si_known c x s Hi) as Hk. by eapply Forall_forall in Hk.
Qed.
End session.

(** ** An answer on another connection *)

(** The switch connects, and connects again before its echo request on the
    first connection is answered: the answer goes to the second connection. *)
Definition reconnecting : list act :=
  [Accepts [hello_bytes; echo_bytes]; Writes true; Writes true; Writes true;
   Reads 0; Receives 0; Handles; Queues; Writes true; Writes true; Writes true;
   Reads 0; Accepts []; Receives 0; Handles; Queues; Writes true; Writes true; Writes true].
Abbreviation reconnected := (session_run no_bodies reconnecting (start (rs_controller start_state) 0)).

(** Where the messages were written, which they were, and where they came from. *)
Definition traffic (s : session) : list (nat * option Z) * list nat :=
  ((fun x => (fst x, match snd x with MsgHeader h | MsgHello h => Some (Type_ h) | _ => None end)) <$> h_wire (ss_writer s),
   fst <$> h_received s).
Lemma reconnected_traffic : traffic <$> reconnected =
  Some ([(0%nat, Some OFPT_HELLO); (0%nat, Some OFPT_FEATURES_REQUEST); (1%nat, Some OFPT_ECHO_REPLY)], [0; 0]%nat).
Proof. vm_compute. reflexivity. Qed.
Lemma reconnected_runs : exists s, reconnected = Some s.
Proof.
  pose proof (fmap_is_Some traffic reconnected) as [H _]. apply H. rewrite reconnected_traffic. eexists. reflexivity.
Qed.

Lemma session_answers_witness : exists s, reconnected = Some s /\
  ((h_wire (ss_writer s)).*2 ++ queue (ss_writer s)) ++ sending s = sent 0 (h_events s) /\
  received_in (h_events s) ++ handling s = (h_received s).*2.
Proof.
  destruct reconnected_runs as [s Hrun]. exists s.
  destruct (session_answers no_bodies (rs_controller start_state) 0 reconnecting s Hrun) as (H1 & H2 & _).
  exact (conj Hrun (conj H1 H2)).
Defined.
