(* ===== verification/VSwitchCfg.v ===== *)
(** * The vswitch config controller

    [controllers/vswitchcfg/vswitchcfg.go]: one [VSwitchConfig] per node,
    created, updated and deleted on node events.

    The API server is reached through the interface [VSwitchAPI]; what a
    successful call does to the stored configs is [VSwitchLaws].  The lister
    reads the informer's copy, which may lag behind; theorems say when they
    assume it does not.  A node event handler receives a pointer: [None] is
    the nil left by a failed type assertion. *)
From S2P Require Import Prelude GoStrings Objects.

(** ** The API server *)

Class VSwitchAPI (S : Type) := {
  api_Create : VSwitchConfig -> M S VSwitchConfig;
  api_Update : VSwitchConfig -> M S VSwitchConfig;
  api_Delete : string -> M S unit
}.

(** A call that returns no error has done what it was asked, to that object
    only. *)
Class VSwitchLaws (S : Type) `{VSwitchAPI S} := {
  view : S -> gmap string VSwitchConfig;
  create_law cfg s a s' : api_Create cfg s = (Ok a, s') ->
    view s !! vsc_Name cfg = None /\ view s' = <[vsc_Name cfg := cfg]> (view s);
  update_law cfg s a s' : api_Update cfg s = (Ok a, s') ->
    is_Some (view s !! vsc_Name cfg) /\ view s' = <[vsc_Name cfg := cfg]> (view s);
  delete_law name s a s' : api_Delete name s = (Ok a, s') ->
    view s' = delete name (view s)
}.

(** ** The controller *)

(** [type vswitchConfig struct]; the clients are the world the methods run
    in, the node lister is never used. *)
Record vswitchConfig := {
  v_overlayType : string;
  v_clusterCIDR : string;
  v_serviceCIDR : string;
  v_vswitchLister : gmap string VSwitchConfig
}.

Definition NewVSwitchConfigController (lister : gmap string VSwitchConfig)
    (overlayType clusterCIDR serviceCIDR : string) : vswitchConfig :=
  {| v_overlayType := overlayType; v_clusterCIDR := clusterCIDR; v_serviceCIDR := serviceCIDR;
     v_vswitchLister := lister |}.

(** The generated lister's [Get]. *)
Definition Lister_Get (l : gmap string VSwitchConfig) (name : string) : result VSwitchConfig :=
  match l !! name with Some c => Ok c | None => Err (ErrNotFound name) end.

Definition IsNotFound {A} (r : result A) : bool :=
  match r with Err (ErrNotFound _) => true | _ => false end.

(** The loop of [nodeOverlayIP]. *)
Fixpoint node_ips (l : list NodeAddress) (internalIP externalIP : string) : string * string :=
  match l with
  | [] => (internalIP, externalIP)
  | a :: l' =>
      let internalIP := if bool_decide (na_Type a = NodeInternalIP) then na_Address a else internalIP in
      let externalIP := if bool_decide (na_Type a = NodeExternalIP) then na_Address a else externalIP in
      node_ips l' internalIP externalIP
  end.

Definition nodeOverlayIP (node : Node) : result string :=
  let '(internalIP, externalIP) := node_ips (node_Addresses node) "" "" in
  if negb (bool_decide (internalIP = "")) then Ok internalIP
  else if negb (bool_decide (externalIP = "")) then Ok externalIP
  else Err (ErrNew "no valid node IP found for tunnel overlay").

Definition nodePodCIDR (node : Node) : result string :=
  if negb (bool_decide (node_PodCIDR node = "")) then Ok (node_PodCIDR node)
  else Err (ErrNew "node did not have pod CIDR set").

Definition nodeToVSwitchConfig (node : Node) (overlayType overlayIP podCIDR clusterCIDR serviceCIDR : string)
  : VSwitchConfig :=
  {| vsc_Name := node_Name node;
     vsc_Spec := {| OverlayIP := overlayIP; OverlayType := overlayType; PodCIDR := podCIDR;
                    ClusterCIDR := clusterCIDR; ServiceCIDR := serviceCIDR |} |}.

(** A field read through a pointer. *)
Definition deref {A} (p : option A) : result A :=
  match p with Some a => Ok a | None => Panic end.

Definition strings_differ (a b : string) : bool := negb (bool_decide (a = b)).

Definition needsUpdate (v : vswitchConfig) (node : option Node) : result bool :=
  n ← deref node;
  let got := Lister_Get (v_vswitchLister v) (node_Name n) in
  if IsNotFound got then Ok true else
  vswitchCfg ← wrap_err "error getting vswitch config from lister" got;
  overlayIP ← wrap_err "failed to get overlay IP for node" (nodeOverlayIP n);
  podCIDR ← wrap_err "failed to get pod CIDR for node" (nodePodCIDR n);
  let overlayIPChanged := strings_differ (OverlayIP (vsc_Spec vswitchCfg)) overlayIP in
  let overlayTypeChanged := strings_differ (OverlayType (vsc_Spec vswitchCfg)) (v_overlayType v) in
  let podCIDRChanged := strings_differ (PodCIDR (vsc_Spec vswitchCfg)) podCIDR in
  let clusterCIDRChanged := strings_differ (ClusterCIDR (vsc_Spec vswitchCfg)) (v_clusterCIDR v) in
  Ok (overlayIPChanged || overlayTypeChanged || podCIDRChanged || clusterCIDRChanged).

Section methods.
Context {S : Type} `{API : VSwitchAPI S}.

Definition syncVSwitchConfig (v : vswitchConfig) (node : option Node) : M S unit :=
  n ← lift (deref node);
  overlayIP ← lift (wrap_err "error getting overlay IP for node" (nodeOverlayIP n));
  podCIDR ← lift (wrap_err "failed to get pod CIDR for node" (nodePodCIDR n));
  let got := Lister_Get (v_vswitchLister v) (node_Name n) in
  if IsNotFound got then
    let vswitchCfg := nodeToVSwitchConfig n (v_overlayType v) overlayIP podCIDR
                        (v_clusterCIDR v) (v_serviceCIDR v) in
    _ ← api_Create vswitchCfg; mret tt
  else
    vswitchCfg ← lift (wrap_err "error getting vswitch config from cache" got);
    let copy := VSwitchConfig_DeepCopy vswitchCfg in
    let newVSwitchCfg := {| vsc_Name := vsc_Name copy;
      vsc_Spec := {| OverlayIP := overlayIP; OverlayType := v_overlayType v; PodCIDR := podCIDR;
                     ClusterCIDR := v_clusterCIDR v; ServiceCIDR := v_serviceCIDR v |} |} in
    _ ← api_Update newVSwitchCfg; mret tt.

(** From [shouldUpdate, err := v.needsUpdate(node)] to the end, shared by the
    two handlers. *)
Definition check_and_sync (v : vswitchConfig) (node : option Node) : M S unit :=
  shouldUpdate ← try_m (lift (needsUpdate v node));
  match shouldUpdate with
  | inr _ => mret tt
  | inl false => mret tt
  | inl true => logged (syncVSwitchConfig v node)
  end.

Definition OnAdd (v : vswitchConfig) (obj : EventObj Node) : M S unit :=
  match type_assert obj with
  | None => mret tt
  | Some node => check_and_sync v (Some node)
  end.

(** No return after the failed assertion. *)
Definition OnUpdate (v : vswitchConfig) (oldObj newObj : EventObj Node) : M S unit :=
  check_and_sync v (type_assert newObj).

Definition OnDelete (v : vswitchConfig) (obj : EventObj Node) : M S unit :=
  n ← lift (deref (type_assert obj));
  logged (api_Delete (node_Name n)).
End methods.

(** ** Specification *)

(** The last address of a type, if there is one. *)
Definition last_of (t : string) (l : list NodeAddress) : option string :=
  last (na_Address <$> filter (fun a => na_Type a = t) l).

Lemma last_of_cons t a l d :
  default d (last_of t (a :: l)) =
  default (if bool_decide (na_Type a = t) then na_Address a else d) (last_of t l).
Proof.
  unfold last_of. rewrite filter_cons. case_decide as Ht.
  - rewrite bool_decide_eq_true_2 by done. cbn [fmap list_fmap]. rewrite last_cons.
    by destruct (last _).
  - by rewrite bool_decide_eq_false_2.
Qed.

Lemma node_ips_last l i e :
  node_ips l i e = (default i (last_of NodeInternalIP l), default e (last_of NodeExternalIP l)).
Proof.
  revert i e. induction l as [|a l IH]; intros i e; [done|].
  cbn [node_ips]. by rewrite IH, !last_of_cons.
Qed.

Lemma nodeOverlayIP_no_panic n : nodeOverlayIP n <> Panic.
Proof. unfold nodeOverlayIP. destruct (node_ips _ _ _). by repeat case_bool_decide. Qed.

(** What the node's config should say. *)
Definition wanted (v : vswitchConfig) (ip cidr : string) : VSwitchConfigSpec :=
  {| PodCIDR := cidr; ClusterCIDR := v_clusterCIDR v; ServiceCIDR := v_serviceCIDR v;
     OverlayIP := ip; OverlayType := v_overlayType v |}.

(** The node can be configured: it has an address and a pod block. *)
Definition node_ready (n : Node) (ip cidr : string) : Prop :=
  nodeOverlayIP n = Ok ip /\ nodePodCIDR n = Ok cidr.

(** Equal up to the service block. *)
Definition up_to_date (a b : VSwitchConfigSpec) : Prop :=
  OverlayIP a = OverlayIP b /\ OverlayType a = OverlayType b /\ PodCIDR a = PodCIDR b /\
  ClusterCIDR a = ClusterCIDR b.

#[export] Instance up_to_date_dec a b : Decision (up_to_date a b).
Proof. unfold up_to_date. apply _. Defined.

(** The informer's store is keyed by name. *)
Definition keyed (l : gmap string VSwitchConfig) : Prop :=
  map_Forall (fun name cfg => vsc_Name cfg = name) l.

Section needs_update.
Variables (v : vswitchConfig) (n : Node) (ip cidr : string).
Hypothesis ready : node_ready n ip cidr.

Lemma needsUpdate_absent :
  v_vswitchLister v !! node_Name n = None -> needsUpdate v (Some n) = Ok true.
Proof. intros Hl. unfold needsUpdate, Lister_Get. cbn. by rewrite Hl. Qed.

Lemma needsUpdate_present cfg :
  v_vswitchLister v !! node_Name n = Some cfg ->
  needsUpdate v (Some n) = Ok (negb (bool_decide (up_to_date (vsc_Spec cfg) (wanted v ip cidr)))).
Proof.
  intros Hl. destruct ready as [Hip Hcidr]. unfold needsUpdate, Lister_Get. cbn.
  rewrite Hl. cbn. rewrite Hip, Hcidr. cbn. f_equal. unfold strings_differ, up_to_date. cbn.
  repeat case_bool_decide; tauto.
Qed.
End needs_update.

Section sync_spec.
Context {S : Type} `{API : VSwitchAPI S}.

Lemma sync_absent v n ip cidr s :
  node_ready n ip cidr -> v_vswitchLister v !! node_Name n = None ->
  syncVSwitchConfig v (Some n) s =
  (api_Create {| vsc_Name := node_Name n; vsc_Spec := wanted v ip cidr |} ≫= fun _ => mret tt) s.
Proof.
  intros [Hip Hcidr] Hl. unfold syncVSwitchConfig, Lister_Get, lift, mbind, M_bind. cbn.
  by rewrite Hip, Hcidr, Hl.
Qed.

Lemma sync_present v n ip cidr cfg s :
  node_ready n ip cidr -> keyed (v_vswitchLister v) -> v_vswitchLister v !! node_Name n = Some cfg ->
  syncVSwitchConfig v (Some n) s =
  (api_Update {| vsc_Name := node_Name n; vsc_Spec := wanted v ip cidr |} ≫= fun _ => mret tt) s.
Proof.
  intros [Hip Hcidr] Hk Hl. unfold syncVSwitchConfig, Lister_Get, lift, mbind, M_bind. cbn.
  rewrite Hip, Hcidr, Hl. cbn. by rewrite (Hk _ _ Hl).
Qed.

Lemma check_and_sync_run v n b s :
  needsUpdate v (Some n) = Ok b ->
  check_and_sync v (Some n) s = if b then logged (syncVSwitchConfig v (Some n)) s else (Ok tt, s).
Proof.
  intros Hn. unfold check_and_sync, try_m, lift, mbind, M_bind. rewrite Hn. by destruct b.
Qed.
End sync_spec.

(** ** Properties *)

(** The overlay address of a node is its last internal address; without
    a non-empty one, its last external address; without either, an error. *)
Theorem nodeOverlayIP_spec node :
  nodeOverlayIP node =
  match default "" (last_of NodeInternalIP (node_Addresses node)),
        default "" (last_of NodeExternalIP (node_Addresses node)) with
  | String c s, _ => Ok (String c s)
  | EmptyString, String c s => Ok (String c s)
  | EmptyString, EmptyString => Err (ErrNew "no valid node IP found for tunnel overlay")
  end.
Proof.
  unfold nodeOverlayIP. rewrite node_ips_last.
  by destruct (default "" (last_of NodeInternalIP _)), (default "" (last_of NodeExternalIP _)).
Qed.

Section properties.
Context {S : Type} `{Laws : VSwitchLaws S}.

Lemma syncVSwitchConfig_unready v n s :
  is_err (nodeOverlayIP n) = true \/ is_err (nodePodCIDR n) = true ->
  is_err (syncVSwitchConfig v (Some n) s).1 = true /\ (syncVSwitchConfig v (Some n) s).2 = s.
Proof.
  pose proof (nodeOverlayIP_no_panic n) as Hnp.
  unfold syncVSwitchConfig, lift, mbind, M_bind. cbn. unfold nodePodCIDR.
  destruct (nodeOverlayIP n) as [ip|e|]; [|done..]. cbn.
  case_bool_decide; cbn; [done|]. by intros [|].
Qed.

Lemma syncVSwitchConfig_view v n s :
  keyed (v_vswitchLister v) ->
  (forall ip cidr, node_ready n ip cidr ->
     (syncVSwitchConfig v (Some n) s).1 = Ok tt ->
     view (syncVSwitchConfig v (Some n) s).2 =
       <[node_Name n := {| vsc_Name := node_Name n; vsc_Spec := wanted v ip cidr |}]> (view s)) /\
  (is_err (nodeOverlayIP n) = true \/ is_err (nodePodCIDR n) = true ->
     is_err (syncVSwitchConfig v (Some n) s).1 = true /\ (syncVSwitchConfig v (Some n) s).2 = s).
Proof.
  intros Hk. split.
  - intros ip cidr Hr. destruct (v_vswitchLister v !! node_Name n) as [cfg|] eqn:Hl.
    + rewrite (sync_present v n ip cidr cfg) by done. unfold mbind, M_bind.
      destruct (api_Update _ s) as [[a|e|] s'] eqn:Hu; cbn; try done. intros _.
      by destruct (update_law _ _ _ _ Hu) as [_ ->].
    + rewrite (sync_absent v n ip cidr) by done. unfold mbind, M_bind.
      destruct (api_Create _ s) as [[a|e|] s'] eqn:Hu; cbn; try done. intros _.
      by destruct (create_law _ _ _ _ Hu) as [_ ->].
  - apply syncVSwitchConfig_unready.
Qed.

(** A successful sync leaves exactly the wanted config of the node on
    the API server, created or updated, and touches no other node; a node
    without address or pod block is an error and nothing is written. *)
Theorem syncVSwitchConfig_writes v n s :
  keyed (v_vswitchLister v) ->
  (forall ip cidr, node_ready n ip cidr ->
     (syncVSwitchConfig v (Some n) s).1 = Ok tt ->
     view (syncVSwitchConfig v (Some n) s).2 =
       <[node_Name n := {| vsc_Name := node_Name n; vsc_Spec := wanted v ip cidr |}]> (view s)) /\
  (is_err (nodeOverlayIP n) = true \/ is_err (nodePodCIDR n) = true ->
     is_err (syncVSwitchConfig v (Some n) s).1 = true /\ (syncVSwitchConfig v (Some n) s).2 = s).
Proof. apply syncVSwitchConfig_view. Qed.

(** One node event: the node's config becomes an up to date one, and nothing
    else changes. *)
Lemma node_event v n ip cidr s :
  node_ready n ip cidr -> keyed (v_vswitchLister v) -> v_vswitchLister v = view s ->
  (syncVSwitchConfig v (Some n) s).1 = Ok tt ->
  exists cfg, view (OnAdd v (ObjOf n) s).2 = <[node_Name n := cfg]> (view s) /\
    vsc_Name cfg = node_Name n /\ up_to_date (vsc_Spec cfg) (wanted v ip cidr).
Proof.
  intros Hr Hk Hfresh Hok.
  pose proof (proj1 (syncVSwitchConfig_view v n s Hk) ip cidr Hr Hok) as Hview.
  unfold OnAdd, type_assert.
  destruct (v_vswitchLister v !! node_Name n) as [cfg|] eqn:Hl.
  - rewrite (check_and_sync_run _ _ _ _ (needsUpdate_present v n ip cidr Hr cfg Hl)).
    case_bool_decide as Hu; cbn [negb snd].
    + exists cfg. split; [by rewrite insert_id by by rewrite <- Hfresh|]. split; [by apply Hk|done].
    + unfold logged. destruct (syncVSwitchConfig v (Some n) s) as [[[]| |] s1]; try done.
      by eexists.
  - rewrite (check_and_sync_run _ _ _ _ (needsUpdate_absent v n Hl)).
    unfold logged. destruct (syncVSwitchConfig v (Some n) s) as [[[]| |] s1]; try done.
    by eexists.
Qed.

(** Node events converge.  When the informer's copy is current and the
    API call, if one is made, succeeds, the stored config of a ready node
    agrees with the wanted one after OnAdd or OnUpdate in all the fields that
    are compared, and the configs of other nodes are untouched; a second event
    on the new state then calls nothing. *)
Theorem node_event_converges v n ip cidr s :
  node_ready n ip cidr -> keyed (v_vswitchLister v) -> v_vswitchLister v = view s ->
  (syncVSwitchConfig v (Some n) s).1 = Ok tt ->
  let s' := (OnAdd v (ObjOf n) s).2 in
  (exists cfg, view s' !! node_Name n = Some cfg /\ up_to_date (vsc_Spec cfg) (wanted v ip cidr)) /\
  (forall other, other <> node_Name n -> view s' !! other = view s !! other) /\
  (forall v' old, v_overlayType v' = v_overlayType v -> v_clusterCIDR v' = v_clusterCIDR v ->
     v_vswitchLister v' = view s' -> OnUpdate v' old (ObjOf n) s' = (Ok tt, s')).
Proof.
  intros Hr Hk Hfresh Hok s'.
  destruct (node_event v n ip cidr s Hr Hk Hfresh Hok) as (cfg & Hview & _ & Hup).
  fold s' in Hview.
  assert (Hcfg : view s' !! node_Name n = Some cfg) by (by rewrite Hview, lookup_insert_eq).
  split; [by exists cfg|]. split.
  { intros other Hne. by rewrite Hview, lookup_insert_ne. }
  intros v' old Ho Hc Hl'. unfold OnUpdate, type_assert.
  assert (Hup' : up_to_date (vsc_Spec cfg) (wanted v' ip cidr)).
  { unfold up_to_date, wanted in *. cbn in *. by rewrite Ho, Hc. }
  rewrite (check_and_sync_run _ _ false); [done|].
  rewrite (needsUpdate_present v' n ip cidr Hr cfg) by by rewrite Hl'.
  by rewrite bool_decide_eq_true_2.
Qed.

(** A change of the service block alone is never written: when the
    stored config agrees in everything else, every node event leaves it, with
    the old service block, for ever. *)
Theorem service_cidr_not_updated v n ip cidr cfg s :
  node_ready n ip cidr -> v_vswitchLister v !! node_Name n = Some cfg ->
  up_to_date (vsc_Spec cfg) (wanted v ip cidr) ->
  ServiceCIDR (vsc_Spec cfg) <> v_serviceCIDR v ->
  vsc_Spec cfg <> wanted v ip cidr /\
  OnAdd v (ObjOf n) s = (Ok tt, s) /\ forall old, OnUpdate v old (ObjOf n) s = (Ok tt, s).
Proof.
  intros Hr Hl Hup Hne. split; [by intros Heq; rewrite Heq in Hne|].
  unfold OnAdd, OnUpdate, type_assert.
  rewrite (check_and_sync_run _ _ false); [done|].
  rewrite (needsUpdate_present v n ip cidr Hr cfg) by done. by rewrite bool_decide_eq_true_2.
Qed.

(** Objects that are not nodes.  OnAdd ignores them; OnUpdate and
    OnDelete only log the failed assertion and then read the nil node, so the
    tombstone of a deletion that the watch missed panics, and the node's
    config stays on the server. *)
Theorem tombstones_panic v key last s :
  OnAdd v (ObjTombstone key last) s = (Ok tt, s) /\
  OnDelete v (ObjTombstone key last) s = (Panic, s) /\
  (forall old, OnUpdate v old (ObjTombstone key last) s = (Panic, s)).
Proof. done. Qed.
End properties.

(** ** Witnesses *)

(** An API server that keeps the configs in a map. *)
#[local] Instance map_api : VSwitchAPI (gmap string VSwitchConfig) := {
  api_Create cfg s := match s !! vsc_Name cfg with
    | None => (Ok cfg, <[vsc_Name cfg := cfg]> s)
    | Some _ => (Err (ErrExt "already exists"), s) end;
  api_Update cfg s := match s !! vsc_Name cfg with
    | Some _ => (Ok cfg, <[vsc_Name cfg := cfg]> s)
    | None => (Err (ErrNotFound (vsc_Name cfg)), s) end;
  api_Delete name s := match s !! name with
    | Some _ => (Ok tt, delete name s)
    | None => (Err (ErrNotFound name), s) end
}.

#[local, refine] Instance map_laws : VSwitchLaws (gmap string VSwitchConfig) := { view s := s }.
Proof.
  - intros cfg s a s'. cbn. destruct (s !! vsc_Name cfg); [done|]. by intros [= <- <-].
  - intros cfg s a s'. cbn. destruct (s !! vsc_Name cfg) eqn:Hl; [|done]. by intros [= <- <-].
  - intros name s a s'. cbn. destruct (s !! name); [|done]. by intros [= <- <-].
Defined.

Definition demo_k8s_node : Node :=
  {| node_Name := "node-a"; node_PodCIDR := "10.1.0.0/24";
     node_Addresses := [{| na_Type := "Hostname"; na_Address := "node-a" |};
                        {| na_Type := NodeExternalIP; na_Address := "198.51.100.7" |};
                        {| na_Type := NodeInternalIP; na_Address := "172.20.0.1" |}] |}.

Definition demo_v (l : gmap string VSwitchConfig) : vswitchConfig :=
  NewVSwitchConfigController l "vxlan" "10.0.0.0/8" "172.16.0.0/16".

Definition demo_cfg : VSwitchConfig :=
  {| vsc_Name := "node-a"; vsc_Spec := wanted (demo_v ∅) "172.20.0.1" "10.1.0.0/24" |}.

Lemma demo_node_ready : node_ready demo_k8s_node "172.20.0.1" "10.1.0.0/24".
Proof. split; reflexivity. Qed.

Lemma syncVSwitchConfig_writes_witness :
  view (syncVSwitchConfig (demo_v ∅) (Some demo_k8s_node) (∅ : gmap string VSwitchConfig)).2 =
  {["node-a" := demo_cfg]}.
Proof.
  rewrite (proj1 (syncVSwitchConfig_writes (demo_v ∅) demo_k8s_node ∅ (map_Forall_empty _))
    "172.20.0.1" "10.1.0.0/24" demo_node_ready); reflexivity.
Defined.

Lemma node_event_converges_witness :
  exists cfg, view (OnAdd (demo_v ∅) (ObjOf demo_k8s_node) (∅ : gmap string VSwitchConfig)).2 !! "node-a" = Some cfg /\
    up_to_date (vsc_Spec cfg) (wanted (demo_v ∅) "172.20.0.1" "10.1.0.0/24").
Proof.
  destruct (node_event_converges (demo_v ∅) demo_k8s_node "172.20.0.1" "10.1.0.0/24"
    (∅ : gmap string VSwitchConfig) demo_node_ready (map_Forall_empty _)) as [H _].
  - reflexivity.
  - reflexivity.
  - exact H.
Defined.

(** The stored config still names the service block of an earlier run. *)
Definition old_service : vswitchConfig :=
  NewVSwitchConfigController {["node-a" := demo_cfg]} "vxlan" "10.0.0.0/8" "172.31.0.0/16".

Lemma service_cidr_not_updated_witness :
  OnAdd old_service (ObjOf demo_k8s_node) ({["node-a" := demo_cfg]} : gmap string VSwitchConfig) =
  (Ok tt, {["node-a" := demo_cfg]}).
Proof.
  apply (service_cidr_not_updated old_service demo_k8s_node "172.20.0.1" "10.1.0.0/24" demo_cfg).
  - exact demo_node_ready.
  - reflexivity.
  - repeat split.
  - discriminate.
Defined.
