(* ===== verification/Listers.v ===== *)
(** * Listers over the store

    [listers.go] of client-go and the generated lister of vswitch configs, over
    the store of [Store].  The handlers and syncs are modelled over the simple
    stores of [Labels] ([ListAll], [ListAllByNamespace]) and [VSwitchCfg]
    ([Lister_Get]); here these are shown to be what the code computes from an
    informer's indexer ([lists_view], [lists_namespace], [lister_refines]). *)
From S2P Require Import Prelude GoStrings Objects Labels Store Controller VSwitchCfg.

Section listers.
Context {T : Type} `{HMeta : Meta T} `{HHas : HasMeta T}.

(** One object of the loop: what [appendFn] appends, which asserts the type. *)
Definition appended (o : EventObj T) (ret : list T) : result (list T) :=
  match type_assert o with Some t => Ok (ret ++ [t]) | None => Panic end.

Definition object_labels (o : EventObj T) : result labels_map :=
  match Accessor o with Some t => Ok (meta_Labels t) | None => Err (ErrNew "object does not implement the Object interfaces") end.

(** The loop of [ListAll]. *)
Fixpoint list_loop (selectAll : bool) (selector : Selector) (l : list (EventObj T)) (ret : list T) : result (list T) :=
  match l with
  | [] => Ok ret
  | m :: l' =>
      if selectAll then r ← appended m ret; list_loop selectAll selector l' r
      else
        ls ← object_labels m;
        if Selector_Matches selector ls then r ← appended m ret; list_loop selectAll selector l' r
        else list_loop selectAll selector l' ret
  end.

Definition cache_ListAll (store : threadSafeMap T) (selector : Selector) : result (list T) :=
  list_loop (Selector_Empty selector) selector (ts_List store) [].

(** The loop that is left when there is no namespace index. *)
Fixpoint namespace_loop (namespace : string) (selector : Selector) (l : list (EventObj T)) (ret : list T) : result (list T) :=
  match l with
  | [] => Ok ret
  | m :: l' =>
      match Accessor m with
      | None => Err (ErrNew "object does not implement the Object interfaces")
      | Some t =>
          if bool_decide (meta_Namespace t = namespace) && Selector_Matches selector (meta_Labels t)
          then r ← appended m ret; namespace_loop namespace selector l' r
          else namespace_loop namespace selector l' ret
      end
  end.

Definition cache_ListAllByNamespace (indexer : threadSafeMap T) (namespace : string) (selector : Selector)
    : result (list T) :=
  if bool_decide (namespace = "") then list_loop (Selector_Empty selector) selector (ts_List indexer) [] else
  match ts_Index NamespaceIndex (MetaOnly namespace) indexer with
  | Ok items => list_loop (Selector_Empty selector) selector items []
  | Panic => Panic
  | Err _ => namespace_loop namespace selector (ts_List indexer) []
  end.

(** ** What they compute *)

Lemma typed_List x : typed x -> ts_List x = ObjOf <$> idx_List (lister_view x).
Proof.
  intros Ht. cbn. assert (Hall : Forall (fun o => exists t, o = ObjOf t) (ts_List x)).
  { apply Forall_forall. intros o Ho. unfold ts_List in Ho. apply list_elem_of_fmap in Ho as ([k o'] & -> & Hk%elem_of_map_to_list).
    destruct (Ht _ _ Hk) as (t & -> & _). by exists t. }
  induction Hall as [|o l [t ->] _ IH]; [done|]. cbn. by rewrite <- IH.
Qed.

Lemma list_loop_typed sel l : forall ret,
  list_loop (Selector_Empty sel) sel (ObjOf <$> l) ret = Ok (ret ++ List.filter (sel_keep sel) l).
Proof.
  induction l as [|t l IH]; intros ret; cbn [fmap list_fmap list_loop List.filter]; [by rewrite app_nil_r|].
  unfold sel_keep at 1. destruct (Selector_Empty sel); cbn.
  - rewrite IH. by rewrite <- (assoc_L app).
  - destruct (Selector_Matches sel (meta_Labels t)); cbn; rewrite IH; [by rewrite <- (assoc_L app)|done].
Qed.

Lemma namespace_loop_typed ns sel l : forall ret,
  namespace_loop ns sel (ObjOf <$> l) ret =
  Ok (ret ++ List.filter (fun m => bool_decide (meta_Namespace m = ns) && Selector_Matches sel (meta_Labels m)) l).
Proof.
  induction l as [|t l IH]; intros ret; cbn [fmap list_fmap namespace_loop List.filter Accessor type_assert]; [by rewrite app_nil_r|].
  destruct (bool_decide _ && _); cbn; rewrite IH; [by rewrite <- (assoc_L app)|done].
Qed.

(** A list of an indexer is the list of its view. *)
Lemma lists_view x sel : typed x -> cache_ListAll x sel = Ok (ListAll (lister_view x) sel).
Proof. intros Ht. unfold cache_ListAll, ListAll. by rewrite (typed_List x Ht), list_loop_typed. Qed.

(** So is the list of a namespace, with and without the index, up to order. *)
Lemma lists_namespace x ns sel :
  (forall t : T, meta_Namespace t = GetNamespace t) -> store_ok x -> typed x ->
  (forall f, ts_indexers x !! NamespaceIndex = Some f -> f = MetaNamespaceIndexFunc) ->
  exists l, cache_ListAllByNamespace x ns sel = Ok l /\ l ≡ₚ ListAllByNamespace (lister_view x) ns sel.
Proof.
  intros Hns Hok Ht Hf. unfold cache_ListAllByNamespace, ListAllByNamespace.
  case_bool_decide; [eexists; split; [by rewrite (typed_List x Ht), list_loop_typed|done]|].
  destruct (ts_indexers x !! NamespaceIndex) as [f|] eqn:Hx.
  - rewrite (Hf f eq_refl) in Hx. destruct (indexed_objects ns x Hns Hok Ht Hx) as (objs & l & -> & -> & l' & -> & Hl).
    rewrite list_loop_typed. eexists. split; [done|]. cbn. by apply filter_perm.
  - unfold ts_Index. rewrite Hx. cbv beta iota. rewrite (typed_List x Ht), namespace_loop_typed. eexists. split; [done|].
    unfold Index. cbn [idx_has_namespace lister_view].
    rewrite (bool_decide_eq_false_2 (is_Some _)); [done|]. rewrite Hx. by intros [].
Qed.
End listers.

(** ** The generated lister *)

Record vSwitchConfigLister := { l_indexer : threadSafeMap VSwitchConfig }.

Definition NewVSwitchConfigLister (indexer : threadSafeMap VSwitchConfig) : vSwitchConfigLister := {| l_indexer := indexer |}.

Definition vSwitchConfigLister_List (s : vSwitchConfigLister) (selector : Selector) : result (list VSwitchConfig) :=
  cache_ListAll (l_indexer s) selector.

Definition vSwitchConfigLister_Get (s : vSwitchConfigLister) (name : string) : result VSwitchConfig :=
  match ts_Get name (l_indexer s) with
  | None => Err (ErrNotFound name)
  | Some obj => match type_assert obj with Some cfg => Ok cfg | None => Panic end
  end.

(** The generated lister over an informer's indexer: [List] answers what a sync
    reads from the store, [Get] what the config controller reads, of the objects
    that are stored. *)
Theorem lister_refines x :
  typed x ->
  let s := NewVSwitchConfigLister x in
  (forall selector, vSwitchConfigLister_List s selector = Ok (ListAll (lister_view x) selector)) /\
  (forall name, vSwitchConfigLister_Get s name = Lister_Get (omap type_assert (ts_items x)) name) /\
  (forall name cfg, vSwitchConfigLister_Get s name = Ok cfg <-> ts_items x !! name = Some (ObjOf cfg)).
Proof.
  intros Ht s. assert (Hget : forall name, vSwitchConfigLister_Get s name = Lister_Get (omap type_assert (ts_items x)) name).
  { intros name. unfold vSwitchConfigLister_Get, Lister_Get, ts_Get. cbn. rewrite lookup_omap.
    destruct (ts_items x !! name) as [o|] eqn:Ho; [|done]. by destruct (Ht _ _ Ho) as (t & -> & _). }
  split; [intros selector; by apply lists_view|]. split; [done|].
  intros name cfg. unfold vSwitchConfigLister_Get, ts_Get. cbn.
  destruct (ts_items x !! name) as [o|] eqn:Ho; [|done]. destruct (Ht _ _ Ho) as (t & -> & _). cbn.
  split; [by intros [= ->]|by intros [= ->]].
Qed.
