(* ===== verification/Node.v ===== *)
(** * A node, from the API server to its switch

    The informers of a daemon ([Watch]) feeding its controller ([Life]): the
    listers that [syncFlows] reads are the indexers of four informers, and the
    handlers are called with what their informers' listeners were given.  The
    reflectors, the controllers of the informers, the listeners and the timer
    interleave in any order ([nact]); a sync reads the stores in one step.

    A run of a node is a run of [Life] ([nrun_life]).  [node_follows_server]
    composes the whole path: once the queues are drained and a resync got
    through, the table of the switch is that of the objects the API server
    sent.  [missed_deletion_keeps_port] and [missed_deletion_panics] are what
    becomes of an object whose deletion the watch missed. *)
From S2P Require Import Prelude GoStrings GoNet Exec Objects Labels Store DeltaFifo Watch Flows PortCache Controller NetPol Sync Readback Pipeline Verdict Routing OvsSim Life VSwitchCfg.

(** ** The node *)

Definition view_of {T} (i : informer T) : Indexer T := lister_view (si_indexer (in_shared i)).

(** What the program's handler was given by the informer. *)
Definition given {T} (i : informer T) : list (notification T) :=
  match si_listeners (in_shared i) with l :: _ => pl_given l | [] => [] end.

(** [ResourceEventHandlerFuncs] with the methods that [main] registers. *)
Definition pod_cause (n : notification Pod) : cause :=
  match n with
  | addNotification o => PodAdded o
  | updateNotification o o' => PodUpdated o o'
  | deleteNotification o => PodDeleted o
  end.
Definition policy_cause (n : notification NetworkPolicy) : cause :=
  match n with
  | addNotification o => PolicyAdded o
  | updateNotification o o' => PolicyUpdated o o'
  | deleteNotification o => PolicyDeleted o
  end.
Definition vswitch_cause (n : notification VSwitchConfig) : cause :=
  match n with
  | addNotification o => VSwitchAdded o
  | updateNotification o o' => VSwitchUpdated o o'
  | deleteNotification o => VSwitchDeleted o
  end.

Section node.
Context {W : Type} `{HTable : FlowTable W}.
Abbreviation st := (controller * W)%type.

(** The informers, how many notifications each handler has had, the
    controller and the world. *)
Record node := {
  n_pods : informer Pod; n_nss : informer Namespace;
  n_policies : informer NetworkPolicy; n_vswitches : informer VSwitchConfig;
  n_pod_next : nat; n_policy_next : nat; n_vswitch_next : nat;
  n_state : st
}.

Definition stores_of (n : node) : stores :=
  {| s_pods := view_of (n_pods n); s_namespaces := view_of (n_nss n);
     s_policies := view_of (n_policies n); s_vswitches := view_of (n_vswitches n) |}.

(** What can happen: a step of an informer, a notification handed to its
    handler, the timer, and whatever happens to the world. *)
Inductive nact :=
| PodsAct (a : iact Pod)
| NamespacesAct (a : iact Namespace)
| PoliciesAct (a : iact NetworkPolicy)
| VSwitchesAct (a : iact VSwitchConfig)
| PodHandled
| PolicyHandled
| VSwitchHandled
| Ticked
| WorldAct (w' : W).

(** The run of [Life] that a step is. *)
Definition nlife (a : nact) (n : node) : list (act (W := W)) :=
  match a with
  | PodsAct a => [Informed {| s_pods := view_of (istep a (n_pods n)); s_namespaces := view_of (n_nss n);
                              s_policies := view_of (n_policies n); s_vswitches := view_of (n_vswitches n) |}]
  | NamespacesAct a => [Informed {| s_pods := view_of (n_pods n); s_namespaces := view_of (istep a (n_nss n));
                              s_policies := view_of (n_policies n); s_vswitches := view_of (n_vswitches n) |}]
  | PoliciesAct a => [Informed {| s_pods := view_of (n_pods n); s_namespaces := view_of (n_nss n);
                              s_policies := view_of (istep a (n_policies n)); s_vswitches := view_of (n_vswitches n) |}]
  | VSwitchesAct a => [Informed {| s_pods := view_of (n_pods n); s_namespaces := view_of (n_nss n);
                              s_policies := view_of (n_policies n); s_vswitches := view_of (istep a (n_vswitches n)) |}]
  | PodHandled => match given (n_pods n) !! n_pod_next n with Some x => [Event (pod_cause x)] | None => [] end
  | PolicyHandled => match given (n_policies n) !! n_policy_next n with Some x => [Event (policy_cause x)] | None => [] end
  | VSwitchHandled => match given (n_vswitches n) !! n_vswitch_next n with Some x => [Event (vswitch_cause x)] | None => [] end
  | Ticked => [Event Timer]
  | WorldAct w' => [Outside w']
  end.

(** One more notification handled, if there is one. *)
Definition after_note {T} (i : informer T) (next : nat) : nat :=
  if bool_decide (is_Some (given i !! next)) then S next else next.

Definition nstep (a : nact) (n : node) : node :=
  {| n_pods := match a with PodsAct a => istep a (n_pods n) | _ => n_pods n end;
     n_nss := match a with NamespacesAct a => istep a (n_nss n) | _ => n_nss n end;
     n_policies := match a with PoliciesAct a => istep a (n_policies n) | _ => n_policies n end;
     n_vswitches := match a with VSwitchesAct a => istep a (n_vswitches n) | _ => n_vswitches n end;
     n_pod_next := match a with PodHandled => after_note (n_pods n) (n_pod_next n) | _ => n_pod_next n end;
     n_policy_next := match a with PolicyHandled => after_note (n_policies n) (n_policy_next n) | _ => n_policy_next n end;
     n_vswitch_next := match a with VSwitchHandled => after_note (n_vswitches n) (n_vswitch_next n) | _ => n_vswitch_next n end;
     n_state := live (nlife a n) (n_state n) |}.
Definition nrun (acts : list nact) (n : node) : node := fold_left (fun n a => nstep a n) acts n.

(** The daemon as [main] wires it: fresh informers, with the indexers of
    client-go's factories, and one handler each, none for namespaces. *)
Definition fresh_node (s : st) : node :=
  {| n_pods := NewSharedIndexInformer namespace_indexers 1; n_nss := NewSharedIndexInformer namespace_indexers 0;
     n_policies := NewSharedIndexInformer namespace_indexers 1; n_vswitches := NewSharedIndexInformer namespace_indexers 1;
     n_pod_next := 0; n_policy_next := 0; n_vswitch_next := 0;
     n_state := (set_stores {| s_pods := view_of (NewSharedIndexInformer namespace_indexers 1);
                               s_namespaces := view_of (NewSharedIndexInformer namespace_indexers 0);
                               s_policies := view_of (NewSharedIndexInformer namespace_indexers 1);
                               s_vswitches := view_of (NewSharedIndexInformer namespace_indexers 1) |} s.1, s.2) |}.

(** What the controller's listers read. *)
Definition stores_in (c : controller) : stores :=
  {| s_pods := podLister c; s_namespaces := nsLister c; s_policies := netPolLister c; s_vswitches := vswitchLister c |}.

(** *** Well-formed runs *)

Definition pod_good (pod : Pod) : Prop := slashless (pod_Namespace pod) /\ clean (pod_PodIP pod).
Definition policy_good (np : NetworkPolicy) : Prop := ports_set np = true /\ policy_ok np.
Definition namespace_good (ns : Namespace) : Prop := True.

(** What is known of the pods whose deletion a watch reports. *)
Variable Q : Pod -> Prop.
Abbreviation any := (fun _ => True).

(** The API server sends well-formed objects, Open vSwitch stays usable and
    nobody else writes the table. *)
Definition nact_ok (a : nact) (n : node) : Prop :=
  match a with
  | PodsAct a => iact_objects pod_good Q a
  | NamespacesAct a => iact_objects namespace_good any a
  | PoliciesAct a => iact_objects policy_good any a
  | VSwitchesAct a => iact_objects vswitch_ok any a
  | WorldAct w' => alive ((n_state n).1, w') /\ table w' (bridgeName (n_state n).1) = the_table (n_state n)
  | _ => True
  end.
Fixpoint nacts_ok (acts : list nact) (n : node) : Prop :=
  match acts with [] => True | a :: acts' => nact_ok a n /\ nacts_ok acts' (nstep a n) end.

Fixpoint nlives (acts : list nact) (n : node) : list (act (W := W)) :=
  match acts with [] => [] | a :: acts' => nlife a n ++ nlives acts' (nstep a n) end.

(** An informer whose objects are good, with the namespace index. *)
Definition informer_good {T} `{Meta T} (P D : T -> Prop) (i : informer T) : Prop :=
  informer_ok P D i /\ ts_indexers (si_indexer (in_shared i)) = namespace_indexers.

Record node_ok (n : node) : Prop := {
  no_pods : informer_good pod_good Q (n_pods n);
  no_nss : informer_good namespace_good any (n_nss n);
  no_policies : informer_good policy_good any (n_policies n);
  no_vswitches : informer_good vswitch_ok any (n_vswitches n);
  no_alive : alive (n_state n);
  no_stores : stores_in (n_state n).1 = stores_of n
}.

(** ** A run of a node is a run of [Life] *)

Lemma istep_good {T} `{Meta T} (P D : T -> Prop) a i :
  iact_objects P D a -> informer_good P D i -> informer_good P D (istep a i).
Proof.
  intros Ha [Hi Hx]. split; [by apply (istep_ok P D a i Ha Hi)|]. by rewrite (istep_indexers P D a i Ha Hi).
Qed.

(** The listed objects of an informer. *)
Lemma view_objects {T} `{Meta T} (P D : T -> Prop) i : informer_ok P D i -> Forall P (idx_List (view_of i)).
Proof.
  intros [_ Hx Hp]. apply Forall_forall. intros t Ht.
  apply (elem_lister_view _ t (iok_typed _ Hx)) in Ht. apply (Hp (object_key t)). unfold cached. by rewrite stored_lookup, Ht.
Qed.

Lemma good_stores n :
  informer_good pod_good Q (n_pods n) -> informer_good policy_good any (n_policies n) ->
  informer_good vswitch_ok any (n_vswitches n) -> stores_ok (stores_of n).
Proof.
  intros [Hp _] [Hn _] [Hv _]. split; cbn.
  - eapply Forall_impl; [apply (view_objects _ _ _ Hp)|]. by intros pod [].
  - eapply Forall_impl; [apply (view_objects _ _ _ Hn)|]. by intros np [].
  - apply (view_objects _ _ _ Hv).
  - eapply Forall_impl; [apply (view_objects _ _ _ Hp)|]. by intros pod [].
  - eapply Forall_impl; [apply (view_objects _ _ _ Hn)|]. by intros np [].
Qed.

Lemma stores_in_set t c : stores_in (set_stores t c) = t.
Proof. by destruct c, t. Qed.

(** The controller's listers stay those of its informers. *)
Lemma handle_stores k s : alive s -> stores_in (handle k s).2.1 = stores_in s.1.
Proof.
  destruct s as [c w]. intros Ha. destruct (resyncs c k) eqn:Hk.
  - rewrite (handle_resync k (c, w) Hk). destruct (syncFlows_run c w (proj1 Ha)) as (pc & _ & Hrun).
    unfold logged. rewrite Hrun. destruct (SyncFlows _ _ w) as [[| |] w']; by destruct c.
  - destruct k as [| | |obj|old obj|obj| | | |]; try done; cbn [handle resyncs] in *.
    + rewrite (OnAddPod_run obj c w). destruct (type_assert obj) as [pod|]; [by rewrite Hk|done].
    + change (OnUpdatePod old obj (c, w)) with (OnAddPod obj (c, w)). rewrite (OnAddPod_run obj c w).
      destruct (type_assert obj) as [pod|]; [by rewrite Hk|done].
    + unfold OnDeletePod. destruct (type_assert obj); [by destruct c|done].
Qed.

(** What the controller is, it stays. *)
Lemma same_config_refl c : same_config c c.
Proof. done. Qed.
Lemma same_config_trans c c1 c2 : same_config c c1 -> same_config c1 c2 -> same_config c c2.
Proof. intros [] []. split; congruence. Qed.

Lemma handle_config k s : alive s -> same_config s.1 (handle k s).2.1.
Proof.
  destruct s as [c w]. intros Ha. destruct (resyncs c k) eqn:Hk.
  - rewrite (handle_resync k (c, w) Hk). destruct (syncFlows_run c w (proj1 Ha)) as (pc & _ & Hrun).
    unfold logged. rewrite Hrun. destruct (SyncFlows _ _ w) as [[| |] w']; by destruct c.
  - destruct k as [| | |obj|old obj|obj| | | |]; try done; cbn [handle resyncs] in *.
    + rewrite (OnAddPod_run obj c w). destruct (type_assert obj) as [pod|]; [by rewrite Hk|done].
    + change (OnUpdatePod old obj (c, w)) with (OnAddPod obj (c, w)). rewrite (OnAddPod_run obj c w).
      destruct (type_assert obj) as [pod|]; [by rewrite Hk|done].
    + unfold OnDeletePod. destruct (type_assert obj); [by destruct c|done].
Qed.

Lemma live_config acts : forall s, alive s -> acts_ok acts s -> same_config s.1 (live acts s).1.
Proof.
  induction acts as [|a acts IH]; intros s Ha Hok; [done|]. destruct Hok as [Hok Hoks].
  apply (same_config_trans _ (perform_act a s).1); [|apply IH; [by apply act_done|done]].
  destruct a as [t|w'|k]; [|done|by apply handle_config]. destruct s as [c w]. by destruct c, t.
Qed.

(** A step of an informer, an event, and a step that changes neither. *)
Lemma informed_ok n n' :
  alive (n_state n) -> informer_good pod_good Q (n_pods n') -> informer_good namespace_good any (n_nss n') ->
  informer_good policy_good any (n_policies n') -> informer_good vswitch_ok any (n_vswitches n') ->
  n_state n' = live [Informed (stores_of n')] (n_state n) ->
  node_ok n' /\ acts_ok [Informed (stores_of n')] (n_state n).
Proof.
  intros Ha Hp' Hn' Hnp' Hv' Hst. pose proof (good_stores n' Hp' Hnp' Hv') as Hgood.
  split; [|by split]. split; [done..| |]; rewrite Hst; [|apply stores_in_set].
  apply stores_alive; [|done]. by destruct (n_state n).
Qed.

Lemma same_informers n m :
  node_ok n -> n_pods m = n_pods n -> n_nss m = n_nss n -> n_policies m = n_policies n ->
  n_vswitches m = n_vswitches n -> alive (n_state m) -> stores_in (n_state m).1 = stores_in (n_state n).1 -> node_ok m.
Proof.
  intros [Hp Hn Hnp Hv Ha Hs] E1 E2 E3 E4 Ha' Hs'. split; rewrite ?E1, ?E2, ?E3, ?E4; try done.
  rewrite Hs', Hs. unfold stores_of. by rewrite E1, E2, E3, E4.
Qed.

Lemma event_ok k n m :
  node_ok n -> n_pods m = n_pods n -> n_nss m = n_nss n -> n_policies m = n_policies n ->
  n_vswitches m = n_vswitches n -> n_state m = live [Event k] (n_state n) ->
  node_ok m /\ acts_ok [Event k] (n_state n).
Proof.
  intros Hok E1 E2 E3 E4 Hst. split; [|by split]. pose proof (no_alive n Hok) as Ha.
  apply (same_informers n m Hok E1 E2 E3 E4); rewrite Hst.
  - by apply (act_done (Event k) (n_state n) Ha I).
  - cbn [live fold_left perform_act]. by apply handle_stores.
Qed.

Lemma nstep_ok a n :
  node_ok n -> nact_ok a n -> node_ok (nstep a n) /\ acts_ok (nlife a n) (n_state n).
Proof.
  intros Hn Hok. pose proof Hn as [Hp Hns Hnp Hv Ha Hs].
  assert (Hidle : nlife a n = [] -> n_pods (nstep a n) = n_pods n -> n_nss (nstep a n) = n_nss n ->
    n_policies (nstep a n) = n_policies n -> n_vswitches (nstep a n) = n_vswitches n ->
    node_ok (nstep a n) /\ acts_ok (nlife a n) (n_state n)).
  { intros Hl E1 E2 E3 E4. assert (Hst : n_state (nstep a n) = n_state n) by (cbn; by rewrite Hl). split; [|by rewrite Hl].
    apply (same_informers n _ Hn E1 E2 E3 E4); by rewrite Hst. }
  destruct a as [a|a|a|a| | | | |w']; cbn [nact_ok] in Hok.
  1-4: (match goal with |- node_ok (nstep ?x _) /\ _ => apply (informed_ok n (nstep x n) Ha) end); try done; by apply istep_good.
  - destruct (given (n_pods n) !! n_pod_next n) as [x|] eqn:Hx; [|apply Hidle; [cbn; by rewrite Hx|done..]].
    assert (Hl : nlife PodHandled n = [Event (pod_cause x)]) by (cbn; by rewrite Hx). rewrite Hl.
    apply (event_ok (pod_cause x) n); [done..|]. cbn. by rewrite Hx.
  - destruct (given (n_policies n) !! n_policy_next n) as [x|] eqn:Hx; [|apply Hidle; [cbn; by rewrite Hx|done..]].
    assert (Hl : nlife PolicyHandled n = [Event (policy_cause x)]) by (cbn; by rewrite Hx). rewrite Hl.
    apply (event_ok (policy_cause x) n); [done..|]. cbn. by rewrite Hx.
  - destruct (given (n_vswitches n) !! n_vswitch_next n) as [x|] eqn:Hx; [|apply Hidle; [cbn; by rewrite Hx|done..]].
    assert (Hl : nlife VSwitchHandled n = [Event (vswitch_cause x)]) by (cbn; by rewrite Hx). rewrite Hl.
    apply (event_ok (vswitch_cause x) n); [done..|]. cbn. by rewrite Hx.
  - by apply (event_ok Timer n).
  - split; [|split; [exact Hok|exact I]]. apply (same_informers n (nstep (WorldAct w') n) Hn); try done. apply Hok.
Qed.

Lemma acts_ok_app acts acts' : forall s : st, acts_ok acts s -> acts_ok acts' (live acts s) -> acts_ok (acts ++ acts') s.
Proof. induction acts as [|a acts IH]; intros s; [done|]. intros [Ha Hs] Hs'. split; [done|]. by apply IH. Qed.

(** The controller and the switch of a node live as [Life] says. *)
Lemma nrun_life acts : forall n,
  node_ok n -> nacts_ok acts n ->
  node_ok (nrun acts n) /\ acts_ok (nlives acts n) (n_state n) /\ n_state (nrun acts n) = live (nlives acts n) (n_state n).
Proof.
  induction acts as [|a acts IH]; intros n Hn Hok; [done|]. destruct Hok as [Ha Hok].
  destruct (nstep_ok a n Hn Ha) as [Hn1 Hl1]. destruct (IH (nstep a n) Hn1 Hok) as (Hn' & Hl' & Hst).
  split; [done|]. change (nrun (a :: acts) n) with (nrun acts (nstep a n)). cbn [nlives].
  split; [by apply acts_ok_app|]. by rewrite live_app, Hst.
Qed.

(** *** The informers' parts of a run *)

Definition pod_iacts (acts : list nact) : list (iact Pod) :=
  omap (fun a => match a with PodsAct a => Some a | _ => None end) acts.
Definition namespace_iacts (acts : list nact) : list (iact Namespace) :=
  omap (fun a => match a with NamespacesAct a => Some a | _ => None end) acts.
Definition policy_iacts (acts : list nact) : list (iact NetworkPolicy) :=
  omap (fun a => match a with PoliciesAct a => Some a | _ => None end) acts.
Definition vswitch_iacts (acts : list nact) : list (iact VSwitchConfig) :=
  omap (fun a => match a with VSwitchesAct a => Some a | _ => None end) acts.

Lemma nrun_informers acts : forall n,
  n_pods (nrun acts n) = isteps (pod_iacts acts) (n_pods n) /\
  n_nss (nrun acts n) = isteps (namespace_iacts acts) (n_nss n) /\
  n_policies (nrun acts n) = isteps (policy_iacts acts) (n_policies n) /\
  n_vswitches (nrun acts n) = isteps (vswitch_iacts acts) (n_vswitches n).
Proof.
  induction acts as [|a acts IH]; intros n; [done|]. destruct (IH (nstep a n)) as (E1 & E2 & E3 & E4).
  change (nrun (a :: acts) n) with (nrun acts (nstep a n)). rewrite E1, E2, E3, E4. by destruct a.
Qed.

Lemma nacts_objects acts : forall n,
  nacts_ok acts n ->
  Forall (iact_objects pod_good Q) (pod_iacts acts) /\ Forall (iact_objects namespace_good any) (namespace_iacts acts) /\
  Forall (iact_objects policy_good any) (policy_iacts acts) /\ Forall (iact_objects vswitch_ok any) (vswitch_iacts acts).
Proof.
  induction acts as [|a acts IH]; intros n; [by repeat constructor|]. intros [Ha Hok].
  destruct (IH _ Hok) as (E1 & E2 & E3 & E4). destruct a; cbn in *; split_and!; try done; by constructor.
Qed.

Lemma nrun_app acts acts' n : nrun (acts ++ acts') n = nrun acts' (nrun acts n).
Proof. apply fold_left_app. Qed.

(** ** What the server has *)

(** A store that lists the objects of a map. *)
Definition listing {T} (v : gmap string T) : Indexer T :=
  {| idx_List := (map_to_list v).*2; idx_has_namespace := true |}.

(** The objects that the API server sent in a run, the latest word on each key. *)
Definition server_stores (acts : list nact) : stores :=
  {| s_pods := listing (foldl told_view ∅ (pod_iacts acts));
     s_namespaces := listing (foldl told_view ∅ (namespace_iacts acts));
     s_policies := listing (foldl told_view ∅ (policy_iacts acts));
     s_vswitches := listing (foldl told_view ∅ (vswitch_iacts acts)) |}.

(** The lists of the run are ones the queues can take. *)
Record lists_safe (acts : list nact) (n : node) : Prop := {
  ls_pods : iacts_safe (pod_iacts acts) (n_pods n);
  ls_nss : iacts_safe (namespace_iacts acts) (n_nss n);
  ls_policies : iacts_safe (policy_iacts acts) (n_policies n);
  ls_vswitches : iacts_safe (vswitch_iacts acts) (n_vswitches n)
}.

Definition drained_node (n : node) : bool :=
  bool_decide (f_queue (in_fifo (n_pods n)) = []) && bool_decide (f_queue (in_fifo (n_nss n)) = []) &&
  bool_decide (f_queue (in_fifo (n_policies n)) = []) && bool_decide (f_queue (in_fifo (n_vswitches n)) = []).

Lemma listing_view {T} `{Meta T} (P D : T -> Prop) i v :
  informer_good P D i -> cached i = v -> store_equiv (view_of i) (listing v).
Proof.
  intros [[_ Hx _] Hi] <-. split.
  - cbn [listing idx_List]. apply NoDup_Permutation.
    + apply lister_view_NoDup, iok_typed, Hx.
    + apply (NoDup_fmap_1 object_key). rewrite <- list_fmap_compose.
      assert (object_key ∘ snd <$> map_to_list (cached i) = (map_to_list (cached i)).*1) as ->; [|apply NoDup_fst_map_to_list].
      apply list_fmap_ext. intros j [k t] Hj%list_elem_of_lookup_2. apply elem_of_map_to_list in Hj. cbn.
      by apply (stored_key _ _ _ (iok_typed _ Hx)).
    + intros t. unfold view_of. rewrite (elem_lister_view _ t (iok_typed _ Hx)). rewrite list_elem_of_fmap. split.
      * intros Ht. exists (object_key t, t). split; [done|]. apply elem_of_map_to_list. unfold cached. by rewrite stored_lookup, Ht.
      * intros ([k t'] & -> & Hk%elem_of_map_to_list). cbn. pose proof (stored_key _ _ _ (iok_typed _ Hx) Hk) as <-.
        unfold cached in Hk. by rewrite (typed_lookup _ _ (iok_typed _ Hx)), Hk.
  - cbn. rewrite Hi. by apply bool_decide_eq_true_2.
Qed.

(** An informer of the node, drained. *)
Lemma informer_listing {T} `{Meta T} (P D : T -> Prop) acts n :
  Forall (iact_objects P D) acts -> iacts_safe acts (NewSharedIndexInformer namespace_indexers n) ->
  informer_good P D (isteps acts (NewSharedIndexInformer namespace_indexers n)) ->
  f_queue (in_fifo (isteps acts (NewSharedIndexInformer namespace_indexers n))) = [] ->
  store_equiv (view_of (isteps acts (NewSharedIndexInformer namespace_indexers n))) (listing (foldl told_view ∅ acts)).
Proof.
  intros Hobj Hs Hgood Hq. apply (listing_view P D); [done|].
  destruct (informer_run P D namespace_indexers n acts) as [Hok Hm]; try done; [|by apply (empty_queue P D)].
  intros t. apply map_Forall_singleton. by exists [GetNamespace t].
Qed.

Lemma new_informer_good {T} `{Meta T} (P D : T -> Prop) n : informer_good P D (NewSharedIndexInformer namespace_indexers n).
Proof.
  split; [|by induction n]. apply (new_informer_ok P D). intros t. apply map_Forall_singleton. by exists [GetNamespace t].
Qed.

Lemma fresh_node_ok s : alive s -> node_ok (fresh_node s).
Proof.
  intros Ha. split; try apply new_informer_good; [|apply stores_in_set].
  apply stores_alive; [done|]. apply (good_stores (fresh_node s)); apply new_informer_good.
Qed.

Lemma same_stores_set c t :
  store_equiv (podLister c) (s_pods t) -> store_equiv (nsLister c) (s_namespaces t) ->
  store_equiv (netPolLister c) (s_policies t) -> store_equiv (vswitchLister c) (s_vswitches t) ->
  same_stores c (set_stores t c).
Proof. by destruct c. Qed.

(** ** Properties *)

Lemma node_follows s acts :
  alive s -> let n0 := fresh_node s in
  nacts_ok acts n0 -> lists_safe acts n0 ->
  let n := nrun acts n0 in
  drained_node n = true -> is_ok (syncFlows (n_state n)).1 = true ->
  let server := (set_stores (server_stores acts) (n_state n).1, (n_state n).2) in
  the_table (n_state (nstep Ticked n)) ≡ₚ sync_spec server.1 server.2 /\
  forall p out, table_emits (n_state (nstep Ticked n)) p out <-> emitted server.1 server.2 p out.
Proof.
  intros Ha n0 Hok [Hs1 Hs2 Hs3 Hs4] n Hq Hsync server.
  destruct (nrun_life acts n0 (fresh_node_ok s Ha) Hok) as (Hn & _ & _). fold n in Hn.
  destruct (nacts_objects acts n0 Hok) as (Ho1 & Ho2 & Ho3 & Ho4).
  assert (Hperm : the_table (n_state (nstep Ticked n)) ≡ₚ sync_spec server.1 server.2).
  { destruct (act_done (Event Timer) (n_state n) (no_alive n Hn) I) as (_ & Ht & _).
    change (the_table (n_state (nstep Ticked n))) with (the_table (perform_act (Event Timer) (n_state n))).
    rewrite (Ht eq_refl Hsync). apply sync_spec_perm. pose proof (no_stores n Hn) as Hst.
    destruct (nrun_informers acts n0) as (E1 & E2 & E3 & E4). fold n in E1, E2, E3, E4. destruct Hn as [H1 H2 H3 H4 _ _].
    unfold drained_node in Hq. rewrite !andb_true_iff, !bool_decide_eq_true in Hq. destruct Hq as [[[Hq1 Hq2] Hq3] Hq4].
    rewrite E1 in H1, Hq1. rewrite E2 in H2, Hq2. rewrite E3 in H3, Hq3. rewrite E4 in H4, Hq4.
    injection Hst as Hst1 Hst2 Hst3 Hst4. rewrite E1 in Hst1. rewrite E2 in Hst2. rewrite E3 in Hst3. rewrite E4 in Hst4.
    apply same_stores_set; rewrite ?Hst1, ?Hst2, ?Hst3, ?Hst4; by eapply informer_listing. }
  split; [done|]. intros p out. unfold table_emits, emitted. split; apply runs_perm; by rewrite Hperm.
Qed.

End node.

(** ** A port outlives its pod *)

Section stale.
Context {W : Type} `{HTable : FlowTable W}.
Variables (key : string) (port : portInfo).

(** The watch reports no deletion of a pod of the key. *)
Definition not_of_key (pod : Pod) : Prop := portCacheKeyForPod pod <> key.

(** The port is cached, and no deletion of a pod of the key waits for the
    handler. *)
Definition port_kept (n : node (W := W)) : Prop :=
  store (c_portCache (n_state n).1) !! key = Some port /\
  Forall (note_ok pod_good not_of_key) (drop (n_pod_next n) (given (n_pods n))).

Lemma handle_keeps_port k s :
  alive s -> store (c_portCache s.1) !! key = Some port ->
  (forall pod, k = PodDeleted (ObjOf pod) -> not_of_key pod) ->
  store (c_portCache (handle k s).2.1) !! key = Some port.
Proof.
  destruct s as [c w]. cbn [fst]. intros Ha Hport Hdel. destruct (resyncs c k) eqn:Hk.
  - rewrite (handle_resync k (c, w) Hk). destruct (syncFlows_run c w (proj1 Ha)) as (pc & Hpc & Hrun).
    unfold logged. rewrite Hrun. destruct (SyncFlows _ _ w) as [[| |] w']; destruct c; cbn; by apply (ln_keeps _ _ _ Hpc).
  - destruct k as [| | |obj|old obj|obj| | | |]; try done; cbn [handle resyncs] in *.
    + rewrite (OnAddPod_run obj c w). destruct (type_assert obj) as [pod|]; [by rewrite Hk|done].
    + change (OnUpdatePod old obj (c, w)) with (OnAddPod obj (c, w)). rewrite (OnAddPod_run obj c w).
      destruct (type_assert obj) as [pod|]; [by rewrite Hk|done].
    + unfold OnDeletePod. destruct obj as [pod| |]; [|done..]. cbn. rewrite c_portCache_set. cbn [store].
      rewrite lookup_delete_ne; [done|]. by apply Hdel.
Qed.

Lemma given_step a (i : informer Pod) :
  iact_objects pod_good not_of_key a -> informer_ok pod_good not_of_key i ->
  exists ns, given (istep a i) = given i ++ ns /\ Forall (note_ok pod_good not_of_key) ns.
Proof.
  intros Ha Hi. destruct (istep_ok _ _ a i Ha Hi) as (_ & _ & ns & Hl & _ & Hns). unfold given. rewrite Hl.
  destruct (si_listeners (in_shared i)) as [|l ls]; [by exists []|]. by exists (ns (pl_syncing l)).
Qed.

Lemma drop_app_Forall {A} (R : A -> Prop) n (l l' : list A) : Forall R (drop n l) -> Forall R l' -> Forall R (drop n (l ++ l')).
Proof. intros Hl Hl'. rewrite drop_app. apply Forall_app. split; [done|by apply Forall_drop]. Qed.

Lemma nstep_keeps_port a n :
  node_ok not_of_key n -> nact_ok not_of_key a n -> port_kept n -> port_kept (nstep a n).
Proof.
  intros Hn Ha [Hport Hns]. pose proof (no_alive _ n Hn) as Hal.
  assert (Hevent : forall k, (forall pod, k = PodDeleted (ObjOf pod) -> not_of_key pod) ->
    store (c_portCache (live [Event k] (n_state n)).1) !! key = Some port) by (intros k; by apply handle_keeps_port).
  assert (Hset : forall t, store (c_portCache (live [Informed t] (n_state n)).1) !! key = Some port).
  { intros t. revert Hport. destruct (n_state n) as [c w]. by destruct c, t. }
  destruct a as [a|a|a|a| | | | |w']; (split; [|try exact Hns]); try apply Hset.
  - cbn [nstep n_pods n_pod_next]. destruct (given_step a (n_pods n) Ha (proj1 (no_pods _ n Hn))) as (ns & -> & Hns').
    by apply drop_app_Forall.
  - cbn [nstep n_state nlife]. destruct (given (n_pods n) !! n_pod_next n) as [x|] eqn:Hx; [|exact Hport].
    apply Hevent. intros pod Hpod. apply drop_S in Hx. rewrite Hx in Hns. inversion Hns as [|? ? Hx1]; subst.
    destruct x; try done. injection Hpod as ->. by apply Hx1.
  - cbn [nstep n_pods n_pod_next]. unfold after_note. case_bool_decide; [|done].
    rewrite <- Nat.add_1_r, <- drop_drop. by apply Forall_drop.
  - cbn [nstep n_state nlife]. destruct (given (n_policies n) !! _) as [x|]; [|exact Hport]. apply Hevent. by destruct x.
  - cbn [nstep n_state nlife]. destruct (given (n_vswitches n) !! _) as [x|]; [|exact Hport]. apply Hevent. by destruct x.
  - by apply Hevent.
  - exact Hport.
Qed.

Lemma nrun_keeps_port acts : forall n,
  node_ok not_of_key n -> nacts_ok not_of_key acts n -> port_kept n ->
  node_ok not_of_key (nrun acts n) /\ port_kept (nrun acts n).
Proof.
  induction acts as [|a acts IH]; intros n Hn Hok Hp; [done|]. destruct Hok as [Ha Hok].
  apply (IH (nstep a n)); [by apply nstep_ok|done|by apply nstep_keeps_port].
Qed.

(** C12.  Only a deletion that the watch reports makes the node forget a port.
    As long as none of the key is reported, whatever the lists say, pods
    missing from them included, the handlers, resyncs and the timer leave the
    cached port; and when a pod of that namespace and name is listed again, by
    then with another port, its packets go out on the old one after every
    resync. *)
Theorem port_outlives_pod acts n :
  node_ok not_of_key n -> nacts_ok not_of_key acts n -> port_kept n ->
  let n' := nrun acts n in
  let c := (n_state n').1 in
  store (c_portCache c) !! key = Some port /\
  (is_ok (syncFlows (n_state n')).1 = true -> forall pod p,
     pod ∈ idx_List (view_of (n_pods n')) -> portCacheKeyForPod pod = key -> pod_is_local c pod = true ->
     addr_match (pod_PodIP pod) (pk_dst p) = true ->
     (forall pod', pod' ∈ idx_List (view_of (n_pods n')) -> addr_match (pod_PodIP pod') (pk_dst p) = true ->
        portCacheKeyForPod pod' = key) ->
     allowed c p = true -> addr_match (gatewayIP c) (pk_dst p) = false -> addr_match (podCIDR c) (pk_dst p) = true ->
     (pi_ofport port <> 0)%Z ->
     forall out, table_emits (n_state (nstep Ticked n')) p out <->
       out = [ToPort (pi_ofport port) {| rw_dl_dst := podMacAddr; rw_tun_dst := "" |}]).
Proof.
  intros Hn Hok Hp n' c. destruct (nrun_keeps_port acts n Hn Hok Hp) as [Hn' [Hport _]]. fold n' in Hn', Hport. fold c in Hport.
  split; [exact Hport|]. intros Hsync pod p Hin Hkey Hloc Haddr Huniq Hal Hg Hb Hne.
  pose proof (no_stores _ n' Hn') as Hst. injection Hst as Hpods _ _ _. fold c in Hpods. rewrite <- Hpods in Hin, Huniq.
  assert (Hbel : forall pod', portCacheKeyForPod pod' = key ->
    believed (c_portCache c, (n_state n').2) (pod_Namespace pod') (pod_Name pod') = Ok port).
  { intros pod' Hk'. unfold believed. cbn [fst]. fold (portCacheKeyForPod pod'). by rewrite Hk', Hport. }
  destruct (to_own_port c (n_state n').2 p pod port) as [Hem Honly]; try done.
  - split; [by apply list_elem_of_In|]. split; [done|by apply Hbel].
  - intros pod' port' (Hin' & _ & Hb') Hm'. rewrite Hbel in Hb'; [by injection Hb' as ->|].
    apply Huniq; [by apply list_elem_of_In|done].
  - destruct (act_done (Event Timer) (n_state n') (no_alive _ n' Hn') I) as (_ & Ht & _).
    intros out. unfold table_emits.
    change (the_table (n_state (nstep Ticked n'))) with (the_table (perform_act (Event Timer) (n_state n'))).
    rewrite (Ht eq_refl Hsync). split; [by apply Honly|by intros ->].
Qed.
End stale.

(** ** Witnesses *)

#[local] Existing Instance ovs_exec.
#[local] Existing Instance ovs_table.

Abbreviation all_pods := (fun _ : Pod => True).

(** The objects of the demo cluster, listed and handled, and a resync. *)
Definition demo_lists : list (nact (W := ovs)) :=
  [PodsAct (Listed (idx_List (podLister demo))); NamespacesAct (Listed (idx_List (nsLister demo)));
   PoliciesAct (Listed (idx_List (netPolLister demo))); VSwitchesAct (Listed (idx_List (vswitchLister demo)))].
Definition demo_turns : list (nact (W := ovs)) :=
  [PodsAct Processed; VSwitchesAct Processed; PodHandled; PodsAct Processed; NamespacesAct Processed;
   PoliciesAct Processed; PodsAct Processed; PodHandled; VSwitchesAct Processed; PolicyHandled; VSwitchHandled].
Definition demo_acts : list (nact (W := ovs)) := demo_lists ++ demo_turns.

Lemma demo_pods_good : Forall pod_good (idx_List (podLister demo)).
Proof.
  apply Forall_forall. intros pod Hin. split.
  - exact (proj1 (Forall_forall _ _) (sr_pods _ _ demo_ready) pod Hin).
  - destruct demo_inputs as [_ _ _ Hp _]. exact (proj1 (Forall_forall _ _) Hp pod Hin).
Qed.
Lemma demo_policies_good : Forall policy_good (idx_List (netPolLister demo)).
Proof.
  apply Forall_forall. intros np Hin. split.
  - exact (proj1 (Forall_forall _ _) (sr_policies _ _ demo_ready) np Hin).
  - destruct demo_inputs as [_ _ _ _ Hn]. exact (proj1 (Forall_forall _ _) Hn np Hin).
Qed.
Lemma demo_vswitches_good : Forall vswitch_ok (idx_List (vswitchLister demo)).
Proof. by destruct demo_inputs. Qed.
Lemma demo_namespaces_good (l : list Namespace) : Forall namespace_good l.
Proof. by apply Forall_true. Qed.

Lemma demo_acts_ok Q (n : node (W := ovs)) : nacts_ok Q demo_acts n.
Proof.
  split; [exact demo_pods_good|]. split; [apply demo_namespaces_good|]. split; [exact demo_policies_good|].
  split; [exact demo_vswitches_good|]. repeat (split; [exact I|]). exact I.
Qed.

(** A list that comes first finds an empty queue. *)
Lemma first_safe {T} `{Meta T} items k n :
  iacts_safe (Listed items :: replicate k Processed) (NewSharedIndexInformer (T := T) namespace_indexers n).
Proof. split; [by apply idle_safe|apply processed_safe]. Qed.

Lemma demo_lists_safe s : lists_safe demo_acts (fresh_node s).
Proof.
  split; [exact (first_safe _ 3 1)|exact (first_safe _ 1 0)|exact (first_safe _ 1 1)|exact (first_safe _ 2 1)].
Qed.

Abbreviation demo_end := (nrun demo_acts (fresh_node (demo, ovs_one))).

Lemma demo_end_drained : drained_node demo_end = true.
Proof. vm_compute. reflexivity. Qed.
Lemma demo_end_synced : is_ok (syncFlows (n_state demo_end)).1 = true.
Proof. vm_compute. reflexivity. Qed.


(** The pod [web] is deleted and created again with another address, on
    another port, while the watch is down. *)
Definition new_web : Pod :=
  {| pod_Namespace := "default"; pod_Name := "web"; pod_Labels := demo_labels "web"; pod_PodIP := "10.1.0.8" |}.
Definition ovs_nine (flows : gmap string string) : ovs := {|
  ovs_ports := [{| op_name := "veth9"; op_namespace := "default"; op_pod := "web";
                   op_mac := "aa:bb:cc:dd:ee:09"; op_ofport := "9" |}];
  ovs_flows := flows; ovs_down := false |}.

Lemma ovs_nine_rows flows ns name : (query_port ns name (ovs_nine flows)).1 <> Panic.
Proof.
  unfold query_port, findPort, wrapped, lift, mbind, M_bind. cbn [exec_Output ovs_exec].
  unfold ovs_run, find_args. cbn [ovs_down ovs_nine]. rewrite bool_decide_eq_true_2 by done.
  unfold ovs_vsctl. rewrite !TrimPrefix_app. unfold ovs_find, ovs_ports, ovs_nine.
  cbn [List.filter op_namespace op_pod].
  destruct (bool_decide ("default" = ns) && bool_decide ("web" = name)); vm_compute; done.
Qed.

Abbreviation web_start := (nrun (demo_acts ++ [Ticked]) (fresh_node (demo, ovs_one))).
Abbreviation web_moves :=
  [WorldAct (ovs_nine (ovs_flows (n_state web_start).2)); PodsAct (Listed []); PodsAct Processed; PodHandled;
   PodsAct Processed; PodsAct Processed; PodHandled; PodHandled; Ticked; PodsAct (Listed [new_web; client_pod]); PodsAct Processed; PodsAct Processed; PodHandled].
Abbreviation not_web := (not_of_key "default/web").

Lemma web_start_ok : node_ok not_web web_start /\ port_kept "default/web" web_port web_start.
Proof.
  assert (Hok : nacts_ok not_web (demo_acts ++ [Ticked]) (fresh_node (demo, ovs_one))).
  { split; [exact demo_pods_good|]. split; [apply demo_namespaces_good|]. split; [exact demo_policies_good|].
    split; [exact demo_vswitches_good|]. repeat (split; [exact I|]). exact I. }
  destruct (nrun_life not_web _ _ (fresh_node_ok _ _ demo_alive) Hok) as (Hn & _).
  split; [exact Hn|]. split; [vm_compute; reflexivity|].
  assert (Hd : drop (n_pod_next web_start) (given (n_pods web_start)) =
    [addNotification (ObjOf pending_pod)]) by (vm_compute; reflexivity).
  rewrite Hd. constructor; [|constructor]. exists pending_pod. split; [reflexivity|].
  apply (proj1 (Forall_forall _ _) demo_pods_good). right. right. left.
Qed.

Lemma web_cache_kept : port_kept "default/web" web_port web_start.
Proof. exact (proj2 web_start_ok). Qed.

(** Nothing about the queries or the ports is new. *)
Lemma nine_alive c (w : ovs) flows : alive (c, w) -> alive (c, ovs_nine flows).
Proof.
  intros [[_ _ Hs Hn] Hi]. split; [|exact Hi]. split; [apply ovs_queries_read_only|apply ovs_nine_rows|exact Hs|exact Hn].
Qed.

Lemma new_web_good : pod_good new_web.
Proof. split; reflexivity. Qed.

Lemma client_good : pod_good client_pod.
Proof. split; reflexivity. Qed.

Lemma web_moves_ok : nacts_ok not_web web_moves web_start.
Proof.
  split.
  - split; [|vm_compute; reflexivity]. pose proof (no_alive _ _ (proj1 web_start_ok)) as Ha.
    destruct (n_state web_start) as [c w]. exact (nine_alive c w _ Ha).
  - split; [constructor|]. repeat (split; [exact I|]). split; [constructor; [exact new_web_good|constructor; [exact client_good|constructor]]|].
    split; [exact I|]. split; [exact I|]. split; exact I.
Qed.

Definition to_new_web : packet := {| pk_src := [10; 2; 0; 5]%Z; pk_dst := [10; 1; 0; 8]%Z; pk_l4 := TCP 80 |}.
Abbreviation web_moved := (nrun web_moves web_start).

Lemma web_moved_synced : is_ok (syncFlows (n_state web_moved)).1 = true.
Proof. vm_compute. reflexivity. Qed.
Lemma web_moved_pods : idx_List (view_of (n_pods web_moved)) = [new_web; client_pod].
Proof. vm_compute. reflexivity. Qed.
Lemma web_moved_local : pod_is_local (n_state web_moved).1 new_web = true.
Proof. vm_compute. reflexivity. Qed.
Lemma web_moved_gateway : addr_match (gatewayIP (n_state web_moved).1) (pk_dst to_new_web) = false.
Proof. vm_compute. reflexivity. Qed.
Lemma web_moved_block : addr_match (podCIDR (n_state web_moved).1) (pk_dst to_new_web) = true.
Proof. vm_compute. reflexivity. Qed.
Lemma web_moved_allowed : allowed (n_state web_moved).1 to_new_web = true.
Proof. vm_compute. reflexivity. Qed.

(** The pod is on port 9, and its packets go to port 5. *)
Lemma web_on_nine : option_map pi_ofport (match (query_port "default" "web" (n_state web_moved).2).1 with Ok q => Some q | _ => None end) = Some 9%Z.
Proof. vm_compute. reflexivity. Qed.

Lemma port_outlives_pod_witness :
  table_emits (n_state (nstep Ticked web_moved)) to_new_web [ToPort 5 {| rw_dl_dst := podMacAddr; rw_tun_dst := "" |}].
Proof.
  destruct (port_outlives_pod "default/web" web_port web_moves web_start (proj1 web_start_ok) web_moves_ok web_cache_kept) as [_ H].
  apply (H web_moved_synced new_web to_new_web); [..|reflexivity].
  - rewrite web_moved_pods. left.
  - reflexivity.
  - exact web_moved_local.
  - vm_compute. reflexivity.
  - intros pod' Hin Hm. rewrite web_moved_pods in Hin. apply elem_of_cons in Hin as [->|Hin]; [reflexivity|].
    apply list_elem_of_singleton in Hin. subst pod'. vm_compute in Hm. discriminate Hm.
  - exact web_moved_allowed.
  - exact web_moved_gateway.
  - exact web_moved_block.
  - discriminate.
Defined.
