(* ===== verification/Rollout.v ===== *)
(** * From node objects to a cluster

    The join of the controller process with the daemons: the event handlers of
    [VSwitchCfg] run over a history of node objects that come, change and go,
    each with a lister that has caught up, and leave on the API server the
    configs a cluster needs ([history_mirrors]).  Daemons that
    started with the config of their node ([main_started] of [Startup]) and
    whose caches hold the server's configs then form a cluster in the sense of
    [Cluster] ([rollout_cluster]). *)
From S2P Require Import Prelude GoStrings GoNet Exec Objects Labels PortCache Controller Sync Pipeline OvsSim Routing Cluster VSwitchCfg.

(** ** Node events *)

(** A node object with the address and the block its config gets. *)
Record site := { site_node : Node; site_ip : string; site_cidr : string }.

Definition site_name (x : site) : string := node_Name (site_node x).
Definition site_ready (x : site) : Prop := node_ready (site_node x) (site_ip x) (site_cidr x).

Section rollout.
Context {S : Type} `{Laws : VSwitchLaws S}.
Context (v : vswitchConfig).

(** The controller with its informer's copy up to date. *)
Definition caught_up (s : S) : vswitchConfig :=
  NewVSwitchConfigController (view s) (v_overlayType v) (v_clusterCIDR v) (v_serviceCIDR v).

(** The config of a site is on the server. *)
Definition served (s : S) (x : site) : Prop :=
  exists cfg, view s !! site_name x = Some cfg /\
    OverlayIP (vsc_Spec cfg) = site_ip x /\ PodCIDR (vsc_Spec cfg) = site_cidr x.

(** The configs a client can list. *)
Definition server_configs (s : S) : list VSwitchConfig := (map_to_list (view s)).*2.

Lemma in_server_configs s cfg :
  keyed (view s) -> In cfg (server_configs s) <-> view s !! vsc_Name cfg = Some cfg.
Proof.
  intros Hk. unfold server_configs. rewrite <- list_elem_of_In, list_elem_of_fmap. split.
  - intros ([name c] & -> & Hin%elem_of_map_to_list). cbn. by rewrite (Hk _ _ Hin).
  - intros Hv. exists (vsc_Name cfg, cfg). split; [done|]. by apply elem_of_map_to_list.
Qed.

(** ** Histories

    Nodes come, change and go.  A node that has no address or no block yet
    ([Pending]) is an event like another. *)
Inductive happening :=
| Seen (x : site)
| Changed (old : EventObj Node) (x : site)
| Pending (n : Node)
| Gone (n : Node).

Definition happens (s : S) (h : happening) : M S unit :=
  match h with
  | Seen x => OnAdd (caught_up s) (ObjOf (site_node x))
  | Changed old x => OnUpdate (caught_up s) old (ObjOf (site_node x))
  | Pending n => OnAdd (caught_up s) (ObjOf n)
  | Gone n => OnDelete (caught_up s) (ObjOf n)
  end.
Definition after (s : S) (h : happening) : S := (happens s h s).2.

(** What an event is about, and that the API server accepts its call. *)
Definition happening_ok (s : S) (h : happening) : Prop :=
  match h with
  | Seen x | Changed _ x =>
      site_ready x /\ (syncVSwitchConfig (caught_up s) (Some (site_node x)) s).1 = Ok tt
  | Pending n => is_err (nodeOverlayIP n) = true \/ is_err (nodePodCIDR n) = true
  | Gone n => (api_Delete (node_Name n) s).1 = Ok tt
  end.

Fixpoint history_ok (hs : list happening) (s : S) : Prop :=
  match hs with
  | [] => True
  | h :: hs' => happening_ok s h /\ history_ok hs' (after s h)
  end.

(** The specification: the nodes that are there, by name. *)
Definition planned (m : gmap string site) (h : happening) : gmap string site :=
  match h with
  | Seen x | Changed _ x => <[site_name x := x]> m
  | Pending _ => m
  | Gone n => delete (node_Name n) m
  end.

(** The names whose config the history has decided. *)
Definition decided (D : gset string) (h : happening) : gset string :=
  match h with
  | Seen x | Changed _ x => {[site_name x]} ∪ D
  | Pending _ => D
  | Gone n => {[node_Name n]} ∪ D
  end.

(** The server agrees with the plan on the decided names; the others are as
    they were in [v0]. *)
Record mirrors (v0 : gmap string VSwitchConfig) (D : gset string) (m : gmap string site) (s : S) : Prop := {
  mir_keyed : keyed (view s);
  mir_plan name x : m !! name = Some x -> name = site_name x /\ name ∈ D /\ site_ready x /\ served s x;
  mir_gone name : name ∈ D -> m !! name = None -> view s !! name = None;
  mir_other name : name ∉ D -> view s !! name = v0 !! name
}.

Lemma mirrors_set v0 D m s s' x cfg :
  mirrors v0 D m s -> site_ready x -> view s' = <[site_name x := cfg]> (view s) ->
  vsc_Name cfg = site_name x -> OverlayIP (vsc_Spec cfg) = site_ip x -> PodCIDR (vsc_Spec cfg) = site_cidr x ->
  mirrors v0 ({[site_name x]} ∪ D) (<[site_name x := x]> m) s'.
Proof.
  intros [Hk Hp Hg Ho] Hr Hv Hn Hi Hc. split.
  - rewrite Hv. by apply map_Forall_insert_2.
  - intros name y. rewrite lookup_insert_Some. intros [[<- <-]|[Hne Hy]].
    + split; [done|]. split; [by apply elem_of_union_l, elem_of_singleton_2|]. split; [done|]. exists cfg. by rewrite Hv, lookup_insert_eq.
    + destruct (Hp name y Hy) as (-> & HD & Hry & c & Hcy). split; [done|]. split; [by apply elem_of_union_r|]. split; [done|].
      exists c. by rewrite Hv, lookup_insert_ne.
  - intros name [<-%elem_of_singleton|HD]%elem_of_union [Hm Hne]%lookup_insert_None; [done|].
    rewrite Hv, lookup_insert_ne by done. by apply Hg.
  - intros name [Hne%not_elem_of_singleton HD]%not_elem_of_union.
    rewrite Hv, lookup_insert_ne by done. by apply Ho.
Qed.

Lemma mirrors_delete v0 D m s s' name :
  mirrors v0 D m s -> view s' = delete name (view s) -> mirrors v0 ({[name]} ∪ D) (delete name m) s'.
Proof.
  intros [Hk Hp Hg Ho] Hv. split.
  - rewrite Hv. by apply map_Forall_delete.
  - intros nm y [Hne Hy]%lookup_delete_Some. destruct (Hp nm y Hy) as (-> & HD & Hr & c & Hc).
    split; [done|]. split; [by apply elem_of_union_r|]. split; [done|]. exists c. by rewrite Hv, lookup_delete_ne.
  - intros nm HD Hm. rewrite Hv. destruct (decide (name = nm)) as [->|Hne]; [by rewrite lookup_delete_eq|].
    rewrite lookup_delete_ne by done. rewrite lookup_delete_ne in Hm by done. apply Hg; [|done].
    by apply elem_of_union in HD as [->%elem_of_singleton|].
  - intros nm [Hne%not_elem_of_singleton HD]%not_elem_of_union.
    rewrite Hv, lookup_delete_ne by done. by apply Ho.
Qed.

Lemma Pending_nothing n s :
  is_err (nodeOverlayIP n) = true \/ is_err (nodePodCIDR n) = true -> after s (Pending n) = s.
Proof.
  intros Herr. unfold after, happens, OnAdd, type_assert, check_and_sync, try_m, lift, mbind, M_bind.
  destruct (needsUpdate _ _) as [[|]|e|] eqn:Hn; try done. cbn. unfold logged.
  pose proof (syncVSwitchConfig_unready (caught_up s) n s Herr) as [He Hs].
  destruct (syncVSwitchConfig _ _ s) as [[|e|] s1]; cbn in *; by subst.
Qed.

Lemma happens_mirrors v0 D m s h :
  mirrors v0 D m s -> happening_ok s h -> mirrors v0 (decided D h) (planned m h) (after s h).
Proof.
  intros Hm Hok. assert (Hset : forall x s', site_ready x ->
      (syncVSwitchConfig (caught_up s) (Some (site_node x)) s).1 = Ok tt ->
      s' = (check_and_sync (caught_up s) (Some (site_node x)) s).2 ->
      mirrors v0 ({[site_name x]} ∪ D) (<[site_name x := x]> m) s').
  { intros x s' Hr Hs ->.
    destruct (node_event (caught_up s) _ _ _ s Hr (mir_keyed _ _ _ _ Hm) eq_refl Hs) as (cfg & Hv & Hn & Hi & _ & Hc & _).
    by apply (mirrors_set v0 D m s _ x cfg). }
  destruct h as [x|old x|n|n]; cbn [decided planned].
  - destruct Hok as [Hr Hs]. by apply Hset.
  - destruct Hok as [Hr Hs]. by apply Hset.
  - by rewrite Pending_nothing.
  - apply (mirrors_delete _ _ _ s); [done|]. unfold happening_ok in Hok.
    unfold after, happens, OnDelete, type_assert, lift, deref, mbind, M_bind, logged. cbn.
    destruct (api_Delete (node_Name n) s) as [[[]|e|] s1] eqn:Hd; try done.
    by apply (delete_law (node_Name n) s tt).
Qed.

Lemma history_mirrors v0 hs : forall D m s,
  mirrors v0 D m s -> history_ok hs s ->
  mirrors v0 (fold_left decided hs D) (fold_left planned hs m) (fold_left after hs s).
Proof.
  induction hs as [|h hs IH]; intros D m s Hm Hok; [done|]. destruct Hok as [Hh Hok].
  cbn [fold_left]. apply IH; [|done]. by apply happens_mirrors.
Qed.

(** ** The cluster that results *)

(** What the administrator has to see to: the addresses of the nodes are
    distinct and outside the blocks, and the blocks are disjoint. *)
Record plan_ok (P : site -> Prop) : Prop := {
  plan_ips x y : P x -> P y -> site_ip x = site_ip y -> x = y;
  plan_blocks x y a : length a = 4 -> P x -> P y ->
    addr_match (site_cidr x) a = true -> addr_match (site_cidr y) a = true -> x = y;
  plan_apart x y a : length a = 4 -> P x -> P y ->
    addr_match (site_ip x) a = true -> addr_match (site_cidr y) a = false
}.

(** A node whose daemon has started: it serves the block of its config, its
    informer has caught up, and the switch has given its overlay port a
    number. *)
Record node_up {W} (s : S) (n : cnode (W := W)) : Prop := {
  up_config : exists cfg, view s !! nodeName (cn_ctl n) = Some cfg /\ podCIDR (cn_ctl n) = PodCIDR (vsc_Spec cfg);
  up_cache cfg : In cfg (idx_List (vswitchLister (cn_ctl n))) <-> In cfg (server_configs s);
  up_port : (overlayOFPort (cn_ctl n) <> 0)%Z
}.

Lemma nodeOverlayIP_ne n ip : nodeOverlayIP n = Ok ip -> ip <> "".
Proof.
  unfold nodeOverlayIP. destruct (node_ips _ _ _) as [i e].
  repeat case_bool_decide; cbn; congruence.
Qed.

(** The nodes that are there after a history. *)
Definition present (hs : list happening) (x : site) : Prop :=
  fold_left planned hs ∅ !! site_name x = Some x.

(** The configs on the server are those of the nodes that are there. *)
Lemma present_config hs s cfg :
  keyed (view s) -> (forall name, is_Some (view s !! name) -> name ∈ fold_left decided hs ∅) -> history_ok hs s ->
  In cfg (server_configs (fold_left after hs s)) ->
  exists x, present hs x /\ site_ready x /\ view (fold_left after hs s) !! site_name x = Some cfg /\
    OverlayIP (vsc_Spec cfg) = site_ip x /\ PodCIDR (vsc_Spec cfg) = site_cidr x.
Proof.
  intros Hk Hdom Hok Hin.
  assert (Hm : mirrors (view s) ∅ ∅ s) by (by split; [| |set_solver +|]).
  apply (history_mirrors _ hs) in Hm as [Hk' Hp Hg Ho]; [|done].
  apply in_server_configs in Hin; [|done]. set (name := vsc_Name cfg) in *.
  assert (HD : name ∈ fold_left decided hs ∅).
  { destruct (decide (name ∈ fold_left decided hs ∅)) as [|HD]; [done|]. apply Hdom. by rewrite <- (Ho _ HD). }
  destruct (fold_left planned hs ∅ !! name) as [x|] eqn:Hx; [|by rewrite (Hg _ HD Hx) in Hin].
  destruct (Hp _ _ Hx) as (Hname & _ & Hr & c & Hc & Hi & Hb). exists x. unfold present.
  rewrite <- Hname. rewrite <- Hname in Hc. rewrite Hin in Hc. by injection Hc as <-.
Qed.

(** Configs that belong to the sites of a plan make a cluster. *)
Lemma cluster_of_plan {W} (P : site -> Prop) s' (net : list (cnode (W := W))) :
  keyed (view s') -> plan_ok P ->
  (forall cfg, In cfg (server_configs s') -> exists x, P x /\ site_ready x /\ view s' !! site_name x = Some cfg /\
     OverlayIP (vsc_Spec cfg) = site_ip x /\ PodCIDR (vsc_Spec cfg) = site_cidr x) ->
  Forall (node_up s') net ->
  (forall n m, In n net -> In m net -> nodeName (cn_ctl n) = nodeName (cn_ctl m) -> n = m) ->
  cluster_ok net (server_configs s').
Proof.
  intros Hk' Hp Hsite Hup Hnames.
  assert (Hup' : forall n, In n net -> node_up s' n).
  { intros n Hn. by apply (proj1 (Forall_forall _ _) Hup), list_elem_of_In. }
  split; try done.
  - intros n Hn cfg. by apply up_cache, Hup'.
  - intros n Hn. destruct (up_config _ _ (Hup' n Hn)) as (cfg & Hcfg & Hblock). exists cfg.
    pose proof (Hk' _ _ Hcfg) as Hname. cbn in Hname. split; [|by split].
    apply in_server_configs; [done|]. by rewrite Hname.
  - intros c c' a Ha (x & Hx & _ & Hv & _ & Hc)%Hsite (x' & Hx' & _ & Hv' & _ & Hc')%Hsite. rewrite Hc, Hc'.
    intros Hmx Hmx'. pose proof (plan_blocks _ Hp x x' a Ha Hx Hx' Hmx Hmx') as ->. congruence.
  - intros c c' (x & Hx & _ & Hv & Hi & _)%Hsite (x' & Hx' & _ & Hv' & Hi' & _)%Hsite He.
    pose proof (plan_ips _ Hp x x' Hx Hx' ltac:(congruence)) as ->. congruence.
  - intros c (x & Hx & Hr & _ & -> & _)%Hsite. apply (nodeOverlayIP_ne (site_node x)), Hr.
  - intros c c' a Ha (x & Hx & _ & _ & -> & _)%Hsite (x' & Hx' & _ & _ & _ & ->)%Hsite.
    by apply (plan_apart _ Hp).
  - intros n Hn. by apply (up_port _ _ (Hup' n Hn)).
Qed.

(** The controller process builds the cluster.  After any history of
    nodes that appear, change, wait for their block and go, in which the API
    server accepts the calls, whatever stale configs of nodes of the history it
    held before, the server has configs with which the nodes that are there,
    once their daemons have started, form a cluster; provided that the plan of
    those nodes makes sense. *)
Theorem rollout_cluster {W} hs s (net : list (cnode (W := W))) :
  keyed (view s) -> (forall name, is_Some (view s !! name) -> name ∈ fold_left decided hs ∅) ->
  history_ok hs s -> plan_ok (present hs) ->
  Forall (node_up (fold_left after hs s)) net ->
  (forall n m, In n net -> In m net -> nodeName (cn_ctl n) = nodeName (cn_ctl m) -> n = m) ->
  cluster_ok net (server_configs (fold_left after hs s)).
Proof.
  intros Hk Hdom Hok Hp Hup Hnames. apply (cluster_of_plan (present hs)); try done; [|intros cfg; by apply present_config].
  assert (Hm : mirrors (view s) ∅ ∅ s) by (by split; [| |set_solver +|]).
  exact (mir_keyed _ _ _ _ (history_mirrors _ hs _ _ _ Hm Hok)).
Qed.
End rollout.

(** ** Witness *)

#[local] Existing Instance map_api.
#[local] Existing Instance map_laws.
#[local] Existing Instance ovs_exec.

Definition site_a : site :=
  {| site_node := demo_k8s_node; site_ip := "172.20.0.1"; site_cidr := "10.1.0.0/24" |}.
Definition site_b : site :=
  {| site_node := {| node_Name := "node-b"; node_PodCIDR := "10.2.0.0/24";
       node_Addresses := [{| na_Type := NodeExternalIP; na_Address := "172.20.0.2" |}] |};
     site_ip := "172.20.0.2"; site_cidr := "10.2.0.0/24" |}.

(** The config of the first node is left from an earlier run, with another
    block and address. *)
Definition stale : gmap string VSwitchConfig :=
  {["node-a" := demo_node "node-a" "10.9.0.0/24" "172.20.0.9"]}.

(** A third node that comes and goes, and the second before it has a block. *)
Definition site_c : site :=
  {| site_node := {| node_Name := "node-c"; node_PodCIDR := "10.1.0.0/24";
       node_Addresses := [{| na_Type := NodeInternalIP; na_Address := "172.20.0.3" |}] |};
     site_ip := "172.20.0.3"; site_cidr := "10.1.0.0/24" |}.
Definition bare_b : Node :=
  {| node_Name := "node-b"; node_PodCIDR := ""; node_Addresses := node_Addresses (site_node site_b) |}.

Definition demo_history : list happening :=
  [Pending bare_b; Seen site_c; Gone (site_node site_c); Seen site_a; Changed (ObjOf bare_b) site_b].

Lemma demo_present x : present demo_history x -> x = site_a \/ x = site_b.
Proof.
  assert (fold_left planned demo_history ∅ = <["node-b" := site_b]> {["node-a" := site_a]}) as Hm
    by (vm_compute; reflexivity).
  unfold present. rewrite Hm. intros [[_ <-]|[_ [_ <-]%lookup_singleton_Some]]%lookup_insert_Some; auto.
Qed.

Lemma demo_plan : plan_ok (present demo_history).
Proof.
  split.
  - by intros x y [-> | ->]%demo_present [-> | ->]%demo_present.
  - intros x y a Ha [-> | ->]%demo_present [-> | ->]%demo_present; try done; cbn; intros H1 H2.
    + by rewrite (demo_blocks a Ha H1) in H2.
    + by rewrite (demo_blocks a Ha H2) in H1.
  - assert (Hcfg : forall x, x = site_a \/ x = site_b -> exists c, In c demo_cfgs /\
      OverlayIP (vsc_Spec c) = site_ip x /\ PodCIDR (vsc_Spec c) = site_cidr x).
    { intros x [-> | ->].
      - exists (demo_node "node-a" "10.1.0.0/24" "172.20.0.1"). split; [by left|done].
      - exists node_b. split; [by right; left|done]. }
    intros x y a _ (c & Hc & <- & _)%demo_present%Hcfg (c' & Hc' & _ & <-)%demo_present%Hcfg.
    by apply demo_apart.
Qed.

Lemma demo_rollout : server_configs (fold_left (after (demo_v ∅)) demo_history stale) = demo_cfgs.
Proof. vm_compute. reflexivity. Qed.

Lemma demo_up : Forall (node_up (fold_left (after (demo_v ∅)) demo_history stale)) [node_1; node_2].
Proof.
  assert (forall c, c = demo \/ c = demo_b ->
    node_up (W := ovs) (fold_left (after (demo_v ∅)) demo_history stale) {| cn_ctl := c; cn_world := ovs_one |}) as H.
  { intros c Hc. split.
    - destruct Hc as [-> | ->]; eexists; (split; [vm_compute; reflexivity|reflexivity]).
    - rewrite demo_rollout. by destruct Hc as [-> | ->].
    - by destruct Hc as [-> | ->]. }
  constructor; [by apply H; left|]. constructor; [by apply H; right|done].
Qed.

Lemma rollout_cluster_witness :
  cluster_ok [node_1; node_2] (server_configs (fold_left (after (demo_v ∅)) demo_history stale)).
Proof.
  apply (rollout_cluster (demo_v ∅) demo_history stale).
  - apply map_Forall_singleton. reflexivity.
  - intros name [c Hc]. change (stale !! name = Some c) in Hc.
    unfold stale in Hc. apply lookup_singleton_Some in Hc as [<- _].
    apply (bool_decide_eq_true_1 (_ ∈ _)). vm_compute. reflexivity.
  - do 4 (split; [first [right; reflexivity|vm_compute; reflexivity|split; vm_compute; split; reflexivity|split; [split; reflexivity|vm_compute; reflexivity]]|]).
    split; [|exact I]. split; [split; reflexivity|vm_compute; reflexivity].
  - exact demo_plan.
  - exact demo_up.
  - by intros n m [<-|[<-|[]]] [<-|[<-|[]]].
Defined.
