(* ===== verification/System.v ===== *)
(** * The whole system

    The API server, the controller process and the daemons, joined through
    their informers ([Watch]).

    The controller process handles what its node informer tells it ([serve]):
    after a run in which the watch reports all deletions, the configs on the
    server are those of the nodes there ([ctl_follows_server]); a deletion that
    the watch missed kills the process, and the one that is started in its place
    never learns of it ([missed_node_deletion]).

    The daemons ([Node]) told of these configs, and of the pods and policies,
    have switches that together deliver packets as the objects on the server
    say ([system_delivers]). *)
From S2P Require Import Prelude GoStrings GoNet Exec Objects Labels Store DeltaFifo Watch Flows PortCache Controller NetPol Sync Readback Pipeline Verdict OvsSim Routing Life Cluster Motion VSwitchCfg Node Rollout.

(** ** The controller process *)

(** A failed call of the API server changes no other object either. *)
Class VSwitchIsolated (S : Type) `{VSwitchLaws S} := {
  create_only cfg s r s' name : api_Create cfg s = (r, s') -> name <> vsc_Name cfg -> view s' !! name = view s !! name;
  update_only cfg s r s' name : api_Update cfg s = (r, s') -> name <> vsc_Name cfg -> view s' !! name = view s !! name;
  delete_only nm s r s' name : api_Delete nm s = (r, s') -> name <> nm -> view s' !! name = view s !! name
}.

Section ctl.
Context {S : Type} `{Laws : VSwitchLaws S}.
Context (v : vswitchConfig).

(** The handlers that the controller registers for nodes, with the config
    lister of the moment. *)
Definition handled (x : gmap string VSwitchConfig * notification Node) : M S unit :=
  let v := NewVSwitchConfigController x.1 (v_overlayType v) (v_clusterCIDR v) (v_serviceCIDR v) in
  match x.2 with
  | addNotification obj => OnAdd v obj
  | updateNotification old obj => OnUpdate v old obj
  | deleteNotification obj => OnDelete v obj
  end.
Definition serve (l : list (gmap string VSwitchConfig * notification Node)) : M S unit := for_range l handled.

(** The lister is current, and the API server does what it is asked; the
    deletion of a config that is not there may fail. *)
Definition accepted_one (x : gmap string VSwitchConfig * notification Node) (s : S) : Prop :=
  x.1 = view s /\
  match x.2 with
  | addNotification (ObjOf n) | updateNotification _ (ObjOf n) =>
      forall ip cidr, node_ready n ip cidr -> (syncVSwitchConfig (caught_up v s) (Some n) s).1 = Ok tt
  | deleteNotification (ObjOf n) => view (api_Delete (node_Name n) s).2 = delete (node_Name n) (view s) /\
      (api_Delete (node_Name n) s).1 <> Panic
  | _ => True
  end.
Fixpoint accepted (l : list (gmap string VSwitchConfig * notification Node)) (s : S) : Prop :=
  match l with [] => True | x :: l' => accepted_one x s /\ accepted l' (handled x s).2 end.

(** The watch reported every deletion. *)
Definition reported (n : notification Node) : Prop :=
  match n with deleteNotification (ObjOf _) => True | deleteNotification _ => False | _ => True end.

(** The node that a notification is about. *)
Definition note_names (n : notification Node) : gset string :=
  match n with
  | addNotification (ObjOf t) | updateNotification _ (ObjOf t) | deleteNotification (ObjOf t) => {[node_Name t]}
  | _ => ∅
  end.

(** The configs of the nodes there: those of ready nodes are as wanted, a node
    of [D] that is not there has none, and no others have one but those of [D0]. *)
Record configs_of (D0 D : gset string) (m : gmap string Node) (s : S) : Prop := {
  co_keyed : keyed (view s);
  co_dom : dom (view s) ⊆ D ∪ D0;
  co_ready name n ip cidr : m !! name = Some n -> node_ready n ip cidr ->
    exists cfg, view s !! name = Some cfg /\ up_to_date (vsc_Spec cfg) (wanted v ip cidr);
  co_gone name : name ∈ D -> m !! name = None -> view s !! name = None
}.

Lemma node_key n : object_key n = node_Name n.
Proof. done. Qed.

(** A node that was added or updated. *)
Lemma seen_configs D0 D m s n :
  configs_of D0 D m s ->
  (forall ip cidr, node_ready n ip cidr -> (syncVSwitchConfig (caught_up v s) (Some n) s).1 = Ok tt) ->
  exists s', OnAdd (caught_up v s) (ObjOf n) s = (Ok tt, s') /\
    configs_of D0 ({[node_Name n]} ∪ D) (<[node_Name n := n]> m) s'.
Proof.
  intros [Hk Hd Hr Hg] Hacc. pose proof (nodeOverlayIP_no_panic n) as Hnp.
  assert (Hcase : (exists ip cidr, node_ready n ip cidr) \/ is_err (nodeOverlayIP n) = true \/ is_err (nodePodCIDR n) = true).
  { unfold node_ready. destruct (nodeOverlayIP n) as [ip| |]; [|by right; left|done].
    unfold nodePodCIDR. case_bool_decide; cbn; [by right; right|left; by eexists _, _]. }
  destruct Hcase as [(ip & cidr & Hready)|Herr].
  - destruct (node_event (caught_up v s) n ip cidr s Hready Hk eq_refl (Hacc _ _ Hready)) as (cfg & Hv & Hn & Hup).
    assert (Hok : (OnAdd (caught_up v s) (ObjOf n) s).1 = Ok tt).
    { unfold OnAdd, type_assert. destruct (view s !! node_Name n) as [c|] eqn:Hl.
      - rewrite (check_and_sync_run _ _ _ _ (needsUpdate_present (caught_up v s) n ip cidr Hready c Hl)).
        destruct (negb _); [|done]. unfold logged. pose proof (Hacc _ _ Hready) as Ha. by destruct (syncVSwitchConfig _ _ s) as [[| |] ?].
      - rewrite (check_and_sync_run _ _ _ _ (needsUpdate_absent (caught_up v s) n Hl)).
        unfold logged. pose proof (Hacc _ _ Hready) as Ha. by destruct (syncVSwitchConfig _ _ s) as [[| |] ?]. }
    destruct (OnAdd (caught_up v s) (ObjOf n) s) as [r s']. cbn [fst snd] in *. subst r. exists s'. split; [done|]. split.
    + rewrite Hv. by apply map_Forall_insert_2.
    + rewrite Hv, dom_insert_L. set_solver +Hd.
    + intros name y ip' cidr' [[<- <-]|[Hne Hy]]%lookup_insert_Some Hry; rewrite Hv.
      * rewrite lookup_insert_eq. exists cfg. split; [done|]. destruct Hready as [Hi Hc], Hry as [Hi' Hc'].
        rewrite Hi in Hi'. rewrite Hc in Hc'. by injection Hi' as <-; injection Hc' as <-.
      * rewrite lookup_insert_ne by done. by apply (Hr name y).
    + intros name HD [Hm Hne]%lookup_insert_None. rewrite Hv, lookup_insert_ne by done. apply Hg; [|done].
      apply elem_of_union in HD as [HD%elem_of_singleton|]; [by destruct Hne|done].
  - pose proof (Pending_nothing v n s Herr) as Hp. unfold after, happens in Hp.
    exists s. split.
    + assert (Hok : (OnAdd (caught_up v s) (ObjOf n) s).1 = Ok tt).
      { unfold OnAdd, type_assert, check_and_sync, try_m, lift, mbind, M_bind.
        destruct (needsUpdate _ _) as [[|]|e|] eqn:Hn; try done.
        - cbn. unfold logged. destruct (syncVSwitchConfig_unready (caught_up v s) n s Herr) as [He _].
          by destruct (syncVSwitchConfig _ _ s) as [[| |] ?].
        - exfalso. revert Hn. unfold needsUpdate. cbn. unfold Lister_Get. destruct (view s !! node_Name n); cbn; [|done].
          unfold nodePodCIDR. destruct (nodeOverlayIP n); [|done..]. cbn. by case_bool_decide. }
      destruct (OnAdd (caught_up v s) (ObjOf n) s) as [r s']. cbn [fst snd] in *. by subst.
    + split; [done|set_solver +Hd| |].
      * intros name y ip cidr [[<- <-]|[Hne Hy]]%lookup_insert_Some [Hi Hc]; [|by apply (Hr name y)].
        exfalso. rewrite Hi, Hc in Herr. by destruct Herr.
      * intros name HD [Hm Hne]%lookup_insert_None. apply Hg; [|done].
        apply elem_of_union in HD as [HD%elem_of_singleton|]; [by destruct Hne|done].
Qed.

Abbreviation any := (fun _ : Node => True).

Lemma handled_configs D0 D m s x :
  configs_of D0 D m s -> accepted_one x s -> note_ok any any x.2 -> reported x.2 ->
  exists s', handled x s = (Ok tt, s') /\ configs_of D0 (note_names x.2 ∪ D) (apply_note m x.2) s'.
Proof.
  destruct x as [l n]. intros Hc [Hl Hacc] Hok Hrep. cbn [fst snd] in *. subst l.
  destruct n as [old o|o|o]; cbn [note_ok reported] in *.
  - destruct Hok as (n & -> & _). exact (seen_configs D0 D m s n Hc Hacc).
  - destruct Hok as (n & -> & _). exact (seen_configs D0 D m s n Hc Hacc).
  - destruct o as [n|k o|]; [|done..]. destruct Hacc as [Hv Hnp]. unfold handled, OnDelete. cbn -[apply_note].
    unfold lift, deref, mbind, M_bind, logged. cbn -[apply_note].
    destruct (api_Delete (node_Name n) s) as [r s'] eqn:Hd. cbn [fst snd] in *.
    exists s'. split; [by destruct r|]. destruct Hc as [Hk Hdm Hr Hg].
    change (apply_note m (deleteNotification (ObjOf n))) with (delete (node_Name n) m). split.
    + rewrite Hv. by apply map_Forall_delete.
    + rewrite Hv, dom_delete_L. set_solver +Hdm.
    + intros name y ip cidr [Hne Hy]%lookup_delete_Some Hry. rewrite Hv, lookup_delete_ne by done. by apply (Hr name y).
    + intros name HD Hm. rewrite Hv. destruct (decide (name = node_Name n)) as [->|Hne]; [by rewrite lookup_delete_eq|].
      rewrite lookup_delete_ne in Hm by done. rewrite lookup_delete_ne by done. apply Hg; [|done].
      by apply elem_of_union in HD as [HD%elem_of_singleton|].
Qed.

Lemma serve_configs D0 l : forall D m s,
  configs_of D0 D m s -> accepted l s -> Forall (note_ok any any) l.*2 -> Forall reported l.*2 ->
  exists s', serve l s = (Ok tt, s') /\
    configs_of D0 (⋃ (note_names <$> l.*2) ∪ D) (foldl apply_note m l.*2) s'.
Proof.
  induction l as [|x l IH]; intros D m s Hc Hacc Hok Hrep.
  - exists s. split; [done|]. cbn. by rewrite (left_id_L ∅ union).
  - destruct Hacc as [Hx Hacc]. inversion Hok; inversion Hrep; subst.
    destruct (handled_configs D0 D m s x Hc Hx) as (s1 & Hrun1 & Hc1); [done..|]. rewrite Hrun1 in Hacc.
    destruct (IH _ _ s1 Hc1 Hacc) as (s' & Hrun & Hc'); [done..|]. exists s'. split.
    + unfold serve. cbn [for_range]. unfold mbind, M_bind. by rewrite Hrun1.
    + assert (⋃ (note_names <$> (x :: l).*2) ∪ D = ⋃ (note_names <$> l.*2) ∪ (note_names x.2 ∪ D)) as ->; [|done].
      cbn. set_solver.
Qed.

(** A run of the process: its informer's steps, and the notifications it has
    handled, which are all. *)
Record ctl_run (acts : list (iact Node)) (l : list (gmap string VSwitchConfig * notification Node)) (s : S) : Prop := {
  cr_objects : Forall (iact_objects any any) acts;
  cr_safe : iacts_safe acts (NewSharedIndexInformer namespace_indexers 1);
  cr_drained : f_queue (in_fifo (isteps acts (NewSharedIndexInformer namespace_indexers 1))) = [];
  cr_given : l.*2 = given (isteps acts (NewSharedIndexInformer namespace_indexers 1));
  cr_reported : Forall reported l.*2;
  cr_keyed : keyed (view s);
  cr_accepted : accepted l s
}.

(** The nodes that have been heard of. *)
Definition heard_names (l : list (gmap string VSwitchConfig * notification Node)) : gset string := ⋃ (note_names <$> l.*2).

Lemma no_configs s : keyed (view s) -> configs_of (dom (view s)) ∅ ∅ s.
Proof. intros Hk. split; [done|by rewrite (left_id_L ∅ union)|done|done]. Qed.

Lemma ctl_follows acts l s :
  ctl_run acts l s ->
  let told := foldl told_view ∅ acts in
  exists s', serve l s = (Ok tt, s') /\ configs_of (dom (view s)) (heard_names l) told s' /\
    forall name n, told !! name = Some n -> node_Name n = name.
Proof.
  intros [Hobj Hs Hq Hl Hrep Hk Hacc] told. set (i0 := NewSharedIndexInformer namespace_indexers 1) in *.
  assert (Hix : forall t : Node, indexable namespace_indexers (ObjOf t)).
  { intros t. apply map_Forall_singleton. by exists [GetNamespace t]. }
  destruct (new_informer_ok any any namespace_indexers 1 Hix) as [Hok0 Hm0]. fold i0 in Hok0, Hm0.
  pose proof (drained_told any any acts i0 ∅ Hobj Hok0 Hm0 Hs Hq) as Htold. fold told in Htold.
  destruct (isteps_ok any any acts i0 Hobj Hok0) as (Hok & _ & ns & Hgiv & Hrep' & Hnok).
  assert (Hns : l.*2 = ns true) by (rewrite Hl; unfold given; by rewrite Hgiv).
  destruct (serve_configs (dom (view s)) l ∅ ∅ s) as (s' & Hrun & Hc); [by apply no_configs|done|rewrite Hns; apply Hnok|done|].
  assert (cached i0 = ∅) as Hc0 by (unfold cached, i0; unfold Watch.stored; cbn; by rewrite omap_empty).
  exists s'. split; [done|]. split.
  - rewrite (right_id_L ∅ union) in Hc. unfold heard_names. rewrite Hns in Hc at 2. by rewrite <- Hc0, Hrep', Htold in Hc.
  - intros name n Hn. rewrite <- Htold in Hn. exact (stored_key _ _ _ (iok_typed _ (inf_indexer _ _ _ Hok)) Hn).
Qed.


(** *** A deletion that the watch missed *)

Lemma handled_no_err x s : (handled x s).1 = Ok tt \/ (handled x s).1 = Panic.
Proof.
  assert (Hl : forall A (m : M S A) s, (logged m s).1 = Ok tt \/ (logged m s).1 = Panic).
  { intros A m s0. unfold logged. destruct (m s0) as [[| |] ?]; auto. }
  assert (Hc : forall w n s, (check_and_sync w n s).1 = Ok tt \/ (check_and_sync w n s).1 = Panic).
  { intros w n s0. unfold check_and_sync, try_m, lift, mbind, M_bind. destruct (needsUpdate w n) as [[]| |]; auto. }
  destruct x as [l [old o|o|o]]; unfold handled; cbn [fst snd].
  - apply Hc.
  - unfold OnAdd. destruct (type_assert o); [apply Hc|by left].
  - unfold OnDelete. destruct (type_assert o); [|by right]. unfold lift, deref, mbind, M_bind. apply Hl.
Qed.

(** A handler that panics ends the process, whatever came before. *)
Lemma serve_panic l x : forall s, x ∈ l -> (forall s, (handled x s).1 = Panic) -> (serve l s).1 = Panic.
Proof.
  induction l as [|y l IH]; intros s Hin Hx; [by apply elem_of_nil in Hin|].
  unfold serve. cbn [for_range]. unfold mbind, M_bind. destruct (handled_no_err y s) as [Hy|Hy].
  - apply elem_of_cons in Hin as [->|Hin]; [by rewrite Hx in Hy|].
    destruct (handled y s) as [r s1]. cbn in Hy. subst r. by apply IH.
  - by destruct (handled y s) as [[| |] s1].
Qed.

Lemma syncVSwitchConfig_only `{!VSwitchIsolated S} w n s name :
  keyed (v_vswitchLister w) -> name <> node_Name n -> view (syncVSwitchConfig w (Some n) s).2 !! name = view s !! name.
Proof.
  intros Hk Hne. unfold syncVSwitchConfig. unfold lift, mbind, M_bind. cbn [deref].
  destruct (wrap_err _ (nodeOverlayIP n)) as [ip| |]; [|done..].
  destruct (wrap_err _ (nodePodCIDR n)) as [cidr| |]; [|done..].
  unfold Lister_Get. destruct (v_vswitchLister w !! node_Name n) as [cfg|] eqn:Hl; cbn.
  - pose proof (Hk _ _ Hl) as Hn. cbn in Hn. destruct (api_Update _ s) as [r s'] eqn:Hu.
    assert (view s' !! name = view s !! name) by (eapply update_only; [exact Hu|by rewrite Hn]). by destruct r.
  - destruct (api_Create _ s) as [r s'] eqn:Hu.
    assert (view s' !! name = view s !! name) by (eapply create_only; [exact Hu|done]). by destruct r.
Qed.

(** A notification about other nodes leaves a config as it is. *)
Lemma handled_only `{!VSwitchIsolated S} x s name :
  keyed x.1 -> note_ok (fun n => node_Name n <> name) (fun n => node_Name n <> name) x.2 ->
  view (handled x s).2 !! name = view s !! name.
Proof.
  intros Hk Hok. destruct x as [l n]. cbn [fst snd] in *.
  assert (Hc : forall n, node_Name n <> name ->
    view (check_and_sync (NewVSwitchConfigController l (v_overlayType v) (v_clusterCIDR v) (v_serviceCIDR v)) (Some n) s).2 !! name = view s !! name).
  { intros t Ht. unfold check_and_sync, try_m, lift, mbind, M_bind. destruct (needsUpdate _ _) as [[]| |]; try done.
    unfold logged. pose proof (syncVSwitchConfig_only (NewVSwitchConfigController l (v_overlayType v) (v_clusterCIDR v) (v_serviceCIDR v)) t s name Hk (not_eq_sym Ht)) as Hs.
    by destruct (syncVSwitchConfig _ _ s) as [[| |] ?]. }
  destruct n as [old o|o|o]; cbn [note_ok] in Hok; unfold handled; cbn [fst snd].
  - destruct Hok as (t & -> & Ht). by apply Hc.
  - destruct Hok as (t & -> & Ht). by apply Hc.
  - unfold OnDelete. destruct o as [t| |]; [|done..]. unfold lift, mbind, M_bind, logged. cbn.
    destruct (api_Delete (node_Name t) s) as [r s'] eqn:Hd.
    assert (view s' !! name = view s !! name) by (eapply delete_only; [exact Hd|by apply not_eq_sym, Hok]). by destruct r.
Qed.

Lemma serve_only `{!VSwitchIsolated S} l name : forall s,
  Forall (fun x => keyed x.1) l -> Forall (note_ok (fun n => node_Name n <> name) (fun n => node_Name n <> name)) l.*2 ->
  view (serve l s).2 !! name = view s !! name.
Proof.
  induction l as [|x l IH]; intros s Hk Hok; [done|]. inversion Hk; inversion Hok; subst.
  unfold serve. cbn [for_range]. unfold mbind, M_bind. pose proof (handled_only x s name ltac:(done) ltac:(done)) as H1.
  destruct (handled x s) as [[] s1]; [|done..]. rewrite <- H1. by apply IH.
Qed.

End ctl.

(** ** The daemons of a cluster *)

Section system.
Context {S : Type} `{Laws : VSwitchLaws S}.
Context (v : vswitchConfig).
Context {W : Type} `{HTable : FlowTable W}.

(** A daemon: how it started, and what happened to it since. *)
Record member := { m_start : controller * W; m_acts : list (nact (W := W)) }.
Definition m_end (m : member) : node (W := W) := nrun (m_acts m) (fresh_node (m_start m)).

(** The table of its switch after one more resync. *)
Definition m_table (m : member) : list Flow := the_table (n_state (nstep Ticked (m_end m))).

(** What the server says the node should be. *)
Definition m_spec (m : member) : cnode (W := W) :=
  {| cn_ctl := set_stores (server_stores (m_acts m)) (n_state (m_end m)).1; cn_world := (n_state (m_end m)).2 |}.

(** The daemon started with the config of its node among [V], has been told
    [V], has nothing queued, and its next resync gets through. *)
Record member_ok (V : gmap string VSwitchConfig) (m : member) : Prop := {
  mo_alive : alive (m_start m);
  mo_acts : nacts_ok (fun _ => True) (m_acts m) (fresh_node (m_start m));
  mo_lists : lists_safe (m_acts m) (fresh_node (m_start m));
  mo_drained : drained_node (m_end m) = true;
  mo_synced : is_ok (syncFlows (n_state (m_end m))).1 = true;
  mo_told : foldl told_view ∅ (vswitch_iacts (m_acts m)) = V;
  mo_config : exists cfg, V !! nodeName (m_start m).1 = Some cfg /\ podCIDR (m_start m).1 = PodCIDR (vsc_Spec cfg);
  mo_port : (overlayOFPort (m_start m).1 <> 0)%Z
}.

(** The configuration of a member stays what it was. *)
Lemma m_spec_config V m : member_ok V m -> same_config (m_start m).1 (cn_ctl (m_spec m)).
Proof.
  intros [Ha Hok _ _ _ _ _ _]. pose proof (fresh_node_ok (fun _ => True) (m_start m) Ha) as Hf.
  destruct (nrun_life (fun _ => True) (m_acts m) (fresh_node (m_start m)) Hf Hok) as (_ & Hl & Hst).
  assert (Hs : same_config (n_state (fresh_node (m_start m))).1 (n_state (m_end m)).1).
  { unfold m_end. rewrite Hst. apply live_config; [apply (no_alive _ _ Hf)|done]. }
  apply (same_config_trans _ (n_state (fresh_node (m_start m))).1).
  - destruct (m_start m) as [c w]. by destruct c.
  - apply (same_config_trans _ _ _ Hs). unfold m_spec. cbn. by destruct (n_state (m_end m)).1.
Qed.

Lemma member_tables V ms : Forall (member_ok V) ms -> tables_of m_table m_spec ms.
Proof.
  intros Hms m p out Hm. destruct (proj1 (Forall_forall _ _) Hms m Hm). by apply (node_follows (fun _ => True) (m_start m) (m_acts m)).
Qed.

(** The nodes as sites: with the addresses and blocks their configs get. *)
Definition site_of (N : gmap string Node) (x : site) : Prop := N !! site_name x = Some (site_node x) /\ site_ready x.

(** Daemons that were told of the configs of the nodes there are a cluster. *)
Lemma members_cluster (N : gmap string Node) (D : gset string) s ms :
  configs_of v D D N s -> (forall name n, N !! name = Some n -> node_Name n = name) ->
  (forall name n, N !! name = Some n -> exists ip cidr, node_ready n ip cidr) -> plan_ok (site_of N) ->
  Forall (member_ok (view s)) ms ->
  (forall a b, a ∈ ms -> b ∈ ms -> nodeName (m_start a).1 = nodeName (m_start b).1 -> a = b) ->
  cluster_ok (m_spec <$> ms) (server_configs s).
Proof.
  intros [Hk Hd Hr Hg] Hname Hready Hplan Hms Hnames.
  assert (Hin : forall c, In c (m_spec <$> ms) -> exists m, c = m_spec m /\ m ∈ ms /\ member_ok (view s) m).
  { intros c Hc. apply list_elem_of_In, list_elem_of_fmap in Hc as (m & -> & Hm). exists m. split; [done|]. split; [done|].
    exact (proj1 (Forall_forall _ _) Hms m Hm). }
  apply (cluster_of_plan (site_of N)); [done|done| | |].
  - intros cfg Hc. apply in_server_configs in Hc; [|done]. set (name := vsc_Name cfg) in *.
    assert (HD : name ∈ D).
    { assert (Hdom : name ∈ dom (view s)) by (by apply elem_of_dom_2 in Hc). apply Hd in Hdom. set_solver +Hdom. }
    destruct (N !! name) as [n|] eqn:Hn; [|by rewrite (Hg _ HD Hn) in Hc].
    destruct (Hready _ _ Hn) as (ip & cidr & Hrn). destruct (Hr _ _ _ _ Hn Hrn) as (cfg' & Hc' & Hi & _ & Hb & _).
    rewrite Hc in Hc'. injection Hc' as <-. exists {| site_node := n; site_ip := ip; site_cidr := cidr |}.
    unfold site_of, site_name, site_ready. cbn. by rewrite (Hname _ _ Hn).
  - apply Forall_forall. intros c Hc%list_elem_of_In. destruct (Hin c Hc) as (m & -> & _ & Hmo).
    destruct (m_spec_config _ m Hmo) as [Hsn _ _ _ _ Hsc _ _ Hso]. split.
    + rewrite <- Hsn, <- Hsc. apply Hmo.
    + intros cfg. unfold server_configs. rewrite <- (mo_told _ _ Hmo). unfold m_spec. cbn. by destruct (n_state (m_end m)).1.
    + rewrite <- Hso. apply Hmo.
  - intros c c' Hc Hc' He. destruct (Hin c Hc) as (m & -> & Hm & Hmo). destruct (Hin c' Hc') as (m' & -> & Hm' & Hmo').
    rewrite <- (sc_node _ _ (m_spec_config _ m Hmo)), <- (sc_node _ _ (m_spec_config _ m' Hmo')) in He.
    by rewrite (Hnames m m' Hm Hm' He).
Qed.

End system.

(** ** Witnesses *)

#[local] Existing Instance map_api.
#[local] Existing Instance map_laws.
#[local] Existing Instance ovs_exec.
#[local] Existing Instance ovs_table.

#[local, refine] Instance map_isolated : VSwitchIsolated (gmap string VSwitchConfig) := {}.
Proof.
  - intros cfg s r s' name. cbn. destruct (s !! vsc_Name cfg); intros [= _ <-] Hne; [done|by rewrite lookup_insert_ne].
  - intros cfg s r s' name. cbn. destruct (s !! vsc_Name cfg); intros [= _ <-] Hne; [by rewrite lookup_insert_ne|done].
  - intros nm s r s' name. cbn. destruct (s !! nm); intros [= _ <-] Hne; [by rewrite lookup_delete_ne|done].
Defined.

(** Notifications with the lister that is current when each is handled. *)
Fixpoint with_listers (w : vswitchConfig) (ns : list (notification Node)) (s : gmap string VSwitchConfig)
    : list (gmap string VSwitchConfig * notification Node) :=
  match ns with
  | [] => []
  | n :: ns' => (s, n) :: with_listers w ns' (handled w (s, n) s).2
  end.

Lemma with_listers_notes w ns : forall s, (with_listers w ns s).*2 = ns.
Proof. induction ns as [|n ns IH]; intros s; [done|]. cbn. by rewrite IH. Qed.

(** Nodes that come, wait for their block, change and go; a config is left from
    an earlier run. *)
Definition nodes_acts : list (iact Node) :=
  [Listed [demo_k8s_node; bare_b]; Processed; Processed;
   Heard (WatchModified (ObjOf (site_node site_b))); Heard (WatchAdded (ObjOf (site_node site_c))); Processed; Processed;
   Heard (WatchDeleted (ObjOf (site_node site_c))); Processed].
Definition nodes_notes : list (notification Node) :=
  [addNotification (ObjOf demo_k8s_node); addNotification (ObjOf bare_b);
   updateNotification (ObjOf bare_b) (ObjOf (site_node site_b)); addNotification (ObjOf (site_node site_c));
   deleteNotification (ObjOf (site_node site_c))].
Definition nodes_served := with_listers (demo_v ∅) nodes_notes stale.

Lemma nodes_run : ctl_run (demo_v ∅) nodes_acts nodes_served stale.
Proof.
  split.
  - repeat (constructor; [first [exact I|by apply Forall_true]|]). constructor.
  - split; [by apply idle_safe|]. repeat (split; [exact I|]). exact I.
  - vm_compute. reflexivity.
  - unfold nodes_served. rewrite with_listers_notes. vm_compute. reflexivity.
  - unfold nodes_served. rewrite with_listers_notes. repeat (constructor; [exact I|]). constructor.
  - apply map_Forall_singleton. reflexivity.
  - do 4 (split; [split; [reflexivity|intros ip cidr [Hi Hc]; first [vm_compute in Hc; discriminate Hc|vm_compute; reflexivity]]|]).
    split; [split; [reflexivity|split; [vm_compute; reflexivity|vm_compute; discriminate]]|exact I].
Qed.



(** *** The demo cluster *)

Lemma plan_ok_mono (P P' : site -> Prop) : (forall x, P' x -> P x) -> plan_ok P -> plan_ok P'.
Proof. intros Hs [Hi Hb Ha]. split; eauto. Qed.

Abbreviation demo_nodes := (foldl told_view ∅ nodes_acts).
Abbreviation demo_server := (serve (demo_v ∅) nodes_served stale).2.

Lemma demo_nodes_are : demo_nodes = <["node-b" := site_node site_b]> {["node-a" := demo_k8s_node]}.
Proof. vm_compute. reflexivity. Qed.

Lemma demo_nodes_ready name n : demo_nodes !! name = Some n -> exists ip cidr, node_ready n ip cidr.
Proof.
  rewrite demo_nodes_are. intros [[_ <-]|[_ [_ <-]%lookup_singleton_Some]]%lookup_insert_Some.
  - exists "172.20.0.2", "10.2.0.0/24". split; reflexivity.
  - exists "172.20.0.1", "10.1.0.0/24". split; reflexivity.
Qed.

Lemma demo_sites x : site_of demo_nodes x -> present demo_history x.
Proof.
  unfold site_of, site_ready, site_name, present. rewrite demo_nodes_are. destruct x as [n ip cidr]. cbn [site_node site_ip site_cidr].
  intros [[[_ <-]|[_ [_ <-]%lookup_singleton_Some]]%lookup_insert_Some [Hi Hc]]; vm_compute in Hi, Hc; injection Hi as <-; injection Hc as <-;
    vm_compute; reflexivity.
Qed.

Lemma demo_sites_plan : plan_ok (site_of demo_nodes).
Proof. exact (plan_ok_mono _ _ demo_sites demo_plan). Qed.

Definition member_a : member (W := ovs) := {| m_start := (demo, ovs_one); m_acts := demo_acts |}.
Definition member_b : member (W := ovs) := {| m_start := (demo_b, ovs_one); m_acts := demo_acts |}.

Lemma member_a_ok : member_ok (view demo_server) member_a.
Proof.
  split; [exact demo_alive|apply demo_acts_ok|apply demo_lists_safe|vm_compute; reflexivity|vm_compute; reflexivity|vm_compute; reflexivity| |discriminate].
  eexists. split; [vm_compute; reflexivity|reflexivity].
Qed.
Lemma member_b_ok : member_ok (view demo_server) member_b.
Proof.
  split; [exact demo_b_alive|apply demo_acts_ok|apply demo_lists_safe|vm_compute; reflexivity|vm_compute; reflexivity|vm_compute; reflexivity| |discriminate].
  eexists. split; [vm_compute; reflexivity|reflexivity].
Qed.

Lemma member_a_pods : idx_List (podLister (cn_ctl (m_spec member_a))) = [server_pod; client_pod; pending_pod].
Proof. vm_compute. reflexivity. Qed.
Lemma member_a_port : believed (c_portCache (cn_ctl (m_spec member_a)), cn_world (m_spec member_a)) "default" "web" = Ok web_port.
Proof. vm_compute. reflexivity. Qed.
Lemma member_a_local pod port :
  local_port (cn_ctl (m_spec member_a)) (cn_world (m_spec member_a)) pod port -> port = web_port.
Proof.
  intros (Hin & Hl & Hb). rewrite member_a_pods in Hin. destruct Hin as [<-|[<-|[<-|[]]]].
  - change (pod_Namespace server_pod) with "default" in Hb. change (pod_Name server_pod) with "web" in Hb.
    rewrite member_a_port in Hb. by injection Hb.
  - vm_compute in Hl. discriminate Hl.
  - vm_compute in Hl. discriminate Hl.
Qed.
Lemma member_a_web : local_port (cn_ctl (m_spec member_a)) (cn_world (m_spec member_a)) server_pod web_port.
Proof.
  split; [rewrite member_a_pods; left; reflexivity|]. split; [vm_compute; reflexivity|exact member_a_port].
Qed.

Lemma members_differ : member_b <> member_a.
Proof. intros H. apply (f_equal (fun m => nodeName (m_start m).1)) in H. vm_compute in H. discriminate H. Qed.

(** What the server's objects say of the client's packet. *)
Lemma client_crosses : between_pods (m_spec member_b) (m_spec member_a) (client_to_web 80) server_pod web_port.
Proof.
  do 6 (split; [vm_compute; reflexivity|]). split; [exact member_a_web|]. split; [vm_compute; reflexivity|].
  split; [discriminate|]. intros pod' port' Hp _. by rewrite (member_a_local pod' port' Hp).
Qed.

Lemma members_named m m' :
  m ∈ [member_a; member_b] -> m' ∈ [member_a; member_b] -> nodeName (m_start m).1 = nodeName (m_start m').1 -> m = m'.
Proof.
  intros [->|[->|[]%elem_of_nil]%elem_of_cons]%elem_of_cons [->|[->|[]%elem_of_nil]%elem_of_cons]%elem_of_cons Hn;
    first [reflexivity|vm_compute in Hn; discriminate Hn].
Qed.

Lemma nodes_known : dom (view stale) ⊆ heard_names nodes_served.
Proof.
  intros name Hn. apply elem_of_dom in Hn as [c Hc]. change (stale !! name = Some c) in Hc.
  unfold stale in Hc. apply lookup_singleton_Some in Hc as [<- _].
  apply (bool_decide_eq_true_1 (_ ∈ _)). vm_compute. reflexivity.
Qed.

