(* ===== verification/Daemon.v ===== *)
(** * The node daemon

    [cmd/k-vswitchd/main.go]: waiting for the node's VSwitchConfig, the set-up
    of the bridge, its ports, address, route and sysctls, and the wiring of the
    OpenFlow controller ([Controller], [OpenFlow13]), the connection manager
    ([Connection]) and the informers ([Informers]).  iptables is [Forwarding],
    the CNI configuration [NetConf].

    Every [os.Exit(1)] is the end of [main] with an error.  The goroutines that
    [main] starts last are described by [Running]; what they do is the subject
    of the files named above.  Signals are not modelled. *)
From S2P Require Import Prelude GoStrings GoNet Exec Objects Json OvsSim Host PortCache HostSim NetConf Cni Forwarding Informers Labels Flows Controller OpenFlow13 Connection.

Abbreviation bridgeName := Forwarding.bridgeName.

Definition defaultControllerTarget : string := "tcp:127.0.0.1:6653".
Definition listenPort : Z := 6653.

(** [time.Minute] and the poll interval, in nanoseconds. *)
Definition waitDuration : Z := 60000000000.
Definition pollInterval : Z := 5000000000.

Definition apierr_IsNotFound (e : goerr) : bool :=
  match e with ErrNotFound _ => true | _ => false end.

Section daemon.
Context `{HEnv : Env}.

(** ** Waiting for the config *)

(** The loop of [waitForVSwitchConfig]: [None] is a loop that has not ended
    within [fuel] rounds. *)
Fixpoint poll (fuel : nat) (start : Z) (nodeName : string) : M trace (option VSwitchConfig) :=
  match fuel with
  | 0 => mret None
  | S fuel' =>
      now ← perform Now;
      if negb (now - start <? waitDuration)%Z
      then throw (ErrNew ("vswitch config with name " +:+ quote nodeName +:+ " not found")) else
      vswitchConfig ← try_m (perform (GetVSwitchConfig nodeName));
      match vswitchConfig with
      | inl c => mret (Some c)
      | inr err =>
          if negb (apierr_IsNotFound err) then throw err else
          _ ← perform (Sleep pollInterval);
          poll fuel' start nodeName
      end
  end.

(** Twelve rounds take a minute; the thirteenth ends the loop. *)
Definition out_of_fuel : goerr := ErrNew "out of fuel".

Definition waitForVSwitchConfig (nodeName : string) : M trace VSwitchConfig :=
  start ← perform Now;
  o ← poll 13 start nodeName;
  lift (match o with Some c => Ok c | None => Err out_of_fuel end).

(** ** Addresses and routes *)

Definition netlinkRouteForCluster (clusterCIDR : string) (link : Link) : result LinkRoute :=
  clusterIPNet ← ParseCIDR clusterCIDR;
  Ok {| lr_LinkIndex := link_Index link; lr_Scope_link := true; lr_Dst := clusterIPNet |}.

Definition netlinkAddrForLocal (podCIDR : string) : result IPNet :=
  podIPNet ← ParseCIDR podCIDR;
  let gw := NextIP (or_nil (Mask (net_IP podIPNet) (net_Mask podIPNet))) in
  Ok {| net_IP := gw; net_Mask := net_Mask podIPNet |}.

(** ** Open vSwitch and the kernel *)

Definition ovs_vsctl_cmd (msg : string) (args : list string) : M trace unit :=
  _ ← wrapped msg (perform (CombinedOutput "ovs-vsctl" args "")); mret tt.

Definition setupOVSBridgeIfNotExists : M trace unit :=
  _ ← ovs_vsctl_cmd ("failed to setup OVS bridge " +:+ quote bridgeName) ["--may-exist"; "add-br"; bridgeName];
  br ← wrapped ("could not lookup " +:+ quote bridgeName) (perform (LinkByName bridgeName));
  wrapped ("failed to bring bridge " +:+ quote bridgeName +:+ " up") (perform (LinkSetUp br)).

Definition setupClusterWideInternalPort : M trace unit :=
  _ ← ovs_vsctl_cmd "failed to setup cluster-wide port"
        ["--may-exist"; "add-port"; bridgeName; clusterWidePort;
         "--"; "set"; "Interface"; clusterWidePort; "type=internal"];
  clusterWide ← wrapped ("could not lookup " +:+ quote clusterWidePort) (perform (LinkByName clusterWidePort));
  wrapped ("failed to bring bridge " +:+ quote clusterWidePort +:+ " up") (perform (LinkSetUp clusterWide)).

Definition setupOverlayPort (overlayType : string) : M trace unit :=
  ovs_vsctl_cmd ("failed to setup overlay port " +:+ quote overlayPort)
    ["--may-exist"; "add-port"; bridgeName; overlayPort;
     "--"; "set"; "Interface"; overlayPort; "type=" +:+ overlayType;
     "option:remote_ip=flow"; "option:key=flow"].

Definition setSecureFailMode : M trace unit :=
  ovs_vsctl_cmd ("failed to set fail mode for bridge " +:+ quote bridgeName +:+ " to 'secure'")
    ["set-fail-mode"; bridgeName; "secure"].

Definition setControllerTarget : M trace unit :=
  ovs_vsctl_cmd ("failed to set controller target for bridge " +:+ quote bridgeName)
    ["set-controller"; bridgeName; defaultControllerTarget].

Definition setupModulesAndSysctls : M trace unit :=
  _ ← wrapped "failed to enable br_netfilter module"
        (perform (CombinedOutput "modprobe" ["br_netfilter"] ""));
  _ ← wrapped "failed to set /proc/sys/net/bridge/bridge-nf-call-iptables"
        (perform (WriteFile "/proc/sys/net/bridge/bridge-nf-call-iptables" "1"));
  wrapped "failed to set /proc/sys/net/ipv4/ip_forward"
    (perform (WriteFile "/proc/sys/net/ipv4/ip_forward" "1")).

(** [connection.NewOFConnect]: listening on the OpenFlow port. *)
Definition newOFConnect {Msg Conn : Type} : M trace (OFConnect (Msg := Msg) (Conn := Conn)) :=
  _ ← perform (ListenTCP listenPort); mret NewOFConnect.

(** ** [main] *)

Section main.
Context {Informer ListOptions Conn : Type}.
(** The informers of the core types and of VSwitchConfigs, what waiting for
    one gives, and the stores behind the listers. *)
Variables (core_informer : string -> Z -> Informer) (vswitch_informer : Z -> Informer).
Variable synced : Informer -> bool.
Variables (pods : Indexer Pod) (namespaces : Indexer Namespace) (netPols : Indexer NetworkPolicy)
  (vswitches : Indexer VSwitchConfig).

Abbreviation factory := (sharedInformerFactory (Informer := Informer) (ListOptions := ListOptions)).

(** The listers that [NewController] takes, and the handlers, ask the two
    factories for the informers of four types. *)
Definition request_core (f : factory) : factory :=
  (for_range ["*v1.Pod"; "*v1.Namespace"; "*v1.NetworkPolicy"; "*v1.Pod"; "*v1.NetworkPolicy"]
     (fun t => _ ← InformerFor t (core_informer t); mret tt) f).2.

Definition request_kvswitch (f : factory) : factory :=
  (for_range [tt; tt] (fun _ => _ ← InformerFor vswitchconfig_type vswitch_informer; mret tt) f).2.

(** What runs when [main] reaches its last line: the controller after
    [Initialize], with the queue of the connection manager, what the two waits
    for caches waited for, and the informers that were started. *)
Record Running := {
  r_state : run_state;
  r_manager : OFConnect (Msg := OFMessage) (Conn := Conn);
  r_waited : gmap string bool * gmap string bool;
  r_informers : list (gmap string Informer)
}.

Definition started (f : factory) : list (gmap string Informer) :=
  match (Start f).1 with Ok fresh => [fresh] | _ => [] end.

(** From the creation of the factories on. *)
Definition startController (nodeName podCIDR clusterCIDR : string)
    (ovsBridgeInterface clusterWideInterface : Interface) : M trace Running :=
  connectionManager ← newOFConnect;
  c ← NewController pods namespaces netPols vswitches bridgeName
        (HardwareAddr_String (link_HardwareAddr ovsBridgeInterface))
        (HardwareAddr_String (link_HardwareAddr clusterWideInterface))
        nodeName podCIDR clusterCIDR;
  let informerFactory := request_core (NewSharedInformerFactory 0) in
  let kvswitchInformerFactory := request_kvswitch (NewSharedInformerFactory 0) in
  let '(err, s) := Initialize {| rs_controller := c; rs_xid := 0; rs_queue := queue connectionManager |} in
  _ ← lift err;
  let waited := (WaitForCacheSync synced informerFactory, WaitForCacheSync synced kvswitchInformerFactory) in
  mret {| r_state := s; r_manager := connectionManager; r_waited := waited;
          r_informers := started informerFactory ++ started kvswitchInformerFactory |}.

(** The set-up of the node, once its config is known. *)
Definition setupNode (spec : VSwitchConfigSpec) : M trace unit :=
  _ ← setupOVSBridgeIfNotExists;
  _ ← setupClusterWideInternalPort;
  _ ← setupOverlayPort (OverlayType spec);
  bridgeLink ← perform (LinkByName bridgeName);
  clusterWideLink ← perform (LinkByName clusterWidePort);
  addr ← lift (netlinkAddrForLocal (PodCIDR spec));
  _ ← perform (AddrReplace bridgeLink addr);
  route ← lift (netlinkRouteForCluster (ClusterCIDR spec) clusterWideLink);
  _ ← perform (RouteReplace route);
  _ ← setControllerTarget;
  _ ← setSecureFailMode;
  _ ← setupModulesAndSysctls;
  setupBridgeForwarding (PodCIDR spec) (ClusterCIDR spec) (ServiceCIDR spec).

Definition main : M trace Running :=
  _ ← perform InClusterConfig;
  _ ← perform (NewForConfig "kubernetes");
  _ ← perform (NewForConfig "kvswitch");
  nodeName ← perform (Getenv "NODE_NAME");
  if bool_decide (nodeName = "") then throw (ErrNew "env variable NODE_NAME is required") else
  curNode ← perform (GetNode nodeName);
  if bool_decide (node_PodCIDR curNode = "") then throw (ErrNew "node has no pod CIDR assigned") else
  _ ← installCNIConf (node_PodCIDR curNode);
  vswitchConfig ← waitForVSwitchConfig (node_Name curNode);
  let spec := vsc_Spec vswitchConfig in
  _ ← setupNode spec;
  ovsBridgeInterface ← perform (InterfaceByName bridgeName);
  clusterWideInterface ← perform (InterfaceByName clusterWidePort);
  startController (node_Name curNode) (PodCIDR spec) (ClusterCIDR spec) ovsBridgeInterface clusterWideInterface.
End main.
End daemon.
