(* ===== verification/Startup.v ===== *)
(** * What the daemon's start-up guarantees

    Theorems about [Daemon]: the wait for the node's config ends, and how; the
    plugin, the daemon and the controller compute the same gateway; what has
    been done when the controller starts, and what is left behind when the
    config never comes. *)
From S2P Require Import Prelude GoStrings GoNet Exec Objects Json OvsSim Labels Flows PortCache Controller OpenFlow13 Connection Host HostSim NetConf Cni Forwarding Informers Daemon.

(** ** The wait *)

(** A clock that does not go back, and that sleeping advances. *)
Class Clock `{Env} := {
  now : trace -> Z;
  now_answer t : answer t _ Now = Ok (now t);
  now_event t e : (now t <= now (t ++ [e]))%Z;
  sleep_answer t d : answer t _ (Sleep d) = Ok tt;
  now_sleep t d : (now t + d <= now (t ++ [Event (Sleep d) (Ok tt)]))%Z
}.

(** The answers to the requests for the config. *)
Definition vsc_answer (e : event) : list (result VSwitchConfig) :=
  match e with
  | Event c r =>
      (match c in call A return result A -> list (result VSwitchConfig) with
       | GetVSwitchConfig _ => fun r => [r]
       | _ => fun _ => []
       end) r
  end.

Definition vsc_answers (u : trace) : list (result VSwitchConfig) := flat_map vsc_answer u.

Definition not_there (r : result VSwitchConfig) : Prop :=
  match r with Err e => apierr_IsNotFound e = true | _ => False end.

Definition missing_config (name : string) : goerr :=
  ErrNew ("vswitch config with name " +:+ quote name +:+ " not found").

(** How the wait ends: with the first answer that is not a "not found", or
    after a minute without one. *)
Inductive wait_outcome {A} (found : VSwitchConfig -> A) (name : string) (limit : Z) (t' : trace)
    `{Clock} : list (result VSwitchConfig) -> result A -> Prop :=
| WaitFound pre c : Forall not_there pre -> wait_outcome found name limit t' (pre ++ [Ok c]) (Ok (found c))
| WaitFailed pre e : Forall not_there pre -> apierr_IsNotFound e = false ->
    wait_outcome found name limit t' (pre ++ [Err e]) (Err e)
| WaitTimeout a : Forall not_there a -> (limit <= now t')%Z ->
    wait_outcome found name limit t' a (Err (missing_config name)).

Section wait.
Context `{HEnv : Env} `{!Clock} `{!CallsReturn}.

Lemma wait_outcome_cons {A} (found : VSwitchConfig -> A) name limit t' x a r :
  not_there x -> wait_outcome found name limit t' a r -> wait_outcome found name limit t' (x :: a) r.
Proof. intros Hx [pre c Hp|pre e Hp He|b Hb Hl]; [apply (WaitFound _ _ _ _ (x :: pre))|
  apply (WaitFailed _ _ _ _ (x :: pre))|apply WaitTimeout]; auto. Qed.

Lemma vsc_answers_app u v : vsc_answers (u ++ v) = vsc_answers u ++ vsc_answers v.
Proof. apply flat_map_app. Qed.

(** From round [i] on. *)
Lemma poll_run fuel name start : forall (i : Z) t,
  (start + pollInterval * i <= now t)%Z -> (0 <= i <= 12)%Z -> (13 <= i + Z.of_nat fuel)%Z ->
  let '(r, t') := poll fuel start name t in
  exists u, t' = t ++ u /\ (i + Z.of_nat (length (vsc_answers u)) <= 12)%Z /\
    wait_outcome Some name (start + waitDuration) t' (vsc_answers u) r.
Proof.
  unfold pollInterval, waitDuration.
  induction fuel as [|fuel IH]; intros i t Hnow Hi Hfuel; [lia|]. cbn [poll].
  unfold mbind at 1, M_bind at 1, perform at 1. rewrite now_answer.
  pose proof (now_event t (Event Now (Ok (now t)))) as Hev. set (t1 := t ++ [_]) in *.
  destruct (now t - start <? waitDuration)%Z eqn:Hlt; unfold waitDuration in Hlt; cbn [negb].
  2:{ apply Z.ltb_ge in Hlt. cbn. eexists. split; [done|]. split; [cbn; lia|].
      apply WaitTimeout; [constructor|]. unfold waitDuration. lia. }
  apply Z.ltb_lt in Hlt. unfold mbind at 1, M_bind at 1, try_m, perform at 1.
  pose proof (calls_return t1 _ (GetVSwitchConfig name)) as Hret.
  destruct (answer t1 _ (GetVSwitchConfig name)) as [c|e|] eqn:Ha; [| |done].
  { cbn. eexists. split; [unfold t1; by rewrite <- app_assoc|]. split; [cbn; lia|].
    by apply (WaitFound Some name _ _ []). }
  pose proof (now_event t1 (Event (GetVSwitchConfig name) (Err e))) as Hev2. set (t2 := t1 ++ [_]) in *.
  destruct (apierr_IsNotFound e) eqn:He; cbn [negb].
  2:{ cbn. exists ([Event Now (Ok (now t))] ++ [Event (GetVSwitchConfig name) (Err e)]).
      split; [unfold t2, t1; by rewrite <- app_assoc|]. split; [cbn; lia|].
      by apply (WaitFailed Some name _ _ []). }
  unfold mbind, M_bind, perform. rewrite sleep_answer.
  pose proof (now_sleep t2 pollInterval) as Hsl. unfold pollInterval in *. set (t3 := t2 ++ [_]) in *.
  assert (Hi11 : (i < 12)%Z) by lia.
  specialize (IH (i + 1)%Z t3 ltac:(lia) ltac:(lia) ltac:(lia)).
  destruct (poll fuel start name t3) as [r t']. destruct IH as (u & -> & Hlen & Hout).
  eexists. split; [unfold t3, t2, t1; rewrite <- !app_assoc; reflexivity|].
  rewrite !vsc_answers_app. cbn [vsc_answers flat_map vsc_answer app length].
  split; [lia|]. by apply wait_outcome_cons.
Qed.

(** C25.  The wait for the node's config ends, after at most twelve requests:
    with the config as soon as the API server has it, with the first error
    other than "not found", or with an error once a minute has passed; the
    rounds the model allows are always enough. *)
Theorem waitForVSwitchConfig_spec name t :
  let '(r, t') := waitForVSwitchConfig name t in
  exists u, t' = t ++ u /\ length (vsc_answers u) <= 12 /\
    wait_outcome id name (now t + waitDuration) t' (vsc_answers u) r.
Proof.
  unfold waitForVSwitchConfig, mbind at 1, M_bind at 1, perform at 1. rewrite now_answer.
  pose proof (now_event t (Event Now (Ok (now t)))) as Hev.
  assert (Hlo : (now t + pollInterval * 0 <= now (t ++ [Event Now (Ok (now t))]))%Z) by lia.
  pose proof (poll_run 13 name (now t) 0 _ Hlo ltac:(lia) ltac:(lia)) as Hp.
  unfold mbind, M_bind. destruct (poll 13 _ name _) as [r t'].
  destruct Hp as (u & -> & Hlen & Hout).
  assert (Hu : vsc_answers ([Event Now (Ok (now t))] ++ u) = vsc_answers u) by done.
  assert (Hwrap : forall r', wait_outcome id name (now t + waitDuration)
      ((t ++ [Event Now (Ok (now t))]) ++ u) (vsc_answers u) r' ->
    exists u', (t ++ [Event Now (Ok (now t))]) ++ u = t ++ u' /\ length (vsc_answers u') <= 12 /\
      wait_outcome id name (now t + waitDuration) ((t ++ [Event Now (Ok (now t))]) ++ u) (vsc_answers u') r').
  { intros r' Hr'. exists ([Event Now (Ok (now t))] ++ u). rewrite Hu. split; [by rewrite <- app_assoc|].
    split; [lia|done]. }
  revert Hwrap. inversion Hout as [pre c Hpre|pre e Hpre He|a Ha Hl]; subst; intros Hwrap; apply Hwrap.
  - by apply (WaitFound id).
  - by apply WaitFailed.
  - by apply WaitTimeout.
Qed.
End wait.

(** ** The gateway *)

(** The mask of an IPv4 address, in either of its two forms. *)
Lemma Mask_v4_forms ip w m :
  ip = w \/ ip = v4InV6Prefix ++ w -> length w = 4 -> length m = 4 -> Mask ip m = Some (zip_with Z.land w m).
Proof.
  intros [->| ->] Hw Hm; [|by apply Mask_v4].
  unfold Mask. rewrite Hw, Hm. cbn [Nat.eqb andb IPv6len IPv4len].
  rewrite Bool.andb_false_r. cbn [andb]. rewrite Hw, Hm. cbn [Nat.eqb]. done.
Qed.

(** C24.  One gateway per node.  For an IPv4 pod block the address that the
    daemon puts on the bridge, the address for which the OpenFlow controller
    answers ARP, and the default gateway that the CNI plugin computes for any
    pod address of the block are the same. *)
Theorem gateway_agreement l n ip w :
  length l = 4 -> bytes l -> (0 <= n <= 32)%Z ->
  ip = w \/ ip = v4InV6Prefix ++ w -> length w = 4 ->
  let m := net_Mask (ipv4_net l n) in
  zip_with Z.land w m = zip_with Z.land l m ->
  exists addr, netlinkAddrForLocal (cidr_text l n) = Ok addr /\ net_Mask addr = m /\
    calcGatewayIP {| net_IP := ip; net_Mask := m |} = net_IP addr /\
    (forall W (HExec : Exec W) pods nss nps vs br bm cm nd cluster (s : W) c s',
      NewController pods nss nps vs br bm cm nd (cidr_text l n) cluster s = (Ok c, s') ->
      gatewayIP c = IP_String (net_IP addr)).
Proof.
  intros Hl Hb Hn Hip Hw m Hin. unfold netlinkAddrForLocal. rewrite ParseCIDR_ipv4 by done. cbn [mbind result_bind].
  eexists. split; [done|]. split; [done|]. cbn [net_IP]. split.
  - unfold calcGatewayIP. cbn [net_IP net_Mask]. rewrite (Mask_v4_forms ip w m Hip Hw (CIDRMask_length _ _)).
    by rewrite Mask_ipv4_net, Hin.
  - intros W HExec pods nss nps vs br bm cm nd cluster s c s' Hnew. unfold NewController in Hnew. run_inv.
    rewrite ParseCIDR_ipv4 in Hm by done. by injection Hm as <-.
Qed.

Lemma gateway_agreement_witness :
  exists addr, netlinkAddrForLocal "10.244.1.0/24" = Ok addr /\
    calcGatewayIP {| net_IP := [10; 244; 1; 5]%Z; net_Mask := [255; 255; 255; 0]%Z |} = net_IP addr.
Proof.
  destruct (gateway_agreement [10; 244; 1; 0]%Z 24 [10; 244; 1; 5]%Z [10; 244; 1; 5]%Z) as (addr & Ha & _ & Hg & _);
    [reflexivity|by apply byte_list|lia|by left|reflexivity|reflexivity|].
  exists addr. exact (conj Ha Hg).
Defined.

(** A call that is known to succeed. *)
Lemma bind_perform `{Env} {A B} (c : call A) (k : A -> M trace B) t a :
  answer t A c = Ok a -> (perform c ≫= k) t = k a (t ++ [Event c (Ok a)]).
Proof. intros Ha. unfold mbind, M_bind, perform. by rewrite Ha. Qed.

(** ** What has been done when the controller starts *)

(** What the daemon learns about its node, and the changes it makes, iptables
    apart. *)
Inductive milestone :=
| ENode (name : string) (n : Node)
| EConfig (name : string) (c : VSwitchConfig)
| EFile (path data : string)
| ECommand (name : string) (args : list string)
| EUp (l : Link)
| EAddr (l : Link) (a : IPNet)
| ERoute (r : LinkRoute)
| EListen (port : Z).

Definition when_ok {A} (m : A -> milestone) (r : result A) : list milestone :=
  match r with Ok a => [m a] | _ => [] end.

Definition milestone_of (e : event) : list milestone :=
  match e with
  | Event c r =>
      (match c in call A return result A -> list milestone with
       | GetNode n => when_ok (ENode n)
       | GetVSwitchConfig n => when_ok (EConfig n)
       | WriteFile path data => when_ok (fun _ => EFile path data)
       | CombinedOutput name args _ => when_ok (fun _ => ECommand name args)
       | LinkSetUp l => when_ok (fun _ => EUp l)
       | AddrReplace l a => when_ok (fun _ => EAddr l a)
       | RouteReplace r => when_ok (fun _ => ERoute r)
       | ListenTCP port => when_ok (fun _ => EListen port)
       | _ => fun _ => []
       end) r
  end.

Definition milestones (u : trace) : list milestone := flat_map milestone_of u.

Definition no_milestone (e : event) : Prop := milestone_of e = [].

#[local] Hint Extern 1 (no_milestone _) => reflexivity : emits.

(** The trace [t'] extends [t] by a run with the milestones [es]. *)
Definition passed (t t' : trace) (es : list milestone) : Prop :=
  exists u, t' = t ++ u /\ milestones u = es.

Lemma passed_app t t1 t2 es fs : passed t t1 es -> passed t1 t2 fs -> passed t t2 (es ++ fs).
Proof.
  intros (u & -> & <-) (v & -> & <-). exists (u ++ v). rewrite app_assoc. split; [done|]. apply flat_map_app.
Qed.

Lemma passed_event t e : passed t (t ++ [e]) (milestone_of e).
Proof. exists [e]. split; [done|]. apply app_nil_r. Qed.

Section milestones.
Context `{HEnv : Env}.

Lemma perform_passed {A} (c : call A) t a t' :
  perform c t = (Ok a, t') -> passed t t' (milestone_of (Event c (Ok a))).
Proof. intros [_ ->]%perform_Ok_inv. apply passed_event. Qed.

Lemma emits_passed {A} (m : M trace A) t r t' : emits no_milestone m -> m t = (r, t') -> passed t t' [].
Proof.
  intros Hm Hr. destruct (emits_run _ _ _ _ _ Hm Hr) as (u & -> & Hu). exists u. split; [done|].
  clear Hr. induction Hu as [|e u He _ IH]; [done|]. unfold milestones. cbn [flat_map]. by rewrite He.
Qed.

Lemma ovs_vsctl_cmd_passed msg args t a t' :
  ovs_vsctl_cmd msg args t = (Ok a, t') -> passed t t' [ECommand "ovs-vsctl" args].
Proof. unfold ovs_vsctl_cmd. intros H. run_inv. by apply perform_passed in Hm. Qed.

Lemma setupOVSBridge_passed t a t' :
  setupOVSBridgeIfNotExists t = (Ok a, t') ->
  exists br, passed t t' [ECommand "ovs-vsctl" ["--may-exist"; "add-br"; bridgeName]; EUp br].
Proof.
  unfold setupOVSBridgeIfNotExists. intros H. run_inv. exists v0.
  apply ovs_vsctl_cmd_passed in Hm. apply perform_passed in Hm0, H.
  exact (passed_app _ _ _ _ _ Hm (passed_app _ _ _ _ _ Hm0 H)).
Qed.

Lemma setupClusterWide_passed t a t' :
  setupClusterWideInternalPort t = (Ok a, t') ->
  exists cw, passed t t'
    [ECommand "ovs-vsctl" ["--may-exist"; "add-port"; bridgeName; clusterWidePort;
       "--"; "set"; "Interface"; clusterWidePort; "type=internal"]; EUp cw].
Proof.
  unfold setupClusterWideInternalPort. intros H. run_inv. exists v0.
  apply ovs_vsctl_cmd_passed in Hm. apply perform_passed in Hm0, H.
  exact (passed_app _ _ _ _ _ Hm (passed_app _ _ _ _ _ Hm0 H)).
Qed.

Lemma setupModules_passed t a t' :
  setupModulesAndSysctls t = (Ok a, t') ->
  passed t t' [ECommand "modprobe" ["br_netfilter"];
    EFile "/proc/sys/net/bridge/bridge-nf-call-iptables" "1"; EFile "/proc/sys/net/ipv4/ip_forward" "1"].
Proof.
  unfold setupModulesAndSysctls. intros H. run_inv. apply perform_passed in Hm, Hm0, H.
  exact (passed_app _ _ _ _ _ Hm (passed_app _ _ _ _ _ Hm0 H)).
Qed.

Lemma setupBridgeForwarding_silent p c s : emits no_milestone (setupBridgeForwarding p c s).
Proof. unfold setupBridgeForwarding, AppendUnique, Exists, Append. auto 30 with emits. Qed.

(** The wait ends with the one config it was given. *)
Lemma poll_passed fuel start name : forall t c t',
  poll fuel start name t = (Ok (Some c), t') -> passed t t' [EConfig name c].
Proof.
  induction fuel as [|fuel IH]; intros t c t' H; cbn [poll] in H; [done|]. run_inv.
  apply perform_passed in Hm. destruct (negb _); [done|]. run_inv.
  unfold try_m, perform in Hm0. destruct (answer s _ (GetVSwitchConfig name)) as [c'|e|] eqn:Ha; [| |done].
  - injection Hm0 as <- <-. apply ret_Ok_inv in H as [[= <-] ->].
    exact (passed_app _ _ _ _ _ Hm (passed_event _ (Event (GetVSwitchConfig name) (Ok c)))).
  - injection Hm0 as <- <-. destruct (negb _); [done|]. run_inv. apply perform_passed in Hm0. apply IH in H.
    exact (passed_app _ _ _ _ _ Hm (passed_app _ _ _ _ _
      (passed_event _ (Event (GetVSwitchConfig name) (Err e))) (passed_app _ _ _ _ _ Hm0 H))).
Qed.

Lemma waitForVSwitchConfig_passed name t c t' :
  waitForVSwitchConfig name t = (Ok c, t') -> passed t t' [EConfig name c].
Proof.
  unfold waitForVSwitchConfig. intros H. run_inv. destruct v0 as [c'|]; [|done]. injection H as ->.
  apply perform_passed in Hm. apply poll_passed in Hm0. exact (passed_app _ _ _ _ _ Hm Hm0).
Qed.

(** The set-up of the node, as [main] makes it. *)
Definition node_setup (spec : VSwitchConfigSpec) (br cw bridgeLink : Link) (addr : IPNet) (route : LinkRoute)
  : list milestone :=
  [ ECommand "ovs-vsctl" ["--may-exist"; "add-br"; bridgeName]; EUp br;
    ECommand "ovs-vsctl" ["--may-exist"; "add-port"; bridgeName; clusterWidePort;
      "--"; "set"; "Interface"; clusterWidePort; "type=internal"]; EUp cw;
    ECommand "ovs-vsctl" ["--may-exist"; "add-port"; bridgeName; overlayPort;
      "--"; "set"; "Interface"; overlayPort; "type=" +:+ OverlayType spec;
      "option:remote_ip=flow"; "option:key=flow"];
    EAddr bridgeLink addr; ERoute route;
    ECommand "ovs-vsctl" ["set-controller"; bridgeName; defaultControllerTarget];
    ECommand "ovs-vsctl" ["set-fail-mode"; bridgeName; "secure"];
    ECommand "modprobe" ["br_netfilter"];
    EFile "/proc/sys/net/bridge/bridge-nf-call-iptables" "1"; EFile "/proc/sys/net/ipv4/ip_forward" "1" ].

Lemma setupNode_passed spec t a t' :
  setupNode spec t = (Ok a, t') ->
  exists br cw bridgeLink addr route,
    netlinkAddrForLocal (PodCIDR spec) = Ok addr /\
    ParseCIDR (ClusterCIDR spec) = Ok (lr_Dst route) /\
    passed t t' (node_setup spec br cw bridgeLink addr route).
Proof.
  unfold setupNode. intros H. run_inv.
  apply setupOVSBridge_passed in Hm as [br Hm]. apply setupClusterWide_passed in Hm0 as [cw Hm0].
  apply ovs_vsctl_cmd_passed in Hm1, Hm8, Hm9. apply perform_passed in Hm2, Hm3, Hm5, Hm7.
  apply setupModules_passed in Hm10. eapply emits_passed in H; [|apply setupBridgeForwarding_silent].
  exists br, cw, v2, v4, v6. split; [done|]. split.
  { unfold netlinkRouteForCluster in Hm6. destruct (ParseCIDR (ClusterCIDR spec)); [|done..]. by injection Hm6 as <-. }
  refine (passed_app _ _ _ _ _ Hm (passed_app _ _ _ _ _ Hm0 (passed_app _ _ _ _ _ Hm1 (passed_app _ _ _ _ _ Hm2 _)))).
  refine (passed_app _ _ _ _ _ Hm3 (passed_app _ _ _ _ _ Hm5 (passed_app _ _ _ _ _ Hm7 (passed_app _ _ _ _ _ Hm8 _)))).
  exact (passed_app _ _ _ _ _ Hm9 (passed_app _ _ _ _ _ Hm10 H)).
Qed.

Lemma ofPortFromName_passed port t n t' :
  ofPortFromName port t = (Ok n, t') -> passed t t' [ECommand "ovs-vsctl" ["get"; "Interface"; port; "ofport"]].
Proof.
  unfold ofPortFromName. intros H. run_inv. apply perform_passed in Hm.
  destruct (Atoi (TrimSpace v)) as [z [e|]]; [done|]. by apply ret_Ok_inv in H as [_ ->].
Qed.

(** The two ports that [NewController] asks for. *)
Definition port_queries : list milestone :=
  [ ECommand "ovs-vsctl" ["get"; "Interface"; clusterWidePort; "ofport"];
    ECommand "ovs-vsctl" ["get"; "Interface"; overlayPort; "ofport"] ].

Lemma NewController_passed pods nss nps vs br bm cm nd cidr cluster t c t' :
  NewController pods nss nps vs br bm cm nd cidr cluster t = (Ok c, t') ->
  passed t t' port_queries /\ podCIDR c = cidr /\ clusterCIDR c = cluster /\ nodeName c = nd /\
  (forall addr, netlinkAddrForLocal cidr = Ok addr -> gatewayIP c = IP_String (net_IP addr)).
Proof.
  unfold NewController, netlinkAddrForLocal. intros H. run_inv. rewrite Hm. cbn [mbind result_bind].
  apply ofPortFromName_passed in Hm0, Hm1. split; [exact (passed_app _ _ _ _ _ Hm0 Hm1)|].
  do 3 (split; [done|]). by intros addr [= <-].
Qed.
End milestones.

(** [main], with the informers of client-go and the stores as parameters. *)
Section main.
Context `{HEnv : Env} {Informer ListOptions Conn : Type}.
Variables (core_informer : string -> Z -> Informer) (vswitch_informer : Z -> Informer) (synced : Informer -> bool).
Variables (pods : Indexer Pod) (namespaces : Indexer Namespace) (netPols : Indexer NetworkPolicy)
  (vswitches : Indexer VSwitchConfig).

Abbreviation run_main := (main (ListOptions := ListOptions) (Conn := Conn)
  core_informer vswitch_informer synced pods namespaces netPols vswitches).
Abbreviation run_start := (startController (ListOptions := ListOptions) (Conn := Conn)
  core_informer vswitch_informer synced pods namespaces netPols vswitches).

(** The hello that waits to be sent. *)
Definition first_hello : OFMessage :=
  MsgHello {| Version := 4; Type_ := OFPT_HELLO; Length := 8; Xid := 0 |}.

Lemma startController_passed name cidr cluster bi ci t r t' :
  run_start name cidr cluster bi ci t = (Ok r, t') ->
  passed t t' (EListen listenPort :: port_queries) /\
  let c := rs_controller (r_state r) in
  podCIDR c = cidr /\ clusterCIDR c = cluster /\ nodeName c = name /\
  (forall addr, netlinkAddrForLocal cidr = Ok addr -> gatewayIP c = IP_String (net_IP addr)) /\
  rs_queue (r_state r) = [first_hello].
Proof.
  unfold startController, newOFConnect. intros H. run_inv. apply perform_passed in Hm1.
  apply NewController_passed in Hm0 as (Hq & Hcidr & Hcl & Hname & Hg).
  destruct (Initialize _) as [ri si] eqn:Hi. run_inv. injection Hi as <- <-. cbn [rs_controller rs_queue r_state].
  split; [exact (passed_app _ _ _ _ _ Hm1 Hq)|]. by repeat split.
Qed.


(** The daemon does not wait for its caches.  Both waits come before the
    factories are started, so they look at no informer; the informers of the
    four types are then started, and the controller's goroutines with them,
    whatever the caches hold. *)
Theorem main_waits_for_nothing t r t' :
  run_main t = (Ok r, t') ->
  r_waited r = (∅, ∅) /\
  exists core kvs, r_informers r = [core; kvs] /\
    dom core = {["*v1.Pod"; "*v1.Namespace"; "*v1.NetworkPolicy"]} /\ dom kvs = {[vswitchconfig_type]}.
Proof.
  unfold main. intros H. run_inv. case_bool_decide; [done|]. run_inv. case_bool_decide; [done|]. run_inv.
  unfold startController in H. run_inv. destruct (Initialize _) as [ri si]. run_inv. cbn [r_waited r_informers].
  split.
  - f_equal; by apply not_started_not_waited.
  - eexists _, _. split; [reflexivity|]. split; vm_compute; reflexivity.
Qed.

(** A cluster in which everything works, except that the node never gets its
    config. *)
Record config_missing (name : string) (node : Node) : Prop := {
  cm_cluster t : answer t _ InClusterConfig = Ok tt;
  cm_client t kind : answer t _ (NewForConfig kind) = Ok tt;
  cm_env t : answer t _ (Getenv "NODE_NAME") = Ok name;
  cm_name : name <> "";
  cm_node t : answer t _ (GetNode name) = Ok node;
  cm_cidr : node_PodCIDR node <> "";
  cm_write t path data : answer t _ (WriteFile path data) = Ok tt;
  cm_config t : not_there (answer t _ (GetVSwitchConfig (node_Name node)))
}.

Lemma poll_missing `{!Clock} fuel start name : forall t,
  (forall t, not_there (answer t _ (GetVSwitchConfig name))) ->
  let '(r, t') := poll fuel start name t in
  passed t t' [] /\ (r = Ok None \/ r = Err (missing_config name) /\ (start + waitDuration <= now t')%Z).
Proof.
  intros t Hnone. revert t. induction fuel as [|fuel IH]; intros t; cbn [poll].
  { split; [exists []; by rewrite app_nil_r|by left]. }
  rewrite (bind_perform Now _ _ _ (now_answer t)).
  pose proof (passed_event t (Event Now (Ok (now t)))) as Hnow.
  pose proof (now_event t (Event Now (Ok (now t)))) as Hev. set (t1 := t ++ [_]) in *.
  destruct (now t - start <? waitDuration)%Z eqn:Hlt; cbn [negb].
  2:{ apply Z.ltb_ge in Hlt. split; [done|]. right. split; [done|lia]. }
  unfold mbind at 1, M_bind at 1, try_m, perform at 1. pose proof (Hnone t1) as Ha.
  destruct (answer t1 _ (GetVSwitchConfig name)) as [c|e|]; [done| |done]. cbn in Ha. rewrite Ha. cbn [negb].
  rewrite (bind_perform (Sleep pollInterval) _ _ _ (sleep_answer _ _)). set (t3 := _ ++ [_]).
  specialize (IH t3). destruct (poll fuel start name t3) as [r t'].
  destruct IH as [Hp Hr]. split; [|exact Hr].
  exact (passed_app _ _ _ _ _ Hnow (passed_app _ _ _ _ _ (passed_event _ (Event (GetVSwitchConfig name) (Err e)))
    (passed_app _ _ _ _ _ (passed_event _ (Event (Sleep pollInterval) (Ok tt))) Hp))).
Qed.

Lemma wait_missing `{!Clock} `{!CallsReturn} name t :
  (forall t, not_there (answer t _ (GetVSwitchConfig name))) ->
  let '(r, t') := waitForVSwitchConfig name t in
  r = Err (missing_config name) /\ (now t + waitDuration <= now t')%Z /\ passed t t' [].
Proof.
  intros Hnone. unfold waitForVSwitchConfig. rewrite (bind_perform Now _ _ _ (now_answer t)).
  pose proof (now_event t (Event Now (Ok (now t)))) as Hev.
  pose proof (passed_event t (Event Now (Ok (now t)))) as Hnow. set (t1 := t ++ [_]) in *.
  assert (Hlo : (now t + pollInterval * 0 <= now t1)%Z) by lia.
  pose proof (poll_run 13 name (now t) 0 t1 Hlo ltac:(lia) ltac:(lia)) as Hrun.
  pose proof (poll_missing 13 (now t) name t1 Hnone) as Hmiss.
  unfold mbind, M_bind. destruct (poll 13 (now t) name t1) as [r t'].
  destruct Hrun as (u & _ & _ & Hout), Hmiss as [Hp [->|[-> Ht]]]; [by inversion Hout|].
  split; [done|]. split; [done|]. exact (passed_app _ _ _ _ _ Hnow Hp).
Qed.

(** A node without a config is left with a plugin that cannot work.  When
    everything else works but the node's config never appears, main exits after
    a minute with an error; by then the CNI configuration, from which the
    kubelet takes the node's network to be ready, has been written, and nothing
    of the bridge has been set up. *)
Theorem main_without_config `{!Clock} `{!CallsReturn} name node t :
  config_missing name node ->
  let '(r, t') := run_main t in
  r = Err (missing_config (node_Name node)) /\ (now t + waitDuration <= now t')%Z /\
  passed t t' [ENode name node; EFile cniConfigPath (cni_conf (node_PodCIDR node))].
Proof.
  intros [Hcl Hclient Henv Hname Hnode Hcidr Hwrite Hnone]. unfold main.
  rewrite (bind_perform _ _ _ _ (Hcl _)), !(bind_perform _ _ _ _ (Hclient _ _)), (bind_perform _ _ _ _ (Henv _)).
  rewrite bool_decide_false by done. rewrite (bind_perform _ _ _ _ (Hnode _)), bool_decide_false by done.
  unfold installCNIConf. rewrite (bind_perform _ _ _ _ (Hwrite _ _ _)). set (t1 := _ ++ [Event (WriteFile _ _) _]).
  assert (Hpre : passed t t1 [ENode name node; EFile cniConfigPath (cni_conf (node_PodCIDR node))]).
  { eexists. split; [unfold t1; rewrite <- !app_assoc; reflexivity|reflexivity]. }
  assert (Hle : (now t <= now t1)%Z).
  { unfold t1. repeat (etrans; [|apply now_event]). lia. }
  pose proof (wait_missing (node_Name node) t1 Hnone) as Hwait. unfold mbind, M_bind.
  destruct (waitForVSwitchConfig (node_Name node) t1) as [r t']. destruct Hwait as (-> & Ht & Hp).
  split; [done|]. split; [lia|]. exact (passed_app _ _ _ _ _ Hpre Hp).
Qed.
End main.

(** ** Witnesses *)

Lemma sim_now_step t e : sim_now (t ++ [e]) = sim_tick (sim_now t) e.
Proof. unfold sim_now. by rewrite foldl_app. Qed.

Lemma sim_now_event t e : (sim_now t <= sim_now (t ++ [e]))%Z.
Proof. rewrite sim_now_step. destruct e as [A c r]. destruct c; cbn; lia. Qed.

Lemma sim_now_sleep t d : (sim_now t + d <= sim_now (t ++ [Event (Sleep d) (Ok tt)]))%Z.
Proof. rewrite sim_now_step. cbn. lia. Qed.

#[local] Instance sim_clock s : @Clock (sim_answer s) := {|
  now := sim_now; now_answer _ := eq_refl; now_event := sim_now_event;
  sleep_answer _ _ := eq_refl; now_sleep := sim_now_sleep
|}.

(** A host whose API server has the config after [ready] nanoseconds. *)
Definition late_host (ready : Z) : sim :=
  {| sim_getenv := sim_getenv good_host; sim_ipam := true; sim_print := true; sim_addresses := sim_addresses good_host;
     sim_ready := ready; sim_node := sim_node good_host; sim_vswitch := sim_vswitch good_host |}.

(** The config comes after 20 seconds. *)
Definition late_wait : result VSwitchConfig * trace :=
  @waitForVSwitchConfig (sim_answer (late_host 20000000000)) "node1" [].

Lemma late_wait_found : late_wait.1 = Ok (sim_vswitch good_host) /\ length (vsc_answers late_wait.2) = 5.
Proof. vm_compute. split; reflexivity. Qed.

Lemma waitForVSwitchConfig_spec_witness : length (vsc_answers late_wait.2) <= 12.
Proof.
  pose proof (@waitForVSwitchConfig_spec _ (sim_clock (late_host 20000000000)) (sim_returns _) "node1" []) as Hw.
  unfold late_wait. destruct (@waitForVSwitchConfig (sim_answer (late_host 20000000000)) "node1" []) as [r t'].
  destruct Hw as (u & -> & Hlen & _). exact Hlen.
Defined.

Definition demo_informer (t : string) (resync : Z) : string := t.

Abbreviation demo_main s t := (@main (sim_answer s) string unit nat demo_informer (demo_informer vswitchconfig_type)
  (fun _ => true) no_objects no_objects no_objects no_objects t).

Lemma demo_main_ok : is_ok (demo_main good_host []).1 = true.
Proof. vm_compute. reflexivity. Qed.


Lemma main_waits_for_nothing_witness : exists r t',
  demo_main good_host [] = (Ok r, t') /\ r_waited r = (∅, ∅).
Proof.
  pose proof demo_main_ok as Hok. destruct (demo_main good_host []) as [[r|e|] t'] eqn:Hrun; [|discriminate Hok..].
  destruct (@main_waits_for_nothing (sim_answer good_host) string unit nat demo_informer
    (demo_informer vswitchconfig_type) (fun _ => true) no_objects no_objects no_objects no_objects [] r t' Hrun)
    as [Hw _].
  exists r, t'. exact (conj eq_refl Hw).
Defined.

(** A host where the config never comes. *)
Definition bare_host : Env := fun t A c =>
  match c in call A return result A with
  | GetVSwitchConfig n => Err (ErrNotFound n)
  | c => sim_answer good_host t _ c
  end.

Definition bare_clock : @Clock bare_host :=
  @Build_Clock bare_host sim_now (fun _ => eq_refl) sim_now_event (fun _ _ => eq_refl) sim_now_sleep.

Lemma bare_returns : CallsReturn (H := bare_host).
Proof. intros t A c. pose proof (sim_returns good_host t A c). by destruct c. Qed.

Lemma bare_missing : @config_missing bare_host "node1" (sim_node good_host).
Proof. by split. Qed.

Lemma main_without_config_witness :
  let '(r, t') := @main bare_host string unit nat demo_informer (demo_informer vswitchconfig_type)
    (fun _ => true) no_objects no_objects no_objects no_objects [] in
  r = Err (missing_config "node1") /\ (waitDuration <= sim_now t')%Z.
Proof.
  pose proof (@main_without_config bare_host string unit nat demo_informer (demo_informer vswitchconfig_type)
    (fun _ => true) no_objects no_objects no_objects no_objects bare_clock bare_returns "node1"
    (sim_node good_host) [] bare_missing) as Hm.
  destruct (@main bare_host string unit nat _ _ _ _ _ _ _ []) as [r t']. destruct Hm as (Hr & Ht & _).
  exact (conj Hr Ht).
Defined.
