(* ===== verification/CtlMain.v ===== *)
(** * The controller process

    [cmd/k-vswitch-controller/main.go]: the command line, the checks of its
    three flags, and the wiring of the controller of [VSwitchCfg] with its
    informers ([Informers]).  Package flag is modelled as far as the program
    uses it (flags of type string, and the boolean and other flags of klog);
    whether klog takes a value of one of its own flags is a parameter.  Every
    [os.Exit(1)] is the end of [main] with an error. *)
From S2P Require Import Prelude GoStrings GoNet Exec Objects Json OvsSim PortCache Host HostSim Informers VSwitchCfg.

Definition defaultOverlayType : string := "vxlan".

(** ** The command line *)

(** The program's variables. *)
Record flags := { fl_clusterCIDR : string; fl_serviceCIDR : string; fl_overlayType : string }.

Definition default_flags : flags :=
  {| fl_clusterCIDR := ""; fl_serviceCIDR := ""; fl_overlayType := defaultOverlayType |}.

(** One argument, as [parseOne] takes it apart. *)
Inductive flag_arg :=
| NotFlag              (* not a flag, or "--": parsing stops *)
| BadFlag              (* bad flag syntax *)
| FlagNamed (name : string) (value : option string).

Definition flag_name (name : string) : flag_arg :=
  match name with
  | "" => BadFlag
  | String c _ =>
      if bool_decide (c = "-"%char) || bool_decide (c = "="%char) then BadFlag else
      match cut_byte "="%char name with
      | Some (n, v) => FlagNamed n (Some v)
      | None => FlagNamed name None
      end
  end.

Definition take_flag (s : string) : flag_arg :=
  match s with
  | String "-" (String "-" "") => NotFlag
  | String "-" (String "-" name) => flag_name name
  | String "-" "" => NotFlag
  | String "-" name => flag_name name
  | _ => NotFlag
  end.

(** The defined flags; [true] is a boolean flag, which needs no value. *)
Definition flag_kind (name : string) : option bool :=
  if bool_decide (name ∈ ["cluster-cidr"; "service-cidr"; "overlay-type"]) then Some false
  else if bool_decide (name ∈ ["logtostderr"; "alsologtostderr"; "skip_headers"; "skip_log_headers"]) then Some true
  else if bool_decide (name ∈ ["log_dir"; "log_file"; "log_file_max_size"; "v"; "stderrthreshold"; "vmodule";
                               "log_backtrace_at"]) then Some false
  else None.

Section parse.
Variable klog_Set : string -> string -> bool.

(** [flag.Value.Set] *)
Definition set_flag (name value : string) (f : flags) : result flags :=
  if bool_decide (name = "cluster-cidr") then
    Ok {| fl_clusterCIDR := value; fl_serviceCIDR := fl_serviceCIDR f; fl_overlayType := fl_overlayType f |}
  else if bool_decide (name = "service-cidr") then
    Ok {| fl_clusterCIDR := fl_clusterCIDR f; fl_serviceCIDR := value; fl_overlayType := fl_overlayType f |}
  else if bool_decide (name = "overlay-type") then
    Ok {| fl_clusterCIDR := fl_clusterCIDR f; fl_serviceCIDR := fl_serviceCIDR f; fl_overlayType := value |}
  else if klog_Set name value then Ok f
  else Err (ErrNew ("invalid value for flag -" +:+ name)).

(** [flag.Parse] of the arguments after the program's name. *)
Fixpoint Parse (args : list string) (f : flags) : result flags :=
  match args with
  | [] => Ok f
  | s :: rest =>
      match take_flag s with
      | NotFlag => Ok f
      | BadFlag => Err (ErrNew ("bad flag syntax: " +:+ s))
      | FlagNamed name value =>
          match flag_kind name, value with
          | None, _ => Err (ErrNew ("flag provided but not defined: -" +:+ name))
          | Some true, _ => f' ← set_flag name (default "true" value) f; Parse rest f'
          | Some false, Some v => f' ← set_flag name v f; Parse rest f'
          | Some false, None =>
              match rest with
              | [] => Err (ErrNew ("flag needs an argument: -" +:+ name))
              | v :: rest' => f' ← set_flag name v f; Parse rest' f'
              end
          end
      end
  end.

(** ** [main] *)

Section main.
Context `{HEnv : Env} {Informer ListOptions : Type}.
Variables (node_informer vswitch_informer : Z -> Informer) (synced : Informer -> bool).
(** The contents of the lister's store. *)
Variable vswitches : gmap string VSwitchConfig.

Abbreviation factory := (sharedInformerFactory (Informer := Informer) (ListOptions := ListOptions)).

(** What runs when [main] reaches its last line. *)
Record Wired := {
  w_controller : vswitchConfig;
  w_waited : gmap string bool * gmap string bool;
  w_informers : list (gmap string Informer)
}.

Definition checkFlags (f : flags) : result unit :=
  if bool_decide (fl_clusterCIDR f = "") then
    Err (ErrNew "--cluster-cidr is required and should match what is configured on the cluster")
  else if bool_decide (fl_serviceCIDR f = "") then
    Err (ErrNew "--service-cidr is required and should match what is configured on the cluster")
  else if negb (bool_decide (fl_overlayType f = "vxlan")) && negb (bool_decide (fl_overlayType f = "gre")) then
    Err (ErrNew ("invalid overlay type: " +:+ quote (fl_overlayType f)))
  else Ok tt.

Definition request_informer (t : string) (newFunc : Z -> Informer) (f : factory) : factory := (InformerFor t newFunc f).2.

Definition run (f : factory) : list (gmap string Informer) :=
  match (Start f).1 with Ok fresh => [fresh] | _ => [] end.

Definition main (args : list string) : M trace Wired :=
  f ← lift (Parse args default_flags);
  _ ← lift (checkFlags f);
  _ ← perform InClusterConfig;
  _ ← perform (NewForConfig "kubernetes");
  _ ← perform (NewForConfig "kvswitch");
  let kvswitchInformerFactory : factory := NewSharedInformerFactory 0 in
  let coreInformerFactory : factory := NewSharedInformerFactory 0 in
  (* the two informers are only asked for after the waits *)
  let waited := (WaitForCacheSync synced kvswitchInformerFactory, WaitForCacheSync synced coreInformerFactory) in
  let kvswitchInformerFactory := request_informer vswitchconfig_type vswitch_informer kvswitchInformerFactory in
  let coreInformerFactory := request_informer "*v1.Node" node_informer coreInformerFactory in
  let vswitchController :=
    NewVSwitchConfigController vswitches (fl_overlayType f) (fl_clusterCIDR f) (fl_serviceCIDR f) in
  (* AddEventHandler asks for the node informer again *)
  let coreInformerFactory := request_informer "*v1.Node" node_informer coreInformerFactory in
  mret {| w_controller := vswitchController; w_waited := waited;
          w_informers := run kvswitchInformerFactory ++ run coreInformerFactory |}.
End main.
End parse.

(** ** The command line is read back *)

(** One setting of a flag of the program, in one of the four ways to write it. *)
Inductive spelling := Joined (dashes : bool) | Apart (dashes : bool).

Definition dashed (two : bool) (name : string) : string := (if two then "--" else "-") +:+ name.

Definition spell (sp : spelling) (name value : string) : list string :=
  match sp with
  | Joined two => [dashed two name +:+ "=" +:+ value]
  | Apart two => [dashed two name; value]
  end.

Definition own_flags : list string := ["cluster-cidr"; "service-cidr"; "overlay-type"].

Definition settings := (list (spelling * string * string)).

Definition command_line (l : settings) : list string := l ≫= fun '(sp, name, value) => spell sp name value.

(** The last setting of a flag counts. *)
Definition last_value (name : string) (dflt : string) (l : settings) : string :=
  foldl (fun v '(_, n, value) => if bool_decide (n = name) then value else v) dflt l.

Lemma take_flag_joined two name value : name ∈ own_flags ->
  take_flag (dashed two name +:+ "=" +:+ value) = FlagNamed name (Some value).
Proof.
  intros Hn. unfold own_flags in Hn. repeat (apply elem_of_cons in Hn as [->|Hn]);
    [..|by apply not_elem_of_nil in Hn]; destruct two; reflexivity.
Qed.

Lemma take_flag_apart two name : name ∈ own_flags -> take_flag (dashed two name) = FlagNamed name None.
Proof.
  intros Hn. unfold own_flags in Hn. repeat (apply elem_of_cons in Hn as [->|Hn]);
    [..|by apply not_elem_of_nil in Hn]; destruct two; reflexivity.
Qed.

Lemma own_flag_kind name : name ∈ own_flags -> flag_kind name = Some false.
Proof. intros Hn. unfold flag_kind. by rewrite bool_decide_true. Qed.

Definition set_own (name value : string) (f : flags) : flags :=
  {| fl_clusterCIDR := if bool_decide (name = "cluster-cidr") then value else fl_clusterCIDR f;
     fl_serviceCIDR := if bool_decide (name = "service-cidr") then value else fl_serviceCIDR f;
     fl_overlayType := if bool_decide (name = "overlay-type") then value else fl_overlayType f |}.

Lemma set_flag_own klog_Set name value f :
  name ∈ own_flags -> set_flag klog_Set name value f = Ok (set_own name value f).
Proof.
  intros Hn. unfold own_flags in Hn. repeat (apply elem_of_cons in Hn as [->|Hn]);
    [..|by apply not_elem_of_nil in Hn]; by destruct f.
Qed.

(** A written setting is read, whatever follows. *)
Lemma Parse_spell klog_Set sp name value rest f : name ∈ own_flags ->
  Parse klog_Set (spell sp name value ++ rest) f = Parse klog_Set rest (set_own name value f).
Proof.
  intros Hn. destruct sp as [two|two]; cbn [spell app Parse].
  - by rewrite take_flag_joined, own_flag_kind, set_flag_own.
  - by rewrite take_flag_apart, own_flag_kind, set_flag_own.
Qed.

(** The command line is read back.  However the settings of the three
    flags are written (one dash or two, with = or as two arguments), in any
    order and with repetitions, the variables hold the last value given, or
    the default; no value is misread as a flag. *)
Theorem Parse_command_line klog_Set l f :
  Forall (fun '(_, name, _) => name ∈ own_flags) l ->
  Parse klog_Set (command_line l) f =
    Ok {| fl_clusterCIDR := last_value "cluster-cidr" (fl_clusterCIDR f) l;
          fl_serviceCIDR := last_value "service-cidr" (fl_serviceCIDR f) l;
          fl_overlayType := last_value "overlay-type" (fl_overlayType f) l |}.
Proof.
  intros Hl. revert f. induction Hl as [|[[sp name] value] l Hn Hl IH]; intros f; [by destruct f|].
  unfold command_line. cbn [mbind list_bind]. rewrite Parse_spell by done. apply IH.
Qed.

(** ** What reaches the controller *)

Section wiring.
Context `{HEnv : Env} {Informer ListOptions : Type}.
Variables (klog_Set : string -> string -> bool) (node_informer vswitch_informer : Z -> Informer)
  (synced : Informer -> bool) (vswitches : gmap string VSwitchConfig).

Abbreviation run_main := (main (ListOptions := ListOptions) klog_Set node_informer vswitch_informer synced vswitches).

Lemma checkFlags_ok f :
  checkFlags f = Ok tt <->
  fl_clusterCIDR f <> "" /\ fl_serviceCIDR f <> "" /\ (fl_overlayType f = "vxlan" \/ fl_overlayType f = "gre").
Proof.
  unfold checkFlags. split.
  - repeat case_bool_decide; cbn [negb andb]; try done; auto.
  - intros (Hc & Hs & Ho). rewrite !bool_decide_false by done.
    destruct Ho as [-> | ->]; done.
Qed.

Lemma checkFlags_no_panic f : checkFlags f <> Panic.
Proof. unfold checkFlags. by repeat case_bool_decide. Qed.

(** Bad flags stop the process before it does anything; good ones reach
    the controller.  When main starts the controller, the cluster block and
    the service block it was given are not empty, its overlay type is vxlan or
    gre, and the controller holds those values; when the command line does not
    parse or its values are not of that kind, main ends with an error and no
    call was made.  The caches are not waited for. *)
Theorem main_flags args t :
  let '(r, t') := run_main args t in
  match Parse klog_Set args default_flags with
  | Ok f =>
      if bool_decide (fl_clusterCIDR f <> "" /\ fl_serviceCIDR f <> "" /\
                      (fl_overlayType f = "vxlan" \/ fl_overlayType f = "gre"))
      then match r with
           | Ok w => w_controller w =
                       NewVSwitchConfigController vswitches (fl_overlayType f) (fl_clusterCIDR f) (fl_serviceCIDR f)
                     /\ w_waited w = (∅, ∅)
           | _ => True
           end
      else is_err r = true /\ t' = t
  | _ => is_ok r = false /\ t' = t
  end.
Proof.
  unfold main. unfold mbind at 1, M_bind at 1, lift at 1.
  destruct (Parse klog_Set args default_flags) as [f|e|]; [|done..].
  unfold mbind at 1, M_bind at 1, lift at 1. pose proof (checkFlags_ok f) as Hok.
  case_bool_decide as Hf.
  - apply Hok in Hf as ->. destruct (_ ≫= _) as [[w|e|] t'] eqn:Hrun; [|done..]. run_inv.
    split; [done|]. cbn. f_equal; by apply not_started_not_waited.
  - pose proof (checkFlags_no_panic f). destruct (checkFlags f) as [[]|e|]; [|done..].
    by destruct Hf; apply Hok.
Qed.
End wiring.

(** ** Witness *)

Definition demo_settings : settings :=
  [(Joined true, "cluster-cidr", "10.244.0.0/16"); (Apart false, "overlay-type", "-gre=");
   (Apart true, "service-cidr", "10.96.0.0/12"); (Joined false, "overlay-type", "gre")].

Lemma Parse_command_line_witness :
  command_line demo_settings =
    ["--cluster-cidr=10.244.0.0/16"; "-overlay-type"; "-gre="; "--service-cidr"; "10.96.0.0/12"; "-overlay-type=gre"] /\
  Parse (fun _ _ => true) (command_line demo_settings) default_flags =
    Ok {| fl_clusterCIDR := "10.244.0.0/16"; fl_serviceCIDR := "10.96.0.0/12"; fl_overlayType := "gre" |}.
Proof.
  split; [reflexivity|].
  rewrite (Parse_command_line (fun _ _ => true) demo_settings default_flags); [reflexivity|].
  repeat apply List.Forall_cons; [..|apply List.Forall_nil]; apply list_elem_of_In; cbn; tauto.
Defined.
