(* ===== verification/KvswitchClient.v ===== *)
(** * The generated client

    [apis/generated/clientset/versioned/typed/kvswitch/v1alpha1/vswitchconfig.go]:
    each method is one request of the REST client of client-go, whose execution
    is an operation of the class [RestClient].  [KvswitchAPI] states what an API
    server does with the requests of this resource; against it the client is an
    implementation of the interface that the controller of [VSwitchCfg] is
    proved against. *)
From S2P Require Import Prelude GoStrings Objects VSwitchCfg.

(** The fields of the option types that the methods look at; the rest is the
    type parameter, encoded by the REST client. *)
Record ListOptions (Rest : Type) := { TimeoutSeconds : option Z; lo_Watch : bool; lo_rest : Rest }.
Arguments TimeoutSeconds {Rest}.
Arguments lo_Watch {Rest}.
Arguments lo_rest {Rest}.

Inductive verb := GET | POST | PUT | DELETE | PATCH (patchType : string).

Section client.
Context {Rest DeleteOptions GetOptions : Type}.

Inductive body :=
| BodyConfig (c : VSwitchConfig)
| BodyDelete (o : DeleteOptions)
| BodyBytes (data : string).

Inductive params :=
| GetParams (o : GetOptions)
| ListParams (o : ListOptions Rest).

(** [rest.Request], as far as the methods fill it in. *)
Record request := {
  rq_verb : verb; rq_resource : string; rq_name : option string; rq_subresource : list string;
  rq_params : option params; rq_timeout : Z; rq_body : option body
}.

Definition Resource (v : verb) (resource : string) : request :=
  {| rq_verb := v; rq_resource := resource; rq_name := None; rq_subresource := []; rq_params := None;
     rq_timeout := 0; rq_body := None |}.
Definition Name (name : string) (r : request) : request :=
  {| rq_verb := rq_verb r; rq_resource := rq_resource r; rq_name := Some name; rq_subresource := rq_subresource r;
     rq_params := rq_params r; rq_timeout := rq_timeout r; rq_body := rq_body r |}.
Definition SubResource (subs : list string) (r : request) : request :=
  {| rq_verb := rq_verb r; rq_resource := rq_resource r; rq_name := rq_name r; rq_subresource := subs;
     rq_params := rq_params r; rq_timeout := rq_timeout r; rq_body := rq_body r |}.
Definition VersionedParams (p : params) (r : request) : request :=
  {| rq_verb := rq_verb r; rq_resource := rq_resource r; rq_name := rq_name r; rq_subresource := rq_subresource r;
     rq_params := Some p; rq_timeout := rq_timeout r; rq_body := rq_body r |}.
Definition Timeout (d : Z) (r : request) : request :=
  {| rq_verb := rq_verb r; rq_resource := rq_resource r; rq_name := rq_name r; rq_subresource := rq_subresource r;
     rq_params := rq_params r; rq_timeout := d; rq_body := rq_body r |}.
Definition Body (b : body) (r : request) : request :=
  {| rq_verb := rq_verb r; rq_resource := rq_resource r; rq_name := rq_name r; rq_subresource := rq_subresource r;
     rq_params := rq_params r; rq_timeout := rq_timeout r; rq_body := Some b |}.

(** A signed 64 bit number. *)
Definition wrap64 (z : Z) : Z := ((z + 2 ^ 63) mod 2 ^ 64 - 2 ^ 63)%Z.

(** The seconds of the options as a [time.Duration] times [time.Second]. *)
Definition timeout_of (opts : ListOptions Rest) : Z :=
  match TimeoutSeconds opts with Some s => wrap64 (s * 1000000000) | None => 0%Z end.

(** [Do().Into(result)], [Do().Error()] and [Watch()]. *)
Class RestClient (S List Watcher : Type) := {
  do_config : request -> M S VSwitchConfig;
  do_list : request -> M S List;
  do_error : request -> M S unit;
  do_watch : request -> M S Watcher
}.

Definition vswitchconfigs : string := "vswitchconfigs".

Section methods.
Context {S Listed Watcher : Type} `{!RestClient S Listed Watcher}.

Definition Get (name : string) (options : GetOptions) : M S VSwitchConfig :=
  do_config (VersionedParams (GetParams options) (Name name (Resource GET vswitchconfigs))).

Definition List (opts : ListOptions Rest) : M S Listed :=
  do_list (Timeout (timeout_of opts) (VersionedParams (ListParams opts) (Resource GET vswitchconfigs))).

Definition Watch (opts : ListOptions Rest) : M S Watcher :=
  let timeout := timeout_of opts in
  let opts := {| TimeoutSeconds := TimeoutSeconds opts; lo_Watch := true; lo_rest := lo_rest opts |} in
  do_watch (Timeout timeout (VersionedParams (ListParams opts) (Resource GET vswitchconfigs))).

Definition Create (vSwitchConfig : VSwitchConfig) : M S VSwitchConfig :=
  do_config (Body (BodyConfig vSwitchConfig) (Resource POST vswitchconfigs)).

Definition Update (vSwitchConfig : VSwitchConfig) : M S VSwitchConfig :=
  do_config (Body (BodyConfig vSwitchConfig) (Name (vsc_Name vSwitchConfig) (Resource PUT vswitchconfigs))).

Definition Delete (name : string) (options : DeleteOptions) : M S unit :=
  do_error (Body (BodyDelete options) (Name name (Resource DELETE vswitchconfigs))).

Definition DeleteCollection (options : DeleteOptions) (listOptions : ListOptions Rest) : M S unit :=
  do_error (Body (BodyDelete options) (Timeout (timeout_of listOptions)
    (VersionedParams (ListParams listOptions) (Resource DELETE vswitchconfigs)))).

Definition Patch (name patchType data : string) (subresources : list string) : M S VSwitchConfig :=
  do_config (Body (BodyBytes data) (Name name (SubResource subresources (Resource (PATCH patchType) vswitchconfigs)))).
End methods.

(** ** The server *)

(** What the API server does with the requests of one object: POST creates,
    PUT replaces, DELETE removes, GET reads; the object is the one named, and
    for a POST the one in the body. *)
Class KvswitchAPI (S Listed Watcher : Type) `{!RestClient S Listed Watcher} := {
  stored : S -> gmap string VSwitchConfig;
  post_law r c s a s' :
    rq_verb r = POST -> rq_resource r = vswitchconfigs -> rq_name r = None -> rq_body r = Some (BodyConfig c) ->
    do_config r s = (Ok a, s') ->
    a = c /\ stored s !! vsc_Name c = None /\ stored s' = <[vsc_Name c := c]> (stored s);
  put_law r c s a s' :
    rq_verb r = PUT -> rq_resource r = vswitchconfigs -> rq_name r = Some (vsc_Name c) ->
    rq_body r = Some (BodyConfig c) -> do_config r s = (Ok a, s') ->
    a = c /\ is_Some (stored s !! vsc_Name c) /\ stored s' = <[vsc_Name c := c]> (stored s);
  delete_law_rest r n s s' :
    rq_verb r = DELETE -> rq_resource r = vswitchconfigs -> rq_name r = Some n ->
    do_error r s = (Ok tt, s') -> stored s' = delete n (stored s);
  get_law r n s a s' :
    rq_verb r = GET -> rq_resource r = vswitchconfigs -> rq_name r = Some n -> rq_subresource r = [] ->
    do_config r s = (a, s') ->
    stored s' = stored s /\ (forall c, a = Ok c -> stored s !! n = Some c) /\
    (stored s !! n = None -> is_ok a = false)
}.

Section refinement.
Context {S Listed Watcher : Type} `{!RestClient S Listed Watcher} `{!KvswitchAPI S Listed Watcher}.

(** The controller's view of the client: its calls pass the zero options. *)
Definition client_api (no_options : DeleteOptions) : VSwitchAPI S := {|
  api_Create := Create; api_Update := Update; api_Delete name := Delete name no_options
|}.

Lemma Create_stores c s a s' : Create c s = (Ok a, s') ->
  a = c /\ stored s !! vsc_Name c = None /\ stored s' = <[vsc_Name c := c]> (stored s).
Proof. by apply post_law. Qed.

Lemma Update_stores c s a s' : Update c s = (Ok a, s') ->
  a = c /\ is_Some (stored s !! vsc_Name c) /\ stored s' = <[vsc_Name c := c]> (stored s).
Proof. by apply put_law. Qed.

Lemma Delete_removes n o s s' : Delete n o s = (Ok tt, s') -> stored s' = delete n (stored s).
Proof. by apply delete_law_rest. Qed.

Lemma Get_reads n go s a s' : Get n go s = (a, s') ->
  stored s' = stored s /\ (forall c, a = Ok c -> stored s !! n = Some c) /\ (stored s !! n = None -> is_ok a = false).
Proof.
  exact (get_law (VersionedParams (GetParams go) (Name n (Resource GET vswitchconfigs))) n s a s'
    eq_refl eq_refl eq_refl eq_refl).
Qed.

(** The generated client discharges the interface of the controller. *)
#[export] Instance client_laws o : @VSwitchLaws S (client_api o).
Proof.
  refine (@Build_VSwitchLaws S (client_api o) stored _ _ _).
  - intros cfg s a s' Hc. exact (proj2 (Create_stores cfg s a s' Hc)).
  - intros cfg s a s' Hu. exact (proj2 (Update_stores cfg s a s' Hu)).
  - intros name s [] s' Hd. exact (Delete_removes name o s s' Hd).
Defined.

(** What the client writes it reads back.  After a Create or an Update
    that succeeds, a Get of the object's name that succeeds gives the object;
    after a Delete it fails; and neither touches an object of another name. *)
Theorem client_reads_back c s a s' g go s'' n :
  (Create c s = (Ok a, s') \/ Update c s = (Ok a, s') -> Get n go s' = (Ok g, s'') ->
     if bool_decide (n = vsc_Name c) then g = c else stored s !! n = Some g) /\
  (forall o, Delete n o s = (Ok tt, s') -> is_ok (Get n go s').1 = false).
Proof.
  split.
  - intros Hw Hg. assert (Hs : stored s' = <[vsc_Name c := c]> (stored s)).
    { destruct Hw as [(_ & _ & ?)%Create_stores|(_ & _ & ?)%Update_stores]; done. }
    destruct (Get_reads _ _ _ _ _ Hg) as (_ & Hget & _).
    specialize (Hget g eq_refl). rewrite Hs in Hget. case_bool_decide as Hn.
    + subst n. rewrite lookup_insert_eq in Hget. by injection Hget.
    + by rewrite lookup_insert_ne in Hget.
  - intros o Hd%Delete_removes. destruct (Get n go s') as [r t] eqn:Hg. cbn.
    destruct (Get_reads _ _ _ _ _ Hg) as (_ & _ & Hnone).
    apply Hnone. by rewrite Hd, lookup_delete_eq.
Qed.

(** The timeout of a list or watch request.  It is the number of seconds
    asked for, in nanoseconds, as long as that fits 63 bits; a longer one
    wraps, possibly to a negative timeout. *)
Theorem timeout_bounds (opts : ListOptions Rest) secs :
  TimeoutSeconds opts = Some secs ->
  (- 2 ^ 63 <= timeout_of opts < 2 ^ 63)%Z /\
  ((- 9223372036 <= secs <= 9223372036)%Z -> timeout_of opts = (secs * 1000000000)%Z).
Proof.
  intros Ht. unfold timeout_of, wrap64. rewrite Ht. split.
  - pose proof (Z.mod_pos_bound (secs * 1000000000 + 2 ^ 63) (2 ^ 64) ltac:(lia)). lia.
  - intros Hs. rewrite Z.mod_small by lia. lia.
Qed.
End refinement.
End client.

(** ** Witnesses *)

(** A server that holds the configs in a map. *)
Definition map_request {R D G : Type} (r : request (Rest := R) (DeleteOptions := D) (GetOptions := G))
  : M (gmap string VSwitchConfig) VSwitchConfig := fun s =>
  match rq_verb r, rq_name r, rq_body r with
  | POST, _, Some (BodyConfig c) =>
      match s !! vsc_Name c with
      | None => (Ok c, <[vsc_Name c := c]> s)
      | Some _ => (Err (ErrExt "AlreadyExists"), s)
      end
  | PUT, Some n, Some (BodyConfig c) =>
      match s !! n with
      | Some _ => (Ok c, <[n := c]> s)
      | None => (Err (ErrNotFound n), s)
      end
  | GET, Some n, _ =>
      match s !! n with Some c => (Ok c, s) | None => (Err (ErrNotFound n), s) end
  | _, _, _ => (Err (ErrExt "bad request"), s)
  end.

#[local] Instance map_client {R D G : Type}
  : @RestClient R D G (gmap string VSwitchConfig) unit unit := {|
  do_config := map_request;
  do_list _ := mret tt;
  do_error r := fun s =>
    match rq_verb r, rq_name r with
    | DELETE, Some n => (Ok tt, delete n s)
    | _, _ => (Err (ErrExt "bad request"), s)
    end;
  do_watch _ := mret tt
|}.

#[local] Instance map_server {R D G : Type}
  : @KvswitchAPI R D G (gmap string VSwitchConfig) unit unit map_client.
Proof.
  refine (@Build_KvswitchAPI R D G _ unit unit map_client id _ _ _ _); cbn [do_config do_error map_client id].
  - intros r c s a s' Hv _ _ Hb. unfold map_request. rewrite Hv, Hb. case_match; by intros [= <- <-].
  - intros r c s a s' Hv _ Hn Hb. unfold map_request. rewrite Hv, Hn, Hb. case_match; [|done]. intros [= <- <-]. by eauto.
  - intros r n s s' Hv _ Hn. rewrite Hv, Hn. by intros [= <-].
  - intros r n s a s' Hv _ Hn _. unfold map_request. rewrite Hv, Hn.
    destruct (s !! n) as [c|] eqn:Hs; intros [= <- <-]; (split; [done|]); split; try done. by intros c' [= ->].
Defined.

Definition demo_config (name : string) : VSwitchConfig :=
  {| vsc_Name := name; vsc_Spec := {| PodCIDR := "10.244.1.0/24"; ClusterCIDR := "10.244.0.0/16";
       ServiceCIDR := "10.96.0.0/12"; OverlayIP := "192.168.0.1"; OverlayType := "vxlan" |} |}.

Abbreviation demo_create c s := (Create (Rest := unit) (DeleteOptions := unit) (GetOptions := unit) c s).
Abbreviation demo_get n s := (Get (Rest := unit) (DeleteOptions := unit) (GetOptions := unit) n tt s).

Definition demo_stored : gmap string VSwitchConfig := (demo_create (demo_config "node1") ∅).2.

Lemma demo_created : demo_create (demo_config "node1") ∅ = (Ok (demo_config "node1"), demo_stored).
Proof. vm_compute. reflexivity. Qed.

Lemma demo_got : demo_get "node1" demo_stored = (Ok (demo_config "node1"), demo_stored).
Proof. vm_compute. reflexivity. Qed.

Lemma client_reads_back_witness :
  demo_get "node1" demo_stored = (Ok (demo_config "node1"), demo_stored) /\
  if bool_decide ("node1" = vsc_Name (demo_config "node1")) then True else False.
Proof.
  destruct (client_reads_back (Rest := unit) (DeleteOptions := unit) (GetOptions := unit)
    (demo_config "node1") ∅ (demo_config "node1") demo_stored (demo_config "node1") tt demo_stored "node1") as [H _].
  specialize (H (or_introl demo_created) demo_got). split; [exact demo_got|].
  revert H. destruct (bool_decide _) eqn:E; [intros _; exact I|].
  intros _. vm_compute in E. discriminate E.
Defined.

Lemma timeout_bounds_witness :
  timeout_of {| TimeoutSeconds := Some 30%Z; lo_Watch := false; lo_rest := tt |} = 30000000000%Z.
Proof.
  destruct (timeout_bounds {| TimeoutSeconds := Some 30%Z; lo_Watch := false; lo_rest := tt |} 30%Z eq_refl)
    as [_ H].
  exact (H ltac:(lia)).
Defined.
