(* ===== verification/Clientset.v ===== *)
(** * Making clients

    [apis/generated/clientset/versioned/clientset.go] and the constructors of
    [typed/kvswitch/v1alpha1/kvswitch_client.go]: from a REST configuration to a
    client set of a typed client and a discovery client, over the parts of
    client-go ([rest/config.go], [rest/client.go], [discovery_client.go]) that
    decide which rate limiter a client gets.  Configurations live in a memory,
    since the constructors take pointers and copy before they write; a limiter
    is known by its number in the order of creation.

    What else a REST client is made of (URL, transport, serializers) is a
    parameter that may fail. *)
From Stdlib Require Import QArith.
From S2P Require Import Prelude.

(** A [float32] of the configuration, as a rational: it is only compared with
    zero and handed to limiters. *)
Definition positive_rate (q : Q) : bool := negb (Qle_bool q 0).
Definition zero_rate (q : Q) : bool := Qeq_bool q 0.

Section clientset.
Context {Codec Rest Wire : Type}.

(** [schema.GroupVersion]. *)
Record GroupVersion := { gv_Group : string; gv_Version : string }.

(** [rest.Config]: the fields the constructors look at; [cf_rest] are the
    others. *)
Record Config := {
  cf_Host : string; cf_APIPath : string; cf_GroupVersion : option GroupVersion;
  cf_NegotiatedSerializer : option Codec; cf_UserAgent : string; cf_QPS : Q; cf_Burst : Z;
  cf_RateLimiter : option nat; cf_Timeout : Z; cf_rest : Rest
}.

Definition with_limiter (r : option nat) (c : Config) : Config :=
  {| cf_Host := cf_Host c; cf_APIPath := cf_APIPath c; cf_GroupVersion := cf_GroupVersion c;
     cf_NegotiatedSerializer := cf_NegotiatedSerializer c; cf_UserAgent := cf_UserAgent c; cf_QPS := cf_QPS c;
     cf_Burst := cf_Burst c; cf_RateLimiter := r; cf_Timeout := cf_Timeout c; cf_rest := cf_rest c |}.

(** Configurations by address, and the rate and burst of every limiter made. *)
Record memory := { configs : gmap nat Config; limiters : list (Q * Z) }.

Definition load_config (p : nat) : M memory Config := fun s =>
  match configs s !! p with Some c => (Ok c, s) | None => (Panic, s) end.
Definition store_config (p : nat) (c : Config) : M memory unit := fun s =>
  (Ok tt, {| configs := <[p := c]> (configs s); limiters := limiters s |}).
(** [config := *c], a new variable. *)
Definition new_config (c : Config) : M memory nat := fun s =>
  let p := fresh (dom (configs s)) in
  (Ok p, {| configs := <[p := c]> (configs s); limiters := limiters s |}).
Definition NewTokenBucketRateLimiter (qps : Q) (burst : Z) : M memory nat := fun s =>
  (Ok (length (limiters s)), {| configs := configs s; limiters := limiters s ++ [(qps, burst)] |}).

(** A [rest.RESTClient]. *)
Record RESTClient := { rc_config : Config; rc_wire : Wire; rc_Throttle : option nat }.

(** The surroundings: the codecs, the user agent, and making the rest of a
    client. *)
Context (direct_codecs noop_codecs : Codec) (DefaultKubernetesUserAgent : string).
Context (make_wire : Config -> result Wire).

(** ** client-go *)

Definition DefaultQPS : Q := 5.
Definition DefaultBurst : Z := 10.

Definition NewRESTClient (c : Config) (maxQPS : Q) (maxBurst : Z) (rateLimiter : option nat) : M memory RESTClient :=
  wire ← lift (make_wire c);
  throttle ← match rateLimiter with
             | Some r => mret (Some r)
             | None =>
                 if positive_rate maxQPS then r ← NewTokenBucketRateLimiter maxQPS maxBurst; mret (Some r)
                 else mret None
             end;
  mret {| rc_config := c; rc_wire := wire; rc_Throttle := throttle |}.

Definition RESTClientFor (config : nat) : M memory RESTClient :=
  c ← load_config config;
  match cf_GroupVersion c, cf_NegotiatedSerializer c with
  | None, _ => throw (ErrNew "GroupVersion is required when initializing a RESTClient")
  | _, None => throw (ErrNew "NegotiatedSerializer is required when initializing a RESTClient")
  | Some _, Some _ =>
      let qps := if zero_rate (cf_QPS c) then DefaultQPS else cf_QPS c in
      let burst := if (cf_Burst c =? 0)%Z then DefaultBurst else cf_Burst c in
      NewRESTClient c qps burst (cf_RateLimiter c)
  end.

Definition versioned (c : Config) : Config :=
  {| cf_Host := cf_Host c; cf_APIPath := cf_APIPath c;
     cf_GroupVersion := Some (default {| gv_Group := "meta.k8s.io"; gv_Version := "v1" |} (cf_GroupVersion c));
     cf_NegotiatedSerializer := cf_NegotiatedSerializer c; cf_UserAgent := cf_UserAgent c; cf_QPS := cf_QPS c;
     cf_Burst := cf_Burst c; cf_RateLimiter := cf_RateLimiter c; cf_Timeout := cf_Timeout c; cf_rest := cf_rest c |}.
Definition UnversionedRESTClientFor (config : nat) : M memory RESTClient :=
  c ← load_config config;
  match cf_NegotiatedSerializer c with
  | None => throw (ErrNew "NegotiatedSerializer is required when initializing a RESTClient")
  | Some _ =>
      NewRESTClient (versioned c) (cf_QPS c) (cf_Burst c) (cf_RateLimiter c)
  end.

(** [discovery.DiscoveryClient]. *)
Record DiscoveryClient := { dc_restClient : option RESTClient; dc_LegacyPrefix : string }.

Definition discovery_defaults (c : Config) : Config :=
  {| cf_Host := cf_Host c; cf_APIPath := ""; cf_GroupVersion := None; cf_NegotiatedSerializer := Some noop_codecs;
     cf_UserAgent := if bool_decide (cf_UserAgent c = "") then DefaultKubernetesUserAgent else cf_UserAgent c;
     cf_QPS := cf_QPS c; cf_Burst := cf_Burst c; cf_RateLimiter := cf_RateLimiter c;
     cf_Timeout := if (cf_Timeout c =? 0)%Z then 32000000000 else cf_Timeout c; cf_rest := cf_rest c |}.
Definition setDiscoveryDefaults (config : nat) : M memory unit :=
  c ← load_config config; store_config config (discovery_defaults c).

Definition NewDiscoveryClientForConfig (c : nat) : M memory DiscoveryClient :=
  cfg ← load_config c;
  config ← new_config cfg;
  _ ← setDiscoveryDefaults config;
  client ← UnversionedRESTClientFor config;
  mret {| dc_restClient := Some client; dc_LegacyPrefix := "/api" |}.

(** [panic(err)] for an error. *)
Definition or_die {A} (m : M memory A) : M memory A := fun s =>
  match m s with (Err _, s') => (Panic, s') | other => other end.

Definition NewDiscoveryClientForConfigOrDie (c : nat) : M memory DiscoveryClient :=
  or_die (NewDiscoveryClientForConfig c).
Definition NewDiscoveryClient (c : option RESTClient) : DiscoveryClient :=
  {| dc_restClient := c; dc_LegacyPrefix := "/api" |}.

(** ** The typed client *)

Record KvswitchV1alpha1Client := { kc_restClient : option RESTClient }.

(** [v1alpha1.SchemeGroupVersion]. *)
Definition SchemeGroupVersion : GroupVersion := {| gv_Group := "kvswitch.io"; gv_Version := "v1alpha1" |}.

Definition kv_defaults (c : Config) : Config :=
  {| cf_Host := cf_Host c; cf_APIPath := "/apis"; cf_GroupVersion := Some SchemeGroupVersion;
     cf_NegotiatedSerializer := Some direct_codecs;
     cf_UserAgent := if bool_decide (cf_UserAgent c = "") then DefaultKubernetesUserAgent else cf_UserAgent c;
     cf_QPS := cf_QPS c; cf_Burst := cf_Burst c; cf_RateLimiter := cf_RateLimiter c; cf_Timeout := cf_Timeout c;
     cf_rest := cf_rest c |}.
Definition setConfigDefaults (config : nat) : M memory unit :=
  c ← load_config config; store_config config (kv_defaults c).

Definition kv_NewForConfig (c : nat) : M memory KvswitchV1alpha1Client :=
  cfg ← load_config c;
  config ← new_config cfg;
  _ ← setConfigDefaults config;
  client ← RESTClientFor config;
  mret {| kc_restClient := Some client |}.

Definition kv_NewForConfigOrDie (c : nat) : M memory KvswitchV1alpha1Client := or_die (kv_NewForConfig c).
Definition kv_New (c : option RESTClient) : KvswitchV1alpha1Client := {| kc_restClient := c |}.

(** [RESTClient()] of a client that may be nil. *)
Definition kv_RESTClient (c : option KvswitchV1alpha1Client) : option RESTClient :=
  match c with None => None | Some c => kc_restClient c end.

(** The getter of the resource's client, which works for a nil group client. *)
Record vSwitchConfigs := { vsc_client : option RESTClient }.
Definition newVSwitchConfigs (c : option KvswitchV1alpha1Client) : vSwitchConfigs := {| vsc_client := kv_RESTClient c |}.
Definition VSwitchConfigs (c : option KvswitchV1alpha1Client) : vSwitchConfigs := newVSwitchConfigs c.

(** ** The client set *)

Record Clientset := { cs_DiscoveryClient : option DiscoveryClient; cs_kvswitchV1alpha1 : option KvswitchV1alpha1Client }.

Definition Discovery (c : option Clientset) : option DiscoveryClient :=
  match c with None => None | Some c => cs_DiscoveryClient c end.
(** A nil client set is dereferenced. *)
Definition KvswitchV1alpha1 (c : option Clientset) : result (option KvswitchV1alpha1Client) :=
  match c with None => Panic | Some c => Ok (cs_kvswitchV1alpha1 c) end.

Definition NewForConfig (c : nat) : M memory Clientset :=
  cfg ← load_config c;
  configShallowCopy ← new_config cfg;
  _ ← match cf_RateLimiter cfg with
      | None =>
          if positive_rate (cf_QPS cfg)
          then r ← NewTokenBucketRateLimiter (cf_QPS cfg) (cf_Burst cfg);
               store_config configShallowCopy (with_limiter (Some r) cfg)
          else mret tt
      | Some _ => mret tt
      end;
  kv ← kv_NewForConfig configShallowCopy;
  dc ← NewDiscoveryClientForConfig configShallowCopy;
  mret {| cs_DiscoveryClient := Some dc; cs_kvswitchV1alpha1 := Some kv |}.

Definition NewForConfigOrDie (c : nat) : M memory Clientset :=
  kv ← kv_NewForConfigOrDie c;
  dc ← NewDiscoveryClientForConfigOrDie c;
  mret {| cs_DiscoveryClient := Some dc; cs_kvswitchV1alpha1 := Some kv |}.

Definition New (c : option RESTClient) : Clientset :=
  {| cs_DiscoveryClient := Some (NewDiscoveryClient c); cs_kvswitchV1alpha1 := Some (kv_New c) |}.

(** ** Specification *)

(** The limiter of a client made with the number [n] free, and the limiters
    made for it. *)
Definition throttle_of (given : option nat) (qps : Q) (burst : Z) (n : nat) : option nat * list (Q * Z) :=
  match given with
  | Some r => (Some r, [])
  | None => if positive_rate qps then (Some n, [(qps, burst)]) else (None, [])
  end.

Definition default_rate (q : Q) : Q := if zero_rate q then DefaultQPS else q.
Definition default_burst (b : Z) : Z := if (b =? 0)%Z then DefaultBurst else b.

(** What a call did: only variables of its own and limiters are new. *)
Definition grows (s s' : memory) (made : list (Q * Z)) : Prop :=
  configs s ⊆ configs s' /\ limiters s' = limiters s ++ made.

Lemma NewRESTClient_run c qps burst given s :
  exists s', NewRESTClient c qps burst given s =
    (match make_wire c with
     | Ok w => Ok {| rc_config := c; rc_wire := w; rc_Throttle := (throttle_of given qps burst (length (limiters s))).1 |}
     | Err e => Err e
     | Panic => Panic
     end, s') /\
    grows s s' (if is_ok (make_wire c) then (throttle_of given qps burst (length (limiters s))).2 else []).
Proof.
  assert (Hs : grows s s []) by (split; [done|by rewrite app_nil_r]).
  unfold NewRESTClient, lift, mbind, M_bind. destruct (make_wire c) as [w|e|]; [|by exists s..].
  cbn [is_ok]. destruct given as [r|]; [by exists s|]. cbn. destruct (positive_rate qps); [|by exists s].
  cbn. by eexists.
Qed.

(** A constructor that copies its configuration, changes the copy to
    [set cfg] and makes a client from the copy. *)
Lemma on_copy {A} (set : Config -> Config) (defaults : nat -> M memory unit) (make : nat -> M memory A) p cfg s :
  (forall q c t, configs t !! q = Some c ->
     defaults q t = (Ok tt, {| configs := <[q := set c]> (configs t); limiters := limiters t |})) ->
  configs s !! p = Some cfg ->
  exists q s1, grows s s1 [] /\ configs s1 !! q = Some (set cfg) /\
    (c ← load_config p; q ← new_config c; _ ← defaults q; make q) s = make q s1.
Proof.
  intros Hdef Hp. set (q := fresh (dom (configs s))).
  assert (Hq : configs s !! q = None) by apply not_elem_of_dom, is_fresh.
  exists q, {| configs := <[q := set cfg]> (configs s); limiters := limiters s |}. split; [|split].
  - split; [by apply insert_subseteq|by rewrite app_nil_r].
  - apply lookup_insert_eq.
  - unfold mbind, M_bind, load_config, new_config. rewrite Hp. fold q.
    rewrite (Hdef q cfg) by apply lookup_insert_eq. cbn. by rewrite insert_insert_eq.
Qed.

Lemma grows_trans s1 s2 s3 m1 m2 : grows s1 s2 m1 -> grows s2 s3 m2 -> grows s1 s3 (m1 ++ m2).
Proof.
  intros [Hc1 Hl1] [Hc2 Hl2]. split; [by transitivity (configs s2)|]. by rewrite Hl2, Hl1, app_assoc.
Qed.

(** The limiter of the typed and of the discovery client. *)
Definition kv_throttle (c : Config) : nat -> option nat * list (Q * Z) :=
  throttle_of (cf_RateLimiter c) (default_rate (cf_QPS c)) (default_burst (cf_Burst c)).
Definition dc_throttle (c : Config) : nat -> option nat * list (Q * Z) :=
  throttle_of (cf_RateLimiter c) (cf_QPS c) (cf_Burst c).

Lemma kv_run p cfg s kv s' :
  configs s !! p = Some cfg -> kv_NewForConfig p s = (Ok kv, s') ->
  rc_Throttle <$> kc_restClient kv = Some (kv_throttle cfg (length (limiters s))).1 /\
  grows s s' (kv_throttle cfg (length (limiters s))).2.
Proof.
  intros Hp. unfold kv_NewForConfig.
  destruct (on_copy kv_defaults setConfigDefaults (fun q => client ← RESTClientFor q; mret {| kc_restClient := Some client |})
    p cfg s) as (q & s1 & Hg & Hq & ->); [|done|].
  { intros q c t Hq. unfold setConfigDefaults, load_config, mbind, M_bind. by rewrite Hq. }
  unfold mbind, M_bind, RESTClientFor, load_config. unfold mbind, M_bind. rewrite Hq. cbn [kv_defaults cf_GroupVersion cf_NegotiatedSerializer].
  destruct (NewRESTClient_run (kv_defaults cfg) (default_rate (cf_QPS cfg)) (default_burst (cf_Burst cfg))
    (cf_RateLimiter cfg) s1) as (s2 & Hrun & Hg2).
  unfold default_rate, default_burst in Hrun. cbn [kv_defaults cf_QPS cf_Burst cf_RateLimiter]. rewrite Hrun.
  destruct (make_wire (kv_defaults cfg)) as [w|e|]; [|done..]. intros [= <- <-]. cbn [is_ok] in Hg2.
  assert (Hl : limiters s1 = limiters s) by (destruct Hg as [_ ->]; apply app_nil_r). rewrite Hl in *.
  split; [done|]. exact (grows_trans _ _ _ _ _ Hg Hg2).
Qed.

Lemma dc_run p cfg s dc s' :
  configs s !! p = Some cfg -> NewDiscoveryClientForConfig p s = (Ok dc, s') ->
  rc_Throttle <$> dc_restClient dc = Some (dc_throttle cfg (length (limiters s))).1 /\
  grows s s' (dc_throttle cfg (length (limiters s))).2.
Proof.
  intros Hp. unfold NewDiscoveryClientForConfig.
  destruct (on_copy discovery_defaults setDiscoveryDefaults
    (fun q => client ← UnversionedRESTClientFor q; mret {| dc_restClient := Some client; dc_LegacyPrefix := "/api" |})
    p cfg s) as (q & s1 & Hg & Hq & ->); [|done|].
  { intros q c t Hq. unfold setDiscoveryDefaults, load_config, mbind, M_bind. by rewrite Hq. }
  unfold mbind, M_bind, UnversionedRESTClientFor, load_config. unfold mbind, M_bind. rewrite Hq. cbn [discovery_defaults cf_NegotiatedSerializer].
  destruct (NewRESTClient_run (versioned (discovery_defaults cfg)) (cf_QPS cfg) (cf_Burst cfg)
    (cf_RateLimiter cfg) s1) as (s2 & Hrun & Hg2).
  cbn [discovery_defaults cf_QPS cf_Burst cf_RateLimiter]. rewrite Hrun.
  destruct (make_wire (versioned (discovery_defaults cfg))) as [w|e|]; [|done..]. intros [= <- <-]. cbn [is_ok] in Hg2.
  assert (Hl : limiters s1 = limiters s) by (destruct Hg as [_ ->]; apply app_nil_r). rewrite Hl in *.
  split; [done|]. exact (grows_trans _ _ _ _ _ Hg Hg2).
Qed.

(** The limiters of a client set made with the number [n] free: of its typed
    client, of its discovery client, and those made. *)
Definition set_throttles (c : Config) (n : nat) : option nat * option nat * list (Q * Z) :=
  match cf_RateLimiter c with
  | Some r => (Some r, Some r, [])
  | None =>
      if positive_rate (cf_QPS c) then (Some n, Some n, [(cf_QPS c, cf_Burst c)])
      else if zero_rate (cf_QPS c) then (Some n, None, [(DefaultQPS, default_burst (cf_Burst c))])
      else (None, None, [])
  end.

(** What a caller sees of the limiters of a client set. *)
Definition throttles_are (cs : Clientset) (kv dc : option nat) : Prop :=
  exists k d, KvswitchV1alpha1 (Some cs) = Ok (Some k) /\ Discovery (Some cs) = Some d /\
    rc_Throttle <$> kv_RESTClient (Some k) = Some kv /\ rc_Throttle <$> dc_restClient d = Some dc.

Lemma zero_not_positive q : zero_rate q = true -> positive_rate q = false.
Proof.
  unfold zero_rate, positive_rate. intros Hz%Qeq_bool_iff. apply negb_false_iff, Qle_bool_iff.
  rewrite Hz. apply Qle_refl.
Qed.

(** The shallow copy with its limiter. *)
Definition limited (c : Config) (n : nat) : Config :=
  match cf_RateLimiter c with
  | None => if positive_rate (cf_QPS c) then with_limiter (Some n) c else c
  | Some _ => c
  end.
Definition limited_made (c : Config) : list (Q * Z) :=
  match cf_RateLimiter c with
  | None => if positive_rate (cf_QPS c) then [(cf_QPS c, cf_Burst c)] else []
  | Some _ => []
  end.

(** The typed client and the discovery client of one configuration. *)
Lemma both_run p cfg s kv s1 dc s2 :
  configs s !! p = Some cfg -> kv_NewForConfig p s = (Ok kv, s1) -> NewDiscoveryClientForConfig p s1 = (Ok dc, s2) ->
  let '(t1, m1) := kv_throttle cfg (length (limiters s)) in
  let '(t2, m2) := dc_throttle cfg (length (limiters s) + length m1) in
  throttles_are {| cs_DiscoveryClient := Some dc; cs_kvswitchV1alpha1 := Some kv |} t1 t2 /\ grows s s2 (m1 ++ m2).
Proof.
  intros Hp Hkv Hdc. destruct (kv_run p cfg s kv s1 Hp Hkv) as [Ht1 Hg1].
  assert (Hp1 : configs s1 !! p = Some cfg) by (eapply lookup_weaken; [exact Hp|apply Hg1]).
  destruct (dc_run p cfg s1 dc s2 Hp1 Hdc) as [Ht2 Hg2]. rewrite (proj2 Hg1), length_app in Ht2, Hg2.
  destruct (kv_throttle cfg _) as [t1 m1]. destruct (dc_throttle cfg _) as [t2 m2]. cbn [fst snd] in *.
  split; [|by apply (grows_trans s s1)]. by exists kv, dc.
Qed.

Lemma NewForConfig_run p cfg s cs s' :
  configs s !! p = Some cfg -> NewForConfig p s = (Ok cs, s') ->
  exists q s1 kv s2 dc, grows s s1 (limited_made cfg) /\
    configs s1 !! q = Some (limited cfg (length (limiters s))) /\
    kv_NewForConfig q s1 = (Ok kv, s2) /\ NewDiscoveryClientForConfig q s2 = (Ok dc, s') /\
    cs = {| cs_DiscoveryClient := Some dc; cs_kvswitchV1alpha1 := Some kv |}.
Proof.
  intros Hp. set (q := fresh (dom (configs s))).
  assert (Hq : configs s !! q = None) by apply not_elem_of_dom, is_fresh.
  set (s1 := {| configs := <[q := limited cfg (length (limiters s))]> (configs s);
                limiters := limiters s ++ limited_made cfg |}).
  assert (Hrun : NewForConfig p s =
    (kv ← kv_NewForConfig q; dc ← NewDiscoveryClientForConfig q;
     mret {| cs_DiscoveryClient := Some dc; cs_kvswitchV1alpha1 := Some kv |}) s1).
  { unfold NewForConfig, mbind at 1, M_bind at 1, load_config. rewrite Hp.
    unfold mbind at 1, M_bind at 1, new_config. fold q. subst s1. unfold limited, limited_made.
    destruct (cf_RateLimiter cfg) as [r|]; cbn [app]; [by rewrite app_nil_r|].
    destruct (positive_rate (cf_QPS cfg)); [|by rewrite app_nil_r].
    unfold NewTokenBucketRateLimiter, store_config, mbind, M_bind. cbn. by rewrite insert_insert_eq. }
  rewrite Hrun. unfold mbind, M_bind.
  destruct (kv_NewForConfig q s1) as [[kv|e|] s2] eqn:Hkv; [|done..].
  destruct (NewDiscoveryClientForConfig q s2) as [[dc|e|] s3] eqn:Hdc; [|done..]. intros [= <- <-].
  exists q, s1, kv, s2, dc. split; [split; [by apply insert_subseteq|done]|].
  split; [apply lookup_insert_eq|done].
Qed.

(** Who limits the requests of a client set.  NewForConfig leaves the
    caller's configuration as it is.  A limiter given in it serves both
    clients; with a rate and no limiter the clients share one new limiter of
    exactly that rate and burst, so an unset burst, which the configuration
    documents as 10, is a burst of 0; without a rate the typed client gets the
    defaults to itself and the discovery client no limit.  NewForConfigOrDie
    does the same, except that with a rate each client gets a limiter of its
    own, the discovery client's with the burst as given. *)
Theorem NewForConfig_limits p cfg s cs s' :
  configs s !! p = Some cfg ->
  let n := length (limiters s) in
  (NewForConfig p s = (Ok cs, s') ->
     configs s' !! p = Some cfg /\
     let '(kv, dc, made) := set_throttles cfg n in throttles_are cs kv dc /\ limiters s' = limiters s ++ made) /\
  (NewForConfigOrDie p s = (Ok cs, s') ->
     configs s' !! p = Some cfg /\
     let '(kv, dc, made) :=
       if bool_decide (cf_RateLimiter cfg = None) && positive_rate (cf_QPS cfg)
       then (Some n, Some (Datatypes.S n),
             [(cf_QPS cfg, default_burst (cf_Burst cfg)); (cf_QPS cfg, cf_Burst cfg)])
       else set_throttles cfg n in
     throttles_are cs kv dc /\ limiters s' = limiters s ++ made).
Proof.
  intros Hp n. split.
  - intros Hrun. destruct (NewForConfig_run p cfg s cs s' Hp Hrun) as (q & s1 & kv & s2 & dc & Hg & Hq & Hkv & Hdc & ->).
    pose proof (both_run q _ s1 kv s2 dc s' Hq Hkv Hdc) as Hboth.
    assert (Hgrow : forall m, grows s1 s' m -> configs s' !! p = Some cfg /\ limiters s' = limiters s ++ limited_made cfg ++ m).
    { intros m Hm. destruct (grows_trans _ _ _ _ _ Hg Hm) as [Hc Hl]. split; [by apply (lookup_weaken (configs s))|done]. }
    revert Hboth. rewrite (proj2 Hg), length_app. fold n. unfold set_throttles, limited, limited_made, kv_throttle, dc_throttle, throttle_of in *.
    destruct (cf_RateLimiter cfg) as [r|] eqn:Hr; [rewrite ?Hr; cbn; intros [Ht [Hc Hl]%Hgrow]; by split|].
    destruct (positive_rate (cf_QPS cfg)) eqn:Hpos; [cbn; intros [Ht [Hc Hl]%Hgrow]; by split|].
    rewrite Hr. unfold default_rate. destruct (zero_rate (cf_QPS cfg)) eqn:Hz.
    + rewrite Hpos. cbn. rewrite Nat.add_0_r. intros [Ht [Hc Hl]%Hgrow]. by split.
    + rewrite Hpos. cbn. intros [Ht [Hc Hl]%Hgrow]. by split.
  - unfold NewForConfigOrDie, kv_NewForConfigOrDie, NewDiscoveryClientForConfigOrDie, or_die, mbind, M_bind.
    destruct (kv_NewForConfig p s) as [[kv|e|] s1] eqn:Hkv; [|done..].
    destruct (NewDiscoveryClientForConfig p s1) as [[dc|e|] s2] eqn:Hdc; [|done..]. intros [= <- <-].
    pose proof (both_run p cfg s kv s1 dc s2 Hp Hkv Hdc) as Hboth.
    assert (Hgrow : forall m, grows s s2 m -> configs s2 !! p = Some cfg /\ limiters s2 = limiters s ++ m).
    { intros m [Hc Hl]. split; [by apply (lookup_weaken (configs s))|done]. }
    revert Hboth. fold n. unfold set_throttles, kv_throttle, dc_throttle, throttle_of, default_rate.
    destruct (cf_RateLimiter cfg) as [r|]; [cbn; intros [Ht [Hc Hl]%Hgrow]; by split|]. cbn [bool_decide andb].
    pose proof (zero_not_positive (cf_QPS cfg)) as Hzp.
    destruct (positive_rate (cf_QPS cfg)) eqn:Hpos, (zero_rate (cf_QPS cfg)) eqn:Hz; rewrite ?Hpos;
      try (by discriminate (Hzp eq_refl)); cbn; rewrite ?Nat.add_1_r; intros [Ht [Hc Hl]%Hgrow]; by split.
Qed.
End clientset.

(** ** Witness *)

(** Twenty requests per second, and the burst left unset. *)
Definition demo_rest_config : Config (Codec := bool) (Rest := unit) :=
  {| cf_Host := "https://10.96.0.1:443"; cf_APIPath := ""; cf_GroupVersion := None; cf_NegotiatedSerializer := None;
     cf_UserAgent := ""; cf_QPS := 20; cf_Burst := 0; cf_RateLimiter := None; cf_Timeout := 0; cf_rest := tt |}.
Definition demo_memory : memory (Codec := bool) (Rest := unit) :=
  {| configs := {[0%nat := demo_rest_config]}; limiters := [] |}.
Definition demo_clients : result (Clientset (Wire := unit)) * memory (Codec := bool) :=
  NewForConfig true false "k-vswitchd/v0" (fun _ => Ok tt) 0 demo_memory.

Lemma demo_clients_made : exists cs s, demo_clients = (Ok cs, s).
Proof. vm_compute. by eexists _, _. Qed.

(** Both clients share a limiter without any burst. *)
Lemma NewForConfig_limits_witness :
  exists cs s, demo_clients = (Ok cs, s) /\ configs s !! 0%nat = Some demo_rest_config /\
    limiters s = [(20%Q, 0%Z)] /\ throttles_are cs (Some 0%nat) (Some 0%nat).
Proof.
  destruct demo_clients_made as (cs & s & Hrun). exists cs, s. split; [exact Hrun|].
  destruct (NewForConfig_limits true false "k-vswitchd/v0" (fun _ => Ok tt) 0 demo_rest_config demo_memory cs s
    ltac:(apply lookup_singleton_eq)) as [H _].
  destruct (H Hrun) as [Hc [Ht Hl]]. exact (conj Hc (conj Hl Ht)).
Defined.
