(* ===== verification/Scheme.v ===== *)
(** * The scheme

    [apis/kvswitch/v1alpha1/register.go] and the generated schemes
    [apis/generated/clientset/versioned/scheme/register.go] and
    [.../fake/register.go], over the registry of apimachinery
    ([runtime/scheme.go]): which Go type a kind of object has, and which kinds
    a type.  Registering panics when it would give a kind two types.  The
    conversion functions and defaults that are registered alongside have no
    effect on these tables and are left out. *)
From S2P Require Import Prelude.

(** [schema.GroupVersion], [schema.GroupVersionKind], [schema.GroupKind] and
    [schema.GroupResource]. *)
Record GroupVersion := GV { gv_Group : string; gv_Version : string }.
Record GroupVersionKind := GVK { gvk_Group : string; gvk_Version : string; gvk_Kind : string }.
Definition GroupKind : Type := string * string.
Definition GroupResource : Type := string * string.

Definition WithKind (gv : GroupVersion) (kind : string) : GroupVersionKind :=
  GVK (gv_Group gv) (gv_Version gv) kind.
Definition to_GroupVersion (k : GroupVersionKind) : GroupVersion := GV (gvk_Group k) (gvk_Version k).

(** A Go struct type: package path and name. *)
Record rtype := RType { t_Pkg : string; t_Name : string }.

#[export] Instance gv_eq_dec : EqDecision GroupVersion.
Proof. solve_decision. Defined.
#[export] Instance gvk_eq_dec : EqDecision GroupVersionKind.
Proof. solve_decision. Defined.
#[export] Instance gvk_countable : Countable GroupVersionKind.
Proof.
  by apply (inj_countable' (fun k => (gvk_Group k, gvk_Version k, gvk_Kind k)) (fun '(g, v, k) => GVK g v k)); intros [].
Defined.
#[export] Instance rtype_eq_dec : EqDecision rtype.
Proof. solve_decision. Defined.
#[export] Instance rtype_countable : Countable rtype.
Proof. by apply (inj_countable' (fun t => (t_Pkg t, t_Name t)) (fun '(p, n) => RType p n)); intros []. Defined.

(** ** The registry *)

Definition APIVersionInternal : string := "__internal".

Record Scheme := {
  gvkToType : gmap GroupVersionKind rtype;
  typeToGVK : gmap rtype (list GroupVersionKind);
  unversionedTypes : gmap rtype GroupVersionKind;
  unversionedKinds : gmap string rtype;
  observedVersions : list GroupVersion
}.

Definition NewScheme : Scheme :=
  {| gvkToType := ∅; typeToGVK := ∅; unversionedTypes := ∅; unversionedKinds := ∅; observedVersions := [] |}.

Definition addObservedVersion (version : GroupVersion) : M Scheme unit := modify (fun s =>
  if bool_decide (gv_Version version = "") || bool_decide (gv_Version version = APIVersionInternal)
     || bool_decide (version ∈ observedVersions s) then s
  else {| gvkToType := gvkToType s; typeToGVK := typeToGVK s; unversionedTypes := unversionedTypes s;
          unversionedKinds := unversionedKinds s; observedVersions := observedVersions s ++ [version] |}).

Definition AddKnownTypeWithName (gvk : GroupVersionKind) (t : rtype) : M Scheme unit :=
  _ ← addObservedVersion (to_GroupVersion gvk);
  if bool_decide (gvk_Version gvk = "") then panic else
  s ← gets id;
  if match gvkToType s !! gvk with Some old => negb (bool_decide (old = t)) | None => false end then panic else
  let known := default [] (typeToGVK s !! t) in
  modify (fun s =>
    {| gvkToType := <[gvk := t]> (gvkToType s);
       typeToGVK := if bool_decide (gvk ∈ known) then typeToGVK s else <[t := known ++ [gvk]]> (typeToGVK s);
       unversionedTypes := unversionedTypes s; unversionedKinds := unversionedKinds s;
       observedVersions := observedVersions s |}).

Definition AddKnownTypes (gv : GroupVersion) (types : list rtype) : M Scheme unit :=
  _ ← addObservedVersion gv;
  for_range types (fun t => AddKnownTypeWithName (WithKind gv (t_Name t)) t).

Definition AddUnversionedTypes (version : GroupVersion) (types : list rtype) : M Scheme unit :=
  _ ← addObservedVersion version;
  _ ← AddKnownTypes version types;
  for_range types (fun t =>
    let gvk := WithKind version (t_Name t) in
    _ ← modify (fun s =>
      {| gvkToType := gvkToType s; typeToGVK := typeToGVK s; unversionedTypes := <[t := gvk]> (unversionedTypes s);
         unversionedKinds := unversionedKinds s; observedVersions := observedVersions s |});
    s ← gets id;
    if match unversionedKinds s !! t_Name t with Some old => negb (bool_decide (old = t)) | None => false end
    then panic
    else modify (fun s =>
      {| gvkToType := gvkToType s; typeToGVK := typeToGVK s; unversionedTypes := unversionedTypes s;
         unversionedKinds := <[t_Name t := t]> (unversionedKinds s); observedVersions := observedVersions s |})).

(** [scheme.ObjectKinds(obj)] of an object of type [t], and [scheme.New]. *)
Definition ObjectKinds (s : Scheme) (t : rtype) : result (list GroupVersionKind) :=
  match typeToGVK s !! t with
  | Some gvks => Ok gvks
  | None => Err (ErrNew ("no kind is registered for the type " +:+ t_Name t))
  end.
Definition Scheme_New (s : Scheme) (kind : GroupVersionKind) : result rtype :=
  match gvkToType s !! kind, unversionedKinds s !! gvk_Kind kind with
  | Some t, _ => Ok t
  | None, Some t => Ok t
  | None, None => Err (ErrNew ("no kind " +:+ gvk_Kind kind +:+ " is registered"))
  end.

(** [SchemeBuilder.AddToScheme]. *)
Definition builder_AddToScheme (sb : list (M Scheme unit)) : M Scheme unit := for_range sb (fun f => f).

(** [utilruntime.Must]. *)
Definition Must (m : M Scheme unit) : M Scheme unit := fun s =>
  match m s with (Err _, s') => (Panic, s') | other => other end.

(** ** The meta types *)

Definition meta_pkg : string := "k8s.io/apimachinery/pkg/apis/meta/v1".
Definition meta_type (name : string) : rtype := RType meta_pkg name.
Definition Unversioned : GroupVersion := GV "" "v1".
Definition WatchEventKind : string := "WatchEvent".

Definition AddToGroupVersion (groupVersion : GroupVersion) : M Scheme unit :=
  _ ← AddKnownTypeWithName (WithKind groupVersion WatchEventKind) (meta_type "WatchEvent");
  _ ← AddKnownTypeWithName (WithKind (GV (gv_Group groupVersion) APIVersionInternal) WatchEventKind)
        (meta_type "InternalEvent");
  _ ← AddKnownTypes groupVersion
        (meta_type <$> ["ListOptions"; "ExportOptions"; "GetOptions"; "DeleteOptions"; "CreateOptions";
                        "UpdateOptions"; "PatchOptions"]);
  AddUnversionedTypes Unversioned
    (meta_type <$> ["Status"; "APIVersions"; "APIGroupList"; "APIGroup"; "APIResourceList"]).

(** ** The API group *)

Definition GroupName : string := "kvswitch.io".
Definition SchemeGroupVersion : GroupVersion := GV GroupName "v1alpha1".
Definition Kind (kind : string) : GroupKind :=
  let k := WithKind SchemeGroupVersion kind in (gvk_Group k, gvk_Kind k).
Definition Resource (resource : string) : GroupResource := (gv_Group SchemeGroupVersion, resource).

Definition v1alpha1_pkg : string := "github.com/k-vswitch/k-vswitch/apis/kvswitch/v1alpha1".
Definition VSwitchConfig_type : rtype := RType v1alpha1_pkg "VSwitchConfig".
Definition VSwitchConfigList_type : rtype := RType v1alpha1_pkg "VSwitchConfigList".

Definition addKnownTypes : M Scheme unit :=
  _ ← AddKnownTypes SchemeGroupVersion [VSwitchConfig_type; VSwitchConfigList_type];
  AddToGroupVersion SchemeGroupVersion.

Definition SchemeBuilder : list (M Scheme unit) := [addKnownTypes].
Definition v1alpha1_AddToScheme : M Scheme unit := builder_AddToScheme SchemeBuilder.

(** The generated schemes: the builder and [init] of the package [scheme], and
    those of the package [fake], which are the same code. *)
Definition localSchemeBuilder : list (M Scheme unit) := [v1alpha1_AddToScheme].
Definition AddToScheme : M Scheme unit := builder_AddToScheme localSchemeBuilder.
Definition scheme_init : M Scheme unit :=
  _ ← AddToGroupVersion (GV "" "v1"); Must AddToScheme.

Definition fake_localSchemeBuilder : list (M Scheme unit) := [v1alpha1_AddToScheme].
Definition fake_AddToScheme : M Scheme unit := builder_AddToScheme fake_localSchemeBuilder.
Definition fake_init : M Scheme unit :=
  _ ← AddToGroupVersion (GV "" "v1"); Must fake_AddToScheme.

(** The package variables [Scheme] and [scheme] after [init]. *)
Definition client_scheme : Scheme := (scheme_init NewScheme).2.
Definition fake_scheme : Scheme := (fake_init NewScheme).2.

(** ** The tables agree *)

(** The two tables are each other's inverse, no type lists a kind twice, and
    no kind lacks a version. *)
Record scheme_ok (s : Scheme) : Prop := {
  ok_inverse k t : gvkToType s !! k = Some t <-> k ∈ default [] (typeToGVK s !! t);
  ok_nodup t : NoDup (default [] (typeToGVK s !! t));
  ok_version k t : gvkToType s !! k = Some t -> gvk_Version k <> ""
}.

Lemma scheme_ok_new : scheme_ok NewScheme.
Proof.
  split; cbn.
  - intros k t. rewrite !lookup_empty. cbn. split; [done|]. by intros ?%elem_of_nil.
  - intros t. rewrite lookup_empty. constructor.
  - intros k t. by rewrite lookup_empty.
Qed.

(** A step that keeps the tables in agreement, forgets no kind and returns no
    error. *)
Definition registers (m : M Scheme unit) : Prop :=
  forall s, scheme_ok s ->
    scheme_ok (m s).2 /\ gvkToType s ⊆ gvkToType (m s).2 /\ is_err (m s).1 = false.

(** The two tables are unchanged. *)
Definition same_tables (s s' : Scheme) : Prop := gvkToType s' = gvkToType s /\ typeToGVK s' = typeToGVK s.
Lemma same_tables_ok s s' : same_tables s s' -> scheme_ok s -> scheme_ok s'.
Proof.
  intros [Hg Ht] [Hi Hn Hv]. split.
  - intros k t. rewrite Hg, Ht. apply Hi.
  - intros t. rewrite Ht. apply Hn.
  - intros k t. rewrite Hg. apply Hv.
Qed.

Lemma registers_modify f : (forall s, same_tables s (f s)) -> registers (modify f).
Proof.
  intros Hf s Hs. cbn. split; [by apply (same_tables_ok s)|]. split; [|done]. destruct (Hf s) as [-> _]. done.
Qed.

Lemma registers_bind {A} (m : M Scheme A) (k : A -> M Scheme unit) :
  (forall s, scheme_ok s -> scheme_ok (m s).2 /\ gvkToType s ⊆ gvkToType (m s).2 /\ is_err (m s).1 = false) ->
  (forall a, registers (k a)) -> registers (m ≫= k).
Proof.
  intros Hm Hk s Hs. destruct (Hm s Hs) as (H1 & H2 & H3). unfold mbind, M_bind.
  destruct (m s) as [[a|e|] s1]; [|done..]. destruct (Hk a s1 H1) as (H4 & H5 & H6).
  split; [done|]. split; [|done]. by transitivity (gvkToType s1).
Qed.

Lemma registers_panic : registers panic.
Proof. by intros s Hs. Qed.
Lemma registers_gets (k : Scheme -> M Scheme unit) : (forall a, registers (k a)) -> registers (s ← gets id; k s).
Proof. intros Hk. by apply registers_bind. Qed.

Lemma registers_for_range {A} (l : list A) (f : A -> M Scheme unit) :
  (forall a, registers (f a)) -> registers (for_range l f).
Proof.
  intros Hf. induction l as [|a l IH]; [by intros s Hs|]. cbn [for_range]. apply registers_bind; [apply Hf|done].
Qed.

Lemma registers_observed v : registers (addObservedVersion v).
Proof. apply registers_modify. intros s. by case_match. Qed.

Lemma registers_known gvk t : registers (AddKnownTypeWithName gvk t).
Proof.
  unfold AddKnownTypeWithName. apply registers_bind; [apply registers_observed|]. intros _.
  case_bool_decide as Hv; [apply registers_panic|]. intros s Hs. unfold mbind, M_bind, gets, id.
  destruct (gvkToType s !! gvk) as [old|] eqn:Hold.
  - case_bool_decide as Ht; cbn [negb]; [|done]. subst old. cbn.
    assert (Hin : gvk ∈ default [] (typeToGVK s !! t)) by by apply (ok_inverse s Hs).
    rewrite bool_decide_eq_true_2 by done. split; [|split; [|done]].
    + apply (same_tables_ok s); [|done]. split; [by apply insert_id|done].
    + cbn. by rewrite insert_id.
  - cbn. assert (Hnin : gvk ∉ default [] (typeToGVK s !! t)).
    { intros Hin. apply (ok_inverse s Hs) in Hin. congruence. }
    rewrite bool_decide_eq_false_2 by done. split; [|split; [by apply insert_subseteq|done]].
    split; cbn.
    + intros k u. destruct (decide (t = u)) as [<-|Hne].
      * rewrite lookup_insert_eq. cbn. rewrite elem_of_app, list_elem_of_singleton.
        destruct (decide (gvk = k)) as [<-|Hk]; [rewrite lookup_insert_eq; naive_solver|].
        rewrite lookup_insert_ne by done. rewrite (ok_inverse s Hs). split; [by left|by intros [|Heq]; [|by rewrite Heq in Hk]].
      * rewrite (lookup_insert_ne (typeToGVK s)) by done.
        destruct (decide (gvk = k)) as [<-|Hk]; [rewrite lookup_insert_eq|by rewrite lookup_insert_ne, (ok_inverse s Hs)].
        rewrite <- (ok_inverse s Hs), Hold. naive_solver.
    + intros u. destruct (decide (t = u)) as [<-|Hne]; [|rewrite lookup_insert_ne by done; apply (ok_nodup s Hs)].
      rewrite lookup_insert_eq. cbn. apply NoDup_app. split; [apply (ok_nodup s Hs)|].
      split; [|apply NoDup_singleton]. intros k Hk ->%list_elem_of_singleton. done.
    + intros k u. rewrite lookup_insert_Some. intros [[<- _]|[_ Hk]]; [done|by apply (ok_version s Hs k u)].
Qed.

Lemma registers_types gv ts : registers (AddKnownTypes gv ts).
Proof.
  unfold AddKnownTypes. apply registers_bind; [apply registers_observed|]. intros _.
  apply registers_for_range. intros t. apply registers_known.
Qed.

Lemma registers_unversioned gv ts : registers (AddUnversionedTypes gv ts).
Proof.
  unfold AddUnversionedTypes. apply registers_bind; [apply registers_observed|]. intros _.
  apply registers_bind; [apply registers_types|]. intros _. apply registers_for_range. intros t.
  apply registers_bind; [by apply registers_modify|]. intros _. apply registers_gets. intros s.
  case_match; [apply registers_panic|by apply registers_modify].
Qed.

Lemma registers_group gv : registers (AddToGroupVersion gv).
Proof.
  unfold AddToGroupVersion. apply registers_bind; [apply registers_known|intros _].
  apply registers_bind; [apply registers_known|intros _].
  apply registers_bind; [apply registers_types|intros _]. apply registers_unversioned.
Qed.

Lemma registers_one (m : M Scheme unit) : registers m -> registers (builder_AddToScheme [m]).
Proof. intros Hm. apply registers_bind; [apply Hm|intros _]. by intros s Hs. Qed.

Lemma registers_AddToScheme : registers AddToScheme.
Proof.
  apply registers_one, registers_one. apply registers_bind; [apply registers_types|intros _].
  apply registers_group.
Qed.

(** The kinds a registration of [ts] under [gv] leaves. *)
Lemma known_registered gvk t s s' : AddKnownTypeWithName gvk t s = (Ok tt, s') -> gvkToType s' !! gvk = Some t.
Proof.
  unfold AddKnownTypeWithName, mbind, M_bind, addObservedVersion, modify, gets, id. case_bool_decide; [done|].
  repeat case_match; try done; intros [= <-]; apply lookup_insert_eq.
Qed.

Lemma types_registered gv ts : forall s s',
  scheme_ok s -> for_range ts (fun t => AddKnownTypeWithName (WithKind gv (t_Name t)) t) s = (Ok tt, s') ->
  forall t, t ∈ ts -> gvkToType s' !! WithKind gv (t_Name t) = Some t.
Proof.
  induction ts as [|u ts IH]; intros s s' Hs Hrun t Ht; [by apply elem_of_nil in Ht|].
  cbn [for_range] in Hrun. apply bind_Ok_inv in Hrun as ([] & s1 & Hu & Hrun).
  destruct (registers_known (WithKind gv (t_Name u)) u s Hs) as (Hs1 & _ & _). rewrite Hu in Hs1.
  apply elem_of_cons in Ht as [->|Ht]; [|by apply (IH s1)].
  apply known_registered in Hu. eapply lookup_weaken; [exact Hu|].
  pose proof (registers_for_range ts _ (fun t => registers_known (WithKind gv (t_Name t)) t) s1 Hs1) as (_ & Hsub & _).
  by rewrite Hrun in Hsub.
Qed.

(** ** Properties *)


(** ** The two schemes *)

Lemma init_returns : (scheme_init NewScheme).1 = Ok tt /\ (fake_init NewScheme).1 = Ok tt.
Proof. vm_compute. done. Qed.

Example same_scheme : client_scheme = fake_scheme.
Proof. reflexivity. Qed.

Lemma fake_scheme_ok : scheme_ok fake_scheme.
Proof.
  assert (registers fake_init) as Hr.
  { apply registers_bind; [apply registers_group|intros _]. intros s Hs. unfold Must.
    pose proof (registers_AddToScheme s Hs) as (H1 & H2 & H3). change fake_AddToScheme with AddToScheme.
    by destruct (AddToScheme s) as [[[]|e|] s']. }
  pose proof (Hr NewScheme scheme_ok_new) as [H _]. exact H.
Qed.

#[export] Instance Scheme_eq_dec : EqDecision Scheme.
Proof. solve_decision. Defined.

(** Registering the group again, as a client that composes schemes may, changes
    nothing. *)
Lemma AddToScheme_again : is_ok (AddToScheme client_scheme).1 = true.
Proof. vm_compute. reflexivity. Qed.
Lemma AddToScheme_same : (AddToScheme client_scheme).2 = client_scheme.
Proof. apply (bool_decide_eq_true_1 (_ = _)). vm_compute. reflexivity. Qed.

