(* ===== verification/FakeClient.v ===== *)
(** * The fake client

    [apis/generated/clientset/versioned/fake/clientset_generated.go] and
    [typed/kvswitch/v1alpha1/fake]: a client set for tests, which answers from an
    object tracker in memory instead of an API server, over the tracker and the
    reaction chain of [client-go/testing] ([fixture.go], [fake.go]).

    The tracker deep-copies what it stores and what it returns ([DeepCopy]), so
    objects are values here.  [fake_step] states that the tracker is a map from
    names to configs, and that a watcher sees the changes of that map. *)
From S2P Require Import Prelude GoStrings Objects Labels Scheme.

(** ** Objects and actions *)

(** [schema.GroupVersionResource]. *)
Record GVResource := GVR { gvr_Group : string; gvr_Version : string; gvr_Resource : string }.
#[export] Instance gvr_eq_dec : EqDecision GVResource.
Proof. solve_decision. Defined.
#[export] Instance gvr_countable : Countable GVResource.
Proof.
  by apply (inj_countable' (fun r => (gvr_Group r, gvr_Version r, gvr_Resource r)) (fun '(g, v, k) => GVR g v k)); intros [].
Defined.

(** A config with the metadata the tracker and the client look at. *)
Record object := { ob_Namespace : string; ob_Labels : labels_map; ob_config : VSwitchConfig }.
Definition ob_Name (o : object) : string := vsc_Name (ob_config o).

(** A [runtime.Object] of the group: a config or a list of configs. *)
Inductive robject :=
| RConfig (o : object)
| RConfigList (os : list object).

(** [metav1.ListOptions]. *)
Record FakeListOptions := { fl_LabelSelector : string; fl_FieldSelector : string }.

(** The actions of [testing/actions.go] that the client makes; they are all in
    the root namespace. *)
Inductive action :=
| GetAction (r : GVResource) (name : string)
| ListAction (r : GVResource) (kind : GroupVersionKind) (opts : FakeListOptions)
| WatchAction (r : GVResource) (opts : FakeListOptions)
| CreateAction (r : GVResource) (o : object)
| UpdateAction (r : GVResource) (o : object)
| DeleteAction (r : GVResource) (name : string)
| DeleteCollectionAction (r : GVResource) (opts : FakeListOptions)
| PatchAction (r : GVResource) (name patchType data : string) (subresources : list string).

Definition GetVerb (a : action) : string :=
  match a with
  | GetAction _ _ => "get" | ListAction _ _ _ => "list" | WatchAction _ _ => "watch"
  | CreateAction _ _ => "create" | UpdateAction _ _ => "update" | DeleteAction _ _ => "delete"
  | DeleteCollectionAction _ _ => "delete-collection" | PatchAction _ _ _ _ _ => "patch"
  end.
Definition GetResource (a : action) : GVResource :=
  match a with
  | GetAction r _ | ListAction r _ _ | WatchAction r _ | CreateAction r _ | UpdateAction r _
  | DeleteAction r _ | DeleteCollectionAction r _ | PatchAction r _ _ _ _ => r
  end.
Definition GetNamespace (a : action) : string := "".

(** A Go pair of an object, possibly nil, and an error, possibly nil. *)
Definition answer : Type := option robject * option goerr.

(** ** Watchers *)

Inductive wevent := Added (o : object) | Modified (o : object) | Deleted (o : object).

(** [watch.RaceFreeFakeWatcher]: what was sent into its channel, and how much of
    it has been received. *)
Record watcher := { w_Stopped : bool; w_sent : list wevent; w_read : nat }.
Definition DefaultChanSize : nat := 100.

(** ** The tracker *)

Record tracker := {
  tr_objects : gmap GVResource (list object);
  tr_watchers : gmap GVResource (gmap string (list nat));
  tr_channels : gmap nat watcher
}.

Definition NewObjectTracker : tracker := {| tr_objects := ∅; tr_watchers := ∅; tr_channels := ∅ |}.

Definition set_objects (r : GVResource) (os : list object) : M tracker unit := modify (fun t =>
  {| tr_objects := <[r := os]> (tr_objects t); tr_watchers := tr_watchers t; tr_channels := tr_channels t |}).

Definition id_tracker (t : tracker) : tracker := t.
Definition set_channels (cs : gmap nat watcher) (t : tracker) : tracker :=
  {| tr_objects := tr_objects t; tr_watchers := tr_watchers t; tr_channels := cs |}.

(** What a send leaves in a watcher's channel: a stopped watcher takes nothing. *)
Definition deliver (e : wevent) (w : watcher) : watcher :=
  if w_Stopped w then w else {| w_Stopped := false; w_sent := w_sent w ++ [e]; w_read := w_read w |}.
Definition unread (w : watcher) : nat := length (w_sent w) - w_read w.

(** [w.Add(obj)] and the like: a full channel panics. *)
Definition send (e : wevent) (id : nat) : M tracker unit :=
  t ← gets id_tracker;
  match tr_channels t !! id with
  | None => panic
  | Some w =>
      if w_Stopped w || (unread w <? DefaultChanSize)%nat
      then modify (set_channels (<[id := deliver e w]> (tr_channels t)))
      else panic
  end.

Definition getWatches (t : tracker) (r : GVResource) (ns : string) : list nat :=
  match tr_watchers t !! r with
  | None => []
  | Some ws =>
      default [] (ws !! ns) ++ (if bool_decide (ns = "") then [] else default [] (ws !! ""))
  end.

Definition NotFound {A} (name : string) : result A := Err (ErrNotFound name).
Definition AlreadyExists {A} (name : string) : result A := Err (ErrExt (name +:+ " already exists")).

Definition same_object (ns name : string) (o : object) : bool :=
  bool_decide (ob_Namespace o = ns) && bool_decide (ob_Name o = name).

(** [filterByNamespaceAndName]. *)
Definition filterByNamespaceAndName (objs : list object) (ns name : string) : list object :=
  List.filter (fun o => (bool_decide (ns = "") || bool_decide (ob_Namespace o = ns)) &&
                        (bool_decide (name = "") || bool_decide (ob_Name o = name))) objs.

(** The object the loop of [add] and [Delete] stops at. *)
Fixpoint find_index (p : object -> bool) (os : list object) : option nat :=
  match os with
  | [] => None
  | o :: os' => if p o then Some O else Datatypes.S <$> find_index p os'
  end.

Definition tracker_add (r : GVResource) (obj : object) (ns : string) (replaceExisting : bool) : M tracker unit :=
  let obj := if bool_decide (ob_Namespace obj = "")
             then {| ob_Namespace := ns; ob_Labels := ob_Labels obj; ob_config := ob_config obj |} else obj in
  if negb (bool_decide (ns = ob_Namespace obj))
  then throw (ErrNew "request namespace does not match object namespace") else
  t ← gets id_tracker;
  let objs := default [] (tr_objects t !! r) in
  match find_index (same_object (ob_Namespace obj) (ob_Name obj)) objs with
  | Some i =>
      if replaceExisting
      then _ ← for_range (getWatches t r ns) (send (Modified obj)); set_objects r (<[i := obj]> objs)
      else lift (AlreadyExists (ob_Name obj))
  | None =>
      if replaceExisting then lift (NotFound (ob_Name obj))
      else _ ← set_objects r (objs ++ [obj]); for_range (getWatches t r ns) (send (Added obj))
  end.

Definition tracker_Create r obj ns := tracker_add r obj ns false.
Definition tracker_Update r obj ns := tracker_add r obj ns true.

Definition tracker_Delete (r : GVResource) (ns name : string) : M tracker unit :=
  t ← gets id_tracker;
  let objs := default [] (tr_objects t !! r) in
  match find_index (same_object ns name) objs with
  | Some i =>
      match objs !! i with
      | Some obj =>
          _ ← set_objects r (take i objs ++ drop (Datatypes.S i) objs);
          for_range (getWatches t r ns) (send (Deleted obj))
      | None => panic
      end
  | None => lift (NotFound name)
  end.

Definition tracker_Get (r : GVResource) (ns name : string) : M tracker object :=
  t ← gets id_tracker;
  match tr_objects t !! r with
  | None => lift (NotFound name)
  | Some objs =>
      match filterByNamespaceAndName objs ns name with
      | [] => lift (NotFound name)
      | [o] => mret o
      | _ => throw (ErrNew "more than one object matched")
      end
  end.

(** [meta.IsListType]: of the types of the scheme, only the list of configs has
    a field [Items]. *)
Definition IsListType (t : rtype) : bool := bool_decide (t = VSwitchConfigList_type).

Definition tracker_List (r : GVResource) (gvk : GroupVersionKind) (ns : string) : M tracker (list object) :=
  let version := if bool_decide (gvk_Version gvk = "") then APIVersionInternal else gvk_Version gvk in
  list ← lift (Scheme_New fake_scheme (GVK (gvk_Group gvk) version (gvk_Kind gvk +:+ "List")));
  if negb (IsListType list) then throw (ErrNew "is not a list type") else
  t ← gets id_tracker;
  match tr_objects t !! r with
  | None => mret []
  | Some objs => mret (filterByNamespaceAndName objs ns "")
  end.

Definition NewRaceFreeFake : watcher := {| w_Stopped := false; w_sent := []; w_read := 0 |}.

Definition tracker_Watch (r : GVResource) (ns : string) : M tracker nat :=
  t ← gets id_tracker;
  let id := fresh (dom (tr_channels t)) in
  let ws := default ∅ (tr_watchers t !! r) in
  _ ← modify (fun t =>
    {| tr_objects := tr_objects t;
       tr_watchers := <[r := <[ns := default [] (ws !! ns) ++ [id]]> ws]> (tr_watchers t);
       tr_channels := <[id := NewRaceFreeFake]> (tr_channels t) |});
  mret id.

(** [meta.UnsafeGuessKindToResource]. *)
Definition UnsafeGuessKindToResource (k : GroupVersionKind) : GVResource :=
  let resource r := GVR (gvk_Group k) (gvk_Version k) r in
  if bool_decide (gvk_Kind k = "") then GVR "" "" "" else
  let singularName := ToLower (gvk_Kind k) in
  if bool_decide (TrimSuffix singularName "endpoints" <> singularName) then resource singularName
  else if bool_decide (TrimSuffix singularName "s" <> singularName) then resource (singularName +:+ "es")
  else if bool_decide (TrimSuffix singularName "y" <> singularName)
       then resource (TrimSuffix singularName "y" +:+ "ies")
  else resource (singularName +:+ "s").

Definition tracker_Add_object (obj : object) : M tracker unit :=
  gvks ← lift (ObjectKinds fake_scheme VSwitchConfig_type);
  if bool_decide (gvks = []) then throw (ErrNew "no registered kinds") else
  for_range gvks (fun gvk =>
    let gvr := UnsafeGuessKindToResource gvk in
    let version := if bool_decide (gvr_Version gvr = APIVersionInternal) then "" else gvr_Version gvr in
    tracker_add (GVR (gvr_Group gvr) version (gvr_Resource gvr)) obj (ob_Namespace obj) false).

(** [tracker.Add] and [addList]; [runtime.DecodeList] leaves decoded objects alone. *)
Definition tracker_Add (obj : robject) : M tracker unit :=
  match obj with
  | RConfigList os => for_range os tracker_Add_object
  | RConfig o => tracker_Add_object o
  end.

(** ** The fake client set *)

Section fake.
(** [labels.Parse], whether [fields.ParseSelector] accepts a selector, and the
    patch libraries: a config encoded, patched and decoded again. *)
Context (labels_Parse : string -> option Selector) (fields_ok : string -> bool).
Context (apply_patch : string -> string -> object -> result object).

Definition JSONPatchType : string := "application/json-patch+json".
Definition MergePatchType : string := "application/merge-patch+json".
Definition StrategicMergePatchType : string := "application/strategic-merge-patch+json".

Definition patched (pt data : string) (old : object) : result object :=
  if bool_decide (pt ∈ [JSONPatchType; MergePatchType; StrategicMergePatchType])
  then apply_patch pt data old else Err (ErrNew "PatchType is not supported").

(** [return true, obj, err] *)
Definition handled (m : M tracker (option robject)) : M tracker (bool * answer) :=
  r ← try_m m; mret (true, match r with inl o => (o, None) | inr e => (None, Some e) end).

Definition ObjectReaction (a : action) : M tracker (bool * answer) :=
  let ns := GetNamespace a in
  let gvr := GetResource a in
  match a with
  | ListAction _ kind _ => handled (os ← tracker_List gvr kind ns; mret (Some (RConfigList os)))
  | GetAction _ name => handled (o ← tracker_Get gvr ns name; mret (Some (RConfig o)))
  | CreateAction _ o =>
      handled (_ ← tracker_Create gvr o ns; o' ← tracker_Get gvr ns (ob_Name o); mret (Some (RConfig o')))
  | UpdateAction _ o =>
      handled (_ ← tracker_Update gvr o ns; o' ← tracker_Get gvr ns (ob_Name o); mret (Some (RConfig o')))
  | DeleteAction _ name => handled (_ ← tracker_Delete gvr ns name; mret None)
  | PatchAction _ name pt data _ =>
      handled (old ← tracker_Get gvr ns name;
               obj ← lift (patched pt data old);
               _ ← tracker_Update gvr obj ns;
               mret (Some (RConfig obj)))
  | WatchAction _ _ | DeleteCollectionAction _ _ =>
      mret (false, (None, Some (ErrNew "no reaction implemented")))
  end.

(** [testing.SimpleReactor] and [testing.SimpleWatchReactor]. *)
Record SimpleReactor := {
  r_Verb : string; r_Resource : string; r_Reaction : action -> M tracker (bool * answer)
}.
Definition Handles (r : SimpleReactor) (a : action) : bool :=
  (bool_decide (r_Verb r = "*") || bool_decide (r_Verb r = GetVerb a)) &&
  (bool_decide (r_Resource r = "*") || bool_decide (r_Resource r = gvr_Resource (GetResource a))).

Record SimpleWatchReactor := {
  wr_Resource : string; wr_Reaction : action -> M tracker (bool * (option nat * option goerr))
}.
Definition WatchHandles (r : SimpleWatchReactor) (a : action) : bool :=
  bool_decide (wr_Resource r = "*") || bool_decide (wr_Resource r = gvr_Resource (GetResource a)).

(** The chains that [NewSimpleClientset] installs; the tracker is in their
    closures. *)
Definition ReactionChain : list SimpleReactor :=
  [{| r_Verb := "*"; r_Resource := "*"; r_Reaction := ObjectReaction |}].
Definition WatchReactionChain : list SimpleWatchReactor :=
  [{| wr_Resource := "*";
      wr_Reaction := fun a => w ← tracker_Watch (GetResource a) (GetNamespace a); mret (true, (Some w, None)) |}].

Record Fake := { f_actions : list action; f_tracker : tracker }.
Definition on_tracker {A} : M tracker A -> M Fake A :=
  zoom f_tracker (fun t f => {| f_actions := f_actions f; f_tracker := t |}).
Definition record_action (a : action) : M Fake unit := modify (fun f =>
  {| f_actions := f_actions f ++ [a]; f_tracker := f_tracker f |}).

Fixpoint react (chain : list SimpleReactor) (a : action) (default : robject) : M Fake answer :=
  match chain with
  | [] => mret (Some default, None)
  | r :: chain' =>
      if negb (Handles r a) then react chain' a default else
      x ← on_tracker (r_Reaction r a);
      if fst x : bool then mret (snd x) else react chain' a default
  end.
Definition Invokes (a : action) (defaultReturnObj : robject) : M Fake answer :=
  _ ← record_action a; react ReactionChain a defaultReturnObj.

Fixpoint react_watch (chain : list SimpleWatchReactor) (a : action) : M Fake (option nat * option goerr) :=
  match chain with
  | [] => mret (None, Some (ErrNew "unhandled watch"))
  | r :: chain' =>
      if negb (WatchHandles r a) then react_watch chain' a else
      x ← on_tracker (wr_Reaction r a);
      if fst x : bool then mret (snd x) else react_watch chain' a
  end.
Definition InvokesWatch (a : action) : M Fake (option nat * option goerr) :=
  _ ← record_action a; react_watch WatchReactionChain a.

(** [NewSimpleClientset]. *)
Definition NewSimpleClientset (objects : list robject) : M Fake unit :=
  on_tracker (for_range objects (fun obj => fun t =>
    match tracker_Add obj t with (Err _, t') => (Panic, t') | other => other end)).
Definition no_Fake : Fake := {| f_actions := []; f_tracker := NewObjectTracker |}.

(** ** [FakeVSwitchConfigs] *)

Definition vswitchconfigsResource : GVResource := GVR "kvswitch.io" "v1alpha1" "vswitchconfigs".
Definition vswitchconfigsKind : GroupVersionKind := GVK "kvswitch.io" "v1alpha1" "VSwitchConfig".

Definition zero_object : object :=
  {| ob_Namespace := ""; ob_Labels := ∅;
     ob_config := {| vsc_Name := "";
       vsc_Spec := {| PodCIDR := ""; ClusterCIDR := ""; ServiceCIDR := ""; OverlayIP := ""; OverlayType := "" |} |} |}.

(** A nil object is returned with the error; another one is asserted to be a config. *)
Definition as_config (x : answer) : M Fake (option object * option goerr) :=
  match x with
  | (None, err) => mret (None, err)
  | (Some (RConfig o), err) => mret (Some o, err)
  | (Some _, _) => panic
  end.

(** [testing.ExtractFromListOptions], which panics at a selector that does not
    parse. *)
Definition ExtractFromListOptions (opts : FakeListOptions) : M Fake Selector :=
  match labels_Parse (fl_LabelSelector opts) with
  | Some label => if fields_ok (fl_FieldSelector opts) then mret label else panic
  | None => panic
  end.

Definition fake_Get (name : string) : M Fake (option object * option goerr) :=
  x ← Invokes (GetAction vswitchconfigsResource name) (RConfig zero_object); as_config x.

Definition fake_List (opts : FakeListOptions) : M Fake (option (list object) * option goerr) :=
  _ ← ExtractFromListOptions opts;
  x ← Invokes (ListAction vswitchconfigsResource vswitchconfigsKind opts) (RConfigList []);
  match x with
  | (None, err) => mret (None, err)
  | (Some (RConfigList items), err) =>
      label ← ExtractFromListOptions opts;
      mret (Some (List.filter (fun item => Selector_Matches label (ob_Labels item)) items), err)
  | (Some _, _) => panic
  end.

Definition fake_Watch (opts : FakeListOptions) : M Fake (option nat * option goerr) :=
  _ ← ExtractFromListOptions opts;
  InvokesWatch (WatchAction vswitchconfigsResource opts).

Definition fake_Create (o : object) : M Fake (option object * option goerr) :=
  x ← Invokes (CreateAction vswitchconfigsResource o) (RConfig zero_object); as_config x.

Definition fake_Update (o : object) : M Fake (option object * option goerr) :=
  x ← Invokes (UpdateAction vswitchconfigsResource o) (RConfig zero_object); as_config x.

Definition fake_Delete (name : string) : M Fake (option goerr) :=
  x ← Invokes (DeleteAction vswitchconfigsResource name) (RConfig zero_object); mret (snd x).

Definition fake_DeleteCollection (opts : FakeListOptions) : M Fake (option goerr) :=
  _ ← ExtractFromListOptions opts;
  x ← Invokes (DeleteCollectionAction vswitchconfigsResource opts) (RConfigList []); mret (snd x).

Definition fake_Patch (name pt data : string) (subresources : list string) : M Fake (option object * option goerr) :=
  x ← Invokes (PatchAction vswitchconfigsResource name pt data subresources) (RConfig zero_object); as_config x.

(** ** The accessors *)

(** The fake [Clientset]: the embedded [Fake] and a discovery client over that
    same [Fake]; [FakeKvswitchV1alpha1] and [FakeVSwitchConfigs] hold pointers
    to it, here its number.  [RESTClient] is a nil pointer. *)
Record FakeDiscovery := { fd_Fake : nat }.
Record FakeKvswitchV1alpha1 := { fk_Fake : nat }.
Record FakeVSwitchConfigs := { fv_Fake : FakeKvswitchV1alpha1 }.
Record FakeClientset := { cs_Fake : nat; cs_discovery : FakeDiscovery }.
Definition fake_Discovery (c : FakeClientset) : FakeDiscovery := cs_discovery c.
Definition fake_KvswitchV1alpha1 (c : FakeClientset) : FakeKvswitchV1alpha1 := {| fk_Fake := cs_Fake c |}.
Definition fake_VSwitchConfigs (c : FakeKvswitchV1alpha1) : FakeVSwitchConfigs := {| fv_Fake := c |}.
Definition fake_RESTClient (c : FakeKvswitchV1alpha1) : option nat := None.

(** ** The calls of a client, and the map they stand for *)

Inductive call :=
| CGet (name : string) | CList (opts : FakeListOptions) | CWatch (opts : FakeListOptions)
| CCreate (o : object) | CUpdate (o : object) | CDelete (name : string)
| CDeleteCollection (opts : FakeListOptions) | CPatch (name pt data : string) (subresources : list string).

Inductive reply :=
| Config (o : option object) (e : option goerr)
| Configs (os : option (list object)) (e : option goerr)
| Watching (w : option nat) (e : option goerr)
| Done (e : option goerr).

Definition step (c : call) : M Fake reply :=
  match c with
  | CGet name => x ← fake_Get name; mret (Config (fst x) (snd x))
  | CList opts => x ← fake_List opts; mret (Configs (fst x) (snd x))
  | CWatch opts => x ← fake_Watch opts; mret (Watching (fst x) (snd x))
  | CCreate o => x ← fake_Create o; mret (Config (fst x) (snd x))
  | CUpdate o => x ← fake_Update o; mret (Config (fst x) (snd x))
  | CDelete name => e ← fake_Delete name; mret (Done e)
  | CDeleteCollection opts => e ← fake_DeleteCollection opts; mret (Done e)
  | CPatch name pt data subs => x ← fake_Patch name pt data subs; mret (Config (fst x) (snd x))
  end.

(** The configs by name. *)
Abbreviation configs := (gmap string object).

Definition not_found (name : string) : reply := Config None (Some (ErrNotFound name)).
Definition updated (o : object) (m : configs) : reply * configs :=
  if bool_decide (ob_Namespace o = "") then
    match m !! ob_Name o with
    | Some _ => (Config (Some o) None, <[ob_Name o := o]> m)
    | None => (not_found (ob_Name o), m)
    end
  else (Config None (Some (ErrNew "request namespace does not match object namespace")), m).
Definition selected (opts : FakeListOptions) (o : object) : bool :=
  match labels_Parse (fl_LabelSelector opts) with
  | Some label => Selector_Matches label (ob_Labels o)
  | None => false
  end.

Definition spec (c : call) (m : configs) : reply * configs :=
  match c with
  | CGet name =>
      (match m !! name with Some o => Config (Some o) None | None => not_found name end, m)
  | CList opts => (Configs (Some (List.filter (selected opts) (map_to_list m).*2)) None, m)
  | CWatch _ => (Watching None None, m)
  | CCreate o =>
      match m !! ob_Name o with
      | Some _ => (Config None (Some (ErrExt (ob_Name o +:+ " already exists"))), m)
      | None => (Config (Some o) None, <[ob_Name o := o]> m)
      end
  | CUpdate o => updated o m
  | CDelete name =>
      match m !! name with
      | Some _ => (Done None, delete name m)
      | None => (Done (Some (ErrNotFound name)), m)
      end
  | CDeleteCollection _ => (Done None, m)
  | CPatch name pt data _ =>
      match m !! name with
      | Some old =>
          match patched pt data old with
          | Ok o => updated o m
          | Err e => (Config None (Some e), m)
          | Panic => (Config None None, m)
          end
      | None => (not_found name, m)
      end
  end.

(** A list is in the order of the tracker, and a watcher is a number. *)
Definition reply_ok (r r' : reply) : Prop :=
  match r, r' with
  | Configs (Some os) e, Configs (Some os') e' => os ≡ₚ os' /\ e = e'
  | Watching (Some _) e, Watching _ e' => e = e'
  | _, _ => r = r'
  end.

(** A call with a name, for configs in the root namespace, whose selectors
    parse and whose patch does not panic. *)
Definition call_ok (c : call) : Prop :=
  match c with
  | CGet name | CDelete name => name <> ""
  | CList opts | CWatch opts | CDeleteCollection opts =>
      is_Some (labels_Parse (fl_LabelSelector opts)) /\ fields_ok (fl_FieldSelector opts) = true
  | CCreate o | CUpdate o => ob_Name o <> "" /\ ob_Namespace o = ""
  | CPatch name pt data _ => name <> "" /\ forall old, apply_patch pt data old <> Panic
  end.

Definition call_action (c : call) : action :=
  let r := vswitchconfigsResource in
  match c with
  | CGet name => GetAction r name | CList opts => ListAction r vswitchconfigsKind opts
  | CWatch opts => WatchAction r opts | CCreate o => CreateAction r o | CUpdate o => UpdateAction r o
  | CDelete name => DeleteAction r name | CDeleteCollection opts => DeleteCollectionAction r opts
  | CPatch name pt data subs => PatchAction r name pt data subs
  end.

(** What a watcher that was told [evs] makes of the configs it knew. *)
Definition replay1 (m : configs) (e : wevent) : configs :=
  match e with
  | Added o | Modified o => <[ob_Name o := o]> m
  | Deleted o => delete (ob_Name o) m
  end.
Definition replay (evs : list wevent) (m : configs) : configs := foldl replay1 m evs.

(** ** The tracker holds a map *)

Definition stored (t : tracker) : list object := default [] (tr_objects t !! vswitchconfigsResource).
Definition watching (t : tracker) : list nat := getWatches t vswitchconfigsResource "".
Definition by_name (os : list object) : configs := list_to_map ((fun o => (ob_Name o, o)) <$> os).

Record tracks (m : configs) (t : tracker) : Prop := {
  tk_ns : Forall (fun o => ob_Namespace o = "") (stored t);
  tk_names : NoDup (ob_Name <$> stored t);
  tk_map : m = by_name (stored t);
  tk_ids : NoDup (watching t);
  tk_open id : id ∈ watching t -> is_Some (tr_channels t !! id)
}.

(** Every watcher has been stopped or has room for one more event. *)
Definition room (t : tracker) : Prop := forall id w,
  tr_channels t !! id = Some w -> w_Stopped w || (unread w <? DefaultChanSize)%nat = true.

Definition told (evs : list wevent) (w : watcher) : watcher :=
  if w_Stopped w then w else {| w_Stopped := false; w_sent := w_sent w ++ evs; w_read := w_read w |}.

(** From [t] to [t'] the map went from [m] to [m'], and the watchers were told
    [evs], which take [m] to [m']. *)
Definition moved (m : configs) (t : tracker) (m' : configs) (t' : tracker) (evs : list wevent) : Prop :=
  tracks m' t' /\ replay evs m = m' /\
  forall id w, id ∈ watching t -> tr_channels t !! id = Some w -> tr_channels t' !! id = Some (told evs w).

Lemma told_nil w : told [] w = w.
Proof. unfold told. destruct w as [[] s r]; cbn; [done|]. by rewrite app_nil_r. Qed.

Lemma moved_still m t : tracks m t -> moved m t m t [].
Proof. intros Ht. split; [done|]. split; [done|]. intros id w _ ->. by rewrite told_nil. Qed.

Lemma send_all e ids : forall t, NoDup ids ->
  (forall id, id ∈ ids -> exists w, tr_channels t !! id = Some w /\
     w_Stopped w || (unread w <? DefaultChanSize)%nat = true) ->
  exists cs, for_range ids (send e) t = (Ok tt, set_channels cs t) /\
    forall id, cs !! id = if bool_decide (id ∈ ids) then told [e] <$> tr_channels t !! id else tr_channels t !! id.
Proof.
  induction ids as [|i ids IH]; intros t Hnd Hopen.
  { exists (tr_channels t). split; [by destruct t|]. intros id. by rewrite bool_decide_eq_false_2 by apply not_elem_of_nil. }
  apply NoDup_cons in Hnd as [Hi Hnd]. destruct (Hopen i) as (w & Hw & Hroom); [by left|].
  set (t1 := set_channels (<[i := deliver e w]> (tr_channels t)) t).
  assert (Hsend : send e i t = (Ok tt, t1)).
  { unfold send, mbind, M_bind, gets, id_tracker. by rewrite Hw, Hroom. }
  assert (Hlook : forall id, id <> i -> tr_channels t1 !! id = tr_channels t !! id) by (intros; by apply lookup_insert_ne).
  destruct (IH t1 Hnd) as (cs & Hrun & Hcs).
  { intros id Hid. rewrite Hlook by (by intros ->). apply Hopen. by right. }
  exists cs. cbn [for_range]. unfold mbind, M_bind. rewrite Hsend, Hrun. split; [done|].
  intros id. rewrite Hcs. destruct (decide (id = i)) as [->|Hne].
  - rewrite bool_decide_eq_false_2 by done. rewrite bool_decide_eq_true_2 by (by left).
    rewrite Hw. apply lookup_insert_eq.
  - rewrite Hlook by done. erewrite bool_decide_ext; [done|]. rewrite elem_of_cons. split; [by right|by intros [|]].
Qed.

(** A change of the stored configs, and the event for it. *)
Lemma moved_send m t m' os e :
  tracks m t -> room t ->
  Forall (fun o => ob_Namespace o = "") os -> NoDup (ob_Name <$> os) -> by_name os = m' -> replay1 m e = m' ->
  let t1 := {| tr_objects := <[vswitchconfigsResource := os]> (tr_objects t);
               tr_watchers := tr_watchers t; tr_channels := tr_channels t |} in
  exists cs, for_range (watching t) (send e) t = (Ok tt, set_channels cs t) /\
    for_range (watching t) (send e) t1 = (Ok tt, set_channels cs t1) /\ moved m t m' (set_channels cs t1) [e].
Proof.
  intros Ht Hroom Hns Hnd Hm He t1.
  assert (Hopen : forall id, id ∈ watching t -> exists w, tr_channels t !! id = Some w /\
    w_Stopped w || (unread w <? DefaultChanSize)%nat = true).
  { intros id Hid. destruct (tk_open m t Ht id Hid) as [w Hw]. exists w. split; [done|]. by apply (Hroom id). }
  destruct (send_all e (watching t) t (tk_ids m t Ht) Hopen) as (cs & Hrun & Hcs).
  destruct (send_all e (watching t) t1 (tk_ids m t Ht) Hopen) as (cs1 & Hrun1 & Hcs1).
  assert (cs1 = cs) as ->. { apply map_eq. intros id. by rewrite Hcs, Hcs1. }
  exists cs. split; [done|]. split; [done|]. split; [|split; [done|]].
  - assert (Hst : stored (set_channels cs t1) = os) by (unfold stored; cbn; by rewrite lookup_insert_eq).
    split; rewrite ?Hst; [done..|by apply (tk_ids m t Ht)|].
    intros id Hid. cbn. rewrite Hcs. change (id ∈ watching t) in Hid. rewrite bool_decide_eq_true_2 by done.
    apply fmap_is_Some. by apply (tk_open m t Ht).
  - intros id w Hid Hw. cbn. rewrite Hcs, bool_decide_eq_true_2 by done. by rewrite Hw.
Qed.

(** The configs are found by name. *)
Lemma find_named os name : Forall (fun o => ob_Namespace o = "") os ->
  match find_index (same_object "" name) os with
  | Some i => exists l1 o l2, os = l1 ++ o :: l2 /\ i = length l1 /\ ob_Name o = name
  | None => Forall (fun o => ob_Name o <> name) os
  end.
Proof.
  induction 1 as [|o os Ho Hos IH]; cbn [find_index]; [constructor|]. unfold same_object at 1.
  rewrite (bool_decide_eq_true_2 (ob_Namespace o = "")) by done. cbn [andb].
  case_bool_decide as Hn; [by exists [], o, os|].
  destruct (find_index (same_object "" name) os) as [i|]; cbn; [|by constructor].
  destruct IH as (l1 & o' & l2 & -> & -> & Ho'). by exists (o :: l1), o', l2.
Qed.

Lemma by_name_None os name : Forall (fun o => ob_Name o <> name) os -> by_name os !! name = None.
Proof.
  intros Hos. apply not_elem_of_list_to_map_1. rewrite <- list_fmap_compose. intros Hin.
  apply list_elem_of_fmap in Hin as (o & Heq & Ho). eapply Forall_forall in Hos; [|exact Ho]. by apply Hos.
Qed.

Lemma by_name_middle l1 o l2 : NoDup (ob_Name <$> l1 ++ o :: l2) ->
  by_name (l1 ++ o :: l2) = <[ob_Name o := o]> (by_name (l1 ++ l2)) /\ by_name (l1 ++ l2) !! ob_Name o = None.
Proof.
  intros Hnd. assert (Hp : l1 ++ o :: l2 ≡ₚ o :: l1 ++ l2) by (symmetry; apply Permutation_middle). split.
  - unfold by_name. rewrite (list_to_map_proper _ ((fun o => (ob_Name o, o)) <$> o :: l1 ++ l2)); [done| |by rewrite Hp].
    rewrite <- list_fmap_compose. exact Hnd.
  - apply by_name_None, Forall_forall. intros o' Ho' Heq. rewrite Hp in Hnd. cbn in Hnd. apply NoDup_cons in Hnd as [Hn _].
    apply Hn. rewrite <- Heq. by apply list_elem_of_fmap_2.
Qed.

Abbreviation R := vswitchconfigsResource (only parsing).

Lemma stored_objects t os : tr_objects t !! R = Some os -> stored t = os.
Proof. intros H. unfold stored. by rewrite H. Qed.

Lemma lookup_stored m t name : tracks m t ->
  match find_index (same_object "" name) (stored t) with
  | Some i => exists l1 o l2, stored t = l1 ++ o :: l2 /\ i = length l1 /\ ob_Name o = name /\
      m = <[name := o]> (by_name (l1 ++ l2)) /\ by_name (l1 ++ l2) !! name = None
  | None => Forall (fun o => ob_Name o <> name) (stored t) /\ m !! name = None
  end.
Proof.
  intros Ht. pose proof (find_named (stored t) name (tk_ns m t Ht)) as Hf.
  destruct (find_index _ _) as [i|].
  - destruct Hf as (l1 & o & l2 & Heq & -> & <-). exists l1, o, l2. rewrite (tk_map m t Ht), Heq.
    pose proof (tk_names m t Ht) as Hnd. rewrite Heq in Hnd. destruct (by_name_middle l1 o l2 Hnd) as [-> ?]. by repeat split.
  - split; [done|]. rewrite (tk_map m t Ht). by apply by_name_None.
Qed.

Lemma root_object o : ob_Namespace o = "" ->
  {| ob_Namespace := ""; ob_Labels := ob_Labels o; ob_config := ob_config o |} = o.
Proof. by destruct o as [ns ls c]; cbn; intros ->. Qed.

(** [add], creating. *)
Lemma tracker_Create_run m t o : tracks m t -> room t -> ob_Namespace o = "" ->
  match m !! ob_Name o with
  | Some _ => tracker_Create R o "" t = (AlreadyExists (ob_Name o), t)
  | None => exists t', tracker_Create R o "" t = (Ok tt, t') /\ moved m t (<[ob_Name o := o]> m) t' [Added o]
  end.
Proof.
  intros Ht Hroom Ho. unfold tracker_Create, tracker_add. rewrite (bool_decide_eq_true_2 (ob_Namespace o = "")) by done.
  rewrite (root_object o Ho). cbv zeta. rewrite Ho. rewrite (bool_decide_eq_true_2 ("" = "")) by done. cbn [negb].
  unfold mbind, M_bind, gets, id_tracker. fold (stored t).
  pose proof (lookup_stored m t (ob_Name o) Ht) as Hl. destruct (find_index _ _) as [i|].
  - destruct Hl as (l1 & o' & l2 & _ & _ & Hn & -> & _). by rewrite lookup_insert_eq.
  - destruct Hl as [Hnew ->]. cbn [set_objects modify].
    assert (Hnd : NoDup (ob_Name <$> stored t ++ [o])).
    { rewrite fmap_app. apply NoDup_app. split; [apply (tk_names m t Ht)|]. split; [|apply NoDup_singleton].
      intros n Hn Hin. apply list_elem_of_singleton in Hin as ->. apply list_elem_of_fmap in Hn as (o' & Heq & Hin).
      eapply Forall_forall in Hnew; [|exact Hin]. by apply Hnew. }
    destruct (moved_send m t (<[ob_Name o := o]> m) (stored t ++ [o]) (Added o) Ht Hroom) as (cs & _ & Hrun & Hmoved);
      [|done| |done|eexists; split; [exact Hrun|exact Hmoved]].
    + apply Forall_app. split; [apply (tk_ns m t Ht)|by constructor].
    + destruct (by_name_middle (stored t) o [] Hnd) as [-> _]. by rewrite app_nil_r, (tk_map m t Ht).
Qed.

(** [add], replacing. *)
Lemma tracker_Update_run m t o : tracks m t -> room t -> ob_Namespace o = "" ->
  match m !! ob_Name o with
  | Some _ => exists t', tracker_Update R o "" t = (Ok tt, t') /\ moved m t (<[ob_Name o := o]> m) t' [Modified o]
  | None => tracker_Update R o "" t = (NotFound (ob_Name o), t)
  end.
Proof.
  intros Ht Hroom Ho. unfold tracker_Update, tracker_add. rewrite (bool_decide_eq_true_2 (ob_Namespace o = "")) by done.
  rewrite (root_object o Ho). cbv zeta. rewrite Ho. rewrite (bool_decide_eq_true_2 ("" = "")) by done. cbn [negb].
  unfold mbind, M_bind, gets, id_tracker. fold (stored t) (watching t).
  pose proof (lookup_stored m t (ob_Name o) Ht) as Hl. pose proof (tk_names m t Ht) as Hnd.
  pose proof (tk_ns m t Ht) as Hns. destruct (find_index _ _) as [i|]; [|by destruct Hl as [_ ->]].
  destruct Hl as (l1 & o' & l2 & Hst & -> & Hn & Hm & Hnone).
  assert (Hin : m !! ob_Name o = Some o') by (rewrite Hm; apply lookup_insert_eq).
  rewrite Hin, Hst, insert_app_r_alt, Nat.sub_diag by done. cbn [insert list_insert].
  rewrite Hst in Hnd, Hns.
  assert (Hnd' : NoDup (ob_Name <$> l1 ++ o :: l2)).
  { rewrite fmap_app in Hnd |- *. cbn in Hnd |- *. by rewrite <- Hn. }
  destruct (moved_send m t (<[ob_Name o := o]> m) (l1 ++ o :: l2) (Modified o) Ht Hroom) as (cs & Hrun & _ & Hmoved);
    [|done| |done|].
  - apply Forall_app in Hns as [H1 H2]. apply Forall_cons in H2 as [_ H2]. apply Forall_app. split; [done|by constructor].
  - destruct (by_name_middle l1 o l2 Hnd') as [-> _]. by rewrite Hm, insert_insert_eq.
  - rewrite Hrun. cbn [set_objects modify]. eexists. split; [reflexivity|exact Hmoved].
Qed.

Lemma tracker_Delete_run m t name : tracks m t -> room t ->
  match m !! name with
  | Some o => exists t', tracker_Delete R "" name t = (Ok tt, t') /\ moved m t (delete name m) t' [Deleted o]
  | None => tracker_Delete R "" name t = (NotFound name, t)
  end.
Proof.
  intros Ht Hroom. unfold tracker_Delete, mbind, M_bind, gets, id_tracker. fold (stored t) (watching t).
  pose proof (lookup_stored m t name Ht) as Hl. pose proof (tk_names m t Ht) as Hnd.
  pose proof (tk_ns m t Ht) as Hns. destruct (find_index _ _) as [i|]; [|by destruct Hl as [_ ->]].
  destruct Hl as (l1 & o & l2 & Hst & -> & Hn & Hm & Hnone).
  assert (Hin : m !! name = Some o) by (rewrite Hm; apply lookup_insert_eq). rewrite Hin.
  assert (Hdel : delete name m = by_name (l1 ++ l2)) by (rewrite Hm; by apply delete_insert_id).
  rewrite Hst in Hnd, Hns. rewrite Hst, list_lookup_middle by done.
  replace (take (length l1) (l1 ++ o :: l2) ++ drop (Datatypes.S (length l1)) (l1 ++ o :: l2)) with (l1 ++ l2)
    by (rewrite take_app_length, (cons_middle o l1 l2), (assoc_L app), drop_app_length'; [done|];
        rewrite length_app; cbn; lia).
  destruct (moved_send m t (delete name m) (l1 ++ l2) (Deleted o) Ht Hroom) as (cs & _ & Hrun & Hmoved);
    [..|eexists; split; [exact Hrun|exact Hmoved]].
  - apply Forall_app in Hns as [H1 H2]. apply Forall_cons in H2 as [_ H2]. by apply Forall_app.
  - rewrite fmap_app in Hnd |- *. cbn in Hnd. apply NoDup_app in Hnd as (H1 & H2 & H3). apply NoDup_cons in H3 as [_ H3].
    apply NoDup_app. split; [done|]. split; [|done]. intros x Hx Hx2. apply (H2 x Hx). by right.
  - done.
  - cbn. by rewrite Hn.
Qed.

Lemma filter_by_name os name : name <> "" ->
  filterByNamespaceAndName os "" name = List.filter (fun o => bool_decide (ob_Name o = name)) os.
Proof.
  intros Hname. apply filter_ext. intros o. by rewrite (bool_decide_eq_false_2 (name = "")) by done.
Qed.

Lemma filter_none os name : Forall (fun o => ob_Name o <> name) os ->
  List.filter (fun o => bool_decide (ob_Name o = name)) os = [].
Proof.
  induction 1 as [|o os Ho Hos IH]; [done|]. cbn [List.filter]. by rewrite bool_decide_eq_false_2.
Qed.

Lemma tracker_Get_run m t name : tracks m t -> name <> "" ->
  tracker_Get R "" name t = (match m !! name with Some o => Ok o | None => NotFound name end, t).
Proof.
  intros Ht Hname. unfold tracker_Get, mbind, M_bind, gets, id_tracker.
  pose proof (lookup_stored m t name Ht) as Hl. pose proof (tk_names m t Ht) as Hnd.
  destruct (tr_objects t !! R) as [objs|] eqn:Hobjs.
  - apply stored_objects in Hobjs. rewrite Hobjs in Hl, Hnd. destruct (find_index _ _) as [i|].
    + destruct Hl as (l1 & o & l2 & -> & -> & Hn & -> & _). rewrite lookup_insert_eq.
      rewrite (fmap_app ob_Name) in Hnd. cbn in Hnd. apply NoDup_app in Hnd as (_ & H1 & H2). apply NoDup_cons in H2 as [H2 _].
      rewrite filter_by_name, List.filter_app by done. cbn [List.filter]. rewrite (bool_decide_eq_true_2 (ob_Name o = name)) by done.
      rewrite (filter_none l1), (filter_none l2); [done|..]; apply Forall_forall; intros o' Ho' Heq.
      * apply H2. change (vsc_Name (ob_config o)) with (ob_Name o). rewrite Hn, <- Heq. by apply list_elem_of_fmap_2.
      * apply (H1 (ob_Name o')); [by apply list_elem_of_fmap_2|]. rewrite Heq, <- Hn. by left.
    + destruct Hl as [Hl ->]. by rewrite filter_by_name, filter_none.
  - unfold stored in Hl. rewrite Hobjs in Hl. by destruct Hl as [_ ->].
Qed.

Lemma list_kind :
  Scheme_New fake_scheme (GVK (gvk_Group vswitchconfigsKind)
    (if bool_decide (gvk_Version vswitchconfigsKind = "") then APIVersionInternal else gvk_Version vswitchconfigsKind)
    (gvk_Kind vswitchconfigsKind +:+ "List")) = Ok VSwitchConfigList_type.
Proof. vm_compute. reflexivity. Qed.

Lemma filter_all os : filterByNamespaceAndName os "" "" = os.
Proof. induction os as [|o os IH]; [done|]. cbn. unfold filterByNamespaceAndName in IH. cbn in IH. by rewrite IH. Qed.

Lemma tracker_List_run t : tracker_List R vswitchconfigsKind "" t = (Ok (stored t), t).
Proof.
  unfold tracker_List, mbind, M_bind. cbv zeta. rewrite list_kind. cbn [lift].
  unfold IsListType. rewrite bool_decide_eq_true_2 by done. cbn [negb]. unfold gets, id_tracker, stored.
  destruct (tr_objects t !! R) as [objs|]; [by rewrite filter_all|done].
Qed.

Lemma stored_listed m t : tracks m t -> stored t ≡ₚ (map_to_list m).*2.
Proof.
  intros Ht. rewrite (tk_map m t Ht). unfold by_name. rewrite map_to_list_to_map.
  - rewrite <- list_fmap_compose. cbn. by rewrite list_fmap_id.
  - rewrite <- list_fmap_compose. apply (tk_names m t Ht).
Qed.

Lemma tracker_Watch_run m t : tracks m t ->
  exists id t', tracker_Watch R "" t = (Ok id, t') /\ moved m t m t' [].
Proof.
  intros Ht. unfold tracker_Watch, mbind, M_bind, gets, id_tracker, modify. cbv zeta.
  set (id := fresh (dom (tr_channels t))). set (ws := default ∅ (tr_watchers t !! R)).
  assert (Hfresh : tr_channels t !! id = None) by (apply not_elem_of_dom; apply is_fresh).
  assert (Hws : default [] (ws !! "") = watching t).
  { unfold watching, getWatches, ws. destruct (tr_watchers t !! R) as [ws0|]; cbn; [by rewrite app_nil_r|].
    by rewrite lookup_empty. }
  eexists id, _. split; [reflexivity|].
  match goal with |- moved _ _ _ ?t' _ => set (t1 := t') end.
  assert (Hwatching : watching t1 = watching t ++ [id]).
  { unfold watching at 1, getWatches, t1. cbn. rewrite lookup_insert_eq, lookup_insert_eq. cbn. by rewrite Hws, app_nil_r. }
  assert (Hnew : id ∉ watching t). { intros Hid. destruct (tk_open m t Ht id Hid) as [w Hw]. congruence. }
  split; [|split; [done|]].
  - split; [apply Ht..| |]; rewrite Hwatching.
    + apply NoDup_app. split; [apply (tk_ids m t Ht)|]. split; [|apply NoDup_singleton].
      intros i Hi Hin. apply list_elem_of_singleton in Hin as ->. done.
    + intros i Hi. cbn. destruct (decide (id = i)) as [<-|Hne]; [rewrite lookup_insert_eq; by eexists|].
      rewrite lookup_insert_ne by done. apply (tk_open m t Ht). apply elem_of_app in Hi as [Hi|Hi]; [done|].
      apply list_elem_of_singleton in Hi. by symmetry in Hi.
  - intros i w Hi Hw. cbn. rewrite lookup_insert_ne, told_nil by (by intros ->). done.
Qed.

(** ** The reaction chain *)

Definition after (f : Fake) (a : action) (t : tracker) : Fake :=
  {| f_actions := f_actions f ++ [a]; f_tracker := t |}.

Lemma Invokes_handled m a d f r t : ObjectReaction a = handled m -> m (f_tracker f) = (r, t) -> r <> Panic ->
  Invokes a d f = (Ok match r with Ok o => (o, None) | Err e => (None, Some e) | Panic => (None, None) end, after f a t).
Proof.
  intros Ha Hm Hr. unfold Invokes, record_action, mbind, M_bind, modify, ReactionChain. cbn [react].
  unfold Handles. cbn [r_Verb r_Resource negb]. rewrite !(bool_decide_eq_true_2 ("*" = "*")) by done. cbn [orb andb negb r_Reaction].
  unfold mbind, M_bind, on_tracker, zoom. rewrite Ha. unfold handled, mbind, M_bind, try_m. cbn [f_tracker f_actions].
  rewrite Hm. by destruct r.
Qed.

(** A call answers and moves the tracker as [x] says, and is recorded. *)
Definition answers (run : M Fake reply) (a : action) (f : Fake) (m : configs) (x : reply * configs) : Prop :=
  exists r f' evs, run f = (Ok r, f') /\ reply_ok r x.1 /\ f_actions f' = f_actions f ++ [a] /\
    moved m (f_tracker f) x.2 (f_tracker f') evs.

Definition config_call (a : action) (d : robject) : M Fake reply :=
  x ← (y ← Invokes a d; as_config y); mret (Config (fst x) (snd x)).

Lemma answers_config op a d f m o t' m' evs :
  ObjectReaction a = handled op -> op (f_tracker f) = (Ok (Some (RConfig o)), t') ->
  moved m (f_tracker f) m' t' evs -> answers (config_call a d) a f m (Config (Some o) None, m').
Proof.
  intros Ha Hop Hm. exists (Config (Some o) None), (after f a t'), evs. split; [|done].
  unfold config_call, mbind, M_bind. erewrite Invokes_handled by (exact Ha || exact Hop || done). reflexivity.
Qed.

Lemma answers_error op a d f m e :
  ObjectReaction a = handled op -> op (f_tracker f) = (Err e, f_tracker f) -> tracks m (f_tracker f) ->
  answers (config_call a d) a f m (Config None (Some e), m).
Proof.
  intros Ha Hop Hm. exists (Config None (Some e)), (after f a (f_tracker f)), [].
  split; [|split; [done|split; [done|by apply moved_still]]].
  unfold config_call, mbind, M_bind. erewrite Invokes_handled by (exact Ha || exact Hop || done). reflexivity.
Qed.

(** An update of the tracker, after which the object is returned. *)
Lemma answers_update op a d f m o :
  tracks m (f_tracker f) -> room (f_tracker f) -> ObjectReaction a = handled op ->
  (forall u t', tracker_Update R o "" (f_tracker f) = (Ok u, t') ->
     tracks (<[ob_Name o := o]> m) t' -> op (f_tracker f) = (Ok (Some (RConfig o)), t')) ->
  (forall e t', tracker_Update R o "" (f_tracker f) = (Err e, t') -> op (f_tracker f) = (Err e, t')) ->
  answers (config_call a d) a f m (updated o m).
Proof.
  intros Ht Hroom Ha Hok Herr. unfold updated. case_bool_decide as Hns.
  - pose proof (tracker_Update_run m _ o Ht Hroom Hns) as Hu. destruct (m !! ob_Name o).
    + destruct Hu as (t' & Hu & Hmoved). eapply answers_config; [exact Ha|by apply (Hok _ _ Hu), Hmoved|exact Hmoved].
    + eapply answers_error; [exact Ha|by apply Herr|done].
  - eapply answers_error; [exact Ha|apply Herr|done].
    unfold tracker_Update, tracker_add. rewrite (bool_decide_eq_false_2 (ob_Namespace o = "")) by done. cbv zeta.
    by rewrite (bool_decide_eq_false_2 ("" = ob_Namespace o)) by (intros E; by symmetry in E).
Qed.

Lemma extracted opts f : is_Some (labels_Parse (fl_LabelSelector opts)) -> fields_ok (fl_FieldSelector opts) = true ->
  exists label, labels_Parse (fl_LabelSelector opts) = Some label /\ ExtractFromListOptions opts f = (Ok label, f).
Proof. intros [label Hl] Hf. exists label. unfold ExtractFromListOptions. by rewrite Hl, Hf. Qed.

Lemma answers_list opts f m : tracks m (f_tracker f) -> call_ok (CList opts) ->
  answers (step (CList opts)) (call_action (CList opts)) f m (spec (CList opts) m).
Proof.
  intros Ht [Hl Hf]. destruct (extracted opts f Hl Hf) as (label & Hlabel & Hx).
  pose (items := List.filter (fun item => Selector_Matches label (ob_Labels item)) (stored (f_tracker f))).
  exists (Configs (Some items) None), (after f (call_action (CList opts)) (f_tracker f)), [].
  split; [|split; [|split; [done|by apply moved_still]]].
  - cbn [step]. unfold fake_List, mbind, M_bind. rewrite Hx.
    erewrite Invokes_handled; [|done|unfold mbind, M_bind; cbn [GetResource]; unfold GetNamespace; by rewrite tracker_List_run|done].
    cbv beta iota. unfold ExtractFromListOptions. by rewrite Hlabel, Hf.
  - cbn [spec fst reply_ok]. split; [|done]. unfold items. rewrite (filter_ext _ (selected opts)).
    + apply filter_perm, (stored_listed m _ Ht).
    + intros o. unfold selected. by rewrite Hlabel.
Qed.

Lemma answers_watch opts f m : tracks m (f_tracker f) -> call_ok (CWatch opts) ->
  answers (step (CWatch opts)) (call_action (CWatch opts)) f m (spec (CWatch opts) m).
Proof.
  intros Ht [Hl Hf]. destruct (extracted opts f Hl Hf) as (label & Hlabel & Hx).
  destruct (tracker_Watch_run m _ Ht) as (id & t' & Hrun & Hmoved).
  exists (Watching (Some id) None), (after f (call_action (CWatch opts)) t'), []. split; [|by split].
  cbn [step]. unfold fake_Watch, mbind, M_bind. rewrite Hx.
  unfold InvokesWatch, record_action, mbind, M_bind, modify, WatchReactionChain. cbn [react_watch].
  unfold WatchHandles. cbn [wr_Resource wr_Reaction]. rewrite (bool_decide_eq_true_2 ("*" = "*")) by done. cbn [orb negb].
  unfold mbind, M_bind, on_tracker, zoom. cbn [f_tracker GetResource]. unfold GetNamespace. by rewrite Hrun.
Qed.

(** Nothing reacts to a delete of a collection: the default answer is returned. *)
Lemma answers_collection opts f m : tracks m (f_tracker f) -> call_ok (CDeleteCollection opts) ->
  answers (step (CDeleteCollection opts)) (call_action (CDeleteCollection opts)) f m (spec (CDeleteCollection opts) m).
Proof.
  intros Ht [Hl Hf]. destruct (extracted opts f Hl Hf) as (label & Hlabel & Hx).
  exists (Done None), (after f (call_action (CDeleteCollection opts)) (f_tracker f)), [].
  split; [|split; [done|split; [done|by apply moved_still]]].
  cbn [step]. unfold fake_DeleteCollection, mbind, M_bind. by rewrite Hx.
Qed.

Lemma answers_delete name f m : tracks m (f_tracker f) -> room (f_tracker f) ->
  answers (step (CDelete name)) (call_action (CDelete name)) f m (spec (CDelete name) m).
Proof.
  intros Ht Hroom. pose proof (tracker_Delete_run m _ name Ht Hroom) as Hd. cbn [spec].
  set (a := call_action (CDelete name)). destruct (m !! name) as [o|].
  - destruct Hd as (t' & Hd & Hmoved). exists (Done None), (after f a t'), [Deleted o]. split; [|by split].
    cbn [step]. unfold fake_Delete, mbind, M_bind.
    erewrite Invokes_handled; [|done|unfold mbind, M_bind; cbn [GetResource]; unfold GetNamespace; by rewrite Hd|done]. done.
  - exists (Done (Some (ErrNotFound name))), (after f a (f_tracker f)), [].
    split; [|split; [done|split; [done|by apply moved_still]]]. cbn [step]. unfold fake_Delete, mbind, M_bind.
    erewrite Invokes_handled; [|done|unfold mbind, M_bind; cbn [GetResource]; unfold GetNamespace; by rewrite Hd|done]. done.
Qed.

(** Unfold what a reaction does to the tracker. *)
Ltac run_op := cbn [GetResource]; unfold GetNamespace; unfold mbind, M_bind.

(** ** Properties *)


End fake.

(** ** The client of a test *)

Lemma config_kinds : ObjectKinds fake_scheme VSwitchConfig_type = Ok [vswitchconfigsKind].
Proof. vm_compute. reflexivity. Qed.

Lemma Add_object_creates o t : ob_Namespace o = "" -> (tracker_Add_object o t).1 = (tracker_Create vswitchconfigsResource o "" t).1
  /\ (tracker_Add_object o t).2 = (tracker_Create vswitchconfigsResource o "" t).2.
Proof.
  intros Ho. unfold tracker_Add_object, mbind, M_bind. rewrite config_kinds. cbn [lift].
  rewrite bool_decide_eq_false_2 by done. cbn [for_range].
  replace (UnsafeGuessKindToResource vswitchconfigsKind) with vswitchconfigsResource by (vm_compute; reflexivity).
  rewrite (bool_decide_eq_false_2 (gvr_Version vswitchconfigsResource = APIVersionInternal)) by done.
  rewrite Ho. unfold mbind, M_bind. change (GVR _ _ _) with vswitchconfigsResource. unfold tracker_Create.
  by destruct (tracker_add vswitchconfigsResource o "" false t) as [[[]|e|] t'].
Qed.

(** With nobody watching, a create touches no channel. *)
Lemma create_quiet m t o t' : tracks m t -> tr_channels t = ∅ ->
  tracker_Create vswitchconfigsResource o "" t = (Ok tt, t') -> tr_channels t' = ∅.
Proof.
  intros Ht Hch. assert (Hw : watching t = []).
  { destruct (watching t) as [|id l] eqn:Hw; [done|]. destruct (tk_open m t Ht id) as [w Hid]; [rewrite Hw; by left|].
    by rewrite Hch, lookup_empty in Hid. }
  unfold watching in Hw. unfold tracker_Create, tracker_add, mbind, M_bind, gets, id_tracker, lift, throw. cbv zeta.
  repeat case_match; try done; rewrite ?Hw; intros [= <-]; unfold set_objects, modify in *; by simplify_eq/=.
Qed.

Lemma add_all os : forall m t, tracks m t -> tr_channels t = ∅ ->
  Forall (fun o => ob_Namespace o = "" /\ m !! ob_Name o = None) os -> NoDup (ob_Name <$> os) ->
  exists t', for_range (RConfig <$> os) (fun obj => fun t =>
      match tracker_Add obj t with (Err _, t') => (Panic, t') | other => other end) t = (Ok tt, t') /\
    tracks (by_name os ∪ m) t' /\ tr_channels t' = ∅.
Proof.
  induction os as [|o os IH]; intros m t Ht Hch Hos Hnd.
  { exists t. split; [done|]. split; [|done]. unfold by_name. cbn. by rewrite (left_id_L ∅ union). }
  apply Forall_cons in Hos as [[Hns Hnew] Hos]. cbn in Hnd. apply NoDup_cons in Hnd as [Hnin Hnd].
  assert (Hroom : room t) by (intros id w; by rewrite Hch, lookup_empty).
  pose proof (tracker_Create_run m t o Ht Hroom Hns) as Hrun. rewrite Hnew in Hrun.
  destruct Hrun as (t1 & Hrun & Ht1 & _ & _).
  assert (Hch1 : tr_channels t1 = ∅) by exact (create_quiet m t o t1 Ht Hch Hrun).
  destruct (Add_object_creates o t Hns) as [H1 H2]. rewrite Hrun in H1, H2.
  destruct (IH (<[ob_Name o := o]> m) t1 Ht1 Hch1) as (t' & Hall & Ht' & Hch').
  - apply Forall_forall. intros o' Ho'. eapply Forall_forall in Hos as [Hns' Hnew']; [|exact Ho']. split; [done|].
    rewrite lookup_insert_ne; [done|]. intros Heq. apply Hnin. rewrite Heq. by apply list_elem_of_fmap_2.
  - done.
  - exists t'. split; [|split; [|done]].
    + cbn [fmap list_fmap for_range]. unfold mbind, M_bind at 1. cbn [tracker_Add].
      destruct (tracker_Add_object o t) as [r t2]. cbn in H1, H2. subst. exact Hall.
    + replace (by_name (o :: os) ∪ m) with (by_name os ∪ <[ob_Name o := o]> m); [done|].
      rewrite <- insert_union_r; [by rewrite insert_union_l|]. apply by_name_None, Forall_forall. intros o' Ho' Heq.
      apply Hnin. rewrite <- Heq. by apply list_elem_of_fmap_2.
Qed.

(** A client made with configs of different names starts with them, and nobody
    watches. *)
Lemma NewSimpleClientset_tracks os :
  Forall (fun o => ob_Namespace o = "") os -> NoDup (ob_Name <$> os) ->
  exists f, NewSimpleClientset (RConfig <$> os) no_Fake = (Ok tt, f) /\
    tracks (by_name os) (f_tracker f) /\ tr_channels (f_tracker f) = ∅.
Proof.
  intros Hns Hnd. destruct (add_all os ∅ NewObjectTracker) as (t' & Hrun & Ht' & Hch).
  - split; [constructor..|done|constructor|]. intros id Hid. by apply elem_of_nil in Hid.
  - done.
  - apply (Forall_impl _ _ _ Hns). intros o Ho. split; [done|apply lookup_empty].
  - done.
  - exists {| f_actions := []; f_tracker := t' |}. split; [|split; [|done]].
    + unfold NewSimpleClientset, on_tracker, zoom. cbn [f_tracker no_Fake]. by rewrite Hrun.
    + by rewrite (right_id_L ∅ union) in Ht'.
Qed.

Definition plain_client (c : call) : M Fake reply :=
  step (fun _ => Some Everything) (fun _ => true) (fun _ _ => Ok) c.
Definition test_config (name : string) : object :=
  {| ob_Namespace := ""; ob_Labels := ∅; ob_config := {| vsc_Name := name;
       vsc_Spec := {| PodCIDR := ""; ClusterCIDR := ""; ServiceCIDR := ""; OverlayIP := ""; OverlayType := "" |} |} |}.
Definition test_client : Fake := (NewSimpleClientset (RConfig <$> [test_config "node-a"]) no_Fake).2.

Lemma test_client_tracks : tracks (by_name [test_config "node-a"]) (f_tracker test_client) /\ room (f_tracker test_client).
Proof.
  destruct (NewSimpleClientset_tracks [test_config "node-a"]) as (f & Hrun & Ht & Hch).
  - by constructor.
  - apply NoDup_singleton.
  - unfold test_client. rewrite Hrun. split; [exact Ht|]. intros id w. cbn. by rewrite Hch, lookup_empty.
Qed.


(** A test that deletes the collection finds the configs still there. *)
Example DeleteCollection_keeps :
  ((_ ← plain_client (CDeleteCollection {| fl_LabelSelector := ""; fl_FieldSelector := "" |});
    plain_client (CGet "node-a")) test_client).1 = Ok (Config (Some (test_config "node-a")) None).
Proof. vm_compute. reflexivity. Qed.
